(* ===== verification/_CoqProject ===== *)
-Q . S2P
Prelude.v
Frame.v
Float.v
Primitives.v
Keys.v
Merkle.v
Traits.v
BridgeRegistry.v
Proposals.v
ProposalHandler.v
ProposalHandlerSpec.v
Metadata.v
MetadataQuorum.v
MetadataSpec.v
MetadataRotation.v
MetadataKeys.v
MetadataPending.v
MetadataSubmission.v
Sessions.v
Runtime.v
RuntimeSpec.v
DebugLogger.v
GadgetTypes.v
Remote.v
WorkManager.v
WorkManagerSpec.v
Client.v
Node.v
Reports.v
ReportsSpec.v
SigningManager.v
SigningManagerSpec.v
KeygenManager.v
Worker.v
WorkerSpec.v
KeygenManagerSpec.v
WorkerReports.v
AsyncProtocol.v
AsyncProtocolSpec.v
VotingStage.v
VotingStageSpec.v
ProtocolTask.v
ProtocolTaskSpec.v
LocalKeys.v
Frost.v
FrostSpec.v
System.v
SystemSpec.v
Gossip.v
GossipSpec.v
GossipNetwork.v
Demo.v
Witnesses.v
GadgetDemo.v
GadgetWitnesses.v
ProtocolWitnesses.v
FrostWitnesses.v
LocalKeyWitnesses.v
SystemWitnesses.v
KeysWitnesses.v
ChainSpec.v
GenesisSpec.v
MockBlockchain.v
MockBlockchainSpec.v
TestOrchestrator.v
TestOrchestratorSpec.v
HarnessWitnesses.v
