(* ===== verification/Prelude.v ===== *)
(** * Verification of dkg-substrate

    dkg-substrate runs a threshold-ECDSA bridge: the validators of a Substrate
    chain jointly hold one key, the chain decides by vote what is to be signed,
    a gadget beside every node generates the key and signs, and the signatures
    come back on chain.  This development models the on-chain half (the four
    pallets, their shared primitives and their composition in the standalone
    runtime) and the gadget (the worker of a node with its managers, the
    aggregation of keys and reports, the gossip engine and a network of nodes),
    the chain specifications of the node and the harness that tests the gadget,
    and proves what makes them correct.

    ** The program and how its parts interact

    On chain:

    - dkg-runtime-primitives (src/dkg-runtime-primitives) has the types, codecs
      and signature checks the rest shares, and the traits through which the
      pallets call each other.
    - pallet-dkg-metadata (src/pallets/dkg-metadata) keeps the current and the
      next key, the authority sets, thresholds, jails and reputations.  Unsigned
      transactions bring keys and misbehaviour reports in; the session pallet
      tells it about new sets; it hands refresh proposals to the proposal
      handler and new authority sets to the voting pallet.
    - pallet-dkg-proposals (src/pallets/dkg-proposals) lets the current proposers
      vote; an approved proposal goes to the proposal handler.
    - pallet-dkg-proposal-handler (src/pallets/dkg-proposal-handler) stages
      proposals, batches them for signing, takes signed batches and notifies the
      bridge registry and the metadata pallet.
    - pallet-bridge-registry (src/pallets/bridge-registry) groups the resources
      of signed anchor updates into bridges.
    - the standalone runtime (src/standalone/runtime) configures and wires them
      and answers the gadget through DKGApi.

    Beside every node (src/dkg-gadget):

    - the worker (worker.rs) reads the chain at every block, hands the block to
      the keygen manager (keygen_manager/) and the signing manager
      (signing_manager/), and dispatches incoming messages to them or to the
      aggregation of public keys and reports (gossip_messages/);
    - a manager starts protocols as jobs of a work manager
      (signing_manager/work_manager.rs), each behind a remote handle
      (async_protocols/remote.rs) through which the job gets its messages, is
      started, stopped and found to be stalled;
    - a protocol (async_protocols/) runs a state machine of multi-party-ecdsa
      between an inbound task, which checks and filters messages, and an
      outbound task, which signs and addresses them; a signing protocol goes on
      to collect the partial signatures of a batch (ecdsa/sign/), a key
      generation stores the local key and publishes the public one
      (ecdsa/keygen/);
    - a protocol can also be the weighted-threshold FROST of wsts
      (dkg_modules/wt_frost.rs, async_protocols/frost), for which the same worker
      has a module beside the one for ECDSA, though the managers ask for ECDSA;
    - local keys are kept in a database (db/), in memory, encrypted in the
      offchain storage, or in SQLite;
    - what a node produces (keys, reports, signed batches) is left in the
      offchain storage (storage/), from which the workers of the pallets submit
      it;
    - the gossip engine (gossip_engine/) exchanges handshakes with its peers,
      forwards messages, drops duplicates and hands messages to the worker.

    Around them: the standalone node (src/standalone/node) ships chain
    specifications, from which the genesis of the chain is built; and a test
    harness runs gadgets without a chain.  Its orchestrator
    (src/dkg-mock-blockchain) announces blocks to the connected clients, waits for
    their keys and signatures and moves from one test case to the next; its main
    program (src/dkg-test-orchestrator) sets up the clients, with a gossip engine
    in memory and a mocked DKGApi that the orchestrator writes and they read.

    ** Files

    - Prelude.v (this file): machine integers with wrapping, saturating and
      checked arithmetic, big-endian codecs, slices, the union of the values of
      a map, sorting by a comparison, and their lemmas.
    - Frame.v: the programming model of a pallet.  A computation [M S E A] is a
      function from storage to [Ret], [Fail] (an error, with the writes made so
      far) or [Panic]; [dispatch] undoes the writes of a failed extrinsic and
      [catch] keeps those of a swallowed error.  Record updates [set], the
      rules of inversion ([..._Ret]), of evaluation ([run_...]), of weakest
      preconditions ([wp_...]) and of preserved invariants ([preserves_...])
      with their hint databases carry most proofs of the development.
    - Float.v: the f64 divisions with floor and ceil that the chain specification
      and the mocked API use, exact for the integers that occur.
    - Primitives.v: src/dkg-runtime-primitives/src (lib.rs, types.rs, proposal.rs,
      handlers/, utils.rs, mmr.rs, offchain/).
    - Keys.v: src/dkg-primitives/src/keys.rs, the recovery of a public key from a
      signature and Ethereum addresses, with KeysWitnesses.v.
    - Traits.v: traits.rs as classes over the rest of the chain, a type [W].
      A pallet computes on its own storage paired with [W] and its theorems are
      proved against the interfaces; Runtime.v instantiates them.
    - Merkle.v: the voter-set hash tree of pallet-dkg-metadata.
    - BridgeRegistry.v (module Registry), Proposals.v (module Voting),
      ProposalHandler.v (module Batches), Metadata.v (module Dkg), Sessions.v
      (modules Sessions and Workers): one record with a field per storage item
      and one definition per call, hook, callback and helper, under the source's
      names.  ProposalHandlerSpec.v, MetadataQuorum.v, MetadataSubmission.v,
      MetadataSpec.v, MetadataRotation.v, MetadataKeys.v and MetadataPending.v hold
      the longer proofs.
    - Runtime.v: the constants and handlers of the standalone runtime, genesis,
      dispatch and hooks as a transition system [step] on the storage [Chain],
      and the read-only DKGApi.  RuntimeSpec.v: its theorems.
    - DebugLogger.v: the logger of the gadget (src/dkg-logging), which writes through
      a channel to four files.
    - GadgetTypes.v: messages, errors and party identifiers of the gadget
      (dkg-primitives, gossip_messages.rs of the runtime primitives, utils.rs).
    - Remote.v: the remote handle of a protocol, its shared cells and status
      machine.  WorkManager.v: jobs, early messages and polling, with
      WorkManagerSpec.v.
    - Client.v: what a node asks of the chain, its keystore, and the checks of
      the origin of a message.  Node.v: the state of a node as one record, its
      outgoing messages and what it stores offchain.
    - Reports.v and ReportsSpec.v: aggregation of public keys and misbehaviour
      reports, results of signing.
    - SigningManager.v and SigningManagerSpec.v, KeygenManager.v and
      KeygenManagerSpec.v: the two managers and the glue that starts a protocol
      (dkg_modules/mp_ecdsa.rs).
    - Worker.v: block import, incoming messages, errors, and the transition
      system [node_step] of a node: blocks, messages, polls and the ends of
      protocols in any order.  WorkerSpec.v and WorkerReports.v: invariants of
      every reachable node.
    - AsyncProtocol.v: a protocol's messages in and out, the wrapper of a state
      machine and the loop around it, with AsyncProtocolSpec.v.  VotingStage.v:
      voting on a batch, the conversion of signatures and of the errors of the
      state machines, the end of a key generation, with VotingStageSpec.v.
      ProtocolTask.v: the two kinds of task as step relations beside a node,
      with ProtocolTaskSpec.v.
    - Frost.v: the FROST protocols, their network and the choice of a module, with
      FrostSpec.v.  LocalKeys.v: the databases of local keys behind one interface.
    - Gossip.v: the gossip engine of one node; GossipSpec.v: its theorems;
      GossipNetwork.v: a network of engines with messages in flight.
    - System.v: DKGApi as the nodes read it, and the contract [FollowsChain] of a
      node whose client answers from the chain; SystemSpec.v: the theorems about
      nodes and chain together.
    - ChainSpec.v: the shipped chain specifications (chain_spec.rs,
      testnet_fixtures.rs) and the genesis they describe; GenesisSpec.v: what
      building the runtime from one gives.
    - MockBlockchain.v: the orchestrator of the tests (server.rs), one [server_step]
      per connection, handshake, packet and end of a connection, with
      MockBlockchainSpec.v.  The class [MutableBlockchain] is the trait through
      which it writes the mocked chain, and [ChainDouble] what its theorems need of
      an implementation.  TestOrchestrator.v: the mocked DKGApi, the gossip engine
      in memory, the clients and the command line; TestOrchestratorSpec.v shows that
      this API is a [ChainDouble].
    - Demo.v, Witnesses.v: concrete instances of every on-chain parameter, a run
      from genesis to a rotation, and each theorem applied to it.
      GadgetDemo.v and the other files of witnesses: the same for the gadget.

    ** What the theorems show

    - The whole chain (RuntimeSpec.v): in every reachable state the invariants
      of the pallets hold; every key on chain was signed by distinct members of
      the best set of a state the chain went through, at least as many as the
      signature threshold of that state; an approved
      proposal is in the signing queue's staging area after the very vote that
      approved it; a signed refresh batch and the next session change make the
      next key the current one.
    - Nodes and chain (SystemSpec.v): a batch that the nodes vote for with the key
      of the chain is sent by the worker of the authority whose turn it is,
      accepted by the runtime and never signed again; the signatures over a next
      key that a node collects are sent and, if all are by next best authorities,
      accepted, and one signature by another authority makes the call fail.
    - Keys and sets (Metadata*.v): who can set a key, and exactly which
      submissions are accepted; what a session change does
      with and without a signed next key; that thresholds stay t-of-n with
      t < n; what jailing does; the refresh cycle from proposal to acceptance.
    - Proposal handler: identifiers of batches are never reused and a signed
      batch is final; staging, batching and expiry neither lose nor duplicate a
      proposal; a batch enters SignedProposals exactly under the checks of the
      code; the hook never panics; the offchain worker submits every stored
      batch that is not signed yet and the turn of submitters is fair.
    - Voting: one vote per proposer, outcomes final, rejection only when approval
      is out of reach, a decision once everybody voted.
    - Primitives and Merkle: the refresh codec round-trips, signer checks mean
      what they say, the iterative root is the recursive one.
    - Bridge registry: the reverse index and the resource lists agree; bridges
      are not merged.
    - A node (WorkerSpec.v, WorkerReports.v): in every reachable state each live
      protocol is owned by exactly one job of one manager, and what the node
      stores as a misbehaviour report is accepted by the pallet's own count of
      signatures.  The managers: signing sets have t + 1 distinct members of the
      best authorities and the attempts of a batch cycle through them; keygen
      starts exactly when the chain's signals ask for it; messages that arrive
      before their job are delivered when it starts; polling starts as many jobs
      as fit and ends the finished ones.
    - Protocols (AsyncProtocolSpec.v, VotingStageSpec.v, ProtocolTaskSpec.v): a
      message sent by one protocol is decoded unchanged by the one it is
      addressed to and a second copy has no effect; votes are collected as in a
      reference that takes the first vote of each party; enough votes complete
      the batch, and what the stage publishes is accepted by the proposal
      handler of the chain; the steps of a task, in any interleaving with the
      node's own, are steps the model of a node allows, so the invariants of a
      node hold while its protocols run.
    - FROST (FrostSpec.v): parties that hear each other, in whatever order, store
      and announce the same public key and aggregate the same signature; what a
      protocol gets from its channel is what passes the checks, once each.
    - Local keys (LocalKeys.v): no client can tell the databases in memory and in
      the offchain storage from a map.
    - Gossip: a message is handed to the worker and forwarded once, the memory
      of known messages is bounded, and in a network of engines a message
      reaches everybody connected to its origin after finitely many deliveries,
      in any order of delivery.
    - Keys (Keys.v): the key of a signature is recovered exactly when r takes 32
      bytes, and is one under which the signature verifies; what address a key has.
    - Logger (DebugLogger.v): the files hold the lines that were logged, in order.
    - Chain specifications (GenesisSpec.v): with two authorities or more, and
      proposers and resources within their bounds, the DKG pallets of a shipped
      specification build, with all authorities in the first set; otherwise the
      build panics.
    - Test harness (MockBlockchainSpec.v, TestOrchestratorSpec.v): the orchestrator
      counts as many results as the configuration asks for, whoever sends them, and
      then exits with code 0; an exit status that is not 0 comes from a panic or an
      ended worker and never from a failed test; what the gadget reads of the mocked
      API has an answer at every block that was announced, if enough sessions were
      prepared.
    - Some theorems record behaviour that departs from the comments or the
      intent.  On chain: full_bridge_leaves_dangling_index,
      signed_batch_replaces_any_queued, stale_refresh_of_other_chain_survives,
      valid_batch_reported_malformed, set_signature_threshold_unchecked,
      one_signer_counts_as_many, refresh_signature_unverified,
      should_end_session_ignores_period, empty_queued_set_wraps,
      queued_set_id_diverges.  In the gadget: signing_blame_misses,
      first_party_in_every_set, threshold_change_panics,
      late_failure_stops_attempts, forced_keygen_unlocks,
      own_session_key_refused, two_signatures_suffice, vote_result_stored,
      invalid_handshake_registered, pending_messages_unbounded,
      critical_error_blames_nobody, offline_recipient_misses,
      frost_keygen_always_refused, uneven_parameters_accepted,
      early_share_blocks_signing, sql_new_fails, sql_keygen_fails,
      stored_entries_leak.  Between the two: collected_keys_outcome.  In the test
      harness: failed_tests_unreported, one_client_twice,
      late_signature_panics, unprepared_session_panics, repeated_error_case,
      validated_args_panic.
      In the logger: repeated_id_shares_name, clear_leaves_zeros.

    ** Integers, loops and fuel

    Integers are [Z] at their width: [as] casts and unchecked operators wrap, as
    in the release profile; saturating and checked operations are written out.
    Four loops of the source are not structural.  The height search of the
    Merkle tree has fuel 33, which get_voter_set_tree_height_least proves enough
    for every u32; the padding loop has fuel 2 * (n + 1), enough since the next
    power of two is below 2 * n, and a run that exhausts it would be a [Panic],
    which get_voter_set_tree_root_reference excludes; the splitting of a vector
    into chunks has its length as fuel; the calls that empty a FROST channel are as
    many as the channel has messages, which inbox_of_reference shows to be enough.
    The search of the mocked API over all of u64 recurses on the size of the range
    in binary, so that it is the whole range and still evaluates.
    A loop that waits for messages is a function of those that arrive, and says so
    when it still waits.

    ** Tasks and interleaving

    The gadget's tasks share cells behind locks.  The model makes each critical
    section one step of the node and lets the steps of different tasks come in
    any order.  In Worker.v a protocol may do to the node whatever the interface
    allows it, so what is proved of a node holds whatever the cryptographic
    state machines do; ProtocolTask.v models the protocol's own steps and
    ProtocolTaskSpec.v proves that they stay within that allowance.  A task
    takes its two receivers once, so the error of a second execution does not
    arise, and a task that panics makes no further step.

    ** Parameters

    Code outside the repository is a class with the laws the proofs use in a
    second one: [WebbProposals] (proposal parsing, EVM transactions), [Crypto]
    (hashes, recovery of a secp256k1 key, compression), [IterOrder] (the order
    in which a storage map is iterated: a permutation of its entries),
    [ReputationOrder] (the same for one map), [Weights] (block weights),
    [PerbillOps] and [PermillOps] (rounding of fractions), the scalars and times
    in the configuration classes, and [Sys], the state of Substrate's own
    pallets, of which only the block number is read and to which reported
    offences are passed on.  For the gadget: [JobOrder] (the order of the job
    set), [Client] (the runtime API's answers at a block), [Keystore],
    [MessageCodec], [SubmissionDelay] (a random delay), [SigningSets] (the
    combinations of itertools and the seeded choice), [SyncService] and
    [Network] (peers and their roles),
    [StateMachine], [OfflineStageNew] and [KeygenNew] (the state machines of
    multi-party-ecdsa), [Wire] (their serde form), [MultiPartyEcdsa] (partial
    signatures and their completion), [LocalKeyDb] (whether a database takes a
    key; LocalKeys.v has the databases), [Wsts] and [FrostCodec], [Aead],
    [LocalKeyJson] and [Sqlite].  For chain
    specifications and the harness: [SeedKeys] (keys derived from a seed), [Rng],
    [Election] (the validators the staking pallet elects at genesis), [Entropy]
    (random proposals and identifiers), [HeaderHash], [ForcePush] (a bounded
    vector's) and [FileSystem].  For keys and logs: [Secp256k1] (the curve),
    [BigIntText], [HexCodec] and [LogEnv].  The demonstration and
    witness files instantiate all of them.

    ** Not modelled

    Console output, metrics, generated weights, benchmarks, the mocks and tests of the
    pallets, the JSON form of genesis data, the node's service assembly and
    command line, the RPC crates and the relayer gadget (glue and I/O); of the
    test harness the sockets and the serialization of packets, the todo!()
    stubs of the backend and client traits and the start of a worker for each
    client; the remaining pallets of the runtime, which are Substrate's own, with
    the checks of their genesis; the libraries that do the cryptography, which are the
    parameters above.  A FROST protocol is modelled up to its own end and not as a
    job of a manager, since no manager starts one. *)

From stdpp Require Export base tactics option list list_numbers sorting gmap strings.
From Stdlib Require Export ZArith Lia.
From Stdlib Require Ascii.

#[export] Set Default Goal Selector "!".

Open Scope Z_scope.

(** ** Machine integers

    A Rust integer of [w] bits is a [Z]; [in_width w z] says that [z] is one.
    Unchecked arithmetic ([+], [-], [*] and [as] casts) is compiled by the
    repository's release profile without overflow checks, so it wraps. *)

Definition in_width (w z : Z) : Prop := 0 <= z < 2 ^ w.

Definition wrap (w z : Z) : Z := z mod 2 ^ w.

Definition max_of (w : Z) : Z := 2 ^ w - 1.

Definition saturating_add (w a b : Z) : Z := Z.min (a + b) (max_of w).

Definition saturating_sub (a b : Z) : Z := Z.max 0 (a - b).

Definition saturating_mul (w a b : Z) : Z := Z.min (a * b) (max_of w).

Definition checked_add (w a b : Z) : option Z :=
  if a + b <=? max_of w then Some (a + b) else None.

Definition checked_sub (a b : Z) : option Z :=
  if b <=? a then Some (a - b) else None.

(** [saturating_pow] of an unsigned [w]-bit integer. *)
Definition saturating_pow (w b n : Z) : Z := Z.min (b ^ n) (max_of w).

Lemma wrap_small w z : in_width w z → wrap w z = z.
Proof. apply Z.mod_small. Qed.

Lemma wrap_in_width w z : 0 <= w → in_width w (wrap w z).
Proof. intros. apply Z.mod_pos_bound. lia. Qed.

Lemma max_of_in_width w : 0 <= w → in_width w (max_of w).
Proof. intros. unfold in_width, max_of. lia. Qed.

Lemma saturating_add_in_width w a b :
  0 <= w → in_width w a → in_width w b → in_width w (saturating_add w a b).
Proof. unfold in_width, saturating_add, max_of. lia. Qed.

Lemma saturating_add_exact w a b : a + b < 2 ^ w → saturating_add w a b = a + b.
Proof. unfold saturating_add, max_of. lia. Qed.

Lemma saturating_add_lower w a b :
  in_width w a → 0 <= b → a <= saturating_add w a b.
Proof. unfold in_width, saturating_add, max_of. lia. Qed.

Lemma checked_add_Some w a b c :
  checked_add w a b = Some c ↔ c = a + b ∧ a + b <= max_of w.
Proof.
  unfold checked_add. destruct (Z.leb_spec (a + b) (max_of w)); split;
    intros; try discriminate; simplify_eq; lia || (f_equal; lia) || done.
Qed.

Lemma checked_add_None w a b : checked_add w a b = None ↔ max_of w < a + b.
Proof.
  unfold checked_add. destruct (Z.leb_spec (a + b) (max_of w)); split;
    intros; try discriminate; simplify_eq; lia || (f_equal; lia) || done.
Qed.

(** ** Bytes *)

Abbreviation bytes := (list Z).

Definition is_byte (b : Z) : Prop := in_width 8 b.

(** [len] is [Vec::len] as a number. *)
Abbreviation len l := (Z.of_nat (length l)).

(** [b"..."], [String::into_bytes]. *)
Definition ascii_bytes (s : string) : bytes :=
  (λ a, Z.of_N (Ascii.N_of_ascii a)) <$> String.list_ascii_of_string s.

(** [to_be_bytes] of an integer that occupies [n] bytes, and its inverse. *)
Fixpoint be_encode (n : nat) (z : Z) : bytes :=
  match n with
  | O => []
  | S n' => be_encode n' (Z.shiftr z 8) ++ [Z.land z 255]
  end.

Definition be_decode (bs : bytes) : Z :=
  fold_left (λ acc b, Z.lor (Z.shiftl acc 8) b) bs 0.

(** [to_le_bytes]. *)
Fixpoint le_encode (n : nat) (z : Z) : bytes :=
  match n with
  | O => []
  | S n' => Z.land z 255 :: le_encode n' (Z.shiftr z 8)
  end.

(** [&v[i..j]] for indices in range. *)
Definition slice {A} (i j : nat) (l : list A) : list A := take (j - i) (drop i l).

Lemma be_encode_length n z : length (be_encode n z) = n.
Proof.
  revert z. induction n as [|n IH]; intros z; simpl; [done|].
  rewrite length_app, IH. simpl. lia.
Qed.

Lemma land_255_bound z : is_byte (Z.land z 255).
Proof.
  change 255 with (Z.ones 8). rewrite Z.land_ones by lia.
  apply (wrap_in_width 8). lia.
Qed.

Lemma be_encode_bytes n z : Forall is_byte (be_encode n z).
Proof.
  revert z. induction n as [|n IH]; intros z; simpl; [constructor|].
  apply Forall_app. split; [apply IH|]. repeat constructor; apply land_255_bound.
Qed.

Lemma land_shift_byte acc b : is_byte b → Z.land (Z.shiftl acc 8) b = 0.
Proof.
  unfold is_byte, in_width. intros Hb.
  apply Z.bits_inj'. intros i Hi. rewrite Z.land_spec, Z.bits_0.
  destruct (Z.ltb_spec i 8); [by rewrite Z.shiftl_spec_low by lia|].
  rewrite (Z.bits_above_log2 b); [apply andb_false_r|lia|].
  destruct (decide (b = 0)) as [->|]; [simpl; lia|].
  apply Z.log2_lt_pow2; [lia|].
  apply Z.lt_le_trans with (2 ^ 8); [lia|apply Z.pow_le_mono_r; lia].
Qed.

Lemma lor_shift_byte acc b : is_byte b → Z.lor (Z.shiftl acc 8) b = acc * 256 + b.
Proof.
  intros Hb. pose proof (Z.add_lor_land (Z.shiftl acc 8) b) as E.
  rewrite land_shift_byte, Z.shiftl_mul_pow2 in E by (done || lia).
  rewrite Z.shiftl_mul_pow2 by lia. lia.
Qed.

Lemma be_decode_snoc bs b : is_byte b → be_decode (bs ++ [b]) = be_decode bs * 256 + b.
Proof. intros Hb. unfold be_decode. rewrite fold_left_app. simpl. by apply lor_shift_byte. Qed.

(** Decoding what was encoded keeps the low [8 n] bits. *)
Lemma be_decode_encode_wrap n z :
  be_decode (be_encode n z) = wrap (8 * Z.of_nat n) z.
Proof.
  revert z. induction n as [|n IH]; intros z.
  - simpl. unfold wrap. by rewrite Z.mod_1_r.
  - simpl be_encode. rewrite be_decode_snoc by apply land_255_bound.
    rewrite IH. change 255 with (Z.ones 8). rewrite Z.land_ones by lia.
    rewrite Z.shiftr_div_pow2 by lia. unfold wrap.
    replace (8 * Z.of_nat (S n)) with (8 + 8 * Z.of_nat n) by lia.
    rewrite Z.pow_add_r by lia. rewrite Z.rem_mul_r by lia. lia.
Qed.

Lemma be_decode_encode n z : in_width (8 * Z.of_nat n) z → be_decode (be_encode n z) = z.
Proof. intros. rewrite be_decode_encode_wrap. by apply wrap_small. Qed.

(** Encoding what was decoded gives the bytes back. *)
Lemma be_encode_decode bs : Forall is_byte bs → be_encode (length bs) (be_decode bs) = bs.
Proof.
  induction bs as [|b bs IH] using rev_ind; [done|].
  intros [Hbs [Hb _]%Forall_cons]%Forall_app.
  rewrite length_app, Nat.add_comm, be_decode_snoc by done. cbn [length Nat.add be_encode].
  change 255 with (Z.ones 8). unfold is_byte, in_width in Hb.
  rewrite Z.land_ones, Z.shiftr_div_pow2 by lia. change (2 ^ 8) with 256 in *.
  rewrite Z.div_add_l, (Z.div_small b), Z.add_0_r, IH by (done || lia).
  by rewrite Z.add_comm, Z.mod_add, Z.mod_small by lia.
Qed.

Lemma be_decode_zeros n bs : be_decode (replicate n 0 ++ bs) = be_decode bs.
Proof. unfold be_decode. rewrite fold_left_app. f_equal. by induction n. Qed.

Lemma be_encode_inj n x y :
  in_width (8 * Z.of_nat n) x → in_width (8 * Z.of_nat n) y →
  be_encode n x = be_encode n y → x = y.
Proof.
  intros Hx Hy E. rewrite <- (be_decode_encode n x), <- (be_decode_encode n y) by done.
  by rewrite E.
Qed.

(** Consecutive fields of a buffer are read back by [slice]. *)
Lemma slice_field {A} (i j : nat) (pre mid post : list A) :
  length pre = i → length mid = (j - i)%nat → slice i j (pre ++ mid ++ post) = mid.
Proof.
  intros <- Hm. unfold slice. rewrite drop_app_length, <- Hm. apply take_app_length.
Qed.

Lemma slice_prefix {A} (j : nat) (mid post : list A) :
  length mid = j → slice 0 j (mid ++ post) = mid.
Proof. intros Hm. apply (slice_field 0 j []); [done|lia]. Qed.

(** ** Everything stored in a map

    [gather f m] is the concatenation of [f v] over the values [v] of [m], up
    to order. *)
Section gather.
Context `{Countable K} {V A : Type} (f : V → list A).
Implicit Types m : gmap K V.

Definition gather (m : gmap K V) : list A := mjoin ((λ kv, f kv.2) <$> map_to_list m).

Lemma gather_insert m k v : m !! k = None → gather (<[k := v]> m) ≡ₚ f v ++ gather m.
Proof. intros Hk. unfold gather. by rewrite map_to_list_insert by done. Qed.

Lemma gather_delete m k v : m !! k = Some v → gather m ≡ₚ f v ++ gather (delete k m).
Proof.
  intros Hk. rewrite <- (insert_delete_id m k v) at 1 by done.
  apply gather_insert, lookup_delete_eq.
Qed.

Lemma elem_of_gather m a : a ∈ gather m ↔ ∃ k v, m !! k = Some v ∧ a ∈ f v.
Proof.
  unfold gather. rewrite list_elem_of_join. setoid_rewrite list_elem_of_fmap. split.
  - intros (l & Ha & [k v] & -> & Hin). apply elem_of_map_to_list in Hin. eauto.
  - intros (k & v & Hk & Ha). exists (f v). split; [done|].
    exists (k, v). split; [done|]. by apply elem_of_map_to_list.
Qed.
End gather.

(** ** Stable sorting

    [sort_by le] is [slice::sort_by] for a comparison whose [Less] or [Equal]
    is [le]. *)
Section sort_by.
Context {A : Type} (le : A → A → bool).

Fixpoint insert_by (x : A) (l : list A) : list A :=
  match l with
  | [] => [x]
  | y :: l' => if le x y then x :: y :: l' else y :: insert_by x l'
  end.

Definition sort_by (l : list A) : list A := foldr insert_by [] l.

Lemma insert_by_perm x l : insert_by x l ≡ₚ x :: l.
Proof.
  induction l as [|y l IH]; simpl; [done|]. destruct (le x y); [done|].
  rewrite IH. apply Permutation_swap.
Qed.

Lemma sort_by_perm l : sort_by l ≡ₚ l.
Proof. induction l as [|x l IH]; simpl; [done|]. by rewrite insert_by_perm, IH. Qed.

Context (le_trans : ∀ x y z, le x y = true → le y z = true → le x z = true).
Context (le_total : ∀ x y, le x y = true ∨ le y x = true).

Lemma insert_by_sorted x l : StronglySorted le l → StronglySorted le (insert_by x l).
Proof using le_trans le_total.
  induction 1 as [|y l Hl IH Hy]; simpl; [repeat constructor|].
  destruct (le x y) eqn:Hxy.
  - constructor; [by constructor|]. constructor; [by rewrite Hxy|].
    eapply Forall_impl; [exact Hy|]. intros z Hz. apply Is_true_eq_true in Hz.
    by rewrite (le_trans _ _ _ Hxy Hz).
  - constructor; [done|]. rewrite insert_by_perm. constructor; [|done].
    destruct (le_total x y) as [?|E]; [congruence|]. by rewrite E.
Qed.

Lemma sort_by_sorted l : StronglySorted le (sort_by l).
Proof using le_trans le_total.
  induction l as [|x l IH]; simpl; [constructor|]. by apply insert_by_sorted.
Qed.
End sort_by.

(** A filter that every element passes. *)
Lemma filter_all {A} (P : A → Prop) `{∀ x, Decision (P x)} l : Forall P l → filter P l = l.
Proof.
  induction 1 as [|x l Hx _ IH]; [done|]. rewrite filter_cons_True by done. by rewrite IH.
Qed.

(** Sublists of a sorted list are sorted, and an interval is. *)
Lemma StronglySorted_sublist {A} (R : relation A) l k :
  l `sublist_of` k → StronglySorted R k → StronglySorted R l.
Proof.
  induction 1 as [|x l k Hl IH|x l k Hl IH]; intros Hk; [done|..];
    apply StronglySorted_inv in Hk as [Hk Hx]; [|by apply IH].
  constructor; [by apply IH|]. rewrite Forall_forall in Hx |- *. intros y Hy.
  apply Hx. eapply elem_of_submseteq; [exact Hy|]. by apply sublist_submseteq.
Qed.

Lemma seqZ_sorted m n : StronglySorted Z.lt (seqZ m n).
Proof.
  unfold seqZ. assert (∀ k, StronglySorted lt (seq k (Z.to_nat n))) as Hs.
  { generalize (Z.to_nat n) as c. induction c as [|c IH]; intros k; simpl; constructor; [done|].
    apply Forall_forall. intros x Hx. apply elem_of_seq in Hx. lia. }
  eapply StronglySorted_fmap; [|apply Hs]. intros x y ?. lia.
Qed.

Lemma sublist_fmap {A B} (f : A → B) l k : l `sublist_of` k → (f <$> l) `sublist_of` (f <$> k).
Proof. induction 1; cbn; by constructor. Qed.
