(* ===== verification/Frame.v ===== *)
(** * The FRAME programming model

    What the pallets use of their host: storage that is read and written in
    sequence, [Result]-valued calls whose [?] stops at the first error with
    the writes so far still in place, panics, [ensure!], bounded vectors and
    the storage layer that a dispatched extrinsic runs in (an extrinsic that
    returns an error leaves no trace; a helper whose error is swallowed by its
    caller does).  The second half is the proof calculus of the development:
    inversion of runs that return, weakest preconditions, and invariants
    preserved step by step. *)

From S2P Require Import Prelude.

(** ** Runs *)

(** The outcome of a run: a value, an error together with the state reached
    when it was raised, or a panic. *)
Inductive outcome (S E A : Type) : Type :=
| Ret (a : A) (s : S)
| Fail (e : E) (s : S)
| Panic.
Arguments Ret {S E A} _ _.
Arguments Fail {S E A} _ _.
Arguments Panic {S E A}.

Definition M (S E A : Type) : Type := S → outcome S E A.

#[export] Instance M_ret {S E} : MRet (M S E) := λ A a s, Ret a s.

#[export] Instance M_bind {S E} : MBind (M S E) := λ A B f m s,
  match m s with
  | Ret a s' => f a s'
  | Fail e s' => Fail e s'
  | Panic => Panic
  end.

Section operations.
Context {S E : Type}.

(** Read a storage item. *)
Definition gets {A} (f : S → A) : M S E A := λ s, Ret (f s) s.

(** Write storage. *)
Definition modify (f : S → S) : M S E unit := λ s, Ret tt (f s).

Definition throw {A} (e : E) : M S E A := λ s, Fail e s.

Definition panic {A} : M S E A := λ _, Panic.

(** [ensure!(b, e)]. *)
Definition ensure (b : bool) (e : E) : M S E unit := if b then mret tt else throw e.

(** [o.ok_or(e)?]. *)
Definition ok_or {A} (o : option A) (e : E) : M S E A :=
  match o with Some a => mret a | None => throw e end.

(** [o.expect(..)], [v[i]], [assert!]. *)
Definition expect {A} (o : option A) : M S E A :=
  match o with Some a => mret a | None => panic end.

Definition assert_that (b : bool) : M S E unit := if b then mret tt else panic.

(** [if b { m }]. *)
Definition when (b : bool) (m : M S E unit) : M S E unit := if b then m else mret tt.

(** A call whose error is observed by its caller and not propagated. *)
Definition catch {A} (m : M S E A) : M S E (A + E) := λ s,
  match m s with
  | Ret a s' => Ret (inl a) s'
  | Fail e s' => Ret (inr e) s'
  | Panic => Panic
  end.

(** [for x in l { body(x)? }]. *)
Fixpoint for_each {A} (l : list A) (body : A → M S E unit) : M S E unit :=
  match l with
  | [] => mret tt
  | x :: l' => _ ← body x; for_each l' body
  end.

(** The same loop when its body can [break]: [true] goes on. *)
Fixpoint for_while {A} (l : list A) (body : A → M S E bool) : M S E unit :=
  match l with
  | [] => mret tt
  | x :: l' => go ← body x; if go : bool then for_while l' body else mret tt
  end.

(** The storage layer around a dispatched call. *)
Definition dispatch {A} (m : M S E A) : M S E A := λ s,
  match m s with
  | Ret a s' => Ret a s'
  | Fail e _ => Fail e s
  | Panic => Panic
  end.

(** The state after a run, when there is one. *)
Definition final {A} (o : outcome S E A) : option S :=
  match o with Ret _ s => Some s | Fail _ s => Some s | Panic => None end.

Definition returns {A} (o : outcome S E A) : bool :=
  match o with Ret _ _ => true | _ => false end.
End operations.

(** Run a computation of one component inside a larger state. *)
Definition zoom {S T E A} (get : T → S) (put : S → T → T) (m : M S E A) : M T E A := λ t,
  match m (get t) with
  | Ret a s' => Ret a (put s' t)
  | Fail e s' => Fail e (put s' t)
  | Panic => Panic
  end.

(** Change the error type, [map_err]. *)
Definition map_err {S E F A} (g : E → F) (m : M S E A) : M S F A := λ s,
  match m s with
  | Ret a s' => Ret a s'
  | Fail e s' => Fail (g e) s'
  | Panic => Panic
  end.

(** Stateless code returns a [result]: a value, an error, or a panic. *)
Inductive result (E A : Type) : Type :=
| Ok (a : A)
| Err (e : E)
| Panics.
Arguments Ok {E A} _.
Arguments Err {E A} _.
Arguments Panics {E A}.

#[export] Instance result_ret {E} : MRet (result E) := λ A a, Ok a.

#[export] Instance result_bind {E} : MBind (result E) := λ A B f m,
  match m with
  | Ok a => f a
  | Err e => Err e
  | Panics => Panics
  end.

(** [Option::ok_or] for stateless code. *)
Definition result_of {E A} (o : option A) (e : E) : result E A :=
  match o with Some a => Ok a | None => Err e end.

(** [Result::or]: the first value, else the second result. *)
Definition result_or {E A} (r1 r2 : result E A) : result E A :=
  match r1 with Err _ => r2 | _ => r1 end.

(** [Result::map_err]. *)
Definition result_map_err {E F A} (g : E → F) (r : result E A) : result F A :=
  match r with Ok a => Ok a | Err e => Err (g e) | Panics => Panics end.

(** A stateless call inside stateful code, with its error converted. *)
Definition lift_result {S E F A} (g : E → F) (r : result E A) : M S F A := λ s,
  match r with Ok a => Ret a s | Err e => Fail (g e) s | Panics => Panic end.

Lemma result_bind_Ok {E A B} (m : result E A) (f : A → result E B) b :
  (m ≫= f) = Ok b ↔ ∃ a, m = Ok a ∧ f a = Ok b.
Proof. destruct m; simpl; naive_solver. Qed.

(** ** Dispatch origins and errors *)

(** [E] is a pallet's own error enum, [F] the error of a pallet it calls. *)
Inductive DispatchError (E F : Type) : Type :=
| BadOrigin
| Module (e : E)
| Foreign (f : F).
Arguments BadOrigin {E F}.
Arguments Module {E F} _.
Arguments Foreign {E F} _.

(** ** Bounded vectors *)

(** [BoundedVec::try_push] and [try_into], with the bound [max]. *)
Definition try_push {A} (max : Z) (l : list A) (x : A) : option (list A) :=
  if Z.of_nat (length l) <? max then Some (l ++ [x]) else None.

Definition try_bound {A} (max : Z) (l : list A) : option (list A) :=
  if Z.of_nat (length l) <=? max then Some l else None.

Lemma try_push_Some {A} max (l : list A) x l' :
  try_push max l x = Some l' ↔ l' = l ++ [x] ∧ Z.of_nat (length l) < max.
Proof. unfold try_push. destruct (Z.ltb_spec (Z.of_nat (length l)) max); naive_solver lia. Qed.

Lemma try_push_None {A} max (l : list A) x :
  try_push max l x = None ↔ max <= Z.of_nat (length l).
Proof. unfold try_push. destruct (Z.ltb_spec (Z.of_nat (length l)) max); naive_solver lia. Qed.

Lemma try_bound_Some {A} max (l l' : list A) :
  try_bound max l = Some l' ↔ l' = l ∧ Z.of_nat (length l) <= max.
Proof. unfold try_bound. destruct (Z.leb_spec (Z.of_nat (length l)) max); naive_solver lia. Qed.

(** ** Record fields as storage items

    [set proj f r] is the record [r] with the field [proj] passed through [f];
    a record type declares its fields once, with an [Eta] instance. *)

Class Eta (R : Type) := eta : R → R.

Class Setter {R T : Type} (proj : R → T) := set : (T → T) → R → R.
Arguments set {R T} proj {Setter} _ _ : simpl never.

Ltac solve_setter :=
  lazymatch goal with
  | |- @Setter ?R ?T ?proj =>
      let f := fresh "f" in let r := fresh "r" in
      intros f r;
      let inst := constr:(_ : Eta R) in
      let h := (eval hnf in inst) in
      let e := (eval cbv beta in (h r)) in
      lazymatch (eval pattern (proj r) in e) with
      | ?g _ => let res := (eval cbv beta in (g (f (proj r)))) in exact res
      end
  end.

#[export] Hint Extern 1 (Setter _) => solve_setter : typeclass_instances.

Declare Scope frame_scope.
Delimit Scope frame_scope with frame.
Open Scope frame_scope.

Notation "r <| p := v |>" := (set p (λ _, v) r)
  (at level 1, left associativity, p at next level, v at level 200,
   format "r  <| p  :=  v |>") : frame_scope.

Notation "r <| p ::= f |>" := (set p f r)
  (at level 1, left associativity, p at next level, f at level 200,
   format "r  <| p  ::=  f |>") : frame_scope.

(** [StorageValue::put]. *)
Notation "'put!' p := v" := (modify (λ s, set p (λ _, v) s))
  (at level 80, p at level 9, v at level 79) : frame_scope.

(** [StorageValue::mutate]. *)
Notation "'upd!' p ::= f" := (modify (λ s, set p f s))
  (at level 80, p at level 9, f at level 79) : frame_scope.

(** Resolve reads of just-written fields, in the goal and in a hypothesis.  The
    equation is proved for a record variable, so its cost does not depend on how
    many writes are pending. *)
Ltac get_set p R T q i f k :=
  let E := fresh "E" in
  first
    [ constr_eq p q;
      assert (E : ∀ x : R, p (@set R T q i f x) = f (q x)) by (intros []; reflexivity)
    | assert (E : ∀ x : R, p (@set R T q i f x) = p x) by (intros []; reflexivity) ];
  k E; clear E.

Ltac simp_get :=
  repeat match goal with
  | |- context [?p (@set ?R ?T ?q ?i ?f ?s)] =>
      is_const p; get_set p R T q i f ltac:(fun E => rewrite (E s)); cbv beta
  end.

Ltac simp_get_in H :=
  repeat match type of H with
  | context [?p (@set ?R ?T ?q ?i ?f ?s)] =>
      is_const p; get_set p R T q i f ltac:(fun E => rewrite (E s) in H); cbv beta in H
  end.

(** ** Runs that return *)

Section inversion.
Context {S E : Type}.
Implicit Types s t : S.

Lemma bind_Ret {A B} (m : M S E A) (f : A → M S E B) s b t :
  (m ≫= f) s = Ret b t ↔ ∃ a u, m s = Ret a u ∧ f a u = Ret b t.
Proof. unfold mbind, M_bind. destruct (m s); naive_solver. Qed.

Lemma ret_Ret {A} (a b : A) s t : (mret a : M S E A) s = Ret b t ↔ b = a ∧ t = s.
Proof. unfold mret, M_ret. naive_solver. Qed.

Lemma gets_Ret {A} (f : S → A) s a t : (gets f : M S E A) s = Ret a t ↔ a = f s ∧ t = s.
Proof. unfold gets. naive_solver. Qed.

Lemma modify_Ret (f : S → S) s u t : (modify f : M S E unit) s = Ret u t ↔ t = f s.
Proof. unfold modify. destruct u. naive_solver. Qed.

Lemma throw_Ret {A} (e : E) s (a : A) t : throw e s = Ret a t ↔ False.
Proof. unfold throw. naive_solver. Qed.

Lemma panic_Ret {A} s (a : A) t : (panic : M S E A) s = Ret a t ↔ False.
Proof. unfold panic. naive_solver. Qed.

Lemma ensure_Ret b (e : E) s u t : ensure b e s = Ret u t ↔ b = true ∧ t = s.
Proof. unfold ensure. destruct b, u; rewrite ?ret_Ret, ?throw_Ret; naive_solver. Qed.

Lemma ok_or_Ret {A} (o : option A) (e : E) s a t :
  ok_or o e s = Ret a t ↔ o = Some a ∧ t = s.
Proof. unfold ok_or. destruct o; rewrite ?ret_Ret, ?throw_Ret; naive_solver. Qed.

Lemma expect_Ret {A} (o : option A) s a t :
  (expect o : M S E A) s = Ret a t ↔ o = Some a ∧ t = s.
Proof. unfold expect. destruct o; rewrite ?ret_Ret, ?panic_Ret; naive_solver. Qed.

Lemma assert_Ret b s u t : (assert_that b : M S E unit) s = Ret u t ↔ b = true ∧ t = s.
Proof. unfold assert_that. destruct b, u; rewrite ?ret_Ret, ?panic_Ret; naive_solver. Qed.

Lemma catch_Ret {A} (m : M S E A) s r t :
  catch m s = Ret r t ↔
  match r with inl a => m s = Ret a t | inr e => m s = Fail e t end.
Proof. unfold catch. destruct (m s), r; naive_solver. Qed.

Lemma lift_result_Ret {F A} (g : F → E) (r : result F A) s a t :
  lift_result g r s = Ret a t ↔ r = Ok a ∧ t = s.
Proof. unfold lift_result. destruct r; naive_solver. Qed.

Lemma dispatch_Ret {A} (m : M S E A) s a t : dispatch m s = Ret a t ↔ m s = Ret a t.
Proof. unfold dispatch. destruct (m s); naive_solver. Qed.
End inversion.

(** ** Running code

    Equations that compute a run statement by statement. *)

Section running.
Context {S E A B : Type}.
Implicit Types (s : S) (f : A → M S E B).

Lemma run_ret (a : A) f s : ((mret a : M S E A) ≫= f) s = f a s.
Proof. done. Qed.

Lemma run_gets (g : S → A) f s : (gets g ≫= f) s = f (g s) s.
Proof. done. Qed.

Lemma run_throw (e : E) f s : (throw e ≫= f) s = Fail e s.
Proof. done. Qed.

Lemma run_ok_or (o : option A) (e : E) f s :
  (ok_or o e ≫= f) s = match o with Some a => f a s | None => Fail e s end.
Proof. by destruct o. Qed.

Lemma run_expect (o : option A) f s :
  (expect o ≫= f) s = match o with Some a => f a s | None => Panic end.
Proof. by destruct o. Qed.

Lemma run_lift {G} (g : G → E) (r : result G A) f s :
  (lift_result g r ≫= f) s =
  match r with Ok a => f a s | Err e => Fail (g e) s | Panics => Panic end.
Proof. by destruct r. Qed.

Lemma run_bind_bind {C} (m : M S E C) (h : C → M S E A) f s :
  ((m ≫= h) ≫= f) s = (m ≫= λ c, h c ≫= f) s.
Proof. cbv [mbind M_bind]. by destruct (m s). Qed.
End running.

(** Step over a call whose run is known. *)
Lemma run_call {S E A B} (m : M S E A) (f : A → M S E B) s a t :
  m s = Ret a t → (m ≫= f) s = f a t.
Proof. cbv [mbind M_bind]. by intros ->. Qed.

Lemma run_modify {S E B} (g : S → S) (f : unit → M S E B) s : (modify g ≫= f) s = f tt (g s).
Proof. done. Qed.

Lemma run_ensure {S E B} b (e : E) (f : unit → M S E B) s :
  (ensure b e ≫= f) s = if b then f tt s else Fail e s.
Proof. by destruct b. Qed.

Lemma run_assert {S E B} b (f : unit → M S E B) s :
  (assert_that b ≫= f) s = if b then f tt s else Panic.
Proof. by destruct b. Qed.

Create Rewrite HintDb mrun.

#[export] Hint Rewrite @run_ret @run_gets @run_throw @run_ok_or @run_expect @run_lift @run_modify
  @run_ensure @run_assert @run_bind_bind : mrun.

(** An extrinsic that fails changes nothing. *)
Lemma dispatch_Fail {S E A} (m : M S E A) s e t : dispatch m s = Fail e t → t = s.
Proof. unfold dispatch. destruct (m s); naive_solver. Qed.

(** Take a run that returned apart, one statement at a time. *)
Ltac minv_step H :=
  lazymatch type of H with
  | (mbind _ _) _ = Ret _ _ =>
      let a := fresh "a" in let u := fresh "u" in let H1 := fresh H in
      apply bind_Ret in H as (a & u & H1 & H); minv_step H1
  | (mret _) _ = Ret _ _ => apply ret_Ret in H as [? ?]; subst
  | gets _ _ = Ret _ _ => apply gets_Ret in H as [? ?]; subst
  | modify _ _ = Ret _ _ => apply modify_Ret in H; subst
  | throw _ _ = Ret _ _ => apply throw_Ret in H; destruct H
  | panic _ = Ret _ _ => apply panic_Ret in H; destruct H
  | ensure _ _ _ = Ret _ _ => apply ensure_Ret in H as [H ?]; subst
  | ok_or _ _ _ = Ret _ _ => apply ok_or_Ret in H as [H ?]; subst
  | expect _ _ = Ret _ _ => apply expect_Ret in H as [H ?]; subst
  | assert_that _ _ = Ret _ _ => apply assert_Ret in H as [H ?]; subst
  | lift_result _ _ _ = Ret _ _ => apply lift_result_Ret in H as [H ?]; subst
  | dispatch _ _ = Ret _ _ => apply (proj1 (dispatch_Ret _ _ _ _)) in H; minv_step H
  | _ => idtac
  end.

Ltac minv H := repeat (progress minv_step H).

(** ** Weakest preconditions

    [wp pan m s Q R]: the run of [m] from [s] returns in [Q] or fails in [R];
    [pan] says what a panic is worth ([False] to exclude it). *)

Definition wp {S E A} (pan : Prop) (m : M S E A) (s : S)
    (Q : A → S → Prop) (R : E → S → Prop) : Prop :=
  match m s with
  | Ret a t => Q a t
  | Fail e t => R e t
  | Panic => pan
  end.

Section wp.
Context {S E : Type} (pan : Prop).
Implicit Types (s t : S) (R : E → S → Prop).

Lemma wp_ret {A} (a : A) s Q R : Q a s → wp pan (mret a : M S E A) s Q R.
Proof. done. Qed.

Lemma wp_bind {A B} (m : M S E A) (f : A → M S E B) s Q R :
  wp pan m s (λ a t, wp pan (f a) t Q R) R → wp pan (m ≫= f) s Q R.
Proof. unfold wp, mbind, M_bind. by destruct (m s). Qed.

Lemma wp_gets {A} (f : S → A) s Q R : Q (f s) s → wp pan (gets f : M S E A) s Q R.
Proof. done. Qed.

Lemma wp_modify (f : S → S) s Q R : Q tt (f s) → wp pan (modify f : M S E unit) s Q R.
Proof. done. Qed.

Lemma wp_throw {A} (e : E) s (Q : A → S → Prop) R : R e s → wp pan (throw e) s Q R.
Proof. done. Qed.

Lemma wp_panic {A} s (Q : A → S → Prop) R : pan → wp pan (panic : M S E A) s Q R.
Proof. done. Qed.

Lemma wp_ensure b (e : E) s Q R :
  (b = true → Q tt s) → (b = false → R e s) → wp pan (ensure b e) s Q R.
Proof. destruct b; cbv [wp ensure mret M_ret throw]; auto. Qed.

Lemma wp_ok_or {A} (o : option A) (e : E) s Q R :
  (∀ a, o = Some a → Q a s) → (o = None → R e s) → wp pan (ok_or o e) s Q R.
Proof. destruct o; cbv [wp ok_or mret M_ret throw]; auto. Qed.

Lemma wp_expect {A} (o : option A) s Q R :
  (∀ a, o = Some a → Q a s) → (o = None → pan) → wp pan (expect o : M S E A) s Q R.
Proof. destruct o; cbv [wp expect mret M_ret panic]; auto. Qed.

Lemma wp_assert b s Q R :
  (b = true → Q tt s) → (b = false → pan) → wp pan (assert_that b : M S E unit) s Q R.
Proof. destruct b; cbv [wp assert_that mret M_ret panic]; auto. Qed.

Lemma wp_when b (m : M S E unit) s Q R :
  (b = true → wp pan m s Q R) → (b = false → Q tt s) → wp pan (when b m) s Q R.
Proof. destruct b; cbv [when]; intros; [auto|apply wp_ret; auto]. Qed.

Lemma wp_catch {A} (m : M S E A) s Q R :
  wp pan m s (λ a t, Q (inl a) t) (λ e t, Q (inr e) t) → wp pan (catch m) s Q R.
Proof. unfold wp, catch. by destruct (m s). Qed.

Lemma wp_lift_result {F A} (g : F → E) (r : result F A) s Q R :
  (∀ a, r = Ok a → Q a s) → (∀ e, r = Err e → R (g e) s) → (r = Panics → pan) →
  wp pan (lift_result g r) s Q R.
Proof. unfold wp, lift_result. destruct r; auto. Qed.

Lemma wp_mono {A} (m : M S E A) s (Q Q' : A → S → Prop) R R' :
  wp pan m s Q R →
  (∀ a t, Q a t → Q' a t) → (∀ e t, R e t → R' e t) → wp pan m s Q' R'.
Proof. unfold wp. destruct (m s); auto. Qed.

Lemma wp_Ret {A} (m : M S E A) s Q R a t : wp pan m s Q R → m s = Ret a t → Q a t.
Proof. unfold wp. intros H E1. by rewrite E1 in H. Qed.
End wp.

Ltac wp_step :=
  lazymatch goal with
  | |- wp _ (mbind _ _) _ _ _ => apply wp_bind; cbv beta
  | |- wp _ (mret _) _ _ _ => apply wp_ret; cbv beta
  | |- wp _ (gets _) _ _ _ => apply wp_gets; cbv beta
  | |- wp _ (modify _) _ _ _ => apply wp_modify; cbv beta
  | |- wp _ (throw _) _ _ _ => apply wp_throw; cbv beta
  | |- wp _ panic _ _ _ => apply wp_panic
  | |- wp _ (ensure _ _) _ _ _ => apply wp_ensure; intros; cbv beta
  | |- wp _ (ok_or _ _) _ _ _ => apply wp_ok_or; intros; cbv beta
  | |- wp _ (expect _) _ _ _ => apply wp_expect; intros; cbv beta
  | |- wp _ (assert_that _) _ _ _ => apply wp_assert; intros; cbv beta
  | |- wp _ (when _ _) _ _ _ => apply wp_when; intros; cbv beta
  | |- wp _ (lift_result _ _) _ _ _ => apply wp_lift_result; intros; cbv beta
  | |- wp _ (catch _) _ _ _ => apply wp_catch; cbv beta
  | |- wp _ (if ?b then _ else _) _ _ _ => destruct b eqn:?
  | |- wp _ (match ?o with _ => _ end) _ _ _ => destruct o eqn:?
  end.

(** ** Invariants *)

(** Whatever [m] does, error or not, the invariant survives. *)
Definition preserves {S E A} (I : S → Prop) (m : M S E A) : Prop :=
  ∀ s, I s → wp True m s (λ _ t, I t) (λ _ t, I t).

Create HintDb preserves.

Section preserves.
Context {S E : Type} (I : S → Prop).

Lemma preserves_ret {A} (a : A) : preserves I (mret a : M S E A).
Proof. by intros s Hs. Qed.

Lemma preserves_bind {A B} (m : M S E A) (f : A → M S E B) :
  preserves I m → (∀ a, preserves I (f a)) → preserves I (m ≫= f).
Proof. intros Hm Hf s Hs. apply wp_bind. eapply wp_mono; [by apply Hm|naive_solver..]. Qed.

(** A read whose value the rest of the run depends on. *)
Lemma preserves_bind_gets {A B} (g : S → A) (f : A → M S E B) :
  (∀ s, I s → wp True (f (g s)) s (λ _ t, I t) (λ _ t, I t)) →
  preserves I (gets g ≫= f).
Proof. intros Hf s Hs. by apply Hf. Qed.

Lemma preserves_gets {A} (g : S → A) : preserves I (gets g : M S E A).
Proof. by intros s Hs. Qed.

Lemma preserves_throw {A} (e : E) : preserves I (throw e : M S E A).
Proof. by intros s Hs. Qed.

Lemma preserves_panic {A} : preserves I (panic : M S E A).
Proof. by intros s Hs. Qed.

Lemma preserves_modify (f : S → S) :
  (∀ s, I s → I (f s)) → preserves I (modify f : M S E unit).
Proof. intros Hf s Hs. by apply Hf. Qed.

Lemma preserves_ensure b (e : E) : preserves I (ensure b e).
Proof. intros s Hs. by apply wp_ensure. Qed.

Lemma preserves_ok_or {A} (o : option A) (e : E) : preserves I (ok_or o e).
Proof. intros s Hs. by apply wp_ok_or. Qed.

Lemma preserves_expect {A} (o : option A) : preserves I (expect o : M S E A).
Proof. intros s Hs. by apply wp_expect. Qed.

Lemma preserves_assert b : preserves I (assert_that b : M S E unit).
Proof. intros s Hs. by apply wp_assert. Qed.

Lemma preserves_lift_result {F A} (g : F → E) (r : result F A) :
  preserves I (lift_result g r : M S E A).
Proof. intros s Hs. by apply wp_lift_result. Qed.

Lemma preserves_when b (m : M S E unit) : preserves I m → preserves I (when b m).
Proof. destruct b; [done|]. intros _. apply preserves_ret. Qed.

Lemma preserves_catch {A} (m : M S E A) : preserves I m → preserves I (catch m).
Proof. intros Hm s Hs. apply wp_catch. by apply Hm. Qed.

Lemma preserves_for_each {A} (l : list A) (body : A → M S E unit) :
  (∀ x, preserves I (body x)) → preserves I (for_each l body).
Proof.
  intros Hb. induction l as [|x l IH]; simpl; [apply preserves_ret|].
  by apply preserves_bind.
Qed.

Lemma preserves_for_while_in {A} (l : list A) (body : A → M S E bool) :
  (∀ x, x ∈ l → preserves I (body x)) → preserves I (for_while l body).
Proof.
  intros Hb. induction l as [|x l IH]; simpl; [apply preserves_ret|].
  apply preserves_bind; [by apply Hb; left|]. intros []; [|apply preserves_ret].
  apply IH. intros y Hy. apply Hb. by right.
Qed.

Lemma preserves_for_while {A} (l : list A) (body : A → M S E bool) :
  (∀ x, preserves I (body x)) → preserves I (for_while l body).
Proof. intros Hb. by apply preserves_for_while_in. Qed.

Lemma preserves_dispatch {A} (m : M S E A) : preserves I m → preserves I (dispatch m).
Proof.
  intros Hm s Hs. specialize (Hm s Hs). unfold wp, dispatch in *. by destruct (m s).
Qed.

Lemma preserves_iff (J : S → Prop) {A} (m : M S E A) :
  (∀ s, J s ↔ I s) → preserves J m → preserves I m.
Proof.
  intros Hij Hm s Hs. eapply wp_mono; [by apply Hm, Hij|intros ? ?; apply Hij..].
Qed.

Lemma preserves_and (J : S → Prop) {A} (m : M S E A) :
  preserves I m → preserves J m → preserves (λ s, I s ∧ J s) m.
Proof.
  intros Hm Hj s [Hs Hs']. specialize (Hm s Hs). specialize (Hj s Hs').
  unfold wp in *. by destruct (m s).
Qed.

Lemma preserves_final {A} (m : M S E A) s t :
  preserves I m → I s → final (m s) = Some t → I t.
Proof. intros Hm Hs. specialize (Hm s Hs). unfold wp, final in *. destruct (m s); naive_solver. Qed.
End preserves.

#[export] Hint Resolve preserves_ret preserves_gets preserves_throw preserves_panic
  preserves_ensure preserves_ok_or preserves_expect preserves_assert preserves_when
  preserves_catch preserves_dispatch preserves_lift_result : preserves.
#[export] Hint Extern 2 (preserves _ (mbind _ _)) => apply preserves_bind; [|intros ?] : preserves.
#[export] Hint Extern 2 (preserves _ (for_each _ _)) =>
  apply preserves_for_each; intros ? : preserves.
#[export] Hint Extern 2 (preserves _ (for_while _ _)) =>
  apply preserves_for_while; intros ? : preserves.
#[export] Hint Extern 3 (preserves _ (if ?b then _ else _)) => destruct b : preserves.
#[export] Hint Extern 3 (preserves _ (match ?o with _ => _ end)) => destruct o : preserves.

(** Preservation by a whole body, once the helpers it calls are unfolded or have
    hints. *)
Ltac solve_preserves := cbv zeta; auto 100 with preserves.
