(* ===== verification/Float.v ===== *)
(** * Floating point

    What the sources do in [f64]: an integer becomes a float, two floats are divided,
    the quotient is rounded down or up and cast back to an integer.  A float that is
    not negative is [m * 2 ^ e], infinite, or not a number; every operation rounds its
    exact result to the nearest float, ties to even, as IEEE 754 says.  Exponents are
    not bounded: the quotients of 64-bit integers are far from the limits of the
    format.  The theorem of the file is that rounding does not show: for integers below
    [2 ^ 53] the code computes the integer quotient. *)

From S2P Require Import Prelude.

Inductive f64 :=
| Finite (m e : Z)
| Infinity
| NaN.

(** The quotient [n / d] of positive numbers, to 53 significant bits: [s] is chosen so
    that [2 ^ 52 <= n * 2 ^ s / d < 2 ^ 53]. *)
Definition scale (n d : Z) : Z :=
  let k := Z.log2 n - Z.log2 d in
  52 - (if d * 2 ^ Z.max 0 k <=? n * 2 ^ Z.max 0 (- k) then k else k - 1).

Definition nearest_even (n d : Z) : Z :=
  let q := n / d in
  let r := n mod d in
  if (2 * r <? d) || ((2 * r =? d) && Z.even q) then q else q + 1.

Definition round53 (n d : Z) : f64 :=
  let s := scale n d in
  Finite (nearest_even (n * 2 ^ Z.max 0 s) (d * 2 ^ Z.max 0 (- s))) (- s).

(** [x as f64]. *)
Definition f64_of (x : Z) : f64 := if x =? 0 then Finite 0 0 else round53 x 1.

(** [a / b]. *)
Definition f64_div (a b : f64) : f64 :=
  match a, b with
  | NaN, _ | _, NaN | Infinity, Infinity => NaN
  | Infinity, _ => Infinity
  | Finite _ _, Infinity => Finite 0 0
  | Finite m e, Finite m' e' =>
      if m' =? 0 then (if m =? 0 then NaN else Infinity)
      else if m =? 0 then Finite 0 0
      else round53 (m * 2 ^ Z.max 0 (e - e')) (m' * 2 ^ Z.max 0 (e' - e))
  end.

(** [a.floor()] and [a.ceil()]; both keep what is not finite. *)
Definition f64_floor (a : f64) : f64 :=
  match a with
  | Finite m e => Finite (m * 2 ^ Z.max 0 e / 2 ^ Z.max 0 (- e)) 0
  | a => a
  end.

Definition f64_ceil (a : f64) : f64 :=
  match a with
  | Finite m e => Finite (- (- (m * 2 ^ Z.max 0 e) / 2 ^ Z.max 0 (- e))) 0
  | a => a
  end.

(** [a as uW]: towards zero, saturating, and zero for not-a-number. *)
Definition f64_as (w : Z) (a : f64) : Z :=
  match a with
  | Finite m e => Z.min (m * 2 ^ Z.max 0 e / 2 ^ Z.max 0 (- e)) (max_of w)
  | Infinity => max_of w
  | NaN => 0
  end.

(** ** Integers below [2 ^ 53] *)

(** Scaling numerator and denominator alike does not change a quotient. *)
Lemma scale_mul n d j : 0 < n → 0 < d → 0 <= j → scale (n * 2 ^ j) (d * 2 ^ j) = scale n d.
Proof.
  intros. unfold scale. rewrite !Z.log2_mul_pow2 by lia.
  replace (j + Z.log2 n - (j + Z.log2 d)) with (Z.log2 n - Z.log2 d) by lia.
  set (k := Z.log2 n - Z.log2 d). replace (_ <=? _)
    with (d * 2 ^ Z.max 0 k <=? n * 2 ^ Z.max 0 (- k)); [done|].
  assert (0 < 2 ^ j) by lia. apply eq_true_iff_eq. rewrite !Z.leb_le. nia.
Qed.

Lemma nearest_even_mul n d c : 0 < d → 0 < c → nearest_even (n * c) (d * c) = nearest_even n d.
Proof.
  intros. unfold nearest_even. rewrite Z.div_mul_cancel_r, Z.mul_mod_distr_r by lia.
  replace (2 * (n mod d * c) <? d * c) with (2 * (n mod d) <? d)
    by (apply eq_true_iff_eq; rewrite !Z.ltb_lt; nia).
  by replace (2 * (n mod d * c) =? d * c) with (2 * (n mod d) =? d)
    by (apply eq_true_iff_eq; rewrite !Z.eqb_eq; nia).
Qed.

Lemma round53_mul n d j : 0 < n → 0 < d → 0 <= j → round53 (n * 2 ^ j) (d * 2 ^ j) = round53 n d.
Proof.
  intros. unfold round53. rewrite scale_mul by done. f_equal.
  rewrite <- !(Z.mul_assoc _ (2 ^ j)), !(Z.mul_comm (2 ^ j)), !Z.mul_assoc.
  apply nearest_even_mul; lia.
Qed.

(** The scaled quotient of a number below [2 ^ 53] has at least 53 bits. *)
Lemma scale_lower n d : 0 < n < 2 ^ 53 → 0 < d →
  0 <= scale n d ∧ d * 2 ^ 52 <= n * 2 ^ scale n d ∧ 52 + Z.log2 d - Z.log2 n <= scale n d.
Proof.
  intros Hn Hd. unfold scale. set (k := Z.log2 n - Z.log2 d).
  pose proof (Z.log2_nonneg d). assert (Z.log2 n < 53) by (apply Z.log2_lt_pow2; lia).
  destruct (Z.log2_spec n) as [Hn1 _]; [lia|]. destruct (Z.log2_spec d) as [_ Hd2]; [lia|].
  assert (∀ j, j <= 52 → d * 2 ^ Z.max 0 j <= n * 2 ^ Z.max 0 (- j) →
    d * 2 ^ 52 <= n * 2 ^ (52 - j)) as Hj.
  { intros j Hj Hle. destruct (Z.le_gt_cases 0 j).
    - replace 52 with (j + (52 - j)) at 1 by lia. rewrite Z.pow_add_r, Z.mul_assoc by lia.
      rewrite Z.max_r, Z.max_l, Z.pow_0_r, Z.mul_1_r in Hle by lia.
      apply Z.mul_le_mono_nonneg_r; lia.
    - rewrite Z.max_l, Z.max_r, Z.pow_0_r, Z.mul_1_r in Hle by lia.
      replace (52 - j) with (- j + 52) by lia. rewrite Z.pow_add_r, Z.mul_assoc by lia.
      apply Z.mul_le_mono_nonneg_r; lia. }
  destruct (Z.leb_spec (d * 2 ^ Z.max 0 k) (n * 2 ^ Z.max 0 (- k))) as [Hle|Hgt];
    (split_and!; [lia| |lia]); apply Hj; try lia.
  apply Z.le_trans with (2 ^ Z.succ (Z.log2 d) * 2 ^ Z.max 0 (k - 1));
    [apply Z.mul_le_mono_nonneg_r; lia|].
  apply Z.le_trans with (2 ^ Z.log2 n * 2 ^ Z.max 0 (- (k - 1)));
    [|apply Z.mul_le_mono_nonneg_r; lia].
  pose proof (Z.log2_nonneg n). rewrite <- !Z.pow_add_r by lia. apply Z.pow_le_mono_r; lia.
Qed.

(** Integers below [2 ^ 53] are floats. *)
Lemma f64_of_exact x : 0 < x < 2 ^ 53 →
  ∃ s, 0 <= s ∧ f64_of x = Finite (x * 2 ^ s) (- s).
Proof.
  intros Hx. unfold f64_of. rewrite (proj2 (Z.eqb_neq x 0)) by lia.
  destruct (scale_lower x 1) as (Hs & _); [lia..|]. exists (scale x 1). split; [done|].
  unfold round53. f_equal. rewrite (Z.max_r 0), (Z.max_l 0 (- _)) by lia.
  unfold nearest_even. by rewrite Z.mul_1_r, Z.mod_1_r, Z.div_1_r.
Qed.

Lemma f64_div_exact x b : 0 < x < 2 ^ 53 → 0 < b < 2 ^ 53 →
  f64_div (f64_of x) (f64_of b) = round53 x b.
Proof.
  intros Hx Hb. destruct (f64_of_exact x Hx) as (s & Hs & ->).
  destruct (f64_of_exact b Hb) as (t & Ht & ->). simpl.
  assert (0 < 2 ^ s) by lia. assert (0 < 2 ^ t) by lia.
  rewrite !(proj2 (Z.eqb_neq _ 0)) by nia.
  rewrite <- !Z.mul_assoc, <- !Z.pow_add_r by lia.
  replace (t + Z.max 0 (- t - - s)) with (Z.max s t) by lia.
  replace (s + Z.max 0 (- s - - t)) with (Z.max s t) by lia. apply round53_mul; lia.
Qed.

Lemma nearest_even_cases n d :
  0 < d → nearest_even n d = n / d ∨ (nearest_even n d = n / d + 1 ∧ d <= 2 * (n mod d)).
Proof.
  intros. unfold nearest_even. destruct (Z.ltb_spec (2 * (n mod d)) d); [by left|].
  destruct ((2 * (n mod d) =? d) && Z.even (n / d)); simpl; auto.
Qed.

(** A quotient is not rounded up to the next integer. *)
Lemma round53_floor n d : 0 < n < 2 ^ 53 → 0 < d →
  nearest_even (n * 2 ^ scale n d) d / 2 ^ scale n d = n / d.
Proof.
  intros Hn Hd. destruct (scale_lower n d Hn Hd) as (Hs & Hlow & _).
  set (s := scale n d) in *. set (k := n / d). assert (0 < 2 ^ s) as Hp by lia.
  pose proof (Z.mul_div_le n d Hd) as Hk1. pose proof (Z.mul_succ_div_gt n d Hd) as Hk2.
  fold k in Hk1, Hk2.
  pose proof (Z.div_mod (n * 2 ^ s) d ltac:(lia)) as Hq.
  pose proof (Z.mod_pos_bound (n * 2 ^ s) d Hd) as Hr.
  set (q := n * 2 ^ s / d) in *. set (r := (n * 2 ^ s) mod d) in *.
  assert (k * 2 ^ s <= q) by (apply Z.div_le_lower_bound; nia).
  assert (q < (k + 1) * 2 ^ s) by (apply Z.div_lt_upper_bound; nia).
  destruct (nearest_even_cases (n * 2 ^ s) d Hd) as [Ene|[Ene Hup]]; rewrite Ene; fold q;
    symmetry; [apply (Z.div_unique _ _ _ (q - k * 2 ^ s)); lia|].
  fold r in Hup. apply (Z.div_unique _ _ _ (q + 1 - k * 2 ^ s)); [left|lia].
  (* otherwise the quotient is within half a unit of [k + 1], which needs 54 bits *)
  destruct (Z.lt_ge_cases (q + 1) ((k + 1) * 2 ^ s)) as [?|Hge]; [lia|exfalso].
  assert (q = (k + 1) * 2 ^ s - 1) as Eq by lia. rewrite Eq in Hq.
  assert (2 * 2 ^ s * ((k + 1) * d - n) <= d) by nia.
  assert (2 * 2 ^ s <= d) by nia. nia.
Qed.

(** ** The two expressions of the sources *)

(** [(x as f64 / b as f64).floor() as u64]. *)
Definition floor_div (x b : Z) : Z := f64_as 64 (f64_floor (f64_div (f64_of x) (f64_of b))).

(** [(x as f64 / 2.0).ceil() as u16]. *)
Definition ceil_half (x : Z) : Z := f64_as 16 (f64_ceil (f64_div (f64_of x) (f64_of 2))).

Lemma floor_div_exact x b : 0 <= x < 2 ^ 53 → 0 < b < 2 ^ 53 → floor_div x b = x / b.
Proof.
  intros Hx Hb. unfold floor_div. destruct (decide (x = 0)) as [->|].
  { rewrite Z.div_0_l by lia. destruct (f64_of_exact b Hb) as (s & Hs & ->).
    simpl. assert (0 < 2 ^ s) by lia. by rewrite (proj2 (Z.eqb_neq _ 0)) by nia. }
  rewrite f64_div_exact by lia. destruct (scale_lower x b) as (Hs & _); [lia..|].
  unfold round53, f64_floor, f64_as. rewrite (Z.max_r 0 (scale x b)), !(Z.max_l 0 (- _)) by lia.
  rewrite Z.opp_involutive, (Z.max_r 0 (scale x b)), !Z.pow_0_r, !Z.mul_1_r, Z.div_1_r by lia.
  rewrite round53_floor by lia. apply Z.min_l. pose proof (Z.div_le_upper_bound x b x).
  unfold max_of. nia.
Qed.

(** Division by zero saturates. *)
Lemma floor_div_0 x : 0 <= x < 2 ^ 53 → floor_div x 0 = if x =? 0 then 0 else max_of 64.
Proof.
  intros Hx. unfold floor_div. destruct (Z.eqb_spec x 0) as [->|]; [done|].
  destruct (f64_of_exact x) as (s & Hs & ->); [lia|]. simpl.
  assert (0 < 2 ^ s) by lia. by rewrite (proj2 (Z.eqb_neq _ 0)) by nia.
Qed.

Lemma ceil_half_exact x : 0 <= x < 2 ^ 16 → ceil_half x = (x + 1) / 2.
Proof.
  intros Hx. unfold ceil_half. destruct (decide (x = 0)) as [->|]; [done|].
  rewrite f64_div_exact by lia. destruct (scale_lower x 2) as (Hs & _ & Hs'); [lia..|].
  assert (Z.log2 x < 53) by (apply Z.log2_lt_pow2; lia).
  change (Z.log2 2) with 1 in Hs'. assert (0 <= scale x 2 - 1) as Hs1 by lia.
  unfold round53, f64_ceil, f64_as. rewrite (Z.max_r 0 (scale x 2)), !(Z.max_l 0 (- _)) by lia.
  rewrite Z.opp_involutive, (Z.max_r 0 (scale x 2)), !Z.pow_0_r, !Z.mul_1_r by lia.
  replace (2 ^ scale x 2) with (2 * 2 ^ (scale x 2 - 1))
    by (rewrite <- Z.pow_succ_r by lia; f_equal; lia).
  set (c := 2 ^ (scale x 2 - 1)). assert (0 < c) by (unfold c; lia).
  assert (nearest_even (x * (2 * c)) 2 = x * c) as ->.
  { unfold nearest_even. replace (x * (2 * c)) with (x * c * 2) by lia.
    by rewrite Z.div_mul, Z.mod_mul by lia. }
  rewrite <- Z.mul_opp_l, Z.div_mul_cancel_r, Z.div_1_r by lia.
  rewrite Z.min_l; [|change (max_of 16) with 65535];
    Z.to_euclidean_division_equations; lia.
Qed.
