(* ===== verification/Primitives.v ===== *)
(** * dkg-runtime-primitives

    The data types, codecs and pure helpers shared by the pallets and the
    gadget (src/dkg-runtime-primitives/src): proposals and their identifiers,
    the refresh proposal's byte layout, batches and their signing payloads,
    the acceptance window of protocol messages, and the secp256k1 signer
    checks.  The crates that are not part of the repository (webb-proposals,
    ethereum, ethabi, sp_io) are the fields of the classes [WebbProposals] and
    [Crypto]; what the code relies on of them is in [WebbLaws] and
    [CryptoLaws]. *)

From S2P Require Import Prelude.
From S2P Require Import Frame.

(** ** Identifiers *)

(** A DKG authority: a compressed secp256k1 public key (33 bytes). *)
Record DKGId := mkDKGId { dkg_bytes : bytes }.

Record AccountId := mkAccountId { account_bytes : bytes }.

#[export] Instance DKGId_eq_dec : EqDecision DKGId.
Proof. solve_decision. Defined.

#[export] Instance DKGId_countable : Countable DKGId.
Proof. apply (inj_countable' dkg_bytes mkDKGId). by intros []. Defined.

#[export] Instance AccountId_eq_dec : EqDecision AccountId.
Proof. solve_decision. Defined.

#[export] Instance AccountId_countable : Countable AccountId.
Proof. apply (inj_countable' account_bytes mkAccountId). by intros []. Defined.

Definition GENESIS_AUTHORITY_SET_ID : Z := 0.
Definition KEYGEN_TIMEOUT : Z := 10.
Definition SIGN_TIMEOUT : Z := 10.
Definition ASSOCIATED_BLOCK_ID_MESSAGE_DELIVERY_TOLERANCE : Z := SIGN_TIMEOUT - 2.

(** Whether a message for block [received] may be delivered to a protocol
    started at block [expected]; both are u64. *)
Definition associated_block_id_acceptable (expected received : Z) : bool :=
  let is_acceptable_above :=
    (expected <=? received) &&
    (received <=? saturating_add 64 expected ASSOCIATED_BLOCK_ID_MESSAGE_DELIVERY_TOLERANCE) in
  let is_acceptable_below :=
    (received <? expected) &&
    (saturating_sub expected ASSOCIATED_BLOCK_ID_MESSAGE_DELIVERY_TOLERANCE <=? received) in
  let is_equal := expected =? received in
  is_acceptable_above || is_acceptable_below || is_equal.

(** ** Proposals (the types of webb-proposals the sources match on) *)

(** The kinds the sources name; [OtherKind] stands for any further one. *)
Inductive ProposalKind :=
| EVM | Refresh | AnchorCreate | AnchorUpdate | TokenAdd | TokenRemove
| WrappingFeeUpdate | ResourceIdUpdate | RescueTokens | MaxDepositLimitUpdate
| MinWithdrawalLimitUpdate | SetVerifier | SetTreasuryHandler | FeeRecipientUpdate
| OtherKind (n : Z).

#[export] Instance ProposalKind_eq_dec : EqDecision ProposalKind.
Proof. solve_decision. Defined.

Definition kind_code (k : ProposalKind) : Z + Z :=
  match k with
  | EVM => inl 0 | Refresh => inl 1 | AnchorCreate => inl 2 | AnchorUpdate => inl 3
  | TokenAdd => inl 4 | TokenRemove => inl 5 | WrappingFeeUpdate => inl 6
  | ResourceIdUpdate => inl 7 | RescueTokens => inl 8 | MaxDepositLimitUpdate => inl 9
  | MinWithdrawalLimitUpdate => inl 10 | SetVerifier => inl 11
  | SetTreasuryHandler => inl 12 | FeeRecipientUpdate => inl 13
  | OtherKind n => inr n
  end.

Definition kind_of_code (c : Z + Z) : ProposalKind :=
  match c with
  | inr n => OtherKind n
  | inl 0 => EVM | inl 1 => Refresh | inl 2 => AnchorCreate | inl 3 => AnchorUpdate
  | inl 4 => TokenAdd | inl 5 => TokenRemove | inl 6 => WrappingFeeUpdate
  | inl 7 => ResourceIdUpdate | inl 8 => RescueTokens | inl 9 => MaxDepositLimitUpdate
  | inl 10 => MinWithdrawalLimitUpdate | inl 11 => SetVerifier
  | inl 12 => SetTreasuryHandler | inl 13 => FeeRecipientUpdate
  | inl n => OtherKind n
  end.

#[export] Instance ProposalKind_countable : Countable ProposalKind.
Proof. apply (inj_countable' kind_code kind_of_code). by intros []. Defined.

(** Chain identifiers; [OtherChain] stands for the chain types the sources do
    not name. *)
Inductive TypedChainId :=
| ChainNone
| Evm (id : Z)
| Substrate (id : Z)
| OtherChain (ty id : Z).

#[export] Instance TypedChainId_eq_dec : EqDecision TypedChainId.
Proof. solve_decision. Defined.

Definition chain_code (c : TypedChainId) : unit + (Z + (Z + Z * Z)) :=
  match c with
  | ChainNone => inl tt
  | Evm n => inr (inl n)
  | Substrate n => inr (inr (inl n))
  | OtherChain t n => inr (inr (inr (t, n)))
  end.

Definition chain_of_code (c : unit + (Z + (Z + Z * Z))) : TypedChainId :=
  match c with
  | inl _ => ChainNone
  | inr (inl n) => Evm n
  | inr (inr (inl n)) => Substrate n
  | inr (inr (inr (t, n))) => OtherChain t n
  end.

#[export] Instance TypedChainId_countable : Countable TypedChainId.
Proof. apply (inj_countable' chain_code chain_of_code). by intros []. Defined.

Inductive Proposal :=
| Signed (kind : ProposalKind) (data signature : bytes)
| Unsigned (kind : ProposalKind) (data : bytes).

#[export] Instance Proposal_eq_dec : EqDecision Proposal.
Proof. solve_decision. Defined.

#[export] Instance Proposal_countable : Countable Proposal.
Proof.
  apply (inj_countable'
    (λ p, match p with Signed k d s => inl (k, d, s) | Unsigned k d => inr (k, d) end)
    (λ c, match c with inl (k, d, s) => Signed k d s | inr (k, d) => Unsigned k d end)).
  by intros [].
Defined.

Definition proposal_kind (p : Proposal) : ProposalKind :=
  match p with Signed k _ _ | Unsigned k _ => k end.

Definition proposal_data (p : Proposal) : bytes :=
  match p with Signed _ d _ | Unsigned _ d => d end.

Definition proposal_signature (p : Proposal) : option bytes :=
  match p with Signed _ _ s => Some s | Unsigned _ _ => None end.

Definition is_signed (p : Proposal) : bool :=
  match p with Signed _ _ _ => true | Unsigned _ _ => false end.

Definition is_unsigned (p : Proposal) : bool := negb (is_signed p).

(** A transaction of the ethereum crate, down to the fields that are read. *)
Inductive TransactionV2 :=
| Legacy (nonce : Z)
| EIP2930 (chain_id nonce : Z)
| EIP1559 (chain_id nonce : Z).

(** A webb-proposals EVM proposal after [from_slice]: its header's nonce and
    resource id, and, for an anchor update, the source resource id. *)
Record ParsedProposal := mkParsedProposal {
  parsed_nonce : Z;
  parsed_resource_id : bytes;
  parsed_src_resource_id : bytes }.

Class WebbProposals := {
  (** [Nonce::to_bytes], [Nonce::from]. *)
  nonce_to_bytes : Z → bytes;
  nonce_from_bytes : bytes → Z;
  (** [ProposalHeader::LENGTH], [ProposalHeader::from] and its accessors. *)
  header_length : nat;
  header_nonce : bytes → Z;
  header_resource_id : bytes → bytes;
  (** [TypedChainId::from] six bytes. *)
  typed_chain_id_from : bytes → TypedChainId;
  (** [ResourceId::typed_chain_id]. *)
  resource_typed_chain_id : bytes → TypedChainId;
  (** [<P>::LENGTH] and [from_slice::<P>] for the EVM proposal of a kind. *)
  evm_proposal_length : ProposalKind → nat;
  evm_from_slice : ProposalKind → bytes → option ParsedProposal;
  (** [TransactionV2::decode]. *)
  transaction_decode : bytes → option TransactionV2;
  (** [ethabi::encode(&[Token::Array(..FixedBytes..)])]. *)
  abi_encode_array : list bytes → bytes }.

(** A nonce is four bytes, and reading one back gives the nonce. *)
Class WebbLaws `{WebbProposals} : Prop := {
  nonce_to_bytes_length n : length (nonce_to_bytes n) = 4%nat;
  nonce_from_to n : in_width 32 n → nonce_from_bytes (nonce_to_bytes n) = n }.

Class Crypto := {
  keccak_256 : bytes → bytes;
  (** [secp256k1_ecdsa_recover sig hash]: the 64 bytes of the public key. *)
  secp256k1_ecdsa_recover : bytes → bytes → option bytes;
  (** [libsecp256k1::PublicKey::parse_slice(.., Compressed)] then [serialize]. *)
  secp256k1_decompress : bytes → option bytes;
  (** [sr25519::Signature::from_slice] and [sr25519_verify]. *)
  sr25519_from_slice : bytes → option bytes;
  sr25519_verify : bytes → bytes → bytes → bool }.

(** The sizes of digests, recovered keys and serialized points. *)
Class CryptoLaws `{Crypto} : Prop := {
  keccak_256_length b : length (keccak_256 b) = 32%nat;
  recover_length sig hash k :
    secp256k1_ecdsa_recover sig hash = Some k → length k = 64%nat;
  decompress_length c k : secp256k1_decompress c = Some k → length k = 65%nat }.

(** ** The refresh proposal and its byte layout *)

Record RefreshProposal := mkRefreshProposal {
  voter_merkle_root : bytes;
  session_length : Z;
  voter_count : Z;
  refresh_nonce_of : Z;
  refresh_pub_key : bytes }.

#[export] Instance RefreshProposal_eq_dec : EqDecision RefreshProposal.
Proof. solve_decision. Defined.

Definition NONCE_LENGTH : nat := 4.

Definition REFRESH_LENGTH : nat := 32 + 8 + 4 + NONCE_LENGTH + 64.

Definition refresh_default : RefreshProposal := {|
  voter_merkle_root := replicate 32 0;
  session_length := 0;
  voter_count := 0;
  refresh_nonce_of := 0;
  refresh_pub_key := [] |}.

(** [buf[i..j].copy_from_slice(src)]: a panic unless the lengths agree. *)
Definition copy_range {E} (i j : nat) (src buf : bytes) : result E bytes :=
  if decide (length src = j - i ∧ i <= j ∧ j <= length buf)%nat
  then Ok (take i buf ++ src ++ drop j buf) else Panics.

Section refresh.
Context `{WebbProposals}.

Definition refresh_encode {E} (p : RefreshProposal) : result E bytes :=
  let ret := replicate REFRESH_LENGTH 0 in
  ret ← copy_range 0 32 (voter_merkle_root p) ret;
  ret ← copy_range 32 40 (be_encode 8 (session_length p)) ret;
  ret ← copy_range 40 44 (be_encode 4 (voter_count p)) ret;
  ret ← copy_range 44 (44 + NONCE_LENGTH) (nonce_to_bytes (refresh_nonce_of p)) ret;
  copy_range (44 + NONCE_LENGTH) REFRESH_LENGTH (refresh_pub_key p) ret.

(** [Decode::decode]; [None] is the error for short inputs. *)
Definition refresh_decode (input : bytes) : option RefreshProposal :=
  if (length input <? REFRESH_LENGTH)%nat then None else
  let data := take REFRESH_LENGTH input in
  Some {|
    voter_merkle_root := slice 0 32 data;
    session_length := be_decode (slice 32 40 data);
    voter_count := be_decode (slice 40 44 data);
    refresh_nonce_of := nonce_from_bytes (slice 44 (44 + NONCE_LENGTH) data);
    refresh_pub_key := slice (44 + NONCE_LENGTH) REFRESH_LENGTH data |}.

(** The field widths that Rust's types fix, and the 64-byte key. *)
Definition refresh_wf (p : RefreshProposal) : Prop :=
  length (voter_merkle_root p) = 32%nat ∧ in_width 64 (session_length p) ∧
  in_width 32 (voter_count p) ∧ in_width 32 (refresh_nonce_of p) ∧
  length (refresh_pub_key p) = 64%nat.
End refresh.

(** ** Payload keys *)

Inductive DKGPayloadKey :=
| EVMProposal (n : Z)
| RefreshProposalKey (n : Z)
| AnchorCreateProposal (n : Z)
| AnchorUpdateProposal (n : Z)
| TokenAddProposal (n : Z)
| TokenRemoveProposal (n : Z)
| WrappingFeeUpdateProposal (n : Z)
| ResourceIdUpdateProposal (n : Z)
| RescueTokensProposal (n : Z)
| MaxDepositLimitUpdateProposal (n : Z)
| MinWithdrawalLimitUpdateProposal (n : Z)
| SetVerifierProposal (n : Z)
| SetTreasuryHandlerProposal (n : Z)
| FeeRecipientUpdateProposal (n : Z).

#[export] Instance DKGPayloadKey_eq_dec : EqDecision DKGPayloadKey.
Proof. solve_decision. Defined.

(** The hand-written [PartialEq]. *)
Definition payload_key_eq (a b : DKGPayloadKey) : bool :=
  match a, b with
  | EVMProposal l0, EVMProposal r0 => l0 =? r0
  | RefreshProposalKey l0, RefreshProposalKey r0 => l0 =? r0
  | AnchorCreateProposal l0, AnchorCreateProposal r0 => l0 =? r0
  | AnchorUpdateProposal l0, AnchorUpdateProposal r0 => l0 =? r0
  | TokenAddProposal l0, TokenAddProposal r0 => l0 =? r0
  | TokenRemoveProposal l0, TokenRemoveProposal r0 => l0 =? r0
  | WrappingFeeUpdateProposal l0, WrappingFeeUpdateProposal r0 => l0 =? r0
  | ResourceIdUpdateProposal l0, ResourceIdUpdateProposal r0 => l0 =? r0
  | RescueTokensProposal l0, RescueTokensProposal r0 => l0 =? r0
  | MaxDepositLimitUpdateProposal l0, MaxDepositLimitUpdateProposal r0 => l0 =? r0
  | MinWithdrawalLimitUpdateProposal l0, MinWithdrawalLimitUpdateProposal r0 => l0 =? r0
  | SetVerifierProposal l0, SetVerifierProposal r0 => l0 =? r0
  | SetTreasuryHandlerProposal l0, SetTreasuryHandlerProposal r0 => l0 =? r0
  | FeeRecipientUpdateProposal l0, FeeRecipientUpdateProposal r0 => l0 =? r0
  | _, _ => false
  end.

(** The proposal kind a key is made for. *)
Definition payload_key_kind (k : DKGPayloadKey) : ProposalKind :=
  match k with
  | EVMProposal _ => EVM
  | RefreshProposalKey _ => Refresh
  | AnchorCreateProposal _ => AnchorCreate
  | AnchorUpdateProposal _ => AnchorUpdate
  | TokenAddProposal _ => TokenAdd
  | TokenRemoveProposal _ => TokenRemove
  | WrappingFeeUpdateProposal _ => WrappingFeeUpdate
  | ResourceIdUpdateProposal _ => ResourceIdUpdate
  | RescueTokensProposal _ => RescueTokens
  | MaxDepositLimitUpdateProposal _ => MaxDepositLimitUpdate
  | MinWithdrawalLimitUpdateProposal _ => MinWithdrawalLimitUpdate
  | SetVerifierProposal _ => SetVerifier
  | SetTreasuryHandlerProposal _ => SetTreasuryHandler
  | FeeRecipientUpdateProposal _ => FeeRecipientUpdate
  end.

(** ** Decoding proposals *)

Inductive ValidationError :=
| InvalidDecoding (msg : string)
| InvalidParameter (msg : string)
| UnimplementedProposalKind
| InvalidProposalBytesLength.

Record ProposalIdentifier := mkProposalIdentifier {
  key : DKGPayloadKey;
  typed_chain_id : TypedChainId }.

#[export] Instance ProposalIdentifier_eq_dec : EqDecision ProposalIdentifier.
Proof. solve_decision. Defined.

Record ProposalHeader := mkProposalHeader { nonce : Z; resource_id : bytes }.

Section decode.
Context `{WebbProposals}.

(** [U256::as_u32] panics when the number does not fit. *)
Definition as_u32 (n : Z) : result ValidationError Z :=
  if n <? 2 ^ 32 then Ok n else Panics.

Definition chain_id_u32 (n : Z) : result ValidationError Z :=
  if n <? 2 ^ 32 then Ok n
  else Err (InvalidParameter "Invalid chain id (could not fit into u32)").

Definition decode_evm_transaction (tx : TransactionV2) : result ValidationError (Z * Z) :=
  match tx with
  | Legacy n => nonce ← as_u32 n; mret (0, nonce)
  | EIP2930 c n | EIP1559 c n =>
      chain_id ← chain_id_u32 c; nonce ← as_u32 n; mret (chain_id, nonce)
  end.

Definition validate_ethereum_tx (tx : TransactionV2) : bool :=
  match tx with Legacy _ | EIP2930 _ _ | EIP1559 _ _ => true end.

(** [evm_tx::create], down to the chain id and the nonce. *)
Definition evm_tx_create (data : bytes) : result ValidationError (Z * Z) :=
  tx ← result_of (transaction_decode data) (InvalidParameter "Invalid transaction");
  if negb (validate_ethereum_tx tx)
  then Err (InvalidParameter "Ethereum transaction is invalid")
  else decode_evm_transaction tx.

(** [refresh::create]. *)
Definition refresh_create (data : bytes) : result ValidationError RefreshProposal :=
  if (length data =? REFRESH_LENGTH)%nat
  then result_of (refresh_decode data) (InvalidDecoding "Failed to decode RefreshProposal")
  else Err InvalidProposalBytesLength.

(** The [create] function that the [proposal_module!] macro generates. *)
Definition evm_create (k : ProposalKind) (data : bytes)
    : result ValidationError ParsedProposal :=
  if (length data =? evm_proposal_length k)%nat
  then result_of (evm_from_slice k data) (InvalidDecoding "from_slice")
  else Err InvalidProposalBytesLength.

Definition decode_proposal_header (data : bytes) : result ValidationError ProposalHeader :=
  if (length data <? header_length)%nat then Err InvalidProposalBytesLength else
  let bytes := take header_length data in
  mret {| nonce := header_nonce bytes; resource_id := header_resource_id bytes |}.

Definition matches_kind (prop_kind expected_kind : ProposalKind)
    (out : ProposalIdentifier) : result ValidationError ProposalIdentifier :=
  if decide (prop_kind = expected_kind) then Ok out else Err UnimplementedProposalKind.

Definition decode_proposal_identifier (p : Proposal)
    : result ValidationError ProposalIdentifier :=
  let data := proposal_data p in
  if decide (proposal_kind p = EVM) then
    '(chain_id, n) ← evm_tx_create data;
    mret {| key := EVMProposal n; typed_chain_id := Evm chain_id |}
  else
  header ← decode_proposal_header data;
  let chain := resource_typed_chain_id (resource_id header) in
  let attempt (create : bytes → result ValidationError Z)
      (mk : Z → DKGPayloadKey) (k : ProposalKind) :=
    n ← create data;
    matches_kind (proposal_kind p) k {| key := mk n; typed_chain_id := chain |} in
  let evm k d := q ← evm_create k d; mret (parsed_nonce q) in
  let maybe_refresh_vote :=
    attempt (λ d, q ← refresh_create d; mret (refresh_nonce_of q)) RefreshProposalKey Refresh in
  let maybe_anchor_update := attempt (evm AnchorUpdate) AnchorUpdateProposal AnchorUpdate in
  let maybe_token_add := attempt (evm TokenAdd) TokenAddProposal TokenAdd in
  let maybe_token_remove := attempt (evm TokenRemove) TokenRemoveProposal TokenRemove in
  let maybe_fee_update :=
    attempt (evm WrappingFeeUpdate) WrappingFeeUpdateProposal WrappingFeeUpdate in
  let maybe_resource_id_update :=
    attempt (evm ResourceIdUpdate) ResourceIdUpdateProposal ResourceIdUpdate in
  let maybe_rescue_tokens := attempt (evm RescueTokens) RescueTokensProposal RescueTokens in
  let maybe_max_deposit_limit_update :=
    attempt (evm MaxDepositLimitUpdate) MaxDepositLimitUpdateProposal MaxDepositLimitUpdate in
  let maybe_min_withdrawal_limit_update :=
    attempt (evm MinWithdrawalLimitUpdate) MinWithdrawalLimitUpdateProposal
      MinWithdrawalLimitUpdate in
  let maybe_set_treasury_handler :=
    attempt (evm SetTreasuryHandler) SetTreasuryHandlerProposal SetTreasuryHandler in
  let maybe_set_verifier := attempt (evm SetVerifier) SetVerifierProposal SetVerifier in
  let maybe_fee_recipient_update :=
    attempt (evm FeeRecipientUpdate) FeeRecipientUpdateProposal FeeRecipientUpdate in
  result_map_err (λ _, UnimplementedProposalKind)
    (foldl result_or maybe_refresh_vote
      [maybe_anchor_update; maybe_token_add; maybe_token_remove; maybe_fee_update;
       maybe_resource_id_update; maybe_rescue_tokens; maybe_max_deposit_limit_update;
       maybe_min_withdrawal_limit_update; maybe_set_treasury_handler; maybe_set_verifier;
       maybe_fee_recipient_update]).
End decode.

(** ** Batches and reports *)

Record UnsignedProposal := mkUnsignedProposal {
  up_typed_chain_id : TypedChainId;
  up_key : DKGPayloadKey;
  up_proposal : Proposal }.

#[export] Instance UnsignedProposal_eq_dec : EqDecision UnsignedProposal.
Proof. solve_decision. Defined.

Definition up_data (p : UnsignedProposal) : bytes := proposal_data (up_proposal p).

Record StoredUnsignedProposalBatch := mkStoredUnsignedProposalBatch {
  ub_batch_id : Z;
  ub_proposals : list UnsignedProposal;
  ub_timestamp : Z }.

Record SignedProposalBatch := mkSignedProposalBatch {
  sb_batch_id : Z;
  sb_proposals : list Proposal;
  sb_signature : bytes }.

#[export] Instance StoredUnsignedProposalBatch_eq_dec : EqDecision StoredUnsignedProposalBatch.
Proof. solve_decision. Defined.

#[export] Instance SignedProposalBatch_eq_dec : EqDecision SignedProposalBatch.
Proof. solve_decision. Defined.

Record DKGSignedPayload := mkDKGSignedPayload {
  dsp_batch_id : Z;
  dsp_payload : list Proposal;
  dsp_signature : bytes }.

Definition signed_batch_from_payload (p : DKGSignedPayload) : SignedProposalBatch := {|
  sb_batch_id := dsp_batch_id p;
  sb_proposals := dsp_payload p;
  sb_signature := dsp_signature p |}.

(** The bytes that the DKG signs for a batch. *)
Definition unsigned_batch_data `{WebbProposals} (b : StoredUnsignedProposalBatch) : bytes :=
  match ub_proposals b with
  | [p] => up_data p
  | ps => abi_encode_array (up_data <$> ps)
  end.

Definition unsigned_batch_hash `{WebbProposals, Crypto}
    (b : StoredUnsignedProposalBatch) : option bytes :=
  Some (keccak_256 (unsigned_batch_data b)).

Definition signed_batch_data `{WebbProposals} (b : SignedProposalBatch) : bytes :=
  match sb_proposals b with
  | [p] => proposal_data p
  | ps => abi_encode_array (proposal_data <$> ps)
  end.

Inductive MisbehaviourType := MisbehaviourKeygen | MisbehaviourSign.

#[export] Instance MisbehaviourType_eq_dec : EqDecision MisbehaviourType.
Proof. solve_decision. Defined.

#[export] Instance MisbehaviourType_countable : Countable MisbehaviourType.
Proof.
  apply (inj_countable' (λ m, match m with MisbehaviourKeygen => true | _ => false end)
    (λ b, if b : bool then MisbehaviourKeygen else MisbehaviourSign)).
  by intros [].
Defined.

Record AggregatedMisbehaviourReports := mkAggregatedMisbehaviourReports {
  misbehaviour_type : MisbehaviourType;
  report_session_id : Z;
  offender : DKGId;
  reporters : list DKGId;
  report_signatures : list bytes }.

(** [AggregatedPublicKeys]: public keys with the signatures over them. *)
Abbreviation AggregatedPublicKeys := (list (bytes * bytes)).

Record AuthoritySet := mkAuthoritySet { as_authorities : list DKGId; as_id : Z }.

Inductive ConsensusLog :=
| AuthoritiesChange (active queued : AuthoritySet)
| OnDisabled (index : Z)
| KeyRefresh (forced : bool) (old_public_key new_public_key new_key_signature : bytes).

(** ** MMR leaf versions *)

Definition mmr_version_new (major minor : Z) : result Empty_set Z :=
  if (7 <? major) || (31 <? minor) then Panics
  else Ok (wrap 8 (Z.shiftl major 5 + minor)).

Definition mmr_version_split (v : Z) : Z * Z := (Z.shiftr v 5, Z.land v 31).

(** ** Signatures *)

Definition SIGNATURE_LENGTH : nat := 65.
Definition ECDSA_KEY_LENGTH : nat := 33.
Definition SR25519_KEY_LENGTH : nat := 32.

Inductive SignatureError :=
| InvalidDKGKey
| InvalidRecovery (expected actual : bytes)
| InvalidECDSASignature.

Definition expected_public_key (e : SignatureError) : option bytes :=
  match e with InvalidRecovery expected _ => Some expected | _ => None end.

Definition actual_public_key (e : SignatureError) : option bytes :=
  match e with InvalidRecovery _ actual => Some actual | _ => None end.

Definition to_slice_32 (val : bytes) : option bytes :=
  if (length val =? SR25519_KEY_LENGTH)%nat then Some val else None.

Definition to_slice_33 (val : bytes) : option bytes :=
  if (length val =? ECDSA_KEY_LENGTH)%nat then Some val else None.

Section signatures.
Context `{Crypto}.

Definition validate_ecdsa_signature (data signature : bytes) : bool :=
  if (length signature =? SIGNATURE_LENGTH)%nat
  then bool_decide (is_Some (secp256k1_ecdsa_recover signature (keccak_256 data)))
  else false.

Definition recover_ecdsa_pub_key (data signature : bytes) : option bytes :=
  if (length signature =? SIGNATURE_LENGTH)%nat
  then secp256k1_ecdsa_recover signature (keccak_256 data)
  else None.

(** [iter().any(..)] with the side effect on [signer]: the first member whose
    33-byte key ends with the first 32 recovered bytes. *)
Fixpoint verify_signer_from_set_ecdsa (maybe_signers : list bytes) (msg signature : bytes)
    : option bytes * bool :=
  match maybe_signers with
  | [] => (None, false)
  | x :: rest =>
      match recover_ecdsa_pub_key msg signature with
      | Some data =>
          if decide (drop 1 x = take 32 data) then (Some x, true)
          else verify_signer_from_set_ecdsa rest msg signature
      | None => verify_signer_from_set_ecdsa rest msg signature
      end
  end.

(** The sr25519 variant also returns the position of the signer. *)
Fixpoint verify_signer_from_set_at (index : nat) (maybe_signers : list bytes)
    (msg signature : bytes) : option bytes * bool * option nat :=
  match maybe_signers with
  | [] => (None, false, None)
  | x :: rest =>
      match sr25519_from_slice signature with
      | Some decoded_signature =>
          if sr25519_verify decoded_signature msg x then (Some x, true, Some index)
          else verify_signer_from_set_at (S index) rest msg signature
      | None => verify_signer_from_set_at (S index) rest msg signature
      end
  end.

Definition verify_signer_from_set := verify_signer_from_set_at 0.

Definition ensure_signed_by_dkg (dkg_key signature data : bytes)
    : result SignatureError unit :=
  recovered_key ← result_of (recover_ecdsa_pub_key data signature) InvalidECDSASignature;
  if bool_decide (dkg_key = []) || negb (length dkg_key =? 33)%nat
  then Err InvalidDKGKey
  else
    let current_dkg := drop 1 dkg_key in
    let signer := take 32 recovered_key in
    if decide (signer = current_dkg) then Ok tt
    else Err (InvalidRecovery dkg_key recovered_key).

(** The message over which misbehaviour reports are signed. *)
Definition misbehaviour_payload (ty : MisbehaviourType) (session : Z) (who : DKGId) : bytes :=
  (match ty with MisbehaviourKeygen => [1] | MisbehaviourSign => [2] end)
  ++ be_encode 8 session ++ dkg_bytes who.
End signatures.

(** ** Theorems *)

Lemma copy_range_ok {E} (i j : nat) (pre old post src : bytes) :
  length pre = i → length src = (j - i)%nat → length old = length src → (i <= j)%nat →
  copy_range i j src (pre ++ old ++ post) = (Ok (pre ++ src ++ post) : result E bytes).
Proof.
  intros Hi Hs Ho Hij. unfold copy_range. rewrite decide_True.
  - f_equal. rewrite (take_app_length' pre) by done. f_equal. f_equal.
    rewrite app_assoc. apply drop_app_length'. rewrite length_app. lia.
  - rewrite !length_app. lia.
Qed.

(** The layout of an encoded refresh proposal. *)
Lemma refresh_encode_layout `{WebbLaws} {E} p :
  refresh_wf p →
  refresh_encode p = (Ok (voter_merkle_root p ++ be_encode 8 (session_length p) ++
    be_encode 4 (voter_count p) ++ nonce_to_bytes (refresh_nonce_of p) ++
    refresh_pub_key p) : result E bytes).
Proof.
  intros (Hr & _ & _ & _ & Hk). unfold refresh_encode.
  change (replicate REFRESH_LENGTH 0) with
    ([] ++ replicate 32 0 ++ replicate 80 0).
  rewrite copy_range_ok by (rewrite ?length_replicate; simpl; lia). cbn [mbind result_bind].
  change (replicate 80 0) with (replicate 8 0 ++ replicate 72 0).
  rewrite app_nil_l, copy_range_ok
    by (rewrite ?be_encode_length, ?length_replicate; simpl; lia). cbn [mbind result_bind].
  change (replicate 72 0) with (replicate 4 0 ++ replicate 68 0).
  rewrite (app_assoc (voter_merkle_root p)), copy_range_ok
    by (rewrite ?length_app, ?be_encode_length, ?length_replicate; simpl; lia).
  cbn [mbind result_bind].
  change (replicate 68 0) with (replicate 4 0 ++ replicate 64 0).
  rewrite (app_assoc (_ ++ _)), copy_range_ok
    by (rewrite ?length_app, ?be_encode_length, ?nonce_to_bytes_length, ?length_replicate;
        simpl; lia).
  cbn [mbind result_bind].
  rewrite <- (app_nil_r (replicate 64 0)), (app_assoc (_ ++ be_encode 4 _)), copy_range_ok
    by (rewrite ?length_app, ?be_encode_length, ?nonce_to_bytes_length, ?length_replicate;
        unfold REFRESH_LENGTH, NONCE_LENGTH; simpl; lia).
  by rewrite app_nil_r, <- !app_assoc.
Qed.

Lemma refresh_decode_encode `{WebbLaws} {E} p :
  refresh_wf p →
  ∃ bs, refresh_encode p = (Ok bs : result E bytes) ∧ length bs = REFRESH_LENGTH ∧
        refresh_decode bs = Some p.
Proof.
  intros Hwf. eexists. split; [by apply refresh_encode_layout|].
  destruct Hwf as (Hr & Hs & Hv & Hn & Hk).
  assert (length (voter_merkle_root p ++ be_encode 8 (session_length p) ++
    be_encode 4 (voter_count p) ++ nonce_to_bytes (refresh_nonce_of p) ++
    refresh_pub_key p) = REFRESH_LENGTH) as Hl.
  { rewrite !length_app, !be_encode_length, nonce_to_bytes_length, Hr, Hk. reflexivity. }
  split; [done|]. unfold refresh_decode. rewrite Hl, Nat.ltb_irrefl.
  rewrite take_ge by lia.
  rewrite slice_prefix by done.
  rewrite (slice_field 32 40) by (rewrite ?be_encode_length; done).
  rewrite (app_assoc (voter_merkle_root p)), (slice_field 40 44)
    by (rewrite ?length_app, ?be_encode_length, ?Hr; done).
  rewrite (app_assoc (_ ++ _) (be_encode 4 _)), (slice_field 44 (44 + NONCE_LENGTH))
    by (rewrite ?length_app, ?be_encode_length, ?nonce_to_bytes_length, ?Hr; done).
  rewrite (app_assoc (_ ++ be_encode 4 _)), <- (app_nil_r (refresh_pub_key p)).
  rewrite (slice_field (44 + NONCE_LENGTH) REFRESH_LENGTH)
    by (rewrite ?length_app, ?be_encode_length, ?nonce_to_bytes_length, ?Hr, ?Hk; done).
  rewrite !be_decode_encode, nonce_from_to by done. by destruct p.
Qed.

(** C25: encoding a refresh proposal never panics when its key has the 64 bytes of
    an uncompressed point, gives exactly [LENGTH] bytes, and decoding those bytes
    gives the proposal back. *)
Theorem refresh_roundtrip `{WebbLaws} {E} p :
  refresh_wf p →
  ∃ bs, refresh_encode p = (Ok bs : result E bytes) ∧ length bs = REFRESH_LENGTH ∧
        refresh_decode bs = Some p.
Proof. apply refresh_decode_encode. Qed.

(** A key of any other length makes [encode] panic, whatever else the proposal
    holds; the default proposal is such a case. *)
Lemma refresh_encode_bad_key `{WebbProposals} {E} p :
  length (refresh_pub_key p) ≠ 64%nat → ∀ bs, refresh_encode p ≠ (Ok bs : result E bytes).
Proof.
  intros Hk bs Hd. unfold refresh_encode in Hd.
  repeat apply result_bind_Ok in Hd as (? & _ & Hd).
  unfold copy_range in Hd. case_decide as Hl; [|done].
  unfold REFRESH_LENGTH, NONCE_LENGTH in Hl. lia.
Qed.

(** A message is deliverable exactly when its block number is within the
    tolerance (eight blocks) of the protocol's, on both sides and up to the ends of
    the u64 range. *)
Theorem associated_block_id_acceptable_spec expected received :
  in_width 64 expected → in_width 64 received →
  associated_block_id_acceptable expected received = true ↔
  Z.abs (expected - received) <= ASSOCIATED_BLOCK_ID_MESSAGE_DELIVERY_TOLERANCE.
Proof.
  unfold associated_block_id_acceptable, in_width, saturating_add, saturating_sub, max_of.
  change ASSOCIATED_BLOCK_ID_MESSAGE_DELIVERY_TOLERANCE with 8.
  rewrite !orb_true_iff, !andb_true_iff, !Z.leb_le, Z.ltb_lt, Z.eqb_eq. lia.
Qed.

Lemma payload_key_eq_true a b : payload_key_eq a b = true ↔ a = b.
Proof. destruct a, b; simpl; rewrite ?Z.eqb_eq; split; congruence. Qed.

(** ** Identifiers *)

Section identifiers.
Context `{WebbProposals}.

Lemma matches_kind_Ok pk k out id :
  matches_kind pk k out = Ok id ↔ pk = k ∧ id = out.
Proof. unfold matches_kind. case_decide; naive_solver. Qed.

Lemma result_or_Ok {E A} (r1 r2 : result E A) a :
  result_or r1 r2 = Ok a → r1 = Ok a ∨ r2 = Ok a.
Proof. destruct r1; simpl; naive_solver. Qed.

Lemma attempt_kind pk chain (r : result ValidationError Z) mk k id :
  (∀ n, payload_key_kind (mk n) = k) →
  (n ← r; matches_kind pk k {| key := mk n; typed_chain_id := chain |}) = Ok id →
  payload_key_kind (key id) = pk.
Proof.
  intros Hmk Ha. apply result_bind_Ok in Ha as (n & _ & Ha).
  apply matches_kind_Ok in Ha as [-> ->]. apply Hmk.
Qed.

(** The payload key of a decoded proposal has the constructor of the
    proposal's kind, so a proposal is never stored under the key of another kind. *)
Theorem decode_proposal_identifier_kind p id :
  decode_proposal_identifier p = Ok id → payload_key_kind (key id) = proposal_kind p.
Proof.
  unfold decode_proposal_identifier. case_decide as Hk.
  - intros Hd. apply result_bind_Ok in Hd as ([c n] & _ & [= <-]). by rewrite Hk.
  - intros Hd. apply result_bind_Ok in Hd as (h & _ & Hd).
    destruct (foldl _ _ _) as [id'|?|] eqn:Hf; simplify_eq/=.
    repeat (apply result_or_Ok in Hf as [Hf|Hf]);
      (apply attempt_kind in Hf; [done|done]).
Qed.
End identifiers.

(** ** Signers *)

Section signers.
Context `{Crypto}.

Lemma verify_signer_cases signers msg sig o b :
  verify_signer_from_set_ecdsa signers msg sig = (o, b) →
  (b = true ↔ ∃ k x, recover_ecdsa_pub_key msg sig = Some k ∧ x ∈ signers ∧
                     drop 1 x = take 32 k) ∧
  match o with
  | Some x => b = true ∧ x ∈ signers ∧
      ∃ k, recover_ecdsa_pub_key msg sig = Some k ∧ drop 1 x = take 32 k
  | None => b = false
  end.
Proof.
  revert o b. induction signers as [|x signers IH]; simpl; intros o b Hv.
  - simplify_eq. split; [|done]. split; [done|]. intros (? & ? & _ & Hin & _).
    by apply not_elem_of_nil in Hin.
  - destruct (recover_ecdsa_pub_key msg sig) as [k|] eqn:Hr; [case_decide as Hx|].
    + simplify_eq. set_solver.
    + apply IH in Hv as [Hb Ho]. split; [set_solver|]. destruct o; set_solver.
    + apply IH in Hv as [Hb Ho]. split; [set_solver|]. destruct o; set_solver.
Qed.

Lemma verify_signer_in signers msg sig x b :
  verify_signer_from_set_ecdsa signers msg sig = (Some x, b) → b = true ∧ x ∈ signers.
Proof. intros Hv. apply verify_signer_cases in Hv. naive_solver. Qed.

(** [verify_signer_from_set_ecdsa] succeeds exactly when some member of the
    set has the x-coordinate recovered from the signature, and the signer it
    returns is such a member; otherwise it returns no signer. *)
Theorem verify_signer_from_set_ecdsa_spec signers msg sig o b :
  verify_signer_from_set_ecdsa signers msg sig = (o, b) →
  (b = true ↔ ∃ k x, recover_ecdsa_pub_key msg sig = Some k ∧ x ∈ signers ∧
                     drop 1 x = take 32 k) ∧
  match o with
  | Some x => b = true ∧ x ∈ signers ∧
      ∃ k, recover_ecdsa_pub_key msg sig = Some k ∧ drop 1 x = take 32 k
  | None => b = false
  end.
Proof. apply verify_signer_cases. Qed.

(** A payload passes [ensure_signed_by_dkg] exactly when the signature
    recovers to a point whose x-coordinate is that of the 33-byte key on chain;
    no other key is accepted. *)
Theorem ensure_signed_by_dkg_spec dkg_key sig data :
  ensure_signed_by_dkg dkg_key sig data = Ok tt ↔
  ∃ k, recover_ecdsa_pub_key data sig = Some k ∧ length dkg_key = 33%nat ∧
       take 32 k = drop 1 dkg_key.
Proof.
  unfold ensure_signed_by_dkg, result_of.
  destruct (recover_ecdsa_pub_key data sig) as [k|]; simpl; [|naive_solver].
  case_bool_decide as Hn; simpl; [split; [done|]; intros (? & _ & Hl & _); by subst|].
  destruct (Nat.eqb_spec (length dkg_key) 33); simpl; [|naive_solver].
  case_decide; naive_solver.
Qed.

Lemma ensure_signed_by_dkg_no_panic dkg_key sig data :
  ensure_signed_by_dkg dkg_key sig data ≠ Panics.
Proof.
  unfold ensure_signed_by_dkg, result_of.
  destruct (recover_ecdsa_pub_key data sig); simpl; [|done].
  repeat case_match; done.
Qed.

Lemma recover_length_signature msg sig k :
  recover_ecdsa_pub_key msg sig = Some k → length sig = SIGNATURE_LENGTH.
Proof. unfold recover_ecdsa_pub_key. destruct (Nat.eqb_spec (length sig) SIGNATURE_LENGTH); naive_solver. Qed.
End signers.

(** A leaf version built from its components is one byte and splits back into
    them. *)
Theorem mmr_version_roundtrip major minor v :
  0 <= major → 0 <= minor → mmr_version_new major minor = Ok v →
  in_width 8 v ∧ mmr_version_split v = (major, minor).
Proof.
  intros Hmaj Hmin. unfold mmr_version_new.
  destruct (Z.ltb_spec 7 major); [done|]. destruct (Z.ltb_spec 31 minor); [done|].
  simpl. intros [= <-]. split; [by apply wrap_in_width|].
  unfold mmr_version_split. rewrite Z.shiftl_mul_pow2 by lia.
  rewrite wrap_small by (unfold in_width; lia).
  change 31 with (Z.ones 5). rewrite Z.land_ones, Z.shiftr_div_pow2 by lia.
  f_equal; [rewrite Z.div_add_l by lia; rewrite Z.div_small; lia|].
  rewrite Z.add_comm, Z.mod_add by lia. apply Z.mod_small. lia.
Qed.
