(* ===== verification/Keys.v ===== *)
(** * Recovery of public keys and Ethereum addresses

    src/dkg-primitives/src/keys.rs: [recover_pub_key] computes the key under which an
    ECDSA signature verifies, [convert_to_eth_address] the address of a key and
    [convert_to_checksum_eth_address] its mixed-case form.

    The curve (curv and libsecp256k1), the integers of curv and the hex crate are
    parameters: [Secp256k1], [BigIntText] and [HexCodec].  A scalar is a number below
    the order of the group, a coordinate a number below that of the field.  Text is a
    list of character codes; letters change their case as in ASCII, which addresses
    are made of.

    A signature made with a secret key is turned back into its public key exactly if
    [r] takes 32 bytes; the address is the one of the 64 bytes of a key if both
    coordinates take 64 digits. *)

From S2P Require Import Prelude.
From S2P Require Import Frame.
From S2P Require Import Primitives.

(** ** The libraries *)

(** The prime of the field, and the order of the group (as a field element: the constant
    [order_as_fe]). *)
Definition FIELD : Z := 2 ^ 256 - 2 ^ 32 - 977.

(** [Field::new]: eight words of 32 bits, the most significant first. *)
Definition field_new (words : list Z) : Z := fold_left (λ acc w, Z.shiftl acc 32 + w) words 0.

Definition p_minus_order : Z :=
  field_new [0; 0; 0; 1; 0x45512319; 0x50B75FC4; 0x402DA172; 0x2FC9BAEE].

Definition order_as_fe : Z :=
  field_new [0xFFFFFFFF; 0xFFFFFFFF; 0xFFFFFFFF; 0xFFFFFFFE; 0xBAAEDCE6; 0xAF48A03B;
             0xBFD25E8C; 0xD0364141].

Abbreviation ORDER := order_as_fe.

Definition is_scalar (a : Z) : Prop := 0 <= a < ORDER.
Definition is_coord (a : Z) : Prop := 0 <= a < FIELD.

Class Secp256k1 := {
  Point : Type;
  generator : Point;
  pt_mul : Point → Z → Point;
  pt_sub : Point → Point → Point;
  from_coords : Z → Z → option Point;
  x_coord : Point → option Z;
  y_coord : Point → option Z;
  (** [Scalar::invert]. *)
  invert : Z → option Z;
  (** [Affine::set_xo_var] and [normalize]: the point with a given x-coordinate and a
      y-coordinate of the given parity. *)
  set_xo_var : Z → bool → option (Z * Z) }.

Record has_coords `{Secp256k1} (P : Point) (x y : Z) : Prop := {
  hc_x : x_coord P = Some x;
  hc_y : y_coord P = Some y;
  hc_x_range : is_coord x;
  hc_y_range : is_coord y;
  hc_from : from_coords x y = Some P }.

(** The multiples of the generator form a group of order [ORDER], and the ones other than
    zero are given by their coordinates. *)
Class Secp256k1Laws `{Secp256k1} : Prop := {
  mul_mul a b : is_scalar a → is_scalar b →
    pt_mul (pt_mul generator a) b = pt_mul generator ((a * b) mod ORDER);
  sub_mul a b : is_scalar a → is_scalar b →
    pt_sub (pt_mul generator a) (pt_mul generator b) = pt_mul generator ((a - b) mod ORDER);
  invert_Some a b : is_scalar a → invert a = Some b → is_scalar b ∧ (a * b) mod ORDER = 1;
  invert_coprime a : is_scalar a → Z.gcd a ORDER = 1 → is_Some (invert a);
  coords_of k : 0 < k < ORDER → ∃ x y, has_coords (pt_mul generator k) x y;
  set_xo_complete k x y : is_scalar k → has_coords (pt_mul generator k) x y →
    set_xo_var x (Z.odd y) = Some (x, y);
  set_xo_sound x odd x' y : is_coord x → set_xo_var x odd = Some (x', y) →
    x' = x ∧ Z.odd y = odd ∧ ∃ k, is_scalar k ∧ has_coords (pt_mul generator k) x y }.

(** A digit of a hexadecimal number, in lower case, and [u16::from_str_radix] of one
    character. *)
Definition hex_digit (d : Z) : Z := if d <? 10 then 48 + d else 87 + d.

Definition hex_value (c : Z) : option Z :=
  if (48 <=? c) && (c <=? 57) then Some (c - 48)
  else if (97 <=? c) && (c <=? 102) then Some (c - 87)
  else if (65 <=? c) && (c <=? 70) then Some (c - 55)
  else None.

(** The last [n] hexadecimal digits of a number, and how many it has. *)
Fixpoint digits16 (n : nat) (x : Z) : list Z :=
  match n with O => [] | S n' => digits16 n' (x / 16) ++ [x mod 16] end.

Definition size16 (x : Z) : nat := Z.to_nat (Z.log2 x / 4 + 1).
Definition size256 (x : Z) : nat := Z.to_nat (Z.log2 x / 8 + 1).

Definition nibbles (b : Z) : list Z := [b / 16; b mod 16].

(** [BigInt::to_bytes] and [BigInt::to_hex] of curv. *)
Class BigIntText := {
  bigint_to_bytes : Z → bytes;
  bigint_to_hex : Z → list Z }.

(** Neither pads with zeros. *)
Class BigIntTextLaws `{BigIntText} : Prop := {
  to_bytes_short x : 0 < x → bigint_to_bytes x = be_encode (size256 x) x;
  to_hex_short x : 0 <= x → bigint_to_hex x = hex_digit <$> digits16 (size16 x) x }.

Class HexCodec := {
  hex_encode : bytes → list Z;
  hex_decode : list Z → option bytes }.

Class HexCodecLaws `{HexCodec} : Prop := {
  hex_encode_digits b : Forall is_byte b → hex_encode b = hex_digit <$> (b ≫= nibbles);
  hex_decode_encode b : Forall is_byte b → hex_decode (hex_encode b) = Some b;
  hex_decode_odd t : Nat.even (length t) = false → hex_decode t = None }.

(** The digest is made of bytes. *)
Class KeccakBytes `{Crypto} : Prop :=
  keccak_256_bytes b : Forall is_byte (keccak_256 b) ∧ length (keccak_256 b) = 32%nat.

(** ** The code *)

(** The messages of the errors, in the order of the source. *)
Inductive KeyError :=
| InvalidRValue
| InvalalidSignature
| InvalidSignature
| NotConstructible
| NotInvertible
| InvalidDigit
| XAbsent
| YAbsent
| NotHex.

Record SignatureRecid := { sig_r : Z; sig_s : Z; sig_recid : Z }.

Section code.
Context `{Secp256k1, BigIntText, HexCodec, Crypto}.

Definition recover_pub_key_raw (message v r s : Z) : result KeyError Point :=
  let r_bytes := bigint_to_bytes r in
  if negb (bool_decide (length r_bytes = 32%nat)) then Err InvalidRValue else
  let fx := be_decode r_bytes in
  fx ← (if 0 <? Z.land v 2 then
          if p_minus_order <=? fx then Err InvalalidSignature
          else Ok ((fx + order_as_fe) mod FIELD)
        else Ok fx);
  r_calc_point ← result_of (set_xo_var fx (0 <? Z.land v 1)) InvalidSignature;
  let r_x := be_decode (be_encode 32 r_calc_point.1) in
  let r_y := be_decode (be_encode 32 r_calc_point.2) in
  r_calc ← result_of (from_coords r_x r_y) NotConstructible;
  let g := generator in
  let z := message mod ORDER in
  rn ← result_of (invert r) NotInvertible;
  let rsrn := pt_mul (pt_mul r_calc s) rn in
  let gzrn := pt_mul (pt_mul g z) rn in
  Ok (pt_sub rsrn gzrn).

Definition recover_pub_key (sig : SignatureRecid) (message : Z) : result KeyError Point :=
  recover_pub_key_raw message (sig_recid sig) (sig_r sig) (sig_s sig).

Definition to_lower (c : Z) : Z := if (65 <=? c) && (c <=? 90) then c + 32 else c.
Definition to_upper (c : Z) : Z := if (97 <=? c) && (c <=? 122) then c - 32 else c.

(** The loop over the characters; past the end of the hash the index panics. *)
Fixpoint checksum_loop (addr_vec addr_hash_vec : list Z) : result KeyError (list Z) :=
  match addr_vec with
  | [] => Ok []
  | c :: addr_vec =>
      match addr_hash_vec with
      | [] => Panics
      | h :: addr_hash_vec =>
          n ← result_of (hex_value h) InvalidDigit;
          checksum_addr ← checksum_loop addr_vec addr_hash_vec;
          Ok ((if 7 <? n then to_upper c else c) :: checksum_addr)
      end
  end.

Definition convert_to_checksum_eth_address (addr : list Z) : result KeyError (list Z) :=
  let addr := to_lower <$> addr in
  let addr_hash := hex_encode (keccak_256 addr) in
  checksum_loop addr addr_hash.

Definition convert_to_eth_address (pub_key : Point) : result KeyError (list Z) :=
  x ← result_of (x_coord pub_key) XAbsent;
  y ← result_of (y_coord pub_key) YAbsent;
  let serialized_pub_key := bigint_to_hex x ++ bigint_to_hex y in
  decoded ← result_of (hex_decode serialized_pub_key) NotHex;
  let serialized_pub_key_hash := hex_encode (keccak_256 decoded) in
  let eth_address := slice 24 (length serialized_pub_key_hash) serialized_pub_key_hash in
  convert_to_checksum_eth_address eth_address.
End code.

(** ** Recovery *)

(** The textbook signature of [z] with the secret key [d] and the nonce [k]; the two bits
    of [recid] say which of the points with the x-coordinate [r] was used. *)
Definition ecdsa_sign `{Secp256k1} (d k z : Z) : option SignatureRecid :=
  x ← x_coord (pt_mul generator k);
  y ← y_coord (pt_mul generator k);
  k_inv ← invert k;
  let r := x mod ORDER in
  Some {| sig_r := r;
          sig_s := (k_inv * (z mod ORDER + r * d)) mod ORDER;
          sig_recid := Z.b2z (Z.odd y) + (if ORDER <=? x then 2 else 0) |}.

Lemma be_decode_coord x : is_coord x → be_decode (be_encode 32 x) = x.
Proof.
  intros Hx. apply be_decode_encode. unfold in_width. unfold is_coord in Hx.
  assert (FIELD < 2 ^ 256) by reflexivity. simpl Z.of_nat. lia.
Qed.

Lemma size256_32 x : 0 < x < 2 ^ 256 → size256 x = 32%nat ↔ 2 ^ 248 <= x.
Proof.
  intros Hx. pose proof (Z.log2_spec x) as [Hl Hu]; [lia|]. pose proof (Z.log2_nonneg x).
  pose proof (Z.log2_lt_pow2 x 256) as [H256 _]; [lia|]. specialize (H256 ltac:(lia)).
  pose proof (Z.log2_le_pow2 x 248) as Hpow. specialize (Hpow ltac:(lia)).
  unfold size256. rewrite Hpow. Z.to_euclidean_division_equations. lia.
Qed.

(** The exponent that the code computes is the secret key. *)
Lemma recovered_exponent d k k_inv z r rn :
  is_scalar d → (k * k_inv) mod ORDER = 1 → (r * rn) mod ORDER = 1 →
  let s := (k_inv * (z + r * d)) mod ORDER in
  ((((k * s) mod ORDER) * rn) mod ORDER - (z * rn) mod ORDER) mod ORDER = d.
Proof.
  intros Hd Hk Hr s.
  assert (((((k * s) mod ORDER) * rn) mod ORDER - (z * rn) mod ORDER) mod ORDER =
    (k * (k_inv * (z + r * d)) * rn - z * rn) mod ORDER) as ->.
  { rewrite <- Zminus_mod, Zminus_mod, Zmult_mod_idemp_l, <- (Zmult_mod_idemp_l (k * s)).
    unfold s. by rewrite Zmult_mod_idemp_r, Zmult_mod_idemp_l, <- Zminus_mod. }
  pose proof (Z.mod_eq (k * k_inv) ORDER) as Ek. rewrite Hk in Ek.
  pose proof (Z.mod_eq (r * rn) ORDER) as Er. rewrite Hr in Er.
  specialize (Ek ltac:(done)). specialize (Er ltac:(done)).
  set (qk := (k * k_inv) / ORDER) in *. set (qr := (r * rn) / ORDER) in *.
  replace (_ - _) with (d + ORDER * (qk * (z + r * d) * rn + qr * d)).
  { rewrite Z.mul_comm, Z.mod_add by done. by apply Z.mod_small. }
  assert (k * k_inv = 1 + ORDER * qk) as Ek' by lia. assert (r * rn = 1 + ORDER * qr) as Er' by lia.
  transitivity ((k * k_inv) * (z + r * d) * rn - z * rn); [|ring].
  rewrite Ek'. transitivity (d + ORDER * (qk * (z + r * d) * rn) + (r * rn - 1) * d); [rewrite Er'; ring|ring].
Qed.

Section recovery.
Context `{Secp256k1Laws, BigIntTextLaws, HexCodec, Crypto}.

Lemma order_lt_field : ORDER < FIELD ∧ FIELD - ORDER = p_minus_order ∧ FIELD < 2 * ORDER.
Proof. by vm_compute. Qed.

(** The bits of the recovery identifier. *)
Lemma recid_bits (odd big : bool) (v := Z.b2z odd + (if big then 2 else 0)) :
  (0 <? Z.land v 2) = big ∧ (0 <? Z.land v 1) = odd.
Proof. by destruct odd, big. Qed.

Lemma r_bytes_32 r : 0 < r → is_scalar r →
  bool_decide (length (bigint_to_bytes r) = 32%nat) = (2 ^ 248 <=? r) ∧
  (2 ^ 248 <= r → be_decode (bigint_to_bytes r) = r).
Proof.
  intros Hr [_ Hr']. assert (ORDER < 2 ^ 256) by by vm_compute.
  rewrite to_bytes_short, be_encode_length by done.
  pose proof (size256_32 r ltac:(lia)) as Hs. split.
  - apply eq_bool_prop_intro. rewrite bool_decide_spec, Hs, Is_true_true, Z.leb_le. done.
  - intros ->%Hs. apply be_decode_encode. unfold in_width. simpl Z.of_nat. lia.
Qed.

(** What is left of the code when the point of the nonce is found. *)
Lemma recover_found message v r s fx k y :
  bool_decide (length (bigint_to_bytes r) = 32%nat) = true →
  (if 0 <? Z.land v 2 then
     if p_minus_order <=? be_decode (bigint_to_bytes r) then Err InvalalidSignature
     else Ok ((be_decode (bigint_to_bytes r) + order_as_fe) mod FIELD)
   else Ok (be_decode (bigint_to_bytes r))) = Ok fx →
  is_scalar k → has_coords (pt_mul generator k) fx y → (0 <? Z.land v 1) = Z.odd y →
  recover_pub_key_raw message v r s =
    (rn ← result_of (invert r) NotInvertible;
     Ok (pt_sub (pt_mul (pt_mul (pt_mul generator k) s) rn)
                (pt_mul (pt_mul generator (message mod ORDER)) rn))).
Proof.
  intros Hlen Hfx Hk Hc Hodd. unfold recover_pub_key_raw. rewrite Hlen. cbn [negb].
  rewrite Hfx. cbn [mbind result_bind]. rewrite Hodd, (set_xo_complete k) by done.
  cbn [result_of fst snd mbind result_bind]. destruct Hc. by rewrite !be_decode_coord, hc_from0 by done.
Qed.

(** C35: recovery is the inverse of signing: for every secret key, nonce and message the
    public key of the signature is recovered if [r] takes all of its 32 bytes, and the
    signature is refused otherwise. *)
Theorem recover_pub_key_signed d k z sig :
  is_scalar d → 0 < k < ORDER → ecdsa_sign d k z = Some sig → Z.gcd (sig_r sig) ORDER = 1 →
  recover_pub_key sig z =
    if 2 ^ 248 <=? sig_r sig then Ok (pt_mul generator d) else Err InvalidRValue.
Proof.
  intros Hd Hk Hs Hg. destruct (coords_of k Hk) as (x & y & Hc). unfold ecdsa_sign in Hs.
  rewrite (hc_x _ _ _ Hc), (hc_y _ _ _ Hc) in Hs. destruct (invert k) as [k_inv|] eqn:Ek; [|done].
  injection Hs as <-. unfold recover_pub_key. cbn [sig_r sig_s sig_recid] in *.
  destruct order_lt_field as (Hlt & Hmin & Htwo). destruct (hc_x_range _ _ _ Hc) as [Hx0 Hx].
  assert (is_scalar (x mod ORDER)) as Hr by (apply Z.mod_pos_bound; done).
  assert (0 < x mod ORDER) as Hr0.
  { destruct Hr. assert (x mod ORDER ≠ 0); [|lia]. intros E. rewrite E in Hg. by vm_compute in Hg. }
  destruct (r_bytes_32 _ Hr0 Hr) as [Hlen Hdec]. destruct (Z.leb_spec (2 ^ 248) (x mod ORDER)) as [Hle|].
  2: { unfold recover_pub_key_raw. by rewrite Hlen. }
  destruct (recid_bits (Z.odd y) (ORDER <=? x)) as [Hbig Hodd].
  assert (x < ORDER) as Hsmall.
  { destruct (Z.le_gt_cases ORDER x) as [Hge|]; [|done]. exfalso.
    assert (x mod ORDER = x - ORDER) as E.
    { symmetry. apply (Z.mod_unique_pos x ORDER 1); lia. }
    assert (p_minus_order < 2 ^ 248) by by vm_compute. lia. }
  destruct (invert_coprime _ Hr Hg) as [rn Ern].
  destruct (invert_Some _ _ Hr Ern) as [Hrn Hrr].
  destruct (invert_Some k k_inv) as [_ Hkk]; [unfold is_scalar; lia|done|].
  erewrite (recover_found _ _ _ _ x k y); [|done| |unfold is_scalar; lia|done|done].
  2: { rewrite Hbig, (proj2 (Z.leb_gt _ _)), Hdec, Z.mod_small by lia. done. }
  rewrite Ern. cbn [result_of mbind result_bind]. f_equal.
  assert (∀ a, is_scalar (a mod ORDER)) as Hmod by (intros; by apply Z.mod_pos_bound).
  rewrite !mul_mul, sub_mul by (try apply Hmod; try done; unfold is_scalar; lia). f_equal.
  by apply recovered_exponent.
Qed.

(** What is recovered, from whatever numbers, is a key under which they are a signature:
    [r * Q = s * R - z * G] for a point [R] with the x-coordinate [r] modulo the order. *)
Lemma recovered_key_verifies message v r s Q :
  is_scalar r → is_scalar s → recover_pub_key_raw message v r s = Ok Q →
  ∃ k x y q, is_scalar k ∧ has_coords (pt_mul generator k) x y ∧ x mod ORDER = r ∧
    is_scalar q ∧ Q = pt_mul generator q ∧
    (r * q) mod ORDER = (k * s - message) mod ORDER.
Proof.
  intros Hr Hs HQ. destruct order_lt_field as (Hlt & Hmin & Htwo).
  assert (∀ a, is_scalar (a mod ORDER)) as Hmod by (intros; by apply Z.mod_pos_bound).
  unfold recover_pub_key_raw in HQ.
  destruct (bool_decide (length (bigint_to_bytes r) = 32%nat)) eqn:Hlen; [|done]. cbn [negb] in HQ.
  apply result_bind_Ok in HQ as (fx & Hfx & HQ).
  apply result_bind_Ok in HQ as ([x' y] & Hset & HQ).
  apply result_bind_Ok in HQ as (R & HR & HQ). apply result_bind_Ok in HQ as (rn & Hrn & HQ).
  destruct (set_xo_var _ _) as [p|] eqn:Exo in Hset; [|done]. injection Hset as ->.
  destruct (invert r) as [rn'|] eqn:Ern in Hrn; [|done]. injection Hrn as ->.
  destruct (invert_Some _ _ Hr Ern) as [Hrn Hrr].
  assert (0 < r) as Hr0 by (destruct (decide (r = 0)) as [->|]; [done|destruct Hr; lia]).
  destruct (r_bytes_32 r Hr0 Hr) as [Hle Hdec]. rewrite Hlen in Hle. symmetry in Hle.
  apply Z.leb_le in Hle. rewrite (Hdec Hle) in Hfx.
  assert (is_coord fx ∧ fx mod ORDER = r) as [Hcx Hxr].
  { assert (p_minus_order < 2 ^ 248) by by vm_compute. destruct Hr.
    rewrite (proj2 (Z.leb_le p_minus_order r)) in Hfx by lia.
    destruct (0 <? Z.land v 2); simplify_eq. unfold is_coord. rewrite Z.mod_small; lia. }
  destruct (set_xo_sound _ _ _ _ Hcx Exo) as (-> & _ & k & Hk & Hc).
  destruct (Hc) as [_ _ _ Hcy Hfrom]. cbn [fst snd] in HR. rewrite !be_decode_coord, Hfrom in HR by done.
  injection HR as <-. injection HQ as <-.
  rewrite !mul_mul, sub_mul by (try apply Hmod; done).
  eexists k, fx, y, _. split_and!; [done..|apply Hmod|done|].
  rewrite Zmult_mod_idemp_r, <- Zmult_mod_idemp_r, <- Zminus_mod, Zmult_mod_idemp_r.
  replace (r * _) with ((r * rn) * ((k * s) mod ORDER - message mod ORDER)) by ring.
  by rewrite <- Zmult_mod_idemp_l, Hrr, Z.mul_1_l, <- Zminus_mod.
Qed.
End recovery.

(** ** Addresses *)

Lemma digits16_length n x : length (digits16 n x) = n.
Proof. revert x. induction n as [|n IH]; intros x; simpl; [done|]. rewrite length_app, IH. simpl. lia. Qed.

Lemma digits16_range n x : Forall (λ d, 0 <= d < 16) (digits16 n x).
Proof.
  revert x. induction n as [|n IH]; intros x; simpl; [done|].
  apply Forall_app. split; [apply IH|]. repeat constructor; apply Z.mod_pos_bound; lia.
Qed.

(** The digits of two numbers one after the other. *)
Lemma digits16_app n m x y :
  0 <= y < 16 ^ Z.of_nat m → digits16 n x ++ digits16 m y = digits16 (n + m) (x * 16 ^ Z.of_nat m + y).
Proof.
  revert y. induction m as [|m IH]; intros y Hy.
  - simpl in *. rewrite app_nil_r, Nat.add_0_r. f_equal. lia.
  - rewrite Nat.add_succ_r. simpl digits16. rewrite app_assoc.
    replace (Z.of_nat (S m)) with (Z.of_nat m + 1) in * by lia.
    rewrite Z.pow_add_r, Z.pow_1_r in * by lia.
    rewrite IH by (Z.to_euclidean_division_equations; lia).
    rewrite Z.mul_assoc. rewrite (Z.add_comm _ y), Z.mod_add, Z.div_add by lia.
    by rewrite (Z.add_comm (y / 16)).
Qed.

(** Two digits for each byte. *)
Lemma digits16_bytes n x : digits16 (n * 2) x = be_encode n x ≫= nibbles.
Proof.
  revert x. induction n as [|n IH]; intros x; [done|]. simpl. rewrite bind_app, <- IH. simpl.
  rewrite <- app_assoc. simpl. change 255 with (Z.ones 8).
  rewrite Z.land_ones, Z.shiftr_div_pow2, Z.div_div by lia. change (16 * 16) with (2 ^ 8).
  f_equal. unfold nibbles. change (2 ^ 8) with (16 * 16). rewrite Z.rem_mul_r by lia.
  f_equal; [|f_equal]; Z.to_euclidean_division_equations; lia.
Qed.

(** The bytes of two numbers one after the other. *)
Lemma be_encode_app n m x y : 0 <= y < 256 ^ Z.of_nat m →
  be_encode n x ++ be_encode m y = be_encode (n + m) (x * 256 ^ Z.of_nat m + y).
Proof.
  revert y. induction m as [|m IH]; intros y Hy.
  - simpl in *. rewrite app_nil_r, Nat.add_0_r. f_equal. lia.
  - rewrite Nat.add_succ_r. simpl be_encode. rewrite app_assoc. change 255 with (Z.ones 8).
    replace (Z.of_nat (S m)) with (Z.of_nat m + 1) in * by lia.
    rewrite !Z.land_ones, !Z.shiftr_div_pow2 by lia. change (2 ^ 8) with 256.
    rewrite Z.pow_add_r, Z.pow_1_r in * by lia.
    rewrite IH by (Z.to_euclidean_division_equations; lia).
    rewrite Z.mul_assoc, (Z.add_comm _ y), Z.mod_add, Z.div_add by lia.
    by rewrite (Z.add_comm (y / 256)).
Qed.

Lemma size16_bound x : 0 <= x → x < 16 ^ Z.of_nat (size16 x).
Proof.
  intros Hx. destruct (decide (x = 0)) as [->|]; [done|].
  pose proof (Z.log2_spec x) as [_ Hu]; [lia|]. pose proof (Z.log2_nonneg x).
  unfold size16. rewrite Z2Nat.id by (Z.to_euclidean_division_equations; lia).
  change 16 with (2 ^ 4). rewrite <- Z.pow_mul_r by (Z.to_euclidean_division_equations; lia).
  eapply Z.lt_le_trans; [exact Hu|]. apply Z.pow_le_mono_r; [lia|].
  Z.to_euclidean_division_equations; lia.
Qed.

Lemma size16_64 x : 2 ^ 252 <= x < 2 ^ 256 → size16 x = 64%nat.
Proof.
  intros Hx. unfold size16. assert (252 <= Z.log2 x) by (apply Z.log2_le_pow2; lia).
  assert (Z.log2 x < 256) by (apply Z.log2_lt_pow2; lia).
  Z.to_euclidean_division_equations; lia.
Qed.

Lemma hex_value_digit d : 0 <= d < 16 → hex_value (hex_digit d) = Some d.
Proof.
  intros Hd. unfold hex_value, hex_digit. repeat case_match; try (f_equal; lia); lia.
Qed.

(** The mixed-case form of an address in lower case: a letter is in upper case where the
    digit of the digest is above 7. *)
Definition eip55 `{Crypto} (addr : list Z) : list Z :=
  zip_with (λ c n, if 7 <? n then to_upper c else c) addr (keccak_256 addr ≫= nibbles).

Lemma nibbles_range b : Forall is_byte b → Forall (λ d, 0 <= d < 16) (b ≫= nibbles).
Proof.
  unfold is_byte, in_width. induction 1 as [|x b Hx _ IH]; simpl; [done|].
  repeat constructor; [Z.to_euclidean_division_equations; lia..|done].
Qed.

Lemma checksum_loop_run addr ds :
  Forall (λ d, 0 <= d < 16) ds →
  checksum_loop addr (hex_digit <$> ds) =
    if decide (length addr <= length ds)%nat
    then Ok (zip_with (λ c n, if 7 <? n then to_upper c else c) addr ds) else Panics.
Proof.
  intros Hds. revert addr. induction Hds as [|d ds Hd _ IH]; intros [|c addr]; simpl; try done.
  rewrite hex_value_digit by done. simpl. rewrite IH. by repeat case_decide; try lia.
Qed.

Lemma to_lower_upper c : to_lower (to_upper (to_lower c)) = to_lower c.
Proof. unfold to_lower, to_upper. repeat case_match; lia. Qed.

Lemma to_lower_lower c : to_lower (to_lower c) = to_lower c.
Proof. unfold to_lower. repeat case_match; lia. Qed.

Section addresses.
Context `{Secp256k1, BigIntTextLaws, HexCodecLaws, KeccakBytes}.

Lemma nibbles_length b : length (b ≫= nibbles) = (length b * 2)%nat.
Proof. induction b as [|x b IH]; [done|]. rewrite bind_cons, length_app, IH. simpl. lia. Qed.

Lemma checksum_run addr :
  convert_to_checksum_eth_address addr =
    if decide (length addr <= 64)%nat then Ok (eip55 (to_lower <$> addr)) else Panics.
Proof.
  unfold convert_to_checksum_eth_address. destruct (keccak_256_bytes (to_lower <$> addr)) as [Hb Hl].
  rewrite hex_encode_digits, checksum_loop_run, nibbles_length, Hl, length_fmap
    by (done || by apply nibbles_range).
  by repeat case_decide.
Qed.

Lemma eip55_lower addr : (length addr <= 64)%nat → to_lower <$> addr = addr →
  to_lower <$> eip55 addr = addr ∧ length (eip55 addr) = length addr.
Proof.
  intros Hl Hlow. unfold eip55. destruct (keccak_256_bytes addr) as [_ Hk].
  assert (length addr <= length (keccak_256 addr ≫= nibbles))%nat as Hlen
    by (rewrite nibbles_length, Hk; lia).
  revert Hlen. generalize (keccak_256 addr ≫= nibbles). clear Hl Hk.
  induction addr as [|c addr IH]; intros [|n ds] Hlen; [done|done|simpl in Hlen; lia|].
  rewrite fmap_cons in Hlow. injection Hlow as Hc Hlow.
  destruct (IH Hlow ds ltac:(simpl in Hlen; lia)) as [E El].
  cbn [zip_with length]. rewrite fmap_cons, E, El. split; [|done].
  f_equal. destruct (7 <? n); [|done]. by rewrite <- Hc at 1; rewrite to_lower_upper, Hc.
Qed.

(** The mixed-case form spells the same address, and converting it again changes nothing;
    more than 64 characters are past the end of the digest. *)
Lemma checksum_eth_address_spec addr :
  if decide (length addr <= 64)%nat
  then ∃ c, convert_to_checksum_eth_address addr = Ok c ∧ to_lower <$> c = to_lower <$> addr ∧
            convert_to_checksum_eth_address c = Ok c
  else convert_to_checksum_eth_address addr = Panics.
Proof.
  rewrite checksum_run. case_decide as Hl; [|done]. eexists. split; [done|].
  destruct (eip55_lower (to_lower <$> addr)) as [E El].
  { by rewrite length_fmap. }
  { rewrite <- list_fmap_compose. apply list_fmap_ext. intros. apply to_lower_lower. }
  rewrite length_fmap in El. rewrite checksum_run, El, E, decide_True by done. done.
Qed.

(** The digits of the last 20 bytes of the digest of a key. *)
Definition address_digits (key : bytes) : list Z := hex_digit <$> (drop 12 (keccak_256 key) ≫= nibbles).

Lemma to_lower_digits ds : Forall (λ d, 0 <= d < 16) ds → to_lower <$> (hex_digit <$> ds) = hex_digit <$> ds.
Proof.
  intros Hds. rewrite <- list_fmap_compose. apply list_fmap_ext. intros i d Hi.
  eapply Forall_lookup_1 in Hds; [|exact Hi]. simpl in *. unfold to_lower, hex_digit. repeat case_match; lia.
Qed.

Lemma drop_nibbles n b : drop (n * 2) (b ≫= nibbles) = drop n b ≫= nibbles.
Proof.
  revert b. induction n as [|n IH]; intros [|x b]; [done..|].
  rewrite bind_cons. change (S n * 2)%nat with (S (S (n * 2))). apply IH.
Qed.

Lemma address_of_digest key : 
  convert_to_checksum_eth_address
    (slice 24 (length (hex_encode (keccak_256 key))) (hex_encode (keccak_256 key))) =
  Ok (eip55 (address_digits key)).
Proof.
  destruct (keccak_256_bytes key) as [Hb Hl]. rewrite hex_encode_digits by done.
  rewrite length_fmap, nibbles_length, Hl. unfold slice, address_digits.
  rewrite <- fmap_drop, (drop_nibbles 12 (keccak_256 key) : drop 24 _ = _).
  assert (length (drop 12 (keccak_256 key) ≫= nibbles) = 40%nat) as Hd.
  { rewrite nibbles_length, length_drop, Hl. done. }
  rewrite take_ge by (rewrite length_fmap, Hd; done).
  rewrite checksum_run, length_fmap, Hd. simpl. rewrite to_lower_digits; [done|].
  by apply nibbles_range, Forall_drop.
Qed.

(** C36: the address of a key is the checksummed form of the last 20 bytes of the digest of
    its two coordinates when both have 64 hexadecimal digits; otherwise the digits are not
    padded, and an odd number of them is an error while an even one gives the address of
    other bytes.  Checksumming an address again leaves it as it is. *)
Theorem convert_to_eth_address_spec P x y (n := (size16 x + size16 y)%nat) :
  has_coords P x y →
  (2 ^ 252 <= x → 2 ^ 252 <= y →
     convert_to_eth_address P = Ok (eip55 (address_digits (be_encode 32 x ++ be_encode 32 y)))) ∧
  (convert_to_eth_address P =
     if Nat.even n
     then Ok (eip55 (address_digits (be_encode (n / 2) (x * 16 ^ Z.of_nat (size16 y) + y))))
     else Err NotHex) ∧
  (∀ a, convert_to_eth_address P = Ok a → convert_to_checksum_eth_address a = Ok a).
Proof.
  intros Hc. assert (convert_to_eth_address P =
     if Nat.even n
     then Ok (eip55 (address_digits (be_encode (n / 2) (x * 16 ^ Z.of_nat (size16 y) + y))))
     else Err NotHex) as E.
  { destruct (hc_x_range _ _ _ Hc) as [Hx _], (hc_y_range _ _ _ Hc) as [Hy _].
    unfold convert_to_eth_address. rewrite (hc_x _ _ _ Hc), (hc_y _ _ _ Hc).
    cbn [result_of mbind result_bind]. rewrite !to_hex_short, <- fmap_app, digits16_app
      by (split; [done|by apply size16_bound]) || done.
    fold n. destruct (Nat.even n) eqn:Hn.
    2: { by rewrite hex_decode_odd by by rewrite length_fmap, digits16_length. }
    apply Nat.even_spec in Hn as [m Hm]. rewrite Hm, (Nat.mul_comm 2), Nat.div_mul, digits16_bytes by done.
    rewrite <- hex_encode_digits, hex_decode_encode by apply be_encode_bytes.
    apply address_of_digest. }
  split_and!; [|done|].
  - intros Hx Hy. rewrite E. destruct (hc_x_range _ _ _ Hc) as [_ Hx'], (hc_y_range _ _ _ Hc) as [_ Hy'].
    assert (FIELD < 2 ^ 256) by reflexivity. unfold n.
    rewrite !size16_64, be_encode_app by (unfold is_coord in *; simpl; lia). done.
  - intros a. rewrite E. destruct (Nat.even n); [|done]. intros [= <-].
    match goal with |- context [eip55 (address_digits ?key)] =>
      pose proof (checksum_eth_address_spec
        (slice 24 (length (hex_encode (keccak_256 key))) (hex_encode (keccak_256 key)))) as Hs;
      rewrite address_of_digest in Hs
    end.
    case_decide; naive_solver.
Qed.
End addresses.
