(* ===== verification/Merkle.v ===== *)
(** * The voter-set Merkle tree of pallet-dkg-metadata

    [create_voter_set_data] commits to the next authorities by the root of a
    binary hash tree.  The loops of the pallet are translated as they are
    (fuelled where Rust writes [while]); the theorems show that they always
    terminate without running out of fuel or panicking, that the height is the
    least sufficient one, and that the layer-by-layer computation is the usual
    recursive definition of a Merkle root. *)

From S2P Require Import Prelude.
From S2P Require Import Frame.
From S2P Require Import Primitives.

(** [T::DKGAuthorityToMerkleLeaf::convert]. *)
Class MerkleLeaf := authority_to_merkle_leaf : DKGId → bytes.

(** [while two.saturating_pow(h) < voter_count as u32 { h += 1 }]. *)
Fixpoint height_loop (fuel : nat) (h voter_count : Z) : Z :=
  match fuel with
  | O => h
  | S fuel' =>
      if saturating_pow 32 2 h <? wrap 32 voter_count
      then height_loop fuel' (h + 1) voter_count else h
  end.

(** 33 iterations reach a power that saturates u32. *)
Definition get_voter_set_tree_height (voter_count : Z) : Z :=
  if voter_count =? 1 then 1 else height_loop 33 0 voter_count.

Section merkle.
Context `{Crypto, MerkleLeaf}.

(** [while base_layer.len() != target { base_layer.push(keccak_256(&[0u8])) }];
    [None] when the fuel runs out. *)
Fixpoint pad_loop (fuel : nat) (target : Z) (base_layer : list bytes) : option (list bytes) :=
  if len base_layer =? target then Some base_layer else
  match fuel with
  | O => None
  | S fuel' => pad_loop fuel' target (base_layer ++ [keccak_256 [0]])
  end.

Definition pre_process_for_merkleize (voters : list DKGId) : option (list bytes) :=
  let height := get_voter_set_tree_height (len voters) in
  let base_layer := (λ v, keccak_256 (authority_to_merkle_leaf v)) <$> voters in
  let target := saturating_pow 64 2 height in
  pad_loop (2 * S (length voters)) target base_layer.

(** Hash the nodes two by two; [None] is the panic of [curr_layer[index + 1]]
    on a layer of odd length. *)
Fixpoint next_layer (curr_layer : list bytes) : option (list bytes) :=
  match curr_layer with
  | [] => Some []
  | [_] => None
  | x :: y :: rest => layer ← next_layer rest; Some (keccak_256 (x ++ y) :: layer)
  end.

(** [while height > 0 { curr_layer = next_layer(curr_layer); height -= 1 }]. *)
Fixpoint layers (height : nat) (curr_layer : list bytes) : option (list bytes) :=
  match height with
  | O => Some curr_layer
  | S h => layer ← next_layer curr_layer; layers h layer
  end.

Definition get_voter_set_tree_root (voters : list DKGId) : option bytes :=
  curr_layer ← pre_process_for_merkleize voters;
  let height := get_voter_set_tree_height (len voters) in
  top ← layers (Z.to_nat height) curr_layer;
  head top.

(** The reference definition: the root of [2 ^ h] leaves. *)
Fixpoint merkle_root (h : nat) (leaves : list bytes) : bytes :=
  match h with
  | O => default [] (head leaves)
  | S h' =>
      keccak_256 (merkle_root h' (take (2 ^ h') leaves) ++
                  merkle_root h' (drop (2 ^ h') leaves))
  end.

(** The leaves: one per voter, padded with the hash of the zero byte. *)
Definition merkle_leaves (voters : list DKGId) : list bytes :=
  let h := get_voter_set_tree_height (len voters) in
  ((λ v, keccak_256 (authority_to_merkle_leaf v)) <$> voters) ++
  replicate (2 ^ Z.to_nat h - length voters) (keccak_256 [0]).
End merkle.

(** ** The height *)

Lemma height_loop_spec fuel h n :
  0 <= h → 0 <= n < 2 ^ 32 → 32 < h + Z.of_nat fuel →
  (∀ k, 0 <= k < h → 2 ^ k < n) →
  0 <= height_loop fuel h n <= Z.max h 32 ∧ n <= 2 ^ height_loop fuel h n ∧
  (∀ k, 0 <= k < height_loop fuel h n → 2 ^ k < n).
Proof.
  revert h. induction fuel as [|fuel IH]; intros h Hh Hn Hf Hk.
  { exfalso. pose proof (Hk 32). lia. }
  simpl. unfold saturating_pow, max_of. rewrite wrap_small by done.
  destruct (Z.ltb_spec (2 ^ h `min` (2 ^ 32 - 1)) n) as [Hlt|Hge].
  - assert (h < 32) by (destruct (Z.lt_ge_cases h 32); [done|];
      pose proof (Z.pow_le_mono_r 2 32 h); lia).
    destruct (IH (h + 1)) as (H1 & H2 & H3); [lia..| |].
    { intros k Hk'. destruct (decide (k = h)) as [->|]; [lia|]. apply Hk. lia. }
    split_and!; [lia|lia|done|done].
  - split_and!; [lia|lia| |done].
    destruct (Z.le_gt_cases n (2 ^ h)); [done|lia].
Qed.

(** The tree height is the least [h] with [voter_count <= 2 ^ h] (a single
    voter gets height one), it is at most 32, and the search loop ends within its
    fuel for every u32 count. *)
Theorem get_voter_set_tree_height_least n :
  0 <= n < 2 ^ 32 →
  let h := get_voter_set_tree_height n in
  0 <= h <= 32 ∧ n <= 2 ^ h ∧ (n ≠ 1 → ∀ k, 0 <= k < h → 2 ^ k < n).
Proof.
  intros Hn h. subst h. unfold get_voter_set_tree_height.
  destruct (Z.eqb_spec n 1) as [->|]; [by split_and!|].
  destruct (height_loop_spec 33 0 n) as (? & ? & ?); [lia..|]. split_and!; auto; lia.
Qed.

Lemma height_bounds n :
  0 <= n < 2 ^ 32 → 0 <= get_voter_set_tree_height n <= 32 ∧
  n <= 2 ^ get_voter_set_tree_height n ∧ 2 ^ get_voter_set_tree_height n <= 2 * (n + 1).
Proof.
  intros Hn. unfold get_voter_set_tree_height.
  destruct (Z.eqb_spec n 1) as [->|]; [lia|].
  destruct (height_loop_spec 33 0 n) as (Hh & H1 & H2); [lia..|].
  split_and!; [lia..|]. destruct (decide (height_loop 33 0 n = 0)) as [->|]; [lia|].
  specialize (H2 (height_loop 33 0 n - 1)).
  replace (2 ^ height_loop 33 0 n) with (2 * 2 ^ (height_loop 33 0 n - 1))
    by (rewrite <- Z.pow_succ_r by lia; f_equal; lia).
  lia.
Qed.

(** ** The layers *)

Section merkle_theorems.
Context `{Crypto, MerkleLeaf}.

Lemma pad_loop_spec fuel target l :
  len l <= Z.of_nat target <= len l + Z.of_nat fuel →
  pad_loop fuel (Z.of_nat target) l = Some (l ++ replicate (target - length l) (keccak_256 [0])).
Proof.
  revert l. induction fuel as [|fuel IH]; intros l Hl; simpl;
    destruct (Z.eqb_spec (len l) (Z.of_nat target)) as [He|Hne]; try lia.
  1,2: replace (target - length l)%nat with O by lia; by rewrite app_nil_r.
  rewrite IH by (rewrite length_app; simpl; lia). f_equal.
  rewrite length_app. simpl. replace (target - length l)%nat with
    (S (target - (length l + 1)))%nat by lia. simpl. by rewrite <- app_assoc.
Qed.

Lemma next_layer_app l1 l2 k r1 :
  next_layer l1 = Some r1 → length l1 = (2 * k)%nat →
  next_layer (l1 ++ l2) = r2 ← next_layer l2; Some (r1 ++ r2).
Proof.
  revert l1 r1. induction k as [|k IH]; intros [|x [|y l1]] r1 Hr Hl;
    simpl in *; simplify_eq; try lia.
  - by destruct (next_layer l2).
  - destruct (next_layer l1) as [r|] eqn:E; simplify_eq/=.
    rewrite (IH l1 r) by (done || lia). by destruct (next_layer l2).
Qed.

Lemma next_layer_total k l :
  length l = (2 * k)%nat → ∃ r, next_layer l = Some r ∧ length r = k.
Proof.
  revert l. induction k as [|k IH]; intros [|x [|y l]] Hl; simpl in *; try lia.
  - by exists [].
  - destruct (IH l) as (r & -> & Hr); [lia|]. simpl. eexists; split; [done|]. simpl. lia.
Qed.

Lemma layers_snoc h l : layers (S h) l = layer ← layers h l; next_layer layer.
Proof.
  revert l. induction h as [|h IH]; intros l.
  - simpl. by destruct (next_layer l).
  - change (layers (S (S h)) l) with (layer ← next_layer l; layers (S h) layer).
    simpl (layers (S h) l). destruct (next_layer l) as [r|]; simpl; [apply IH|done].
Qed.

Lemma layers_app h l1 l2 a b :
  length l1 = (a * 2 ^ h)%nat → length l2 = (b * 2 ^ h)%nat →
  ∃ r1 r2, layers h l1 = Some r1 ∧ layers h l2 = Some r2 ∧
    layers h (l1 ++ l2) = Some (r1 ++ r2) ∧ length r1 = a ∧ length r2 = b.
Proof.
  revert l1 l2. induction h as [|h IH]; intros l1 l2 H1 H2; simpl in *.
  - exists l1, l2. split_and!; (done || lia).
  - destruct (next_layer_total (a * 2 ^ h) l1) as (r1 & E1 & L1); [lia|].
    destruct (next_layer_total (b * 2 ^ h) l2) as (r2 & E2 & L2); [lia|].
    rewrite (next_layer_app l1 l2 (a * 2 ^ h) r1), E1, E2 by (done || lia). simpl.
    by apply IH.
Qed.

(** Hashing layer by layer is the recursive definition. *)
Lemma layers_merkle_root h l :
  length l = (2 ^ h)%nat → layers h l = Some [merkle_root h l].
Proof.
  revert l. induction h as [|h IH]; intros l Hl.
  - destruct l as [|x [|? ?]]; simpl in *; (done || lia).
  - rewrite layers_snoc. simpl in Hl.
    rewrite <- (take_drop (2 ^ h) l) at 1.
    assert (length (take (2 ^ h) l) = 2 ^ h)%nat as Ht by (rewrite length_take; lia).
    assert (length (drop (2 ^ h) l) = 2 ^ h)%nat as Hd by (rewrite length_drop; lia).
    destruct (layers_app h (take (2 ^ h) l) (drop (2 ^ h) l) 1 1)
      as (r1 & r2 & E1 & E2 & -> & _ & _); [lia..|].
    rewrite IH in E1, E2 by done. simplify_eq/=. done.
Qed.

Lemma voter_set_tree_root_run voters :
  len voters < 2 ^ 32 →
  get_voter_set_tree_root voters =
    Some (merkle_root (Z.to_nat (get_voter_set_tree_height (len voters)))
            (merkle_leaves voters)) ∧
  length (merkle_leaves voters) =
    (2 ^ Z.to_nat (get_voter_set_tree_height (len voters)))%nat.
Proof.
  intros Hn. destruct (height_bounds (len voters)) as (Hh & Hle & Hup); [lia|].
  set (h := get_voter_set_tree_height (len voters)) in *.
  assert (2 ^ h = Z.of_nat (2 ^ Z.to_nat h)) as Hpow
    by (rewrite Nat2Z.inj_pow, Z2Nat.id by lia; done).
  assert (length (merkle_leaves voters) = 2 ^ Z.to_nat h)%nat as Hlen.
  { unfold merkle_leaves. fold h. rewrite length_app, length_fmap, length_replicate. lia. }
  split; [|done].
  unfold get_voter_set_tree_root, pre_process_for_merkleize. fold h.
  replace (saturating_pow 64 2 h) with (Z.of_nat (2 ^ Z.to_nat h)).
  2:{ unfold saturating_pow, max_of. pose proof (Z.pow_le_mono_r 2 h 32). lia. }
  rewrite pad_loop_spec by (rewrite length_fmap; lia). rewrite length_fmap.
  unfold merkle_leaves in *. fold h in Hlen. fold h. simpl.
  by rewrite layers_merkle_root.
Qed.

Lemma merkle_root_length `{!CryptoLaws} h l :
  l ≠ [] → (∀ x, x ∈ l → length x = 32%nat) → length (merkle_root h l) = 32%nat.
Proof.
  intros Hne Hl. destruct h; simpl; [|apply keccak_256_length].
  destruct l as [|x l]; [done|]. apply Hl. set_solver.
Qed.

Lemma voter_set_tree_root_total `{!CryptoLaws} voters :
  len voters < 2 ^ 32 → ∃ root, get_voter_set_tree_root voters = Some root ∧
    length root = 32%nat.
Proof.
  intros Hn. destruct (voter_set_tree_root_run voters Hn) as [Hr Hlen].
  eexists. split; [exact Hr|]. apply merkle_root_length.
  - intros He. rewrite He in Hlen. simpl in Hlen. pose proof (Nat.pow_nonzero 2
      (Z.to_nat (get_voter_set_tree_height (len voters)))). lia.
  - unfold merkle_leaves. intros x [Hx|Hx]%elem_of_app.
    + apply list_elem_of_fmap in Hx as (v & -> & _). apply keccak_256_length.
    + apply elem_of_replicate in Hx as [-> _]. apply keccak_256_length.
Qed.

(** C26: for every set of fewer than 2^32 voters the root is computed without a
    panic and without exhausting a loop, and it is the recursive Merkle root of
    the voters' leaf hashes padded to a power of two. *)
Theorem get_voter_set_tree_root_reference voters :
  len voters < 2 ^ 32 →
  get_voter_set_tree_root voters =
    Some (merkle_root (Z.to_nat (get_voter_set_tree_height (len voters)))
            (merkle_leaves voters)) ∧
  length (merkle_leaves voters) =
    (2 ^ Z.to_nat (get_voter_set_tree_height (len voters)))%nat.
Proof. apply voter_set_tree_root_run. Qed.
End merkle_theorems.
