(* ===== verification/Traits.v ===== *)
(** * The interfaces between the pallets

    The traits of src/dkg-runtime-primitives/src/traits.rs and
    [ProposalHandlerTrait].  A pallet that is configured with another one works
    on its own state paired with a world [W], the rest of the chain, and calls
    the other pallet through one of these classes; Runtime.v instantiates them
    the way src/standalone/runtime/src/lib.rs does. *)

From S2P Require Import Prelude.
From S2P Require Import Frame.
From S2P Require Import Primitives.

(** The origin of a dispatched call. *)
Inductive Origin :=
| Root
| SignedBy (who : AccountId)
| NoOrigin.

(** [frame_system::Pallet::block_number], a u32 in the runtime. *)
Class System (W : Type) := block_number : W → Z.

(** Where a transaction comes from. *)
Inductive TransactionSource := InBlock | Local | External.

(** What [validate_unsigned] says of an accepted transaction. *)
Record ValidTransaction := mkValidTransaction {
  priority : Z; longevity : Z; provides : Z; propagate : bool }.

(** [OnAuthoritySetChangeHandler::on_authority_set_changed]. *)
Class OnAuthoritySetChangeHandler (W F : Type) :=
  on_authority_set_changed : list AccountId → list DKGId → M W F unit.

(** [GetDKGPublicKey]. *)
Class GetDKGPublicKey (W : Type) := {
  dkg_key : W → bytes;
  previous_dkg_key : W → bytes }.

(** [OnSignedProposal::on_signed_proposal]. *)
Class OnSignedProposal (W F : Type) :=
  on_signed_proposal : Proposal → M W F unit.

(** [ProposalHandlerTrait], down to the method that other pallets call; the other
    one, [handle_signed_proposal_batch], is only called by its own pallet. *)
Class ProposalHandlerTrait (W F : Type) :=
  handle_unsigned_proposal : Proposal → M W F unit.

(** The implementations for [()]. *)
Definition on_authority_set_changed_unit {W F} : OnAuthoritySetChangeHandler W F :=
  λ _ _, mret tt.

Definition proposal_handler_unit {W F} : ProposalHandlerTrait W F := λ _, mret tt.

(** The tuple implementation: the handlers in order, stopping at an error. *)
Definition on_signed_proposal_pair {W F} (A B : OnSignedProposal W F) : OnSignedProposal W F :=
  λ p, _ ← A p; B p.

Section origins.
Context {S E F : Type}.

Abbreviation D A := (M S (DispatchError E F) A).

Definition ensure_signed (o : Origin) : D AccountId :=
  match o with SignedBy who => mret who | _ => throw BadOrigin end.

Definition ensure_none (o : Origin) : D unit :=
  match o with NoOrigin => mret tt | _ => throw BadOrigin end.

(** [EnsureRoot], the origin check the runtime configures everywhere. *)
Definition ensure_root (o : Origin) : D unit :=
  match o with Root => mret tt | _ => throw BadOrigin end.

Lemma ensure_signed_Ret o s who t :
  (ensure_signed o : D AccountId) s = Ret who t ↔ o = SignedBy who ∧ t = s.
Proof. destruct o; unfold ensure_signed; rewrite ?ret_Ret, ?throw_Ret; naive_solver. Qed.

Lemma ensure_none_Ret o s u t : (ensure_none o : D unit) s = Ret u t ↔ o = NoOrigin ∧ t = s.
Proof. destruct o, u; unfold ensure_none; rewrite ?ret_Ret, ?throw_Ret; naive_solver. Qed.

Lemma ensure_root_Ret o s u t : (ensure_root o : D unit) s = Ret u t ↔ o = Root ∧ t = s.
Proof. destruct o, u; unfold ensure_root; rewrite ?ret_Ret, ?throw_Ret; naive_solver. Qed.

Lemma preserves_ensure_signed (I : S → Prop) o : preserves I (ensure_signed o : D AccountId).
Proof. destruct o; unfold ensure_signed; auto with preserves. Qed.

Lemma preserves_ensure_none (I : S → Prop) o : preserves I (ensure_none o : D unit).
Proof. destruct o; unfold ensure_none; auto with preserves. Qed.

Lemma preserves_ensure_root (I : S → Prop) o : preserves I (ensure_root o : D unit).
Proof. destruct o; unfold ensure_root; auto with preserves. Qed.
End origins.

#[export] Hint Resolve preserves_ensure_signed preserves_ensure_none preserves_ensure_root
  : preserves.

(** ** A pallet inside the chain

    A pallet's storage [S] paired with the rest of the chain [W]. *)

Section own_state.
Context {S W E F : Type}.
Implicit Types (p q : S * W).

Abbreviation D A := (M (S * W) (DispatchError E F) A).

Definition reads {A} (f : S → A) : D A := gets (λ p, f p.1).

Definition writes (f : S → S) : D unit := modify (λ p, (f p.1, p.2)).

(** Read the rest of the chain. *)
Definition observes {A} (f : W → A) : D A := gets (λ p, f p.2).

(** Call another pallet. *)
Definition calls {A} (m : M W F A) : D A :=
  λ p, match m p.2 with
       | Ret a w => Ret a (p.1, w)
       | Fail e w => Fail (Foreign e) (p.1, w)
       | Panic => Panic
       end.

Lemma reads_Ret {A} (f : S → A) p a q : reads f p = Ret a q ↔ a = f p.1 ∧ q = p.
Proof. unfold reads. by rewrite gets_Ret. Qed.

Lemma observes_Ret {A} (f : W → A) p a q : observes f p = Ret a q ↔ a = f p.2 ∧ q = p.
Proof. unfold observes. by rewrite gets_Ret. Qed.

Lemma writes_Ret f p u q : writes f p = Ret u q ↔ q = (f p.1, p.2).
Proof. unfold writes. by rewrite modify_Ret. Qed.

Lemma calls_Ret {A} (m : M W F A) p a q :
  calls m p = Ret a q ↔ ∃ w, m p.2 = Ret a w ∧ q = (p.1, w).
Proof. unfold calls. destruct (m p.2); naive_solver. Qed.

Lemma run_reads {A B} (g : S → A) (f : A → D B) p : (reads g ≫= f) p = f (g p.1) p.
Proof. done. Qed.

Lemma run_observes {A B} (g : W → A) (f : A → D B) p : (observes g ≫= f) p = f (g p.2) p.
Proof. done. Qed.

Lemma run_writes {B} g (f : unit → D B) p : (writes g ≫= f) p = f tt (g p.1, p.2).
Proof. done. Qed.

Lemma run_calls {A B} (m : M W F A) (f : A → D B) p :
  (calls m ≫= f) p = match m p.2 with
                     | Ret a w => f a (p.1, w)
                     | Fail e w => Fail (Foreign e) (p.1, w)
                     | Panic => Panic
                     end.
Proof. cbv [mbind M_bind calls]. by destruct (m p.2). Qed.

Lemma wp_reads pan {A} (f : S → A) p Q R : Q (f p.1) p → wp pan (reads f) p Q R.
Proof. done. Qed.

Lemma wp_observes pan {A} (f : W → A) p Q R : Q (f p.2) p → wp pan (observes f) p Q R.
Proof. done. Qed.

Lemma wp_writes pan f p Q R : Q tt (f p.1, p.2) → wp pan (writes f) p Q R.
Proof. done. Qed.

Lemma wp_calls pan {A} (m : M W F A) p (Q : A → S * W → Prop) R :
  wp pan m p.2 (λ a w, Q a (p.1, w)) (λ e w, R (Foreign e) (p.1, w)) → wp pan (calls m) p Q R.
Proof. unfold wp, calls. by destruct (m p.2). Qed.

(** An invariant of the pallet's own storage. *)
Definition own (I : S → Prop) (p : S * W) : Prop := I p.1.

Lemma preserves_reads I {A} (f : S → A) : preserves I (reads f).
Proof. by intros p Hp. Qed.

Lemma preserves_observes I {A} (f : W → A) : preserves I (observes f).
Proof. by intros p Hp. Qed.

Lemma preserves_writes (I : S → Prop) f :
  (∀ s, I s → I (f s)) → preserves (own I) (writes f).
Proof. intros Hf p Hp. by apply Hf. Qed.

Lemma preserves_calls (I : S → Prop) {A} (m : M W F A) : preserves (own I) (calls m).
Proof. intros p Hp. apply wp_calls. unfold wp. by destruct (m p.2). Qed.

(** A read whose value the invariant says something about. *)
Lemma preserves_reads_bind (I : S → Prop) {A B} (f : S → A) (g : A → D B) :
  (∀ s, I s → preserves (own I) (g (f s))) → preserves (own I) (reads f ≫= g).
Proof. intros Hg p Hp. exact (Hg p.1 Hp p Hp). Qed.

(** An invariant of the rest of the chain: the pallet reaches it through its
    calls only. *)
Definition world (J : W → Prop) (p : S * W) : Prop := J p.2.

Lemma preserves_writes_world (J : W → Prop) f : preserves (world J) (writes f).
Proof. by intros p Hp. Qed.

Lemma preserves_calls_world (J : W → Prop) {A} (m : M W F A) :
  preserves J m → preserves (world J) (calls m).
Proof. intros Hm p Hp. apply wp_calls. by apply Hm. Qed.
End own_state.

#[export] Hint Resolve preserves_reads preserves_observes preserves_writes preserves_calls
  preserves_writes_world preserves_calls_world : preserves.

#[export] Hint Rewrite @run_reads @run_observes @run_writes @run_calls : mrun.

(** Run the statements at the head of the computation. *)
Ltac mrun := autorewrite with mrun; cbn [fst snd].

Notation "'store!' f := v" := (writes (λ s, set f (λ _, v) s))
  (at level 80, f at level 9, v at level 79) : frame_scope.

Notation "'mutate!' f ::= g" := (writes (λ s, set f g s))
  (at level 80, f at level 9, g at level 79) : frame_scope.

(** [minv] with the origin checks and the pallet's own storage. *)
Ltac dinv_step :=
  match goal with
  | H' : ensure_signed _ _ = Ret _ _ |- _ => apply ensure_signed_Ret in H' as [? ?]; subst
  | H' : ensure_none _ _ = Ret _ _ |- _ => apply ensure_none_Ret in H' as [? ?]; subst
  | H' : ensure_root _ _ = Ret _ _ |- _ => apply ensure_root_Ret in H' as [? ?]; subst
  | H' : reads _ _ = Ret _ _ |- _ => apply reads_Ret in H' as [? ?]; subst
  | H' : observes _ _ = Ret _ _ |- _ => apply observes_Ret in H' as [? ?]; subst
  | H' : writes _ _ = Ret _ _ |- _ => apply writes_Ret in H'; subst
  | H' : calls _ _ = Ret _ _ |- _ =>
      let w := fresh "w" in apply calls_Ret in H' as (w & H' & ?); subst
  end; cbn [fst snd] in *.

Ltac dinv H := repeat (progress (minv_step H; try dinv_step; cbn [fst snd] in * ));
  repeat dinv_step.

Ltac dwp_step :=
  first
    [ lazymatch goal with
      | |- wp _ (reads _) _ _ _ => apply wp_reads; cbv beta
      | |- wp _ (observes _) _ _ _ => apply wp_observes; cbv beta
      | |- wp _ (writes _) _ _ _ => apply wp_writes; cbv beta
      | |- wp _ (calls _) _ _ _ => apply wp_calls; cbv beta
      end; cbn [fst snd]
    | wp_step ].
