(* ===== verification/BridgeRegistry.v ===== *)
(** * pallet-bridge-registry

    The registry of bridges (src/pallets/bridge-registry/src/lib.rs and
    types.rs): sets of anchor resources that belong to one bridge, grown one
    signed anchor update at a time.  The theorems give the effect of an anchor
    update, show that the resource index and the resource lists of the bridges
    stay consistent, and that two existing bridges are never merged. *)

From S2P Require Import Prelude.
From S2P Require Import Frame.
From S2P Require Import Primitives.
From S2P Require Import Traits.

(** ** Data *)

(** [pallet_identity::Data] as this pallet uses it: it only stores values. *)
Inductive SerdeData := DataNone | DataRaw (raw : bytes).

Record BridgeInfo := mkBridgeInfo {
  additional : list (SerdeData * SerdeData);
  display : SerdeData }.

Definition bridge_info_default : BridgeInfo := {| additional := []; display := DataNone |}.

Record BridgeMetadata := mkBridgeMetadata {
  resource_ids : list bytes;
  info : BridgeInfo }.

#[export] Instance eta_BridgeMetadata : Eta BridgeMetadata :=
  λ m, mkBridgeMetadata (resource_ids m) (info m).

Record BridgeRegistry := mkBridgeRegistry {
  NextBridgeIndex : Z;
  Bridges : gmap Z BridgeMetadata;
  ResourceToBridgeIndex : gmap bytes Z }.

#[export] Instance eta_BridgeRegistry : Eta BridgeRegistry :=
  λ s, mkBridgeRegistry (NextBridgeIndex s) (Bridges s) (ResourceToBridgeIndex s).

Inductive BridgeError :=
| ParametersNotInitialized
| VerifyError
| ProposalNotSigned
| BridgeIndexError
| TooManyFields
| BridgeNotFound
| TooManyResources
| OutOfBounds.

Class BridgeConfig := {
  MaxAdditionalFields : Z;
  MaxResources : Z }.

(** ** Operations *)

Module Registry.
Section registry.
Context `{BridgeConfig, WebbProposals} {F : Type}.

Abbreviation R A := (M BridgeRegistry (DispatchError BridgeError F) A).

(** [BuildGenesisConfig::build] on a store without bridges. *)
Definition build (bridges : list BridgeMetadata) : R unit :=
  put! NextBridgeIndex := 1;;
  for_each bridges (λ bridge,
    idx ← gets NextBridgeIndex;
    upd! Bridges ::= <[idx := bridge]>;;
    put! NextBridgeIndex := wrap 32 (idx + 1);;
    for_each (resource_ids bridge) (λ rid,
      upd! ResourceToBridgeIndex ::= <[rid := idx]>)).

Definition set_metadata (origin : Origin) (bridge_index : Z) (new_info : BridgeInfo) : R unit :=
  ensure_root origin;;
  let extra_fields := len (additional new_info) in
  ensure (extra_fields <=? MaxAdditionalFields) (Module TooManyFields);;
  existing ← gets (λ s, Bridges s !! bridge_index);
  let metadata :=
    match existing with
    | Some id => id <| info := new_info |>
    | None => {| info := new_info; resource_ids := [] |}
    end in
  upd! Bridges ::= <[bridge_index := metadata]>.

Definition force_reset_indices (origin : Origin) (ids : list bytes) (bridge_index : Z)
    : R unit :=
  ensure_root origin;;
  if MaxResources <? len ids then throw (Module TooManyResources) else
  for_each ids (λ resource_id,
    upd! ResourceToBridgeIndex ::= <[resource_id := bridge_index]>).

(** [ResourceToBridgeIndex::get(rid).unwrap_or_default()]. *)
Definition bridge_index_of (s : BridgeRegistry) (rid : bytes) : Z :=
  default 0 (ResourceToBridgeIndex s !! rid).

(** Neither resource belongs to a bridge: a new bridge with both. *)
Definition create_bridge (src dest : bytes) : R unit :=
  next_bridge_index ← gets NextBridgeIndex;
  upd! ResourceToBridgeIndex ::= <[src := next_bridge_index]>;;
  upd! ResourceToBridgeIndex ::= <[dest := next_bridge_index]>;;
  ids ← ok_or (try_push MaxResources [] src) (Module OutOfBounds);
  ids ← ok_or (try_push MaxResources ids dest) (Module OutOfBounds);
  upd! Bridges ::= <[next_bridge_index :=
    {| info := bridge_info_default; resource_ids := ids |}]>;;
  upd! NextBridgeIndex ::= λ n, wrap 32 (n + 1).

(** One of them does: the other joins its bridge. *)
Definition join_bridge (r_id : bytes) (bridge_index : Z) : R unit :=
  upd! ResourceToBridgeIndex ::= <[r_id := bridge_index]>;;
  found ← gets (λ s, Bridges s !! bridge_index);
  metadata ← ok_or found (Module BridgeNotFound);
  ids ← ok_or (try_push MaxResources (resource_ids metadata) r_id) (Module TooManyResources);
  upd! Bridges ::= <[bridge_index := metadata <| resource_ids := ids |>]>.

Definition link_resources (src dest : bytes) : R unit :=
  src_bridge_index ← gets (λ s, bridge_index_of s src);
  dest_bridge_index ← gets (λ s, bridge_index_of s dest);
  if (src_bridge_index =? 0) || (dest_bridge_index =? 0) then
    if (src_bridge_index =? 0) && (dest_bridge_index =? 0) then create_bridge src dest
    else
      let '(r_id, bridge_index) :=
        if src_bridge_index =? 0 then (src, dest_bridge_index)
        else (dest, src_bridge_index) in
      join_bridge r_id bridge_index
  else ensure (src_bridge_index =? dest_bridge_index) (Module BridgeIndexError).

(** [OnSignedProposal::on_signed_proposal]; [clone_from_slice] panics unless
    the data has exactly the length of an anchor update. *)
Definition on_signed_proposal (proposal : Proposal) : R unit :=
  ensure (is_signed proposal) (Module ProposalNotSigned);;
  if decide (proposal_kind proposal = AnchorUpdate) then
    let data := proposal_data proposal in
    assert_that (length data =? evm_proposal_length AnchorUpdate)%nat;;
    anchor_update_proposal ← ok_or (evm_from_slice AnchorUpdate data) (Module VerifyError);
    let src_resource_id := parsed_src_resource_id anchor_update_proposal in
    let dest_resource_id := parsed_resource_id anchor_update_proposal in
    link_resources src_resource_id dest_resource_id
  else mret tt.
End registry.
End Registry.
Import Registry.

(** ** Invariant

    The reverse index and the bridges' lists agree, and every index in use
    was handed out. *)

Record registry_inv `{BridgeConfig} (s : BridgeRegistry) : Prop := {
  ri_next : 1 <= NextBridgeIndex s;
  ri_index r i : ResourceToBridgeIndex s !! r = Some i →
    1 <= i < NextBridgeIndex s ∧ ∃ m, Bridges s !! i = Some m ∧ r ∈ resource_ids m;
  ri_members i m r : Bridges s !! i = Some m → r ∈ resource_ids m →
    ResourceToBridgeIndex s !! r = Some i;
  ri_bound i m : Bridges s !! i = Some m → len (resource_ids m) <= MaxResources }.

Section registry_theorems.
Context `{BridgeConfig, WebbProposals} {F : Type}.
Implicit Types s t : BridgeRegistry.

Abbreviation R A := (M BridgeRegistry (DispatchError BridgeError F) A).

Lemma create_bridge_Ret src dest s u t :
  (create_bridge src dest : R unit) s = Ret u t →
  2 <= MaxResources ∧
  t = mkBridgeRegistry (wrap 32 (NextBridgeIndex s + 1))
    (<[NextBridgeIndex s := {| info := bridge_info_default; resource_ids := [src; dest] |}]>
      (Bridges s))
    (<[dest := NextBridgeIndex s]> (<[src := NextBridgeIndex s]> (ResourceToBridgeIndex s))).
Proof.
  intros Hr. unfold create_bridge in Hr. minv Hr.
  repeat match goal with E : try_push _ _ _ = Some _ |- _ => apply try_push_Some in E as [-> ?] end.
  simpl in *. split; [lia|done].
Qed.

Lemma join_bridge_Ret r i s u t :
  (join_bridge r i : R unit) s = Ret u t →
  ∃ m, Bridges s !! i = Some m ∧ len (resource_ids m) < MaxResources ∧
  t = mkBridgeRegistry (NextBridgeIndex s)
    (<[i := {| info := info m; resource_ids := resource_ids m ++ [r] |}]> (Bridges s))
    (<[r := i]> (ResourceToBridgeIndex s)).
Proof.
  intros Hr. unfold join_bridge in Hr. minv Hr.
  match goal with E : try_push _ _ _ = Some _ |- _ => apply try_push_Some in E as [-> ?] end.
  eexists. split; [done|]. split; [lia|done].
Qed.

(** The three ways in which linking two resources succeeds. *)
Inductive link_case (s t : BridgeRegistry) (src dest : bytes) : Prop :=
| link_same : bridge_index_of s src = bridge_index_of s dest → bridge_index_of s src ≠ 0 →
    t = s → link_case s t src dest
| link_new u : bridge_index_of s src = 0 → bridge_index_of s dest = 0 →
    (create_bridge src dest : R unit) s = Ret u t → link_case s t src dest
| link_join r r' i u :
    (r = src ∧ r' = dest ∨ r = dest ∧ r' = src) →
    bridge_index_of s r = 0 → bridge_index_of s r' = i → i ≠ 0 →
    (join_bridge r i : R unit) s = Ret u t → link_case s t src dest.

Lemma link_resources_cases src dest s u t :
  (link_resources src dest : R unit) s = Ret u t → link_case s t src dest.
Proof.
  intros Hr. unfold link_resources in Hr. do 2 minv_step Hr.
  destruct (Z.eqb_spec (bridge_index_of s src) 0) as [Hs|Hs];
    destruct (Z.eqb_spec (bridge_index_of s dest) 0) as [Hd|Hd]; simpl in Hr.
  - eapply link_new; eauto.
  - eapply (link_join _ _ _ _ src dest); eauto.
  - eapply (link_join _ _ _ _ dest src); eauto.
  - minv Hr. apply Z.eqb_eq in Hr. by apply link_same.
Qed.

Lemma index_insert_ne s r r' i :
  r ≠ r' → default 0 (<[r := i]> (ResourceToBridgeIndex s) !! r') = bridge_index_of s r'.
Proof. intros. by rewrite lookup_insert_ne. Qed.

(** When an anchor update is accepted, its two resources end with the same
    bridge index; every other resource keeps its index, and no resource that had a
    bridge is moved to another one. *)
Theorem link_resources_effect src dest s u t :
  1 <= NextBridgeIndex s →
  (link_resources src dest : R unit) s = Ret u t →
  bridge_index_of t src = bridge_index_of t dest ∧ bridge_index_of t src ≠ 0 ∧
  (∀ r, r ≠ src → r ≠ dest → bridge_index_of t r = bridge_index_of s r) ∧
  (∀ r, bridge_index_of s r ≠ 0 → bridge_index_of t r = bridge_index_of s r).
Proof.
  intros Hn [? ? ->|u' Hs Hd Hc|r r' i u' Hrr Hr0 Hr' Hi Hj]%link_resources_cases; [done|..].
  - apply create_bridge_Ret in Hc as [_ ->]. unfold bridge_index_of in *; simpl.
    rewrite lookup_insert_eq.
    assert (∀ r, r ≠ src → r ≠ dest → default 0
      (<[dest:=NextBridgeIndex s]> (<[src:=NextBridgeIndex s]> (ResourceToBridgeIndex s)) !! r)
      = default 0 (ResourceToBridgeIndex s !! r)) as Ho.
    { intros. by rewrite !lookup_insert_ne. }
    assert ((<[dest:=NextBridgeIndex s]> (<[src:=NextBridgeIndex s]>
      (ResourceToBridgeIndex s)) !! src) = Some (NextBridgeIndex s)) as Hsrc.
    { destruct (decide (dest = src)) as [->|]; [by rewrite lookup_insert_eq|].
      by rewrite lookup_insert_ne, lookup_insert_eq. }
    rewrite Hsrc. split_and!; [done|simpl; lia|done|].
    intros r Hr. apply Ho; intros ->; congruence.
  - apply join_bridge_Ret in Hj as (m & _ & _ & ->).
    assert (r ≠ r') by (intros ->; congruence).
    unfold bridge_index_of in *; simpl.
    assert (∀ q, q ≠ r → default 0 (<[r:=i]> (ResourceToBridgeIndex s) !! q)
      = default 0 (ResourceToBridgeIndex s !! q)) as Ho.
    { intros. by rewrite lookup_insert_ne. }
    destruct Hrr as [[-> ->]|[-> ->]]; rewrite lookup_insert_eq, Ho by done; simpl;
      (split_and!; [congruence|congruence|auto|intros q Hq; apply Ho; intros ->; congruence]).
Qed.

Lemma create_bridge_inv src dest s u t :
  registry_inv s → NextBridgeIndex s < 2 ^ 32 - 1 →
  bridge_index_of s src = 0 → bridge_index_of s dest = 0 →
  (create_bridge src dest : R unit) s = Ret u t → registry_inv t.
Proof.
  intros Hi Hw Hs Hd [Hm ->]%create_bridge_Ret.
  assert (∀ r, bridge_index_of s r = 0 → ResourceToBridgeIndex s !! r = None) as Hnone.
  { intros r Hr. unfold bridge_index_of in Hr.
    destruct (ResourceToBridgeIndex s !! r) eqn:Hl; [|done].
    apply ri_index in Hl; [simpl in Hr; lia|done]. }
  pose proof (ri_next s Hi). rewrite wrap_small by (unfold in_width; lia).
  split; simpl; [lia|..].
  - intros r i. rewrite !lookup_insert_Some.
    intros [[<- <-]|[Hne [[<- <-]|[Hne' Hl]]]].
    + split; [lia|]. eexists. rewrite lookup_insert_eq. split; [done|]. simpl. set_solver.
    + split; [lia|]. eexists. rewrite lookup_insert_eq. split; [done|]. simpl. set_solver.
    + apply ri_index in Hl as (? & m & Hb & Hin); [|done].
      split; [lia|]. exists m. rewrite lookup_insert_ne by lia. done.
  - intros i m r [[<- <-]|[Hne Hb]]%lookup_insert_Some Hin; simpl in Hin.
    + rewrite !elem_of_cons in Hin. rewrite !lookup_insert_Some.
      destruct (decide (dest = r)); [by left|right]. split; [done|].
      destruct Hin as [->|[->|[]%not_elem_of_nil]]; [by left|done].
    + pose proof (ri_members _ Hi _ _ _ Hb Hin) as Hl.
      assert (r ≠ src ∧ r ≠ dest) as [? ?].
      { split; intros ->; rewrite Hnone in Hl; done. }
      by rewrite !lookup_insert_ne.
  - intros i m [[<- <-]|[Hne Hb]]%lookup_insert_Some; simpl; [lia|].
    by eapply ri_bound.
Qed.

Lemma join_bridge_inv r r' i s u t :
  registry_inv s → bridge_index_of s r = 0 → bridge_index_of s r' = i → i ≠ 0 →
  (join_bridge r i : R unit) s = Ret u t → registry_inv t.
Proof.
  intros Hi Hr Hr' Hne (m & Hb & Hm & ->)%join_bridge_Ret.
  assert (ResourceToBridgeIndex s !! r = None) as Hnone.
  { unfold bridge_index_of in Hr. destruct (ResourceToBridgeIndex s !! r) eqn:Hl; [|done].
    apply ri_index in Hl; [simpl in Hr; lia|done]. }
  assert (1 <= i < NextBridgeIndex s) as Hrange.
  { unfold bridge_index_of in Hr'. destruct (ResourceToBridgeIndex s !! r') eqn:Hl; simpl in Hr'.
    - apply ri_index in Hl; [naive_solver|done].
    - congruence. }
  split; simpl; [by apply ri_next|..].
  - intros q j. rewrite !lookup_insert_Some. intros [[<- <-]|[Hq Hl]].
    + split; [done|]. eexists. rewrite lookup_insert_eq. split; [done|]. simpl. set_solver.
    + apply ri_index in Hl as (? & m' & Hb' & Hin); [|done]. split; [done|].
      destruct (decide (i = j)) as [<-|].
      * rewrite Hb in Hb'. simplify_eq. rewrite lookup_insert_eq. eexists; split; [done|].
        simpl. set_solver.
      * exists m'. by rewrite lookup_insert_ne.
  - intros j m' q [[<- <-]|[Hj Hb']]%lookup_insert_Some Hin; simpl in Hin.
    + rewrite lookup_insert_Some. destruct (decide (r = q)) as [->|]; [by left|right].
      split; [done|]. apply (ri_members _ Hi _ m); [done|set_solver].
    + pose proof (ri_members _ Hi _ _ _ Hb' Hin). rewrite lookup_insert_ne by congruence. done.
  - intros j m' [[<- <-]|[Hj Hb']]%lookup_insert_Some; simpl.
    + rewrite length_app. simpl. lia.
    + by eapply ri_bound.
Qed.

(** C27: an accepted signed proposal keeps the registry consistent: the reverse
    index and the bridges' resource lists describe the same partition, within the
    resource bound. *)
Theorem on_signed_proposal_inv p s u t :
  registry_inv s → NextBridgeIndex s < 2 ^ 32 - 1 →
  (on_signed_proposal p : R unit) s = Ret u t → registry_inv t.
Proof.
  intros Hi Hw Hr. unfold on_signed_proposal in Hr. minv_step Hr.
  case_decide; [|by minv Hr]. do 2 minv_step Hr.
  apply link_resources_cases in Hr as [? ? ->|? Hs Hd Hc|? ? ? ? _ Hz Hr' Hne Hj]; [done|..].
  - exact (create_bridge_inv _ _ _ _ _ Hi Hw Hs Hd Hc).
  - exact (join_bridge_inv _ _ _ _ _ _ Hi Hz Hr' Hne Hj).
Qed.

(** Governance metadata updates keep the registry consistent and touch
    nothing but the description of the one bridge. *)
Theorem set_metadata_effect origin i new_info s u t :
  (set_metadata origin i new_info : R unit) s = Ret u t →
  origin = Root ∧ (registry_inv s → 0 <= MaxResources → registry_inv t) ∧
  ResourceToBridgeIndex t = ResourceToBridgeIndex s ∧
  NextBridgeIndex t = NextBridgeIndex s ∧
  (∀ j, j ≠ i → Bridges t !! j = Bridges s !! j) ∧
  ∃ m, Bridges t !! i = Some m ∧ info m = new_info ∧
       resource_ids m = match Bridges s !! i with Some o => resource_ids o | None => [] end.
Proof.
  intros Hr. unfold set_metadata in Hr. dinv Hr. simp_get.
  split; [done|]. split.
  { intros Hi Hm. split; simp_get; [by apply ri_next|..].
    - intros r j Hl. pose proof Hl as (Hj & m & Hb & Hin)%ri_index; [|done]. split; [done|].
      destruct (decide (i = j)) as [<-|].
      + rewrite lookup_insert_eq, Hb. eexists; split; [done|]. done.
      + exists m. by rewrite lookup_insert_ne.
    - intros j m r [[<- <-]|[Hj Hb']]%lookup_insert_Some Hin.
      + destruct (Bridges s !! i) as [o|] eqn:Ho; simpl in Hin; [|by apply not_elem_of_nil in Hin].
        by apply (ri_members _ Hi _ o).
      + by eapply ri_members.
    - intros j m [[<- <-]|[Hj Hb']]%lookup_insert_Some; [|by eapply ri_bound].
      destruct (Bridges s !! i) as [o|] eqn:Ho; simpl; [|done]. by eapply (ri_bound s Hi i). }
  split_and!; [done..|intros; by rewrite lookup_insert_ne|].
  eexists. rewrite lookup_insert_eq. split; [done|]. by destruct (Bridges s !! i).
Qed.

(** Two resources of different bridges are never linked: the update fails
    with [BridgeIndexError] and the registry is as before. *)
Theorem link_resources_no_merge src dest s :
  bridge_index_of s src ≠ 0 → bridge_index_of s dest ≠ 0 →
  bridge_index_of s src ≠ bridge_index_of s dest →
  (link_resources src dest : R unit) s = Fail (Module BridgeIndexError) s.
Proof.
  intros Hs Hd Hne. unfold link_resources, gets, mbind, M_bind.
  destruct (Z.eqb_spec (bridge_index_of s src) 0); [done|].
  destruct (Z.eqb_spec (bridge_index_of s dest) 0); [done|]. simpl.
  by destruct (Z.eqb_spec (bridge_index_of s src) (bridge_index_of s dest)).
Qed.

(** Which errors a consistent registry can raise, and what they leave behind. *)
Lemma join_bridge_full r i m s :
  Bridges s !! i = Some m → MaxResources <= len (resource_ids m) →
  (join_bridge r i : R unit) s =
    Fail (Module TooManyResources)
      (s <| ResourceToBridgeIndex ::= <[r := i]> |>).
Proof.
  intros Hb Hm. unfold join_bridge, gets, mbind, M_bind, modify. simp_get. rewrite Hb. simpl.
  by rewrite (proj2 (try_push_None _ _ _) Hm).
Qed.

(** The error path of a full bridge is not clean: the new resource has
    already been mapped to the bridge when [TooManyResources] is raised, so a
    caller that swallows the error (as the proposal handler does) leaves a resource
    with a bridge that does not list it. *)
Theorem full_bridge_leaves_dangling_index src dest i m s :
  registry_inv s → bridge_index_of s src = i → i ≠ 0 → bridge_index_of s dest = 0 →
  Bridges s !! i = Some m → MaxResources <= len (resource_ids m) →
  ∃ t, (link_resources src dest : R unit) s = Fail (Module TooManyResources) t ∧
       bridge_index_of t dest = i ∧ Bridges t = Bridges s ∧ (dest ∉ resource_ids m) ∧
       ¬ registry_inv t.
Proof.
  intros Hi Hs Hne Hd Hb Hm. exists (s <| ResourceToBridgeIndex ::= <[dest := i]> |>).
  assert (dest ∉ resource_ids m) as Hnin.
  { intros Hin. pose proof (ri_members _ Hi _ _ _ Hb Hin) as Hl.
    unfold bridge_index_of in Hd. rewrite Hl in Hd. simpl in Hd. congruence. }
  split_and!; [|unfold bridge_index_of; simp_get; by rewrite lookup_insert_eq|done|done|].
  - unfold link_resources. unfold gets at 1 2, mbind, M_bind. rewrite Hs, Hd.
    destruct (Z.eqb_spec i 0); [done|]. simpl. by eapply join_bridge_full.
  - intros Ht. destruct (ri_index _ Ht dest i) as (_ & m' & Hb' & Hin).
    { simp_get. by rewrite lookup_insert_eq. }
    simp_get_in Hb'. congruence.
Qed.
End registry_theorems.
