(* ===== verification/Proposals.v ===== *)
(** * pallet-dkg-proposals

    Voting on bridge proposals by the current proposer set
    (src/pallets/dkg-proposals/src/lib.rs, types.rs, utils.rs).  An approved
    proposal is handed to the configured proposal handler.  The theorems show
    who can vote and how often, when a proposal is approved or rejected and that
    both are final, that a rejection is justified and a full vote decides, and
    that the handler runs exactly at approval. *)

From S2P Require Import Prelude.
From S2P Require Import Frame.
From S2P Require Import Primitives.
From S2P Require Import Merkle.
From S2P Require Import Traits.

(** ** Votes (types.rs) *)

Inductive ProposalStatus := Initiated | Approved | Rejected.

#[export] Instance ProposalStatus_eq_dec : EqDecision ProposalStatus.
Proof. solve_decision. Defined.

Record ProposalVotes := mkProposalVotes {
  votes_for : list AccountId;
  votes_against : list AccountId;
  status : ProposalStatus;
  expiry : Z }.

#[export] Instance eta_ProposalVotes : Eta ProposalVotes :=
  λ v, mkProposalVotes (votes_for v) (votes_against v) (status v) (expiry v).

Definition votes_default : ProposalVotes := {|
  votes_for := []; votes_against := []; status := Initiated; expiry := 0 |}.

(** The updated votes and the returned status. *)
Definition try_to_complete (v : ProposalVotes) (threshold total : Z)
    : ProposalVotes * ProposalStatus :=
  if threshold <=? len (votes_for v) then (v <| status := Approved |>, Approved)
  else if (threshold <=? total) && (total <? wrap 32 (wrap 32 (len (votes_against v)) + threshold))
  then (v <| status := Rejected |>, Rejected)
  else (v, Initiated).

Definition is_complete (v : ProposalVotes) : bool := negb (bool_decide (status v = Initiated)).

Definition has_voted (v : ProposalVotes) (who : AccountId) : bool :=
  bool_decide (who ∈ votes_for v) || bool_decide (who ∈ votes_against v).

Definition is_expired (v : ProposalVotes) (now : Z) : bool := expiry v <=? now.

(** ** Resource identifiers (utils.rs) *)

(** [for i in 0..range { r_id[25 - i] = id[range - 1 - i] }]. *)
Definition derive_resource_id (chain chain_type : Z) (id : bytes) : bytes :=
  let r_id := replicate 32 0 in
  let chain := le_encode 4 chain in
  let chain_type := le_encode 2 chain_type in
  let r_id := <[26%nat := nth 0 chain_type 0]> r_id in
  let r_id := <[27%nat := nth 1 chain_type 0]> r_id in
  let r_id := <[28%nat := nth 0 chain 0]> r_id in
  let r_id := <[29%nat := nth 1 chain 0]> r_id in
  let r_id := <[30%nat := nth 2 chain 0]> r_id in
  let r_id := <[31%nat := nth 3 chain 0]> r_id in
  let range := if (26 <? length id)%nat then 26%nat else length id in
  fold_left (λ r i, <[(25 - i)%nat := nth (range - 1 - i) id 0]> r) (seq 0 range) r_id.

(** [DKGEcdsaToEthereumAddress::convert]: the last 20 bytes of the hash of the
    uncompressed point, or nothing for an invalid key. *)
Definition DKGEcdsaToEthereumAddress `{Crypto} (a : DKGId) : bytes :=
  match secp256k1_decompress (dkg_bytes a) with
  | Some uncompressed => drop 12 (keccak_256 (drop 1 uncompressed))
  | None => []
  end.

(** ** The pallet *)

Inductive ProposalsEvent :=
| ProposerThresholdChanged (new_threshold : Z)
| ChainWhitelisted (chain_id : TypedChainId)
| VoteFor (kind : ProposalKind) (src : TypedChainId) (n : Z) (who : AccountId)
| VoteAgainst (kind : ProposalKind) (src : TypedChainId) (n : Z) (who : AccountId)
| ProposalApproved (kind : ProposalKind) (src : TypedChainId) (n : Z)
| ProposalRejected (kind : ProposalKind) (src : TypedChainId) (n : Z)
| ProposalSucceeded (kind : ProposalKind) (src : TypedChainId) (n : Z)
| ProposalFailed (kind : ProposalKind) (src : TypedChainId) (n : Z)
| ProposersReset (proposers : list AccountId).

Inductive ProposalsError :=
| InvalidPermissions | ThresholdNotSet | InvalidChainId | InvalidThreshold
| ChainNotWhitelisted | ChainAlreadyWhitelisted | ResourceDoesNotExist
| ProposerAlreadyExists | ProposerInvalid | MustBeProposer | ProposerAlreadyVoted
| ProposalAlreadyExists | ProposalDoesNotExist | ProposalNotComplete
| ProposalAlreadyComplete | ProposalExpired | ProposerCountIsZero
| ProposalsOutOfBounds | InvalidProposal.

(** The key of a vote record: the source chain, the nonce and the proposal. *)
Abbreviation VoteKey := (TypedChainId * (Z * Proposal))%type.

Record Proposals := mkProposals {
  ChainNonces : gmap TypedChainId Z;
  ProposerThreshold : Z;
  Proposers : list AccountId;
  VotingKeys : list (AccountId * bytes);
  ProposerCount : Z;
  Votes : gmap VoteKey ProposalVotes;
  Resources : gmap bytes bytes;
  proposals_events : list ProposalsEvent }.

#[export] Instance eta_Proposals : Eta Proposals :=
  λ s, mkProposals (ChainNonces s) (ProposerThreshold s) (Proposers s) (VotingKeys s)
    (ProposerCount s) (Votes s) (Resources s) (proposals_events s).

Definition DKG_DEFAULT_PROPOSER_THRESHOLD : Z := 1.

(** Storage before genesis: every item at its default. *)
Definition proposals_empty : Proposals := {|
  ChainNonces := ∅; ProposerThreshold := DKG_DEFAULT_PROPOSER_THRESHOLD; Proposers := [];
  VotingKeys := []; ProposerCount := 0; Votes := ∅; Resources := ∅; proposals_events := [] |}.

Class ProposalsConfig := {
  ChainIdentifier : TypedChainId;
  ProposalLifetime : Z;
  MaxVotes : Z;
  MaxResourceLength : Z;
  MaxProposers : Z;
  VotingKeySize : Z }.

Module Voting.
Section pallet.
Context `{ProposalsConfig, WebbProposals, MerkleLeaf} {W F : Type}.
Context `{System W, ProposalHandlerTrait W F}.

Abbreviation P A := (M (Proposals * W) (DispatchError ProposalsError F) A).

Definition deposit_event (e : ProposalsEvent) : P unit :=
  mutate! proposals_events ::= (λ es, es ++ [e]).

(** [BuildGenesisConfig::build]. *)
Definition build (initial_chain_ids : list bytes) (initial_r_ids : list (bytes * bytes))
    (initial_proposers : list AccountId) : P unit :=
  for_each initial_chain_ids (λ bs,
    mutate! ChainNonces ::= <[typed_chain_id_from bs := 0]>);;
  for_each initial_r_ids (λ '(r_id, r_data),
    bounded_input ← expect (try_bound MaxResourceLength r_data);
    mutate! Resources ::= <[r_id := bounded_input]>);;
  bounded_proposers ← expect (try_bound MaxProposers initial_proposers);
  store! Proposers := bounded_proposers.

Definition ensure_admin (o : Origin) : P unit := ensure_root o.

Definition is_proposer (who : AccountId) : P bool :=
  reads (λ s, bool_decide (who ∈ Proposers s)).

Definition resource_exists (id : bytes) : P bool :=
  reads (λ s, bool_decide (is_Some (Resources s !! id))).

Definition chain_whitelisted (chain_id : TypedChainId) : P bool :=
  reads (λ s, bool_decide (is_Some (ChainNonces s !! chain_id))).

Definition set_proposer_threshold (threshold : Z) : P unit :=
  ensure (0 <? threshold) (Module InvalidThreshold);;
  proposers ← reads Proposers;
  ensure (threshold <=? wrap 32 (len proposers)) (Module InvalidThreshold);;
  store! ProposerThreshold := threshold;;
  deposit_event (ProposerThresholdChanged threshold).

Definition register_resource (id method : bytes) : P unit :=
  bounded_method ← ok_or (try_bound MaxResourceLength method) (Module ProposalsOutOfBounds);
  mutate! Resources ::= <[id := bounded_method]>.

Definition unregister_resource (id : bytes) : P unit := mutate! Resources ::= delete id.

Definition whitelist (chain_id : TypedChainId) : P unit :=
  ensure (bool_decide (chain_id ≠ ChainIdentifier)) (Module InvalidChainId);;
  whitelisted ← chain_whitelisted chain_id;
  ensure (negb whitelisted) (Module ChainAlreadyWhitelisted);;
  mutate! ChainNonces ::= <[chain_id := 0]>;;
  deposit_event (ChainWhitelisted chain_id).

(** The votes of a proposal that is voted on for the first time. *)
Definition fresh_votes (now : Z) : ProposalVotes :=
  votes_default <| expiry := wrap 32 (now + ProposalLifetime) |>.

Definition commit_vote (who : AccountId) (nonce : Z) (src_chain_id : TypedChainId)
    (prop : Proposal) (in_favour : bool) : P unit :=
  now ← observes block_number;
  found ← reads (λ s, Votes s !! (src_chain_id, (nonce, prop)));
  let votes := default (fresh_votes now) found in
  ensure (negb (is_complete votes)) (Module ProposalAlreadyComplete);;
  ensure (negb (is_expired votes now)) (Module ProposalExpired);;
  ensure (negb (has_voted votes who)) (Module ProposerAlreadyVoted);;
  votes ← (if in_favour : bool then
      l ← ok_or (try_push MaxVotes (votes_for votes) who) (Module ProposalsOutOfBounds);
      deposit_event (VoteFor (proposal_kind prop) src_chain_id nonce who);;
      mret (votes <| votes_for := l |>)
    else
      l ← ok_or (try_push MaxVotes (votes_against votes) who) (Module ProposalsOutOfBounds);
      deposit_event (VoteAgainst (proposal_kind prop) src_chain_id nonce who);;
      mret (votes <| votes_against := l |>));
  mutate! Votes ::= <[(src_chain_id, (nonce, prop)) := votes]>.

Definition finalize_execution (src_chain_id : TypedChainId) (nonce : Z) (prop : Proposal)
    : P unit :=
  deposit_event (ProposalApproved (proposal_kind prop) src_chain_id nonce);;
  calls (handle_unsigned_proposal prop);;
  deposit_event (ProposalSucceeded (proposal_kind prop) src_chain_id nonce).

Definition cancel_execution (src_chain_id : TypedChainId) (nonce : Z) (prop : Proposal)
    : P unit :=
  deposit_event (ProposalRejected (proposal_kind prop) src_chain_id nonce).

Definition try_resolve_proposal (nonce : Z) (src_chain_id : TypedChainId) (prop : Proposal)
    : P unit :=
  found ← reads (λ s, Votes s !! (src_chain_id, (nonce, prop)));
  match found with
  | Some votes =>
      now ← observes block_number;
      ensure (negb (is_complete votes)) (Module ProposalAlreadyComplete);;
      ensure (negb (is_expired votes now)) (Module ProposalExpired);;
      threshold ← reads ProposerThreshold;
      total ← reads ProposerCount;
      let '(votes, st) := try_to_complete votes threshold total in
      mutate! Votes ::= <[(src_chain_id, (nonce, prop)) := votes]>;;
      match st with
      | Approved => finalize_execution src_chain_id nonce prop
      | Rejected => cancel_execution src_chain_id nonce prop
      | Initiated => mret tt
      end
  | None => throw (Module ProposalDoesNotExist)
  end.

Definition vote_for (who : AccountId) (nonce : Z) (src_chain_id : TypedChainId)
    (prop : Proposal) : P unit :=
  commit_vote who nonce src_chain_id prop true;;
  try_resolve_proposal nonce src_chain_id prop.

Definition vote_against (who : AccountId) (nonce : Z) (src_chain_id : TypedChainId)
    (prop : Proposal) : P unit :=
  commit_vote who nonce src_chain_id prop false;;
  try_resolve_proposal nonce src_chain_id prop.

(** The checks that [acknowledge_proposal] and [reject_proposal] repeat. *)
Definition vote_guards (who : AccountId) (prop : Proposal)
    : P (ProposalIdentifier * ProposalHeader) :=
  proposal_ident ← lift_result (λ _, Module InvalidProposal) (decode_proposal_identifier prop);
  proposal_header ← lift_result (λ _, Module InvalidProposal)
    (decode_proposal_header (proposal_data prop));
  proposer ← is_proposer who;
  ensure proposer (Module MustBeProposer);;
  whitelisted ← chain_whitelisted (typed_chain_id proposal_ident);
  ensure whitelisted (Module ChainNotWhitelisted);;
  exists_ ← resource_exists (resource_id proposal_header);
  ensure exists_ (Module ResourceDoesNotExist);;
  mret (proposal_ident, proposal_header).

(** *** Dispatchable calls *)

Definition set_threshold (origin : Origin) (threshold : Z) : P unit :=
  ensure_admin origin;; set_proposer_threshold threshold.

Definition set_resource (origin : Origin) (id method : bytes) : P unit :=
  ensure_admin origin;; register_resource id method.

Definition remove_resource (origin : Origin) (id : bytes) : P unit :=
  ensure_admin origin;; unregister_resource id.

Definition whitelist_chain (origin : Origin) (chain_id : TypedChainId) : P unit :=
  ensure_admin origin;; whitelist chain_id.

Definition acknowledge_proposal (origin : Origin) (prop : Proposal) : P unit :=
  who ← ensure_signed origin;
  '(ident, header) ← vote_guards who prop;
  vote_for who (nonce header) (typed_chain_id ident) prop.

Definition reject_proposal (origin : Origin) (prop : Proposal) : P unit :=
  who ← ensure_signed origin;
  '(ident, header) ← vote_guards who prop;
  vote_against who (nonce header) (typed_chain_id ident) prop.

Definition eval_vote_state (origin : Origin) (nonce : Z) (src_chain_id : TypedChainId)
    (prop : Proposal) : P unit :=
  ensure_signed origin;;
  try_resolve_proposal nonce src_chain_id prop.

Inductive ProposalsCall :=
| SetThreshold (threshold : Z)
| SetResource (id method : bytes)
| RemoveResource (id : bytes)
| WhitelistChain (chain_id : TypedChainId)
| AcknowledgeProposal (prop : Proposal)
| RejectProposal (prop : Proposal)
| EvalVoteState (nonce : Z) (src_chain_id : TypedChainId) (prop : Proposal).

Definition proposals_call (origin : Origin) (c : ProposalsCall) : P unit :=
  dispatch match c with
  | SetThreshold threshold => set_threshold origin threshold
  | SetResource id method => set_resource origin id method
  | RemoveResource id => remove_resource origin id
  | WhitelistChain chain_id => whitelist_chain origin chain_id
  | AcknowledgeProposal prop => acknowledge_proposal origin prop
  | RejectProposal prop => reject_proposal origin prop
  | EvalVoteState nonce src prop => eval_vote_state origin nonce src prop
  end.

(** [OnAuthoritySetChangeHandler::on_authority_set_changed]. *)
Definition authority_set_changed (authorities : list AccountId) (authority_ids : list DKGId)
    : P unit :=
  let converted := authority_to_merkle_leaf <$> authority_ids in
  new_external_accounts ← expect (mapM (try_bound VotingKeySize) converted);
  store! ProposerCount := wrap 32 (len authorities);;
  bounded_proposers ← expect (try_bound MaxProposers authorities);
  store! Proposers := bounded_proposers;;
  bounded_external_accounts ←
    expect (try_bound MaxProposers (zip authorities new_external_accounts));
  store! VotingKeys := bounded_external_accounts;;
  deposit_event (ProposersReset authorities).
End pallet.
End Voting.
Import Voting.

(** ** Theorems about votes *)

Lemma is_complete_false v : is_complete v = false ↔ status v = Initiated.
Proof. unfold is_complete. case_bool_decide; naive_solver. Qed.

Lemma has_voted_false v who :
  has_voted v who = false ↔ who ∉ votes_for v ++ votes_against v.
Proof.
  unfold has_voted. rewrite orb_false_iff, !bool_decide_eq_false, elem_of_app. tauto.
Qed.

(** What [try_to_complete] decides. *)
Lemma try_to_complete_cases v threshold total v' st :
  try_to_complete v threshold total = (v', st) →
  votes_for v' = votes_for v ∧ votes_against v' = votes_against v ∧ expiry v' = expiry v ∧
  match st with
  | Approved => threshold <= len (votes_for v) ∧ status v' = Approved
  | Rejected => len (votes_for v) < threshold ∧ threshold <= total ∧
      total < wrap 32 (wrap 32 (len (votes_against v)) + threshold) ∧ status v' = Rejected
  | Initiated => len (votes_for v) < threshold ∧ v' = v
  end.
Proof.
  unfold try_to_complete. destruct (Z.leb_spec threshold (len (votes_for v))).
  - intros [= <- <-]. done.
  - destruct (Z.leb_spec threshold total);
      destruct (Z.ltb_spec total (wrap 32 (wrap 32 (len (votes_against v)) + threshold)));
      intros [= <- <-]; simpl; lia || done.
Qed.

Lemma wrap_le w z : 0 <= z → 0 <= w → wrap w z <= z.
Proof. intros. apply Z.mod_le; lia. Qed.

Lemma NoDup_submseteq_len (l k : list AccountId) : NoDup l → l ⊆ k → len l <= len k.
Proof.
  intros Hl Hk. apply NoDup_submseteq in Hk; [|done]. apply submseteq_length in Hk. lia.
Qed.

(** A proposal that the voters reject could no longer have been approved: in
    whatever way the remaining proposers vote, fewer than the threshold can be in
    favour.  The addition on u32 cannot cause a wrong rejection. *)
Theorem rejection_sound v threshold proposers v' supporters :
  0 <= threshold →
  try_to_complete v threshold (len proposers) = (v', Rejected) →
  NoDup (supporters ++ votes_against v) → supporters ++ votes_against v ⊆ proposers →
  len supporters < threshold.
Proof.
  intros Ht (_ & _ & _ & _ & Htot & Hw & _)%try_to_complete_cases Hnd Hsub.
  pose proof (wrap_in_width 32 (len (votes_against v)) ltac:(lia)) as [? _].
  pose proof (wrap_le 32 (len (votes_against v)) ltac:(lia) ltac:(lia)).
  pose proof (wrap_le 32 (wrap 32 (len (votes_against v)) + threshold) ltac:(lia) ltac:(lia)).
  pose proof (NoDup_submseteq_len _ _ Hnd Hsub) as Hl. rewrite length_app in Hl. lia.
Qed.

(** Once every proposer has voted the outcome is decided, provided the
    threshold is reachable and the counts fit in u32. *)
Theorem full_vote_decides v threshold total :
  0 <= threshold <= total → in_width 32 (len (votes_against v) + threshold) →
  len (votes_for v) + len (votes_against v) = total →
  (try_to_complete v threshold total).2 ≠ Initiated ∧
  is_complete (try_to_complete v threshold total).1 = true.
Proof.
  intros Ht Hw Htot. unfold try_to_complete.
  destruct (Z.leb_spec threshold (len (votes_for v))); [done|].
  rewrite (wrap_small 32 (len (votes_against v))) by (unfold in_width in *; lia).
  rewrite wrap_small by done.
  destruct (Z.leb_spec threshold total); [|lia].
  destruct (Z.ltb_spec total (len (votes_against v) + threshold)); [done|lia].
Qed.

(** ** Resource identifiers *)

Lemma fill_left (r id : bytes) (n k : nat) :
  (k <= n)%nat → (n <= length id)%nat → (n <= 26)%nat → (26 <= length r)%nat →
  fold_left (λ r i, <[(25 - i)%nat := nth (n - 1 - i) id 0]> r) (seq 0 k) r =
  take (26 - k) r ++ slice (n - k) n id ++ drop 26 r.
Proof.
  intros Hk Hn H26 Hr. induction k as [|k IH].
  - simpl. unfold slice. replace (n - (n - 0))%nat with 0%nat by lia.
    rewrite take_0. simpl. by rewrite take_drop.
  - rewrite seq_S, fold_left_app. simpl. rewrite IH by lia. clear IH.
    rewrite insert_app_l by (rewrite length_take; lia).
    replace (25 - k)%nat with (26 - S k)%nat by lia.
    assert (take (26 - k) r = take (26 - S k) r ++ [nth (26 - S k) r 0]) as ->.
    { replace (26 - k)%nat with (S (26 - S k)) by lia. apply take_S_r.
      destruct (nth_lookup_or_length r (26 - S k) 0); [done|lia]. }
    rewrite (insert_app_r_alt _ _ (26 - S k)) by (rewrite length_take; lia).
    rewrite length_take, Nat.min_l, Nat.sub_diag by lia. simpl.
    rewrite <- app_assoc. f_equal. simpl. f_equal.
    unfold slice. replace (n - (n - S k))%nat with (S k) by lia.
    replace (n - (n - k))%nat with k by lia.
    rewrite (drop_S id (nth (n - S k) id 0) (n - S k)).
    + simpl. replace (n - 1 - k)%nat with (n - S k)%nat by lia. f_equal.
      by replace (S (n - S k)) with (n - k)%nat by lia.
    + destruct (nth_lookup_or_length id (n - S k) 0); [done|lia].
Qed.

(** A derived resource identifier is 32 bytes: the first 26 bytes of the id,
    padded with zeros on the left, then the chain type and the chain id in little
    endian. *)
Theorem derive_resource_id_layout chain chain_type id :
  derive_resource_id chain chain_type id =
  replicate (26 - length id) 0 ++ take 26 id ++ le_encode 2 chain_type ++ le_encode 4 chain.
Proof.
  unfold derive_resource_id. set (n := if (26 <? length id)%nat then 26%nat else length id).
  assert (n = Nat.min 26 (length id)) as Hn.
  { subst n. destruct (Nat.ltb_spec 26 (length id)); lia. }
  rewrite fill_left by (rewrite ?length_insert; simpl; lia).
  f_equal; [|f_equal].
  - replace (26 - n)%nat with (26 - length id)%nat by lia. rewrite !take_insert_ge by lia.
    change (replicate 32 0) with (replicate 26 0 ++ replicate 6 0).
    rewrite take_app_le by (rewrite length_replicate; lia). rewrite take_replicate. f_equal; lia.
  - unfold slice. rewrite Nat.sub_diag, Nat.sub_0_r, drop_0. rewrite Hn.
    destruct (Nat.le_gt_cases 26 (length id)); [f_equal; lia|rewrite !take_ge by lia; done].
Qed.

(** ** Theorems about the pallet *)

(** The storage that voting does not touch. *)
Definition same_settings (s t : Proposals) : Prop :=
  ChainNonces t = ChainNonces s ∧ ProposerThreshold t = ProposerThreshold s ∧
  Proposers t = Proposers s ∧ VotingKeys t = VotingKeys s ∧
  ProposerCount t = ProposerCount s ∧ Resources t = Resources s.

(** The votes after [who] has voted. *)
Definition add_vote (v : ProposalVotes) (who : AccountId) (in_favour : bool) : ProposalVotes :=
  if in_favour then v <| votes_for ::= λ l, l ++ [who] |>
  else v <| votes_against ::= λ l, l ++ [who] |>.

(** Every vote record: no account twice, within the bound. *)
Definition votes_ok (max : Z) (v : ProposalVotes) : Prop :=
  NoDup (votes_for v ++ votes_against v) ∧
  len (votes_for v) <= max ∧ len (votes_against v) <= max.

Lemma add_vote_ok max v who b :
  votes_ok max v → who ∉ votes_for v ++ votes_against v →
  len (if b : bool then votes_for v else votes_against v) < max →
  votes_ok max (add_vote v who b).
Proof.
  intros (Hn & Hf & Ha) Hin Hl. destruct b; split_and!; simpl; rewrite ?length_app; simpl; try lia.
  - rewrite <- app_assoc. simpl. rewrite Permutation_app_comm. simpl.
    apply NoDup_cons. split; [set_solver|]. by rewrite Permutation_app_comm.
  - rewrite app_assoc. apply NoDup_app. split; [done|]. split; [set_solver|apply NoDup_singleton].
Qed.

Section voting.
Context `{ProposalsConfig, WebbProposals, MerkleLeaf} {W F : Type}.
Context `{System W, ProposalHandlerTrait W F}.
Implicit Types (s t : Proposals) (w : W).

Abbreviation P A := (M (Proposals * W) (DispatchError ProposalsError F) A).

Definition votes_inv (s : Proposals) : Prop :=
  map_Forall (λ _ v, votes_ok MaxVotes v) (Votes s).

Lemma commit_vote_Ret who n src prop b s w u p :
  (commit_vote who n src prop b : P unit) (s, w) = Ret u p →
  ∃ v t, p = (t, w) ∧ v = default (fresh_votes (block_number w)) (Votes s !! (src, (n, prop))) ∧
    status v = Initiated ∧ block_number w < expiry v ∧
    (who ∉ votes_for v ++ votes_against v) ∧
    len (if b then votes_for v else votes_against v) < MaxVotes ∧
    Votes t = <[(src, (n, prop)) := add_vote v who b]> (Votes s) ∧ same_settings s t.
Proof.
  intros Hr. unfold commit_vote, deposit_event in Hr. dinv Hr.
  set (v := default _ _) in *. exists v.
  destruct b; dinv Hr3; simpl in *;
    match goal with E : try_push _ _ _ = Some _ |- _ => apply try_push_Some in E as [-> ?] end;
    repeat match goal with E : negb _ = true |- _ => apply negb_true_iff in E end;
    rewrite is_complete_false in *; rewrite has_voted_false in *;
    unfold is_expired in *; rewrite Z.leb_gt in *;
    (eexists; split_and!; [done..|]; done).
Qed.

(** The effect of a resolution that returns: the record is completed as
    [try_to_complete] says, and the handler runs exactly when it is approved. *)
Definition resolved (k : VoteKey) (v : ProposalVotes) (s t : Proposals) (w w' : W) : Prop :=
  let r := try_to_complete v (ProposerThreshold s) (ProposerCount s) in
  Votes t = <[k := r.1]> (Votes s) ∧ same_settings s t ∧
  match r.2 with
  | Approved => handle_unsigned_proposal k.2.2 w = Ret tt w'
  | _ => w' = w
  end.

Lemma try_resolve_Ret n src prop s w u t w' :
  (try_resolve_proposal n src prop : P unit) (s, w) = Ret u (t, w') →
  ∃ v, Votes s !! (src, (n, prop)) = Some v ∧ status v = Initiated ∧
    block_number w < expiry v ∧ resolved (src, (n, prop)) v s t w w'.
Proof.
  intros Hr. unfold try_resolve_proposal in Hr. dinv Hr.
  destruct (Votes s !! _) as [v|] eqn:Hv; [|by dinv Hr].
  dinv Hr. exists v. split; [done|].
  repeat match goal with E : negb _ = true |- _ => apply negb_true_iff in E end.
  rewrite is_complete_false in *. unfold is_expired in *. rewrite Z.leb_gt in *.
  split; [done|]. split; [done|]. unfold resolved.
  destruct (try_to_complete _ _ _) as [v' st]; simpl. dinv Hr.
  destruct st; unfold finalize_execution, cancel_execution, deposit_event in Hr; dinv Hr;
    simplify_eq/=; try done.
  match goal with E : handle_unsigned_proposal _ _ = Ret ?a _ |- _ => by destruct a end.
Qed.

(** Commit, then resolve: what both voting calls do after their checks. *)
Lemma vote_Ret who n src prop b s w u t w' :
  (commit_vote who n src prop b ;; try_resolve_proposal n src prop : P unit) (s, w)
    = Ret u (t, w') →
  ∃ v s1, v = default (fresh_votes (block_number w)) (Votes s !! (src, (n, prop))) ∧
    status v = Initiated ∧ block_number w < expiry v ∧
    (who ∉ votes_for v ++ votes_against v) ∧
    len (if b then votes_for v else votes_against v) < MaxVotes ∧
    Votes s1 = <[(src, (n, prop)) := add_vote v who b]> (Votes s) ∧ same_settings s s1 ∧
    resolved (src, (n, prop)) (add_vote v who b) s1 t w w'.
Proof.
  intros Hr. apply bind_Ret in Hr as (a & p & Hc & Hr).
  apply commit_vote_Ret in Hc as (v & s1 & -> & Hv & Hst & Hex & Hin & Hl & Hs1 & Hset).
  apply try_resolve_Ret in Hr as (v1 & Hv1 & _ & _ & Hres).
  rewrite Hs1, lookup_insert_eq in Hv1. injection Hv1 as <-. by exists v, s1.
Qed.

Lemma vote_guards_Ret who prop s w r p :
  (vote_guards who prop : P _) (s, w) = Ret r p →
  p = (s, w) ∧ decode_proposal_identifier prop = Ok r.1 ∧
  decode_proposal_header (proposal_data prop) = Ok r.2 ∧ who ∈ Proposers s ∧
  is_Some (ChainNonces s !! typed_chain_id r.1) ∧ is_Some (Resources s !! resource_id r.2).
Proof.
  intros Hr. unfold vote_guards, is_proposer, chain_whitelisted, resource_exists in Hr.
  dinv Hr. rewrite !bool_decide_eq_true in *. done.
Qed.

(** What an accepted vote establishes and changes. *)
Definition vote_effect (who : AccountId) (prop : Proposal) (b : bool)
    (s t : Proposals) (w w' : W) : Prop :=
  ∃ ident header v,
    decode_proposal_identifier prop = Ok ident ∧
    decode_proposal_header (proposal_data prop) = Ok header ∧
    who ∈ Proposers s ∧ is_Some (ChainNonces s !! typed_chain_id ident) ∧
    is_Some (Resources s !! resource_id header) ∧
    let k := (typed_chain_id ident, (nonce header, prop)) in
    v = default (fresh_votes (block_number w)) (Votes s !! k) ∧
    status v = Initiated ∧ block_number w < expiry v ∧
    (who ∉ votes_for v ++ votes_against v) ∧
    len (if b then votes_for v else votes_against v) < MaxVotes ∧
    resolved k (add_vote v who b) s t w w'.

Lemma resolved_settings k v s s1 t w w' :
  Votes s1 = <[k := v]> (Votes s) → same_settings s s1 →
  resolved k v s1 t w w' → resolved k v s t w w'.
Proof.
  unfold resolved, same_settings. intros Hv (? & Ht & ? & ? & Hc & ?) (Hvt & Hset & Hh).
  rewrite Hv, insert_insert_eq in Hvt. rewrite <- Ht, <- Hc.
  split; [done|]. split; [naive_solver congruence|done].
Qed.

Lemma vote_call_Ret who prop b s w u t w' :
  (r ← vote_guards who prop; commit_vote who (nonce r.2) (typed_chain_id r.1) prop b ;;
    try_resolve_proposal (nonce r.2) (typed_chain_id r.1) prop : P unit) (s, w)
    = Ret u (t, w') → vote_effect who prop b s t w w'.
Proof.
  intros Hr. apply bind_Ret in Hr as ([ident header] & p & Hg & Hr).
  apply vote_guards_Ret in Hg as (-> & ? & ? & ? & ? & ?); simpl in *.
  apply vote_Ret in Hr as (v & s1 & ? & ? & ? & ? & ? & Hs1 & Hset & Hres).
  exists ident, header, v. cbv zeta. split_and!; try done. by eapply resolved_settings.
Qed.

Lemma vote_calls_Ret b origin prop s w u t w' :
  ((if b : bool then acknowledge_proposal else reject_proposal) origin prop : P unit) (s, w)
    = Ret u (t, w') →
  ∃ who, origin = SignedBy who ∧ vote_effect who prop b s t w w'.
Proof.
  intros Hr. destruct b; [unfold acknowledge_proposal, vote_for in Hr
                         |unfold reject_proposal, vote_against in Hr];
    apply bind_Ret in Hr as (who & p & Ho & Hr);
    apply ensure_signed_Ret in Ho as [-> ->]; exists who; (split; [done|]);
    eapply vote_call_Ret; rewrite bind_Ret; apply bind_Ret in Hr as ([i h] & p & Hg & Hr);
    exists (i, h), p; (split; [done|]); exact Hr.
Qed.

(** C21: an accepted vote comes from a current proposer, on a whitelisted chain and
    a registered resource, on an open and unexpired proposal on which the account
    has not voted; it is recorded once, in the list asked for, the record is then
    completed by the counting rule, and the handler runs exactly when that approves
    the proposal. *)
Theorem vote_calls_effect b origin prop s w u t w' :
  ((if b : bool then acknowledge_proposal else reject_proposal) origin prop : P unit) (s, w)
    = Ret u (t, w') →
  ∃ who, origin = SignedBy who ∧ vote_effect who prop b s t w w'.
Proof. apply vote_calls_Ret. Qed.

(** Every call either leaves votes and the chain alone or resolves one record
    that was open. *)
Lemma proposals_call_cases o c s w u t w' :
  (proposals_call o c : P unit) (s, w) = Ret u (t, w') →
  Votes t = Votes s ∧ w' = w ∨
  ∃ k v, resolved k v s t w w' ∧ status v = Initiated ∧
    (∀ v0, Votes s !! k = Some v0 → status v0 = Initiated) ∧
    (votes_inv s → 0 <= MaxVotes → votes_ok MaxVotes v).
Proof.
  intros Hr. unfold proposals_call in Hr. apply (proj1 (dispatch_Ret _ _ _ _)) in Hr.
  assert (∀ b prop, ((if b : bool then acknowledge_proposal else reject_proposal) o prop : P unit)
    (s, w) = Ret u (t, w') → ∃ k v, resolved k v s t w w' ∧ status v = Initiated ∧
    (∀ v0, Votes s !! k = Some v0 → status v0 = Initiated) ∧
    (votes_inv s → 0 <= MaxVotes → votes_ok MaxVotes v)) as Hvote.
  { clear Hr. intros b prop Hr.
    apply vote_calls_Ret in Hr as (who & _ & i & h & v & _ & _ & _ & _ & _ & Hv & Hst & _
      & Hin & Hl & Hres).
    eexists _, (add_vote v who b). split; [exact Hres|]. split; [by destruct b|]. split.
    - intros v0 Hv0. rewrite Hv0 in Hv. simpl in Hv. by subst.
    - intros Hi Hm. apply add_vote_ok; [|done..].
      destruct (Votes s !! _) as [v0|] eqn:Hv0; simpl in Hv; subst v.
      + by eapply Hi.
      + split_and!; [constructor|done..]. }
  destruct c; unfold set_threshold, set_resource, remove_resource, whitelist_chain,
    ensure_admin, set_proposer_threshold, register_resource, unregister_resource, whitelist,
    chain_whitelisted, deposit_event in Hr.
  - left. clear Hvote. dinv Hr. by simplify_eq.
  - left. clear Hvote. dinv Hr. by simplify_eq.
  - left. clear Hvote. dinv Hr. by simplify_eq.
  - left. clear Hvote. dinv Hr. by simplify_eq.
  - right. by apply (Hvote true prop).
  - right. by apply (Hvote false prop).
  - right. unfold eval_vote_state in Hr. apply bind_Ret in Hr as (who & p & Ho & Hr).
    apply ensure_signed_Ret in Ho as [-> ->].
    apply try_resolve_Ret in Hr as (v & Hv & Hst & _ & Hres).
    exists (src_chain_id, (nonce, prop)), v. split_and!; [done..|naive_solver|].
    intros Hi _. by eapply Hi.
Qed.

Lemma preserves_proposals_call o c :
  0 <= MaxVotes → preserves (own votes_inv) (proposals_call o c : P unit).
Proof.
  intros Hm [s w] Hi. unfold wp, own in *. simpl in Hi.
  destruct (proposals_call o c (s, w)) as [u [t w']|e q|] eqn:Hr; [|by apply dispatch_Fail in Hr as ->|done].
  simpl. apply proposals_call_cases in Hr as [[Hv _]|(k & v & (Hv & _) & _ & _ & Hok)].
  - unfold votes_inv. by rewrite Hv.
  - unfold votes_inv. rewrite Hv. apply map_Forall_insert_2; [|done].
    destruct (try_to_complete _ _ _) as [v' st] eqn:Ht.
    apply try_to_complete_cases in Ht as (Hf & Ha & _). specialize (Hok Hi Hm).
    unfold votes_ok in *. simpl. by rewrite Hf, Ha.
Qed.

(** No account appears twice in a vote record, for or against, and the lists
    stay within their bound, whatever call is dispatched and however it ends. *)
Theorem votes_inv_call o c s w p :
  0 <= MaxVotes → votes_inv s →
  final ((proposals_call o c : P unit) (s, w)) = Some p → votes_inv p.1.
Proof.
  intros Hm Hi. apply (preserves_final (own votes_inv)); [by apply preserves_proposals_call|done].
Qed.

(** An approved or rejected proposal is final: no later call changes its
    record. *)
Theorem completed_votes_final o c s w k v p :
  Votes s !! k = Some v → is_complete v = true →
  final ((proposals_call o c : P unit) (s, w)) = Some p → Votes p.1 !! k = Some v.
Proof.
  intros Hk Hc. destruct (proposals_call o c (s, w)) as [u [t w']|e q|] eqn:Hr; simpl.
  - intros [= <-]. simpl.
    apply proposals_call_cases in Hr as [[Hv _]|(k' & v' & (Hv & _) & _ & Hst & _)].
    + by rewrite Hv.
    + rewrite Hv, lookup_insert_ne; [done|]. intros ->. apply Hst, is_complete_false in Hk.
      congruence.
  - intros [= <-]. apply dispatch_Fail in Hr. by subst.
  - done.
Qed.

(** A record that this call approves. *)
Definition newly_approved (s t : Proposals) (k : VoteKey) : Prop :=
  (∃ v, Votes t !! k = Some v ∧ status v = Approved) ∧
  ∀ v, Votes s !! k = Some v → status v ≠ Approved.

Lemma approval_Ret o c s w u t w' :
  0 <= MaxVotes → votes_inv s →
  (proposals_call o c : P unit) (s, w) = Ret u (t, w') →
  (∀ k, newly_approved s t k →
     (∃ v, Votes t !! k = Some v ∧ ProposerThreshold s <= len (votes_for v) ∧
           NoDup (votes_for v)) ∧
     handle_unsigned_proposal k.2.2 w = Ret tt w') ∧
  ((∀ k, ¬ newly_approved s t k) → w' = w).
Proof.
  intros Hm Hi [[Hv ->]|(k & v & (Hv & _ & Hh) & Hst & Hold & Hok)]%proposals_call_cases.
  - split; [|done]. intros k [(v & Hk & Hs) Hn]. rewrite Hv in Hk. by apply Hn in Hk.
  - destruct (try_to_complete _ _ _) as [v' st] eqn:Ht. simpl in *.
    apply try_to_complete_cases in Ht as (Hf & Ha & _ & Hcase). split.
    + intros k' [(v1 & Hk & Hs) Hn]. rewrite Hv in Hk.
      apply lookup_insert_Some in Hk as [[<- <-]|[_ Hk]]; [|by apply Hn in Hk].
      destruct st; destruct_and?; [congruence| |congruence]. split; [|done].
      exists v'. rewrite Hv, lookup_insert_eq, Hf. split_and!; [done..|].
      by destruct (Hok Hi Hm) as [[? _]%NoDup_app _].
    + intros Hnone. destruct st; [done| |done]. destruct Hcase as [_ Hs].
      destruct (Hnone k). split.
      * exists v'. by rewrite Hv, lookup_insert_eq.
      * intros v0 Hv0. by rewrite (Hold _ Hv0).
Qed.

(** A call approves a proposal only with at least the threshold of distinct
    accounts in favour, and then the proposal has been passed to the handler; a call
    that approves nothing does not reach the handler. *)
Theorem approval_runs_handler o c s w u t w' :
  0 <= MaxVotes → votes_inv s →
  (proposals_call o c : P unit) (s, w) = Ret u (t, w') →
  (∀ k, newly_approved s t k →
     (∃ v, Votes t !! k = Some v ∧ ProposerThreshold s <= len (votes_for v) ∧
           NoDup (votes_for v)) ∧
     handle_unsigned_proposal k.2.2 w = Ret tt w') ∧
  ((∀ k, ¬ newly_approved s t k) → w' = w).
Proof. apply approval_Ret. Qed.

(** The rest of the chain is only reached through the proposal handler. *)
Lemma world_proposals_call (J : W → Prop) o c :
  (∀ p, preserves J (handle_unsigned_proposal p : M W F unit)) →
  preserves (world J) (proposals_call o c : P unit).
Proof.
  intros HJ. apply preserves_dispatch.
  assert (∀ n src p, preserves (world J) (try_resolve_proposal n src p : P unit)) as Hresolve.
  { intros. unfold try_resolve_proposal, finalize_execution, cancel_execution, deposit_event.
    apply preserves_bind; [auto with preserves|intros [v|]]; [|auto with preserves].
    do 5 (apply preserves_bind; [auto with preserves|intros ?]).
    destruct (try_to_complete _ _ _). solve_preserves. }
  assert (∀ who p b, preserves (world J) ('(ident, header) ← vote_guards who p;
    commit_vote who (nonce header) (typed_chain_id ident) p b ;;
    try_resolve_proposal (nonce header) (typed_chain_id ident) p : P unit)) as Hvote.
  { intros. apply preserves_bind; [unfold vote_guards, is_proposer, chain_whitelisted,
      resource_exists; solve_preserves|intros [i h]].
    unfold commit_vote, deposit_event. solve_preserves. }
  destruct c; unfold set_threshold, set_resource, remove_resource, whitelist_chain,
    acknowledge_proposal, reject_proposal, eval_vote_state, ensure_admin, set_proposer_threshold,
    register_resource, unregister_resource, whitelist, chain_whitelisted, deposit_event;
    try solve [solve_preserves].
  - apply preserves_bind; [auto with preserves|intros who]. apply (Hvote who prop true).
  - apply preserves_bind; [auto with preserves|intros who]. apply (Hvote who prop false).
Qed.

(** A threshold that governance sets is positive and can be reached by the
    proposers. *)
Theorem set_threshold_bounds o threshold s w u t w' :
  in_width 32 (len (Proposers s)) →
  (set_threshold o threshold : P unit) (s, w) = Ret u (t, w') →
  o = Root ∧ ProposerThreshold t = threshold ∧ 1 <= threshold <= len (Proposers t) ∧ w' = w.
Proof.
  intros Hw Hr. unfold set_threshold, ensure_admin, set_proposer_threshold, deposit_event in Hr.
  dinv Hr. simplify_eq/=.
  match goal with E : (_ <? _) = true |- _ => apply Z.ltb_lt in E end.
  match goal with E : (_ <=? _) = true |- _ => apply Z.leb_le in E; rewrite wrap_small in E by done end.
  simp_get. split_and!; try done; lia.
Qed.

(** On an authority change within the configured bounds the proposers, their
    count and their voting keys are replaced by the new authorities in order, and
    votes in progress are kept. *)
Theorem authority_set_changed_effect authorities ids s w :
  len authorities <= MaxProposers → in_width 32 (len authorities) →
  Forall (λ i, len (authority_to_merkle_leaf i) <= VotingKeySize) ids →
  ∃ t, (authority_set_changed authorities ids : P unit) (s, w) = Ret tt (t, w) ∧
    Proposers t = authorities ∧ ProposerCount t = len authorities ∧
    VotingKeys t = zip authorities (authority_to_merkle_leaf <$> ids) ∧
    Votes t = Votes s ∧ ProposerThreshold t = ProposerThreshold s ∧
    ChainNonces t = ChainNonces s ∧ Resources t = Resources s.
Proof.
  intros Hm Hw Hids.
  assert (mapM (try_bound VotingKeySize) (authority_to_merkle_leaf <$> ids) =
    Some (authority_to_merkle_leaf <$> ids)) as Hmap.
  { apply mapM_Some. rewrite Forall2_fmap_l, Forall2_fmap_r.
    apply Forall_Forall2_diag. eapply Forall_impl; [exact Hids|].
    intros x Hx. by apply try_bound_Some. }
  assert (try_bound MaxProposers authorities = Some authorities) as Hb by (by apply try_bound_Some).
  assert (try_bound MaxProposers (zip authorities (authority_to_merkle_leaf <$> ids)) =
    Some (zip authorities (authority_to_merkle_leaf <$> ids))) as Hz.
  { apply try_bound_Some. split; [done|]. rewrite length_zip_with. lia. }
  unfold authority_set_changed. rewrite Hmap, Hb.
  cbv [mbind M_bind mret M_ret expect writes modify deposit_event]. rewrite Hz.
  eexists. split; [reflexivity|]. simpl. rewrite wrap_small by done. done.
Qed.
End voting.
