(* ===== verification/ProposalHandler.v ===== *)
(** * pallet-dkg-proposal-handler

    The queue between approved proposals and signed ones
    (src/pallets/dkg-proposal-handler/src/lib.rs, functions.rs, impls.rs,
    offences.rs): proposals are staged per chain, moved into numbered batches,
    signed by the DKG, and the signed batches are stored and handed to the
    configured handlers.  This file holds the model; ProposalHandlerSpec.v has
    its theorems.

    The order in which a storage map is iterated (by key hash) is the parameter
    [IterOrder]; block weights are the parameter [Weights]. *)

From S2P Require Import Prelude.
From S2P Require Import Frame.
From S2P Require Import Primitives.
From S2P Require Import Traits.
From S2P Require Import Proposals.

(** ** Data *)

Inductive DKGMisbehaviorOffenceType := SignedProposalNotInQueue | SignedMalformedProposal.

Record DKGMisbehaviourOffence := mkDKGMisbehaviourOffence {
  offence_session_index : Z;
  validator_set_count : Z;
  offence : DKGMisbehaviorOffenceType;
  offenders : list (AccountId * bytes) }.

Inductive HandlerEvent :=
| InvalidProposalBatchSignature (proposals : SignedProposalBatch) (data : bytes)
    (invalid_signature : bytes) (expected actual : option bytes)
| ProposalAdded (key : DKGPayloadKey) (target_chain : TypedChainId) (data : bytes)
| ProposalBatchRemoved (target_chain : TypedChainId) (batch_id : Z)
| ProposalBatchExpired (target_chain : TypedChainId) (batch_id : Z)
| ProposalBatchSigned (target_chain : TypedChainId) (batch_id : Z)
    (proposals : list (ProposalKind * bytes)) (signature : bytes)
| SigningOffenceReported (offence : DKGMisbehaviorOffenceType) (signed_data : SignedProposalBatch).

Inductive HandlerError :=
| NoneValue | StorageOverflow
| ProposalFormatInvalid | ProposalMustBeUnsigned | HandlerInvalidProposalBytesLength
| ProposalSignatureInvalid | ProposalDoesNotExists | HandlerProposalAlreadyExists
| ChainIdInvalid | ProposalsLengthOverflow | ProposalOutOfBounds
| CannotOverwriteSignedProposal | UnsignedProposalQueueOverflow | ArithmeticOverflow
| EmptyBatch | NotSignedByCurrentDKG | InvalidSignedData | ProposalExistsAndIsValid
| ProposalBatchNotFound.

Abbreviation BatchKey := (TypedChainId * Z)%type.

Record Handler := mkHandler {
  UnsignedProposalQueue : gmap BatchKey StoredUnsignedProposalBatch;
  NextBatchId : Z;
  UnsignedProposals : gmap TypedChainId (list UnsignedProposal);
  SignedProposals : gmap BatchKey SignedProposalBatch;
  handler_events : list HandlerEvent }.

#[export] Instance eta_Handler : Eta Handler :=
  λ s, mkHandler (UnsignedProposalQueue s) (NextBatchId s) (UnsignedProposals s)
    (SignedProposals s) (handler_events s).

Definition handler_empty : Handler := {|
  UnsignedProposalQueue := ∅; NextBatchId := 0; UnsignedProposals := ∅;
  SignedProposals := ∅; handler_events := [] |}.

Class HandlerConfig := {
  MaxProposalsPerBatch : Z;
  UnsignedProposalExpiry : Z;
  UnsignedPriority : Z }.

(** The order of [StorageMap::iter] and [StorageDoubleMap::iter]. *)
Class IterOrder := {
  iter_staged : gmap TypedChainId (list UnsignedProposal) →
    list (TypedChainId * list UnsignedProposal);
  iter_queue : gmap BatchKey StoredUnsignedProposalBatch →
    list (BatchKey * StoredUnsignedProposalBatch) }.

(** Iteration visits every entry once. *)
Class IterLaws `{IterOrder} : Prop := {
  iter_staged_perm m : iter_staged m ≡ₚ map_to_list m;
  iter_queue_perm m : iter_queue m ≡ₚ map_to_list m }.

(** [Weight] and [T::DbWeight]. *)
Class Weights := {
  Weight : Type;
  weight_is_zero : Weight → bool;
  weight_saturating_sub : Weight → Weight → Weight;
  db_reads : Z → Weight;
  db_writes : Z → Weight;
  db_reads_writes : Z → Z → Weight }.

(** [pallet_dkg_metadata::CurrentAuthoritiesAccounts]. *)
Class DKGAuthorities (W : Type) := current_authorities_accounts : W → list AccountId.

(** [T::ValidatorSet] and [T::ReportOffences]. *)
Class ReportOffences (W F : Type) := {
  session_index : W → Z;
  validators : W → list AccountId;
  identification_of : W → AccountId → option bytes;
  ro_report_offence : DKGMisbehaviourOffence → M W F unit }.

(** [Perbill]. *)
Class PerbillOps := {
  Perbill : Type;
  perbill_default : Perbill;
  perbill_from_rational : Z → Z → Perbill;
  perbill_from_percent : Z → Perbill;
  perbill_saturating_mul : Perbill → Perbill → Perbill }.

(** [Offence::slash_fraction]; the product on u32 wraps. *)
Definition slash_fraction `{PerbillOps} (o : DKGMisbehaviourOffence) (n : Z) : Perbill :=
  match checked_sub n (wrap 32 (validator_set_count o / 10 + 1)) with
  | Some threshold =>
      let x := perbill_from_rational (wrap 32 (3 * threshold)) (validator_set_count o) in
      perbill_saturating_mul x (perbill_from_percent 7)
  | None => perbill_default
  end.

(** [slice::chunks(n)] for a positive [n]. *)
Fixpoint chunks_fuel {A} (fuel : nat) (n : nat) (l : list A) : list (list A) :=
  match fuel, l with
  | O, _ | _, [] => []
  | S fuel', _ => take n l :: chunks_fuel fuel' n (drop n l)
  end.

Definition chunks {A} (n : nat) (l : list A) : list (list A) := chunks_fuel (length l) n l.

Module Batches.
Section pallet.
Context `{HandlerConfig, WebbProposals, Crypto, IterOrder, Weights} {W F : Type}.
Context `{System W, GetDKGPublicKey W, DKGAuthorities W, OnSignedProposal W F,
          ReportOffences W F}.

Abbreviation HM A := (M (Handler * W) (DispatchError HandlerError F) A).

Definition deposit_event (e : HandlerEvent) : HM unit :=
  mutate! handler_events ::= (λ es, es ++ [e]).

(** *** functions.rs *)

Definition get_unsigned_proposal_batches : HM (list StoredUnsignedProposalBatch) :=
  reads (λ s, (iter_queue (UnsignedProposalQueue s)).*2).

(** [first().expect(..)] panics on an empty batch. *)
Definition is_not_existing_proposal_batch (prop : SignedProposalBatch) : HM bool :=
  p ← expect (head (sb_proposals prop));
  match decode_proposal_identifier p with
  | Ok v => reads (λ s, negb (bool_decide
      (is_Some (SignedProposals s !! (typed_chain_id v, sb_batch_id prop)))))
  | Err _ => mret false
  | Panics => panic
  end.

(** [block_number] is a u32, so [try_into] keeps it. *)
Definition get_expected_signer (block : Z) : HM (option AccountId) :=
  current_authorities ← observes current_authorities_accounts;
  if bool_decide (current_authorities = []) || (block =? 0) then mret None else
  let submitter_index := block mod wrap 32 (len current_authorities) in
  mret (current_authorities !! Z.to_nat submitter_index).

Definition generate_next_batch_id : HM Z :=
  batch_id ← reads NextBatchId;
  next_batch_id ← ok_or (checked_add 32 batch_id 1) (Module ArithmeticOverflow);
  store! NextBatchId := next_batch_id;;
  mret batch_id.

Definition create_batch_and_add_to_storage (proposals : list UnsignedProposal)
    (identifier : ProposalIdentifier) : HM unit :=
  current_block ← observes block_number;
  batch_id ← generate_next_batch_id;
  let batch := {| ub_proposals := proposals; ub_timestamp := current_block;
                  ub_batch_id := batch_id |} in
  mutate! UnsignedProposalQueue ::= <[(typed_chain_id identifier, batch_id) := batch]>.

(** The closure of [try_mutate] returns the new value of the entry. *)
Definition store_unsigned_proposal (prop : Proposal) (identifier : ProposalIdentifier)
    : HM unit :=
  let new_unsigned_proposal := {| up_proposal := prop; up_key := key identifier;
                                  up_typed_chain_id := typed_chain_id identifier |} in
  found ← reads (λ s, UnsignedProposals s !! typed_chain_id identifier);
  let proposals := default [] found in
  updated ← (if len proposals =? MaxProposalsPerBatch then
      create_batch_and_add_to_storage proposals identifier;;
      ok_or (try_push MaxProposalsPerBatch [] new_unsigned_proposal)
        (Module UnsignedProposalQueueOverflow)
    else
      ok_or (try_push MaxProposalsPerBatch proposals new_unsigned_proposal)
        (Module UnsignedProposalQueueOverflow));
  mutate! UnsignedProposals ::= <[typed_chain_id identifier := updated]>.

Definition report_offence (offence_type : DKGMisbehaviorOffenceType) : HM unit :=
  session ← observes session_index;
  current_validators ← observes validators;
  identification ← observes identification_of;
  let offenders :=
    omap (λ id, full_id ← identification id; Some (id, full_id)) current_validators in
  calls (ro_report_offence {|
    offence := offence_type;
    offence_session_index := session;
    validator_set_count := wrap 32 (len offenders);
    offenders := offenders |}).

Definition validate_proposal_signature (data signature : bytes) : bool :=
  validate_ecdsa_signature data signature.

Definition handle_validation_error (error : ValidationError) : HandlerError :=
  match error with
  | InvalidParameter _ => ProposalFormatInvalid
  | UnimplementedProposalKind => ProposalFormatInvalid
  | InvalidProposalBytesLength => HandlerInvalidProposalBytesLength
  | InvalidDecoding _ => ProposalFormatInvalid
  end.

(** [match decode_proposal_identifier(..) { Ok(v) => v, Err(e) => return .. }]. *)
Definition decode_or_fail (p : Proposal) : HM ProposalIdentifier :=
  lift_result (λ e, Module (handle_validation_error e)) (decode_proposal_identifier p).

(** The loop of [on_idle_create_proposal_batches], the weight threaded through. *)
Fixpoint create_proposal_batches (remaining : Weight)
    (staged : list (TypedChainId * list UnsignedProposal)) : HM Weight :=
  match staged with
  | [] => mret remaining
  | (chain, proposals) :: rest =>
      let remaining := weight_saturating_sub remaining (db_reads_writes 1 3) in
      if weight_is_zero remaining then mret remaining else
      batch_id_res ← catch generate_next_batch_id;
      match batch_id_res with
      | inr _ => mret remaining
      | inl batch_id =>
          now ← observes block_number;
          let proposal_batch := {| ub_batch_id := batch_id; ub_proposals := proposals;
                                   ub_timestamp := now |} in
          mutate! UnsignedProposalQueue ::= <[(chain, batch_id) := proposal_batch]>;;
          mutate! UnsignedProposals ::= delete chain;;
          create_proposal_batches remaining rest
      end
  end.

Definition on_idle_create_proposal_batches (remaining_weight : Weight) : HM Weight :=
  unsigned_proposals ← reads (λ s, iter_staged (UnsignedProposals s));
  let remaining_weight :=
    weight_saturating_sub remaining_weight (db_reads (wrap 64 (len unsigned_proposals))) in
  create_proposal_batches remaining_weight unsigned_proposals.

(** The filter closure; [first().expect(..)] panics on an empty batch. *)
Definition batch_past_expiry (now : Z) (batch : StoredUnsignedProposalBatch) : HM bool :=
  first ← expect (head (ub_proposals batch));
  match up_key first with
  | RefreshProposalKey _ => mret false
  | _ =>
      let time_passed := default 0 (checked_sub now (ub_timestamp batch)) in
      mret (UnsignedProposalExpiry <? time_passed)
  end.

(** The lazy filter and the removal loop, entry by entry. *)
Fixpoint remove_expired_batches (now : Z) (remaining : Weight)
    (entries : list (BatchKey * StoredUnsignedProposalBatch)) : HM Weight :=
  match entries with
  | [] => mret remaining
  | (k, batch) :: rest =>
      expired ← batch_past_expiry now batch;
      if expired : bool then
        let remaining := weight_saturating_sub remaining (db_writes 1) in
        if weight_is_zero remaining then mret remaining else
        deposit_event (ProposalBatchExpired k.1 k.2);;
        mutate! UnsignedProposalQueue ::= delete k;;
        remove_expired_batches now remaining rest
      else remove_expired_batches now remaining rest
  end.

Definition on_idle_remove_expired_batches (now : Z) (remaining_weight : Weight) : HM Weight :=
  if weight_is_zero remaining_weight then mret remaining_weight else
  unsigned_proposals ← reads (λ s, iter_queue (UnsignedProposalQueue s));
  let remaining_weight :=
    weight_saturating_sub remaining_weight (db_reads (wrap 64 (len unsigned_proposals))) in
  remove_expired_batches now remaining_weight unsigned_proposals.

(** *** impls.rs *)

Definition handle_unsigned_proposal (proposal : Proposal) : HM unit :=
  v ← decode_or_fail proposal;
  deposit_event (ProposalAdded (key v) (typed_chain_id v) (proposal_data proposal));;
  store_unsigned_proposal proposal v.

(** The batch ids that hold a refresh proposal, once per such proposal. *)
Definition refresh_batch_ids (queue : gmap BatchKey StoredUnsignedProposalBatch) : list Z :=
  '((_, batch_id), unsigned_batch) ← iter_queue queue;
  p ← ub_proposals unsigned_batch;
  if decide (proposal_kind (up_proposal p) = Refresh) then [batch_id] else [].

Definition remove_stale_refresh (chain : TypedChainId) (proposal : Proposal) : HM unit :=
  when (bool_decide (proposal_kind proposal = Refresh)) (
    batch_ids_to_remove ← reads (λ s, refresh_batch_ids (UnsignedProposalQueue s));
    for_each batch_ids_to_remove (λ batch_id,
      mutate! UnsignedProposalQueue ::= delete (chain, batch_id))).

Definition handle_signed_proposal_batch (prop : SignedProposalBatch) : HM unit :=
  ensure (negb (bool_decide (sb_proposals prop = []))) (Module EmptyBatch);;
  first ← expect (head (sb_proposals prop));
  id ← decode_or_fail first;
  let k := (typed_chain_id id, sb_batch_id prop) in
  queued ← reads (λ s, UnsignedProposalQueue s !! k);
  ensure (bool_decide (is_Some queued)) (Module ProposalDoesNotExists);;
  ensure (validate_proposal_signature (signed_batch_data prop) (sb_signature prop))
    (Module ProposalSignatureInvalid);;
  signed ← reads (λ s, SignedProposals s !! k);
  ensure (bool_decide (signed = None)) (Module CannotOverwriteSignedProposal);;
  mutate! SignedProposals ::= <[k := prop]>;;
  mutate! UnsignedProposalQueue ::= delete k;;
  for_each (sb_proposals prop) (remove_stale_refresh (typed_chain_id id));;
  deposit_event (ProposalBatchSigned (typed_chain_id id) (sb_batch_id prop)
    ((λ p, (proposal_kind p, proposal_data p)) <$> sb_proposals prop) (sb_signature prop));;
  for_each (sb_proposals prop) (λ p, _ ← catch (calls (on_signed_proposal p)); mret tt).

(** *** Dispatchable calls *)

Definition submit_one (prop_batch : SignedProposalBatch) : HM unit :=
  let data := signed_batch_data prop_batch in
  k ← observes dkg_key;
  match ensure_signed_by_dkg k (sb_signature prop_batch) data with
  | Ok _ => handle_signed_proposal_batch prop_batch
  | Err e => deposit_event (InvalidProposalBatchSignature prop_batch data
      (sb_signature prop_batch) (expected_public_key e) (actual_public_key e))
  | Panics => panic
  end.

Definition submit_signed_proposals (_origin : Origin) (props : list SignedProposalBatch)
    : HM unit :=
  ensure (len props <=? MaxProposalsPerBatch) (Module ProposalsLengthOverflow);;
  for_each props submit_one.

Definition force_submit_unsigned_proposal (origin : Origin) (prop : Proposal) : HM unit :=
  ensure_root origin;;
  if is_unsigned prop then
    v ← decode_or_fail prop;
    deposit_event (ProposalAdded (key v) (typed_chain_id v) (proposal_data prop));;
    store_unsigned_proposal prop v
  else throw (Module ProposalMustBeUnsigned).

(** The identifiers of all proposals are decoded and compared in turn; [true]
    when one differs from the first. *)
Fixpoint has_foreign_identifier (common : ProposalIdentifier) (ps : list Proposal) : HM bool :=
  match ps with
  | [] => mret false
  | p :: rest =>
      id ← decode_or_fail p;
      if decide (id = common) then has_foreign_identifier common rest else mret true
  end.

Definition report_signing_offence (o : DKGMisbehaviorOffenceType)
    (signed_data : SignedProposalBatch) : HM unit :=
  _ ← catch (report_offence o);
  deposit_event (SigningOffenceReported o signed_data).

Definition submit_dkg_signing_offence (origin : Origin) (signed_data : SignedProposalBatch)
    : HM unit :=
  _caller ← ensure_signed origin;
  ensure (negb (bool_decide (sb_proposals signed_data = []))) (Module InvalidSignedData);;
  k ← observes dkg_key;
  let result :=
    ensure_signed_by_dkg k (sb_signature signed_data) (signed_batch_data signed_data) in
  ensure (match result with Ok _ => true | _ => false end) (Module NotSignedByCurrentDKG);;
  first ← expect (head (sb_proposals signed_data));
  common ← decode_or_fail first;
  malformed ← has_foreign_identifier common (sb_proposals signed_data);
  if malformed : bool then report_signing_offence SignedMalformedProposal signed_data else
  expected_batch ← reads (λ s,
    SignedProposals s !! (typed_chain_id common, sb_batch_id signed_data));
  match expected_batch with
  | Some _ => throw (Module ProposalExistsAndIsValid)
  | None =>
      known_signed ← reads (λ s, existsb
        (λ e, bool_decide (e.1.1 = typed_chain_id common ∧
           signed_batch_data e.2 = signed_batch_data signed_data))
        (map_to_list (SignedProposals s)));
      ensure (negb known_signed) (Module ProposalExistsAndIsValid);;
      known_unsigned ← reads (λ s, existsb
        (λ e, bool_decide (e.1.1 = typed_chain_id common ∧
           unsigned_batch_data e.2 = signed_batch_data signed_data))
        (map_to_list (UnsignedProposalQueue s)));
      ensure (negb known_unsigned) (Module ProposalExistsAndIsValid);;
      report_signing_offence SignedProposalNotInQueue signed_data
  end.

Definition force_remove_unsigned_proposal_batch (origin : Origin) (chain : TypedChainId)
    (batch_id : Z) : HM unit :=
  ensure_root origin;;
  queued ← reads (λ s, UnsignedProposalQueue s !! (chain, batch_id));
  ensure (bool_decide (is_Some queued)) (Module ProposalBatchNotFound);;
  mutate! UnsignedProposalQueue ::= delete (chain, batch_id);;
  deposit_event (ProposalBatchRemoved chain batch_id).

Inductive HandlerCall :=
| SubmitSignedProposals (props : list SignedProposalBatch)
| ForceSubmitUnsignedProposal (prop : Proposal)
| SubmitDkgSigningOffence (signed_data : SignedProposalBatch)
| ForceRemoveUnsignedProposalBatch (chain : TypedChainId) (batch_id : Z).

Definition handler_call (origin : Origin) (c : HandlerCall) : HM unit :=
  dispatch match c with
  | SubmitSignedProposals props => submit_signed_proposals origin props
  | ForceSubmitUnsignedProposal prop => force_submit_unsigned_proposal origin prop
  | SubmitDkgSigningOffence signed_data => submit_dkg_signing_offence origin signed_data
  | ForceRemoveUnsignedProposalBatch chain batch_id =>
      force_remove_unsigned_proposal_batch origin chain batch_id
  end.

(** *** Hooks *)

Definition on_idle (now : Z) (remaining_weight : Weight) : HM Weight :=
  if negb (now mod 2 =? 0) then mret remaining_weight else
  remaining_weight ← on_idle_create_proposal_batches remaining_weight;
  on_idle_remove_expired_batches now remaining_weight.

(** [ValidateUnsigned::validate_unsigned]. *)
Definition validate_unsigned (source : TransactionSource) (call : HandlerCall)
    : HM (option ValidTransaction) :=
  match source with
  | Local | InBlock =>
      current_block ← observes block_number;
      match call with
      | SubmitSignedProposals _ => mret (Some {|
          priority := UnsignedPriority; longevity := 5; provides := current_block;
          propagate := true |})
      | _ => mret None
      end
  | External => mret None
  end.

(** *** The offchain worker *)

(** What is stored under [OFFCHAIN_SIGNED_PROPOSALS]: nothing, undecodable
    bytes, or the batches; reading does not change it. *)
Definition get_next_offchain_signed_proposals
    (stored : option (option (list SignedProposalBatch))) : option (list SignedProposalBatch) :=
  match stored with
  | Some (Some batches) => Some batches
  | Some None | None => None
  end.

Fixpoint filter_new_batches (l : list SignedProposalBatch) : HM (list SignedProposalBatch) :=
  match l with
  | [] => mret []
  | b :: rest =>
      keep ← is_not_existing_proposal_batch b;
      rest' ← filter_new_batches rest;
      mret (if keep : bool then b :: rest' else rest')
  end.

(** The calls that the worker of a node with the local accounts [signers]
    sends, or the reason why it cannot; the on-chain state is only read. *)
Definition submit_signed_proposal_onchain (signers : list AccountId)
    (stored : option (option (list SignedProposalBatch))) (block : Z)
    : HM (string + list HandlerCall) :=
  match signers with
  | [] => mret (inl "No local accounts available")
  | account :: _ =>
      expected ← get_expected_signer block;
      if (match expected with
          | Some e => bool_decide (account ≠ e)
          | None => false
          end) then mret (inr []) else
      match get_next_offchain_signed_proposals stored with
      | None => mret (inr [])
      | Some [] => mret (inr [])
      | Some next_proposals =>
          filtered_proposals ← filter_new_batches next_proposals;
          assert_that (0 <? MaxProposalsPerBatch);;
          mret (inr (SubmitSignedProposals <$>
            chunks (Z.to_nat MaxProposalsPerBatch) filtered_proposals))
      end
  end.
End pallet.
End Batches.
