(* ===== verification/ProposalHandlerSpec.v ===== *)
(** * Theorems about the proposal handler

    The invariant of its storage (batch identifiers are fresh and unique,
    batches are not empty and hold proposals of their own chain, a signed batch
    has left the queue) and that every call and hook preserves it; conservation
    of proposals from staging to the queue; what signing, expiry and offence
    reports do. *)

From S2P Require Import Prelude.
From S2P Require Import Frame.
From S2P Require Import Primitives.
From S2P Require Import Traits.
From S2P Require Import Proposals.
From S2P Require Import ProposalHandler.
Import Batches.

(** ** The invariant *)

Section invariant.
Context `{HandlerConfig, WebbProposals, Crypto}.
Implicit Types s t : Handler.

(** A stored proposal carries the identifier that decoding gives. *)
Definition proposal_ok (c : TypedChainId) (u : UnsignedProposal) : Prop :=
  up_typed_chain_id u = c ∧
  decode_proposal_identifier (up_proposal u) = Ok (mkProposalIdentifier (up_key u) c).

Definition proposals_ok (c : TypedChainId) (l : list UnsignedProposal) : Prop :=
  l ≠ [] ∧ len l <= MaxProposalsPerBatch ∧ Forall (proposal_ok c) l.

Record handler_inv (s : Handler) : Prop := {
  hi_queue c b ub : UnsignedProposalQueue s !! (c, b) = Some ub →
    ub_batch_id ub = b ∧ b < NextBatchId s ∧ proposals_ok c (ub_proposals ub);
  hi_unique c c' b : is_Some (UnsignedProposalQueue s !! (c, b)) →
    is_Some (UnsignedProposalQueue s !! (c', b)) → c = c';
  hi_staged c l : UnsignedProposals s !! c = Some l → proposals_ok c l;
  hi_signed c b sb : SignedProposals s !! (c, b) = Some sb →
    sb_batch_id sb = b ∧ b < NextBatchId s ∧
    validate_ecdsa_signature (signed_batch_data sb) (sb_signature sb) = true ∧
    ∀ c', UnsignedProposalQueue s !! (c', b) = None }.

Lemma handler_empty_inv : handler_inv handler_empty.
Proof. split; simpl; intros *; rewrite ?lookup_empty; done || (by intros [? ?]). Qed.

(** A new batch under the next identifier. *)
Definition enqueue (c : TypedChainId) (l : list UnsignedProposal) (now : Z) (s : Handler)
    : Handler :=
  s <| NextBatchId := NextBatchId s + 1 |>
    <| UnsignedProposalQueue ::= <[(c, NextBatchId s) :=
         {| ub_batch_id := NextBatchId s; ub_proposals := l; ub_timestamp := now |}]> |>.

Lemma next_not_queued s c : handler_inv s → UnsignedProposalQueue s !! (c, NextBatchId s) = None.
Proof.
  intros Hi. destruct (UnsignedProposalQueue s !! _) eqn:Hq; [|done].
  apply hi_queue in Hq as (_ & ? & _); [lia|done].
Qed.

Lemma enqueue_inv s c l now : handler_inv s → proposals_ok c l → handler_inv (enqueue c l now s).
Proof.
  intros Hi Hl. split; unfold enqueue; simp_get.
  - intros c' b ub [[[= <- <-] <-]|[Hne Hq]]%lookup_insert_Some; simpl.
    + split_and!; [done|lia|done].
    + apply hi_queue in Hq as (? & ? & ?); [|done]. split_and!; [done|lia|done].
  - intros c1 c2 b. rewrite !lookup_insert_is_Some.
    intros [E1|[_ H1']] [E2|[_ H2']]; simplify_eq; [done|..].
    + rewrite next_not_queued in H2' by done. by destruct H2'.
    + rewrite next_not_queued in H1' by done. by destruct H1'.
    + by eapply (hi_unique s).
  - intros c' l' Hs. by eapply hi_staged.
  - intros c' b sb Hs. pose proof (hi_signed _ Hi _ _ _ Hs) as (? & ? & ? & Hn).
    split_and!; [done|lia|done|]. intros c''. rewrite lookup_insert_ne; [done|].
    intros [= _ <-]. lia.
Qed.

Lemma dequeue_inv s k : handler_inv s → handler_inv (s <| UnsignedProposalQueue ::= delete k |>).
Proof.
  intros Hi. split; simp_get.
  - intros c b ub [_ Hq]%lookup_delete_Some. by eapply hi_queue.
  - intros c c' b. rewrite !lookup_delete_is_Some. intros [_ ?] [_ ?]. by eapply (hi_unique s).
  - intros c l Hs. by eapply hi_staged.
  - intros c b sb Hs. pose proof (hi_signed _ Hi _ _ _ Hs) as (? & ? & ? & Hn).
    split_and!; [done..|]. intros c'. apply lookup_delete_None. auto.
Qed.

Lemma stage_inv s c l : handler_inv s → proposals_ok c l →
  handler_inv (s <| UnsignedProposals ::= <[c := l]> |>).
Proof.
  intros Hi Hl. split; simp_get; [intros; by eapply hi_queue|intros; by eapply (hi_unique s)| |
    intros; by eapply hi_signed].
  intros c' l' [[<- <-]|[_ Hs]]%lookup_insert_Some; [done|by eapply hi_staged].
Qed.

Lemma unstage_inv s c : handler_inv s → handler_inv (s <| UnsignedProposals ::= delete c |>).
Proof.
  intros Hi. split; simp_get; [intros; by eapply hi_queue|intros; by eapply (hi_unique s)| |
    intros; by eapply hi_signed].
  intros c' l' [_ Hs]%lookup_delete_Some. by eapply hi_staged.
Qed.

Lemma event_inv s f : handler_inv s → handler_inv (s <| handler_events ::= f |>).
Proof. intros []. by split. Qed.

(** Moving a queued batch to the signed ones. *)
Lemma sign_inv s c sb :
  handler_inv s → is_Some (UnsignedProposalQueue s !! (c, sb_batch_id sb)) →
  validate_ecdsa_signature (signed_batch_data sb) (sb_signature sb) = true →
  handler_inv (s <| SignedProposals ::= <[(c, sb_batch_id sb) := sb]> |>
                 <| UnsignedProposalQueue ::= delete (c, sb_batch_id sb) |>).
Proof.
  intros Hi Hq Hv. pose proof (dequeue_inv _ (c, sb_batch_id sb) Hi) as Hd.
  split; simp_get; [intros; by eapply (hi_queue _ Hd)|intros; by eapply (hi_unique _ Hd)|
    intros; by eapply (hi_staged _ Hd)|].
  intros c' b sb' [[[= <- <-] <-]|[Hne Hs]]%lookup_insert_Some; [|by eapply (hi_signed _ Hd)].
  destruct Hq as [ub Hub]. pose proof (hi_queue _ Hi _ _ _ Hub) as (? & ? & _).
  split_and!; [done..|]. intros c''. apply lookup_delete_None.
  destruct (UnsignedProposalQueue s !! (c'', sb_batch_id sb)) eqn:Hu; [left|by right].
  f_equal. by eapply (hi_unique s).
Qed.
End invariant.

Create HintDb handler_inv.
#[export] Hint Resolve event_inv dequeue_inv unstage_inv : handler_inv.

(** ** Conservation of proposals *)

(** Everything that waits for a signature: staged or queued. *)
Definition pending (s : Handler) : list UnsignedProposal :=
  gather id (UnsignedProposals s) ++ gather ub_proposals (UnsignedProposalQueue s).

Section conservation.
Context `{HandlerConfig, WebbProposals, Crypto}.
Implicit Types s t : Handler.

Lemma pending_enqueue s c l now :
  handler_inv s → pending (enqueue c l now s) ≡ₚ l ++ pending s.
Proof.
  intros Hi. unfold pending, enqueue. simp_get.
  rewrite gather_insert by (by apply next_not_queued). simpl. solve_Permutation.
Qed.

Lemma pending_unstage s c l :
  UnsignedProposals s !! c = Some l →
  pending s ≡ₚ l ++ pending (s <| UnsignedProposals ::= delete c |>).
Proof.
  intros Hl. unfold pending. simp_get. rewrite (gather_delete id _ _ _ Hl). simpl.
  by rewrite app_assoc.
Qed.

Lemma pending_stage s c l old :
  UnsignedProposals s !! c = old →
  pending (s <| UnsignedProposals ::= <[c := l]> |>) ++ default [] old ≡ₚ l ++ pending s.
Proof.
  intros <-. unfold pending. simp_get. rewrite <- insert_delete_eq.
  rewrite gather_insert by apply lookup_delete_eq.
  destruct (UnsignedProposals s !! c) as [l0|] eqn:Hl; simpl.
  - rewrite (gather_delete id _ _ _ Hl). solve_Permutation.
  - rewrite delete_id by done. solve_Permutation.
Qed.
End conservation.

(** ** Storing a proposal *)

Section storing.
Context `{HandlerConfig, WebbProposals, Crypto} {W F : Type} `{System W}.
Implicit Types (s t : Handler) (w : W).

Abbreviation HM A := (M (Handler * W) (DispatchError HandlerError F) A).

Lemma generate_next_batch_id_run s w :
  (generate_next_batch_id : HM Z) (s, w) =
    match checked_add 32 (NextBatchId s) 1 with
    | Some n => Ret (NextBatchId s) (s <| NextBatchId := n |>, w)
    | None => Fail (Module ArithmeticOverflow) (s, w)
    end.
Proof.
  cbv [generate_next_batch_id mbind M_bind reads gets ok_or mret M_ret throw writes modify].
  simpl. by destruct (checked_add 32 (NextBatchId s) 1).
Qed.

Lemma create_batch_run l id s w :
  (create_batch_and_add_to_storage l id : HM unit) (s, w) =
    match checked_add 32 (NextBatchId s) 1 with
    | Some _ => Ret tt (enqueue (typed_chain_id id) l (block_number w) s, w)
    | None => Fail (Module ArithmeticOverflow) (s, w)
    end.
Proof.
  unfold create_batch_and_add_to_storage, mbind, M_bind, observes at 1, gets at 1. simpl.
  rewrite generate_next_batch_id_run.
  destruct (checked_add 32 (NextBatchId s) 1) eqn:Hn; [|done].
  apply checked_add_Some in Hn as [-> _]. done.
Qed.

Lemma store_unsigned_proposal_wp prop id s w :
  handler_inv s → 1 <= MaxProposalsPerBatch → decode_proposal_identifier prop = Ok id →
  wp False (store_unsigned_proposal prop id : HM unit) (s, w)
    (λ _ p, p.2 = w ∧ handler_inv p.1 ∧ SignedProposals p.1 = SignedProposals s ∧
       pending p.1 ≡ₚ mkUnsignedProposal (typed_chain_id id) (key id) prop :: pending s)
    (λ e p, e = Module ArithmeticOverflow ∧ p = (s, w)).
Proof.
  intros Hi Hm Hd. unfold store_unsigned_proposal. set (new := {| up_proposal := prop |}).
  assert (proposal_ok (typed_chain_id id) new) as Hnew by (split; [done|by destruct id]).
  apply wp_bind, wp_reads; simpl.
  set (old := default [] _). apply wp_bind.
  destruct (Z.eqb_spec (len old) MaxProposalsPerBatch) as [Hfull|Hroom].
  - apply wp_bind. unfold wp at 1. rewrite create_batch_run.
    destruct (checked_add 32 (NextBatchId s) 1); [|done].
    apply wp_ok_or; [intros l Hl; apply try_push_Some in Hl as [-> _]; simpl
                    |intros Hn; apply try_push_None in Hn; simpl in Hn; lia].
    apply wp_writes; simpl.
    assert (UnsignedProposals s !! typed_chain_id id = Some old) as Hs.
    { subst old. destruct (UnsignedProposals s !! _); [done|]. simpl in Hfull. lia. }
    split_and!; [done| |done|].
    + apply stage_inv; [apply enqueue_inv; [done|by eapply hi_staged]|].
      split_and!; [done|simpl; lia|by constructor].
    + pose proof (pending_stage (enqueue (typed_chain_id id) old (block_number w) s)
        (typed_chain_id id) [new] _ Hs) as Hp. rewrite pending_enqueue in Hp by done.
      simpl in Hp. apply (Permutation_app_inv_r old). rewrite Hp. solve_Permutation.
  - apply wp_ok_or; [intros l Hl; apply try_push_Some in Hl as [-> Hlt]; simpl
                    |intros Hn; apply try_push_None in Hn].
    + apply wp_writes; simpl. split_and!; [done| |done|].
      * apply stage_inv; [done|]. split_and!; [by intros []%app_nil|rewrite length_app; simpl; lia|].
        apply Forall_app. split; [|by constructor].
        subst old. destruct (UnsignedProposals s !! _) eqn:Hs; [|constructor].
        by eapply hi_staged in Hs as (_ & _ & ?).
      * pose proof (pending_stage s (typed_chain_id id) (old ++ [new]) _ eq_refl) as Hp.
        fold old in Hp. apply (Permutation_app_inv_r old). rewrite Hp. solve_Permutation.
    + subst old. destruct (UnsignedProposals s !! _) eqn:Hs; simpl in *; [|lia].
      apply hi_staged in Hs as (_ & ? & _); [lia|done].
Qed.
End storing.

(** ** The idle hook *)

Section idle.
Context `{HandlerConfig, WebbProposals, Crypto, IterOrder, Weights} {W F : Type} `{System W}.
Implicit Types (s t : Handler) (w : W).

Abbreviation HM A := (M (Handler * W) (DispatchError HandlerError F) A).

Lemma create_proposal_batches_wp l r s w :
  handler_inv s → NoDup l.*1 →
  (∀ c ps, (c, ps) ∈ l → UnsignedProposals s !! c = Some ps) →
  wp False (create_proposal_batches r l : HM Weight) (s, w)
    (λ r' p, p.2 = w ∧ handler_inv p.1 ∧ SignedProposals p.1 = SignedProposals s ∧
       UnsignedProposalQueue s ⊆ UnsignedProposalQueue p.1 ∧
       NextBatchId s <= NextBatchId p.1 ∧ pending p.1 ≡ₚ pending s ∧
       UnsignedProposals p.1 ⊆ UnsignedProposals s ∧
       (weight_is_zero r' = false → NextBatchId p.1 < max_of 32 →
          ∀ c, c ∈ l.*1 → UnsignedProposals p.1 !! c = None))
    (λ _ _, False).
Proof.
  revert r s. induction l as [|[c ps] l IH]; intros r s Hi Hnd Hl; simpl.
  { apply wp_ret. split_and!; try done. intros _ _ c Hc. by apply not_elem_of_nil in Hc. }
  apply NoDup_cons in Hnd as [Hc Hnd].
  destruct (weight_is_zero _) eqn:Hz.
  { apply wp_ret. split_and!; try done. congruence. }
  apply wp_bind, wp_catch. unfold wp at 1. rewrite generate_next_batch_id_run.
  destruct (checked_add 32 (NextBatchId s) 1) as [n|] eqn:Hn.
  2: { apply checked_add_None in Hn. apply wp_ret. split_and!; try done. simpl. lia. }
  apply checked_add_Some in Hn as [-> Hmax].
  apply wp_bind, wp_observes, wp_bind, wp_writes, wp_bind, wp_writes. simpl.
  assert (UnsignedProposals s !! c = Some ps) as Hps by (apply Hl; set_solver).
  set (t := (enqueue c ps (block_number w) s) <| UnsignedProposals ::= delete c |>).
  assert (handler_inv t) as Hti.
  { apply unstage_inv, enqueue_inv; [done|by eapply hi_staged]. }
  eapply wp_mono; [apply (IH _ t)|..]; [done|done|..|done].
  - intros c' ps' Hin. unfold t, enqueue. simp_get.
    rewrite lookup_delete_ne; [apply Hl; set_solver|].
    intros <-. apply Hc. apply list_elem_of_fmap. by exists (c, ps').
  - intros r' [t' w'] (-> & Hi' & Hs & Hq & Hn & Hp & Hu & Hall). simpl in *.
    split_and!; [done|done|done|..|].
    + etrans; [|exact Hq]. apply insert_subseteq, next_not_queued. done.
    + unfold t, enqueue in Hn. simp_get_in Hn. lia.
    + rewrite Hp. apply (Permutation_app_inv_l ps).
      rewrite <- (pending_enqueue s c ps (block_number w)) by done.
      symmetry. apply pending_unstage. done.
    + etrans; [exact Hu|apply delete_subseteq].
    + intros Hz' Hn' c' [->|Hin]%elem_of_cons; [|by apply Hall].
      destruct (UnsignedProposals t' !! c) eqn:Hc'; [|done].
      eapply lookup_weaken in Hc'; [|exact Hu].
      unfold t in Hc'. simp_get_in Hc'. by rewrite lookup_delete_eq in Hc'.
Qed.

Lemma iter_staged_facts `{!IterLaws} m :
  NoDup (iter_staged m).*1 ∧ ∀ c ps, (c, ps) ∈ iter_staged m ↔ m !! c = Some ps.
Proof.
  split; [rewrite iter_staged_perm; apply NoDup_fst_map_to_list|].
  intros c ps. rewrite iter_staged_perm. apply elem_of_map_to_list.
Qed.

Lemma on_idle_create_wp `{!IterLaws} r s w :
  handler_inv s →
  wp False (on_idle_create_proposal_batches r : HM Weight) (s, w)
    (λ r' p, p.2 = w ∧ handler_inv p.1 ∧ SignedProposals p.1 = SignedProposals s ∧
       UnsignedProposalQueue s ⊆ UnsignedProposalQueue p.1 ∧
       NextBatchId s <= NextBatchId p.1 ∧ pending p.1 ≡ₚ pending s ∧
       UnsignedProposals p.1 ⊆ UnsignedProposals s ∧
       (weight_is_zero r' = false → NextBatchId p.1 < max_of 32 → UnsignedProposals p.1 = ∅))
    (λ _ _, False).
Proof.
  intros Hi. unfold on_idle_create_proposal_batches. apply wp_bind, wp_reads. simpl.
  destruct (iter_staged_facts (UnsignedProposals s)) as [Hnd Hin].
  eapply wp_mono; [apply create_proposal_batches_wp; [done|done|]|..|done].
  { intros c ps. apply Hin. }
  intros r' [t w'] (? & ? & ? & ? & ? & ? & Hu & Hall). simpl in *.
  split_and!; try done. intros Hz Hn. apply map_empty. intros c.
  destruct (UnsignedProposals t !! c) as [ps|] eqn:Hc; [|done].
  rewrite <- Hc. apply Hall; [done..|]. apply list_elem_of_fmap. exists (c, ps).
  split; [done|]. apply Hin. by eapply lookup_weaken.
Qed.

(** C20: moving staged proposals into batches loses and duplicates nothing: the
    proposals that wait for a signature are the same before and after, batches
    that were queued stay as they are, and with weight left and identifiers
    available every staged proposal has been queued. *)
Theorem on_idle_create_conserves `{!IterLaws} r s w :
  handler_inv s →
  ∃ r' t, (on_idle_create_proposal_batches r : HM Weight) (s, w) = Ret r' (t, w) ∧
    handler_inv t ∧ pending t ≡ₚ pending s ∧
    UnsignedProposalQueue s ⊆ UnsignedProposalQueue t ∧
    (weight_is_zero r' = false → NextBatchId t < max_of 32 → UnsignedProposals t = ∅).
Proof.
  intros Hi. pose proof (on_idle_create_wp r s w Hi) as Hwp. unfold wp in Hwp.
  destruct (on_idle_create_proposal_batches r (s, w)) as [r' [t w']|? ?|]; [|done..].
  simpl in Hwp. destruct Hwp as (-> & ? & ? & ? & ? & ? & ? & ?). by exists r', t.
Qed.

(** *** Expiry *)

(** A batch that expiry may remove at block [now]. *)
Definition expired (now : Z) (batch : StoredUnsignedProposalBatch) : bool :=
  match head (ub_proposals batch) with
  | Some first =>
      negb (bool_decide (payload_key_kind (up_key first) = Refresh)) &&
      (UnsignedProposalExpiry <? saturating_sub now (ub_timestamp batch))
  | None => false
  end.

Lemma batch_past_expiry_run now batch s w :
  ub_proposals batch ≠ [] →
  (batch_past_expiry now batch : HM bool) (s, w) = Ret (expired now batch) (s, w).
Proof.
  intros Hne. unfold batch_past_expiry, expired.
  destruct (ub_proposals batch) as [|u us]; [done|]. cbn [head].
  assert (default 0 (checked_sub now (ub_timestamp batch)) =
    saturating_sub now (ub_timestamp batch)) as Ht.
  { unfold checked_sub, saturating_sub. destruct (Z.leb_spec (ub_timestamp batch) now); simpl; lia. }
  cbv [mbind M_bind expect mret M_ret]. by destruct (up_key u); rewrite ?Ht.
Qed.

Lemma remove_expired_wp now l r s w :
  NoDup l.*1 → (∀ k b, (k, b) ∈ l → UnsignedProposalQueue s !! k = Some b) →
  (∀ k b, (k, b) ∈ l → ub_proposals b ≠ []) → handler_inv s →
  wp False (remove_expired_batches now r l : HM Weight) (s, w)
    (λ r' p, p.2 = w ∧ handler_inv p.1 ∧ UnsignedProposals p.1 = UnsignedProposals s ∧
       SignedProposals p.1 = SignedProposals s ∧ NextBatchId p.1 = NextBatchId s ∧
       UnsignedProposalQueue p.1 ⊆ UnsignedProposalQueue s ∧
       (∀ k b, UnsignedProposalQueue s !! k = Some b →
          UnsignedProposalQueue p.1 !! k = None → expired now b = true) ∧
       (weight_is_zero r' = false →
          ∀ k b, (k, b) ∈ l → expired now b = true → UnsignedProposalQueue p.1 !! k = None))
    (λ _ _, False).
Proof.
  revert r s. induction l as [|[k b] l IH]; intros r s Hnd Hl Hne Hi; simpl.
  { apply wp_ret. simpl. split_and!; try done; [congruence|].
    intros _ k b Hin. by apply not_elem_of_nil in Hin. }
  apply NoDup_cons in Hnd as [Hk Hnd].
  apply wp_bind. unfold wp at 1. rewrite batch_past_expiry_run by (apply (Hne k b); set_solver).
  destruct (expired now b) eqn:Hexp.
  - destruct (weight_is_zero _) eqn:Hz.
    { apply wp_ret. simpl. split_and!; try done; congruence. }
    unfold deposit_event. apply wp_bind, wp_writes, wp_bind, wp_writes. simpl.
    eapply wp_mono; [apply IH|..]; [done|..|done].
    + intros k' b' Hin. simp_get. rewrite lookup_delete_ne; [apply Hl; set_solver|].
      intros <-. apply Hk, list_elem_of_fmap. by exists (k, b').
    + intros k' b' Hin. apply (Hne k' b'). set_solver.
    + auto with handler_inv.
    + intros r' [t w'] (-> & ? & ? & ? & ? & Hq & Hgone & Hall). simpl in *.
      simp_get_in Hq. split_and!; [done..| | |].
      * etrans; [exact Hq|apply delete_subseteq].
      * intros k' b' Hk' Hn. destruct (decide (k = k')) as [<-|].
        { rewrite (Hl k b) in Hk' by set_solver. congruence. }
        apply (Hgone k'); [|done]. simp_get. by rewrite lookup_delete_ne.
      * intros Hz' k' b' [[= -> ->]|Hin]%elem_of_cons He; [|by eapply Hall].
        destruct (UnsignedProposalQueue t !! k) eqn:Hc; [|done].
        eapply lookup_weaken in Hc; [|exact Hq]. by rewrite lookup_delete_eq in Hc.
  - eapply wp_mono; [apply IH|..]; [done| | |done| |done].
    + intros k' b' Hin. apply Hl. set_solver.
    + intros k' b' Hin. apply (Hne k' b'). set_solver.
    + intros r' [t w'] (? & ? & ? & ? & ? & ? & ? & Hall). simpl in *.
      split_and!; try done.
      intros Hz' k' b' [[= -> ->]|Hin]%elem_of_cons He; [congruence|by eapply Hall].
Qed.

Lemma on_idle_remove_wp `{!IterLaws} now r s w :
  handler_inv s →
  wp False (on_idle_remove_expired_batches now r : HM Weight) (s, w)
    (λ r' p, p.2 = w ∧ handler_inv p.1 ∧ UnsignedProposals p.1 = UnsignedProposals s ∧
       SignedProposals p.1 = SignedProposals s ∧ NextBatchId p.1 = NextBatchId s ∧
       UnsignedProposalQueue p.1 ⊆ UnsignedProposalQueue s ∧
       (∀ k b, UnsignedProposalQueue s !! k = Some b →
          UnsignedProposalQueue p.1 !! k = None → expired now b = true) ∧
       (weight_is_zero r' = false →
          ∀ k b, UnsignedProposalQueue s !! k = Some b → expired now b = true →
          UnsignedProposalQueue p.1 !! k = None))
    (λ _ _, False).
Proof.
  intros Hi. unfold on_idle_remove_expired_batches. destruct (weight_is_zero r) eqn:Hz.
  { apply wp_ret. simpl. split_and!; try done; congruence. }
  apply wp_bind, wp_reads. simpl.
  assert (∀ k b, (k, b) ∈ iter_queue (UnsignedProposalQueue s) ↔
    UnsignedProposalQueue s !! k = Some b) as Hin.
  { intros. rewrite iter_queue_perm. apply elem_of_map_to_list. }
  eapply wp_mono; [apply remove_expired_wp; [|intros ? ?; apply Hin|..|done]|..|done].
  - rewrite iter_queue_perm. apply NoDup_fst_map_to_list.
  - intros [c n] b Hb%Hin. eapply hi_queue in Hb as (_ & _ & ? & _); [|done]. done.
  - intros r' [t w'] (? & ? & ? & ? & ? & ? & ? & Hall). split_and!; try done.
    intros Hz' k b Hb He. eapply Hall; [done| |done]. by apply Hin.
Qed.

(** Expiry never panics and removes only batches whose age exceeds the limit
    and that do not start with a refresh proposal; while weight remains it removes
    all of them, and nothing else in storage changes. *)
Theorem on_idle_remove_expired_effect `{!IterLaws} now r s w :
  handler_inv s →
  ∃ r' t, (on_idle_remove_expired_batches now r : HM Weight) (s, w) = Ret r' (t, w) ∧
    handler_inv t ∧ UnsignedProposals t = UnsignedProposals s ∧
    SignedProposals t = SignedProposals s ∧
    UnsignedProposalQueue t ⊆ UnsignedProposalQueue s ∧
    (∀ k b, UnsignedProposalQueue s !! k = Some b →
       UnsignedProposalQueue t !! k = None → expired now b = true) ∧
    (weight_is_zero r' = false → ∀ k b, UnsignedProposalQueue s !! k = Some b →
       expired now b = true → UnsignedProposalQueue t !! k = None).
Proof.
  intros Hi. pose proof (on_idle_remove_wp now r s w Hi) as Hwp. unfold wp in Hwp.
  destruct (on_idle_remove_expired_batches now r (s, w)) as [r' [t w']|? ?|]; [|done..].
  simpl in Hwp. destruct Hwp as (-> & ? & ? & ? & ? & ? & ? & ?). by exists r', t.
Qed.
End idle.

(** ** Signed batches *)

Section signing.
Context `{HandlerConfig, WebbProposals, Crypto, IterOrder} {W F : Type}.
Context `{OnSignedProposal W F}.
Implicit Types (s t : Handler) (w : W).

Abbreviation HM A := (M (Handler * W) (DispatchError HandlerError F) A).

Definition is_refresh (p : Proposal) : bool := bool_decide (proposal_kind p = Refresh).

(** A queued batch of [chain] that holds a refresh proposal. *)
Definition stale (chain : TypedChainId) (e : BatchKey * StoredUnsignedProposalBatch) : Prop :=
  e.1.1 = chain ∧ Exists (λ u, proposal_kind (up_proposal u) = Refresh) (ub_proposals e.2).

#[local] Instance stale_dec chain e : Decision (stale chain e).
Proof. unfold stale. apply _. Defined.

Definition drop_stale (chain : TypedChainId) (b : bool)
    (q : gmap BatchKey StoredUnsignedProposalBatch) :=
  if b then filter (λ e, ¬ stale chain e) q else q.

Lemma for_each_delete chain ids s w :
  (for_each ids (λ b, mutate! UnsignedProposalQueue ::= delete (chain, b)) : HM unit) (s, w) =
  Ret tt (s <| UnsignedProposalQueue ::= λ q, foldl (λ q b, delete (chain, b) q) q ids |>, w).
Proof.
  revert s. induction ids as [|b ids IH]; intros s; simpl; [by destruct s|].
  unfold mbind, M_bind, writes, modify at 1. simpl. rewrite IH. done.
Qed.

Lemma foldl_delete_lookup (chain : TypedChainId) (ids : list Z) (q : gmap BatchKey StoredUnsignedProposalBatch) k :
  foldl (λ q b, delete (chain, b) q) q ids !! (k : BatchKey) =
    if decide (k.1 = chain ∧ k.2 ∈ ids) then None else q !! k.
Proof.
  revert q. induction ids as [|b ids IH]; intros q; simpl.
  - rewrite decide_False; [done|]. by intros [_ ?%not_elem_of_nil].
  - rewrite IH. destruct k as [c n]; simpl.
    destruct (decide (c = chain ∧ n ∈ ids)) as [[-> Hn]|Hn].
    + rewrite decide_True; [done|set_solver].
    + destruct (decide ((chain, b) = (c, n))) as [[= -> ->]|Hne].
      * rewrite lookup_delete_eq, decide_True; [done|set_solver].
      * rewrite lookup_delete_ne by done. rewrite decide_False; [done|].
        intros [-> [->|?]%elem_of_cons]; [by destruct Hne|by apply Hn].
Qed.

Lemma elem_of_refresh_ids `{!IterLaws} q b :
  b ∈ refresh_batch_ids q ↔ ∃ c ub, q !! (c, b) = Some ub ∧
    Exists (λ u, proposal_kind (up_proposal u) = Refresh) (ub_proposals ub).
Proof.
  unfold refresh_batch_ids. rewrite list_elem_of_bind. setoid_rewrite Exists_exists. split.
  - intros ([[c b'] ub] & Hb & Hin). rewrite iter_queue_perm, elem_of_map_to_list in Hin.
    apply list_elem_of_bind in Hb as (u & Hu & Hub). case_decide; [|by apply not_elem_of_nil in Hu].
    apply list_elem_of_singleton in Hu as ->. exists c, ub. split; [done|]. by exists u.
  - intros (c & ub & Hq & u & Hu & Hk). exists ((c, b), ub). split.
    + apply list_elem_of_bind. exists u. split; [|done].
      rewrite decide_True by done. by apply list_elem_of_singleton.
    + by rewrite iter_queue_perm, elem_of_map_to_list.
Qed.

Lemma remove_stale_refresh_run `{!IterLaws} chain p s w :
  handler_inv s →
  (remove_stale_refresh chain p : HM unit) (s, w) =
  Ret tt (s <| UnsignedProposalQueue ::= drop_stale chain (is_refresh p) |>, w).
Proof.
  intros Hi. unfold remove_stale_refresh, is_refresh, when, drop_stale.
  case_bool_decide; [|by destruct s].
  unfold mbind, M_bind, reads, gets. simpl. rewrite for_each_delete.
  f_equal. f_equal. destruct s as [q n st sg ev]. cbv [set]. simpl. f_equal.
  apply map_eq. intros [c b]. rewrite foldl_delete_lookup. simpl.
  case_decide as Hin.
  - destruct Hin as [-> (c' & ub & Hq & Hex)%elem_of_refresh_ids]. symmetry.
    apply map_lookup_filter_None. destruct (q !! (chain, b)) as [ub'|] eqn:Hq'; [|by left].
    right. intros ub'' [= <-] Hst. apply Hst. split; [done|]. simpl.
    assert (c' = chain) as -> by (by eapply (hi_unique _ Hi)). congruence.
  - symmetry. destruct (q !! (c, b)) as [ub|] eqn:Hq.
    + apply map_lookup_filter_Some. split; [done|]. intros [Hc Hex]. simpl in *.
      apply Hin. split; [done|]. apply elem_of_refresh_ids. eauto.
    + apply map_lookup_filter_None. by left.
Qed.

Lemma drop_stale_inv chain b s :
  handler_inv s → handler_inv (s <| UnsignedProposalQueue ::= drop_stale chain b |>).
Proof.
  intros Hi. unfold drop_stale. destruct b; [|by destruct s].
  assert (∀ k u, filter (λ e, ¬ stale chain e) (UnsignedProposalQueue s) !! k = Some u →
    UnsignedProposalQueue s !! k = Some u) as Hf.
  { intros k u [? _]%map_lookup_filter_Some. done. }
  split; simp_get.
  - intros c n ub Hq%Hf. by eapply hi_queue.
  - intros c c' n [? ?%Hf] [? ?%Hf]. by eapply (hi_unique s).
  - intros c l Hs. by eapply hi_staged.
  - intros c n sb Hs. pose proof (hi_signed _ Hi _ _ _ Hs) as (? & ? & ? & Hn).
    split_and!; [done..|]. intros c'. apply map_lookup_filter_None. by left.
Qed.

Lemma drop_stale_twice chain a b q :
  drop_stale chain a (drop_stale chain b q) = drop_stale chain (b || a) q.
Proof.
  destruct a, b; simpl; try done. rewrite map_filter_filter. apply map_filter_ext. naive_solver.
Qed.

Lemma remove_stale_loop `{!IterLaws} chain ps s w :
  handler_inv s →
  (for_each ps (remove_stale_refresh chain) : HM unit) (s, w) =
  Ret tt (s <| UnsignedProposalQueue ::= drop_stale chain (existsb is_refresh ps) |>, w).
Proof.
  revert s. induction ps as [|p ps IH]; intros s Hi; simpl; [by destruct s|].
  unfold mbind, M_bind. rewrite remove_stale_refresh_run by done.
  rewrite IH by (by apply drop_stale_inv). f_equal. f_equal.
  destruct s. cbv [set]. simpl. by rewrite drop_stale_twice.
Qed.

(** The handlers, called in order, their errors ignored. *)
Definition notify (ps : list Proposal) : M W F unit :=
  for_each ps (λ p, _ ← catch (on_signed_proposal p); mret tt).

Lemma notify_loop ps s w :
  (for_each ps (λ p, _ ← catch (calls (on_signed_proposal p)); mret tt) : HM unit) (s, w) =
  match notify ps w with
  | Ret u w' => Ret u (s, w')
  | Fail e w' => Fail (Foreign e) (s, w')
  | Panic => Panic
  end.
Proof.
  revert w. induction ps as [|p ps IH]; intros w; [done|]. simpl.
  cbv [notify for_each mbind M_bind catch calls]. simpl.
  destruct (on_signed_proposal p w) as [a w'|e w'|]; simpl; [apply IH..|done].
Qed.

Lemma notify_no_fail ps w e w' : notify ps w ≠ Fail e w'.
Proof.
  revert w. induction ps as [|p ps IH]; intros w; [done|]. unfold notify. simpl.
  cbv [mbind M_bind catch]. destruct (on_signed_proposal p w); simpl; [apply IH..|done].
Qed.

(** Storage after a batch was signed. *)
Definition sign_batch (k : BatchKey) (prop : SignedProposalBatch) (s : Handler) : Handler :=
  s <| SignedProposals ::= <[k := prop]> |>
    <| UnsignedProposalQueue ::= λ q,
         drop_stale k.1 (existsb is_refresh (sb_proposals prop)) (delete k q) |>
    <| handler_events ::= λ es, es ++ [ProposalBatchSigned k.1 k.2
         ((λ p, (proposal_kind p, proposal_data p)) <$> sb_proposals prop)
         (sb_signature prop)] |>.

(** The checks before storage is written, in their order. *)
Definition sign_checks (prop : SignedProposalBatch) (s : Handler)
    : result HandlerError BatchKey :=
  first ← result_of (head (sb_proposals prop)) EmptyBatch;
  id ← result_map_err handle_validation_error (decode_proposal_identifier first);
  let k := (typed_chain_id id, sb_batch_id prop) in
  if negb (bool_decide (is_Some (UnsignedProposalQueue s !! k))) then Err ProposalDoesNotExists
  else if negb (validate_ecdsa_signature (signed_batch_data prop) (sb_signature prop))
  then Err ProposalSignatureInvalid else Ok k.

Lemma handle_signed_run `{!IterLaws} prop s w :
  handler_inv s →
  (handle_signed_proposal_batch prop : HM unit) (s, w) =
  match sign_checks prop s with
  | Ok k => match notify (sb_proposals prop) w with
            | Ret u w' => Ret u (sign_batch k prop s, w')
            | _ => Panic
            end
  | Err e => Fail (Module e) (s, w)
  | Panics => Panic
  end.
Proof.
  intros Hi. unfold handle_signed_proposal_batch, sign_checks, decode_or_fail,
    validate_proposal_signature.
  mrun. destruct (sb_proposals prop) as [|first ps] eqn:Hps; [done|].
  cbn [head result_of]. rewrite bool_decide_false by done. cbn [negb]. mrun.
  cbn [mbind result_bind].
  destruct (decode_proposal_identifier first) as [id|e|] eqn:Hd;
    cbn [result_map_err mbind result_bind]; [|done..]. mrun.
  set (k := (typed_chain_id id, sb_batch_id prop)).
  case_bool_decide as Hq; cbn [negb]; [|done]. mrun.
  destruct (validate_ecdsa_signature _ _) eqn:Hv; cbn [negb]; [|done]. mrun.
  assert (SignedProposals s !! k = None) as Hs.
  { destruct (SignedProposals s !! k) eqn:Hs; [|done].
    apply hi_signed in Hs as (_ & _ & _ & Hn); [|done].
    destruct Hq as [ub Hub]. unfold k in Hub. by rewrite Hn in Hub. }
  rewrite bool_decide_true by done. mrun. unfold deposit_event.
  unfold mbind at 1, M_bind at 1. rewrite remove_stale_loop by (by apply sign_inv). mrun.
  rewrite notify_loop, <- Hps.
  destruct (notify (sb_proposals prop) w) as [u w'|e w'|] eqn:Hn;
    [|by apply notify_no_fail in Hn|done].
  done.
Qed.

(** C19: submitting a signed batch either fails at the first failing check with
    storage untouched, or moves exactly that batch from the queue to the signed
    batches, drops the chain's other refresh batches if it carries a refresh
    proposal, and calls every handler once per proposal in order, ignoring their
    errors.  No existing signed batch can be overwritten. *)
Theorem handle_signed_proposal_batch_spec `{!IterLaws} prop s w :
  handler_inv s →
  (handle_signed_proposal_batch prop : HM unit) (s, w) =
  match sign_checks prop s with
  | Ok k => match notify (sb_proposals prop) w with
            | Ret u w' => Ret u (sign_batch k prop s, w')
            | _ => Panic
            end
  | Err e => Fail (Module e) (s, w)
  | Panics => Panic
  end.
Proof. apply handle_signed_run. Qed.

Lemma sign_checks_Ok prop s k :
  sign_checks prop s = Ok k →
  k.2 = sb_batch_id prop ∧ is_Some (UnsignedProposalQueue s !! k) ∧
  validate_ecdsa_signature (signed_batch_data prop) (sb_signature prop) = true.
Proof.
  unfold sign_checks. intros (first & _ & Hk)%result_bind_Ok.
  apply result_bind_Ok in Hk as (id & _ & Hk).
  case_bool_decide; [|done]. destruct (validate_ecdsa_signature _ _) eqn:Hv; [|done].
  simpl in Hk. injection Hk as <-. done.
Qed.

Lemma sign_batch_inv k prop s :
  handler_inv s → sign_checks prop s = Ok k → handler_inv (sign_batch k prop s).
Proof.
  intros Hi (Hb & Hq & Hv)%sign_checks_Ok. destruct k as [c b]; simpl in *. subst b.
  exact (event_inv _ _ (drop_stale_inv _ _ _ (sign_inv _ _ _ Hi Hq Hv))).
Qed.

(** A batch identifier is signed at most once: while a signed batch is stored
    under it, every further submission with that identifier is refused, whatever
    chain and proposals it names. *)
Theorem signed_batch_id_final `{!IterLaws} c sb prop s w :
  handler_inv s → SignedProposals s !! (c, sb_batch_id prop) = Some sb →
  returns ((handle_signed_proposal_batch prop : HM unit) (s, w)) = false.
Proof.
  intros Hi Hs. rewrite handle_signed_run by done.
  destruct (sign_checks prop s) as [k|e|] eqn:Hk; [|done..].
  apply sign_checks_Ok in Hk as (Hb & [ub Hq] & _).
  apply hi_signed in Hs as (_ & _ & _ & Hn); [|done].
  destruct k as [c' b]; simpl in *. subst b. by rewrite Hn in Hq.
Qed.

(** The proposals of a signed batch are not compared with the batch that is
    queued under its identifier: any batch with a recoverable signature whose first
    proposal decodes to the chain is accepted in its place and removes it, even if
    it signs different bytes.  The identifier is not part of the signed data. *)
Theorem signed_batch_replaces_any_queued `{!IterLaws} prop first id ub s w u w' :
  handler_inv s → head (sb_proposals prop) = Some first →
  decode_proposal_identifier first = Ok id →
  let k := (typed_chain_id id, sb_batch_id prop) in
  UnsignedProposalQueue s !! k = Some ub →
  unsigned_batch_data ub ≠ signed_batch_data prop →
  validate_ecdsa_signature (signed_batch_data prop) (sb_signature prop) = true →
  notify (sb_proposals prop) w = Ret u w' →
  ∃ t, (handle_signed_proposal_batch prop : HM unit) (s, w) = Ret u (t, w') ∧
    SignedProposals t !! k = Some prop ∧ UnsignedProposalQueue t !! k = None.
Proof.
  intros Hi Hf Hd k Hq _ Hv Hn. rewrite handle_signed_run by done.
  assert (sign_checks prop s = Ok k) as ->.
  { unfold sign_checks. rewrite Hf. cbn [result_of mbind result_bind]. rewrite Hd.
    cbn [result_map_err mbind result_bind]. fold k. rewrite bool_decide_true by (by rewrite Hq).
    by rewrite Hv. }
  rewrite Hn. eexists. split; [done|]. unfold sign_batch. simp_get.
  rewrite lookup_insert_eq. split; [done|]. unfold drop_stale.
  destruct (existsb _ _); [apply map_lookup_filter_None; left|]; apply lookup_delete_eq.
Qed.

(** The clean-up after a refresh only reaches the queue of the signed batch's
    own chain: a refresh batch that waits under another chain stays queued, so a
    second rotation can still be signed. *)
Theorem stale_refresh_of_other_chain_survives `{!IterLaws} prop k c b ub s w u t w' :
  handler_inv s → sign_checks prop s = Ok k → c ≠ k.1 →
  UnsignedProposalQueue s !! (c, b) = Some ub →
  (handle_signed_proposal_batch prop : HM unit) (s, w) = Ret u (t, w') →
  UnsignedProposalQueue t !! (c, b) = Some ub.
Proof.
  intros Hi Hk Hc Hq. rewrite handle_signed_run, Hk by done.
  destruct (notify _ _) as [u' w1| |]; [|done..]. intros [= <- <- <-]. unfold sign_batch. simp_get.
  assert (delete k (UnsignedProposalQueue s) !! (c, b) = Some ub) as Hd.
  { rewrite lookup_delete_ne; [done|]. by intros ->. }
  unfold drop_stale. destruct (existsb _ _); [|done].
  apply map_lookup_filter_Some. split; [done|]. intros [? _]. done.
Qed.
End signing.

(** ** All calls and hooks *)

Section calls.
Context `{HandlerConfig, WebbProposals, Crypto, IterOrder, Weights} {W F : Type}.
Context `{System W, GetDKGPublicKey W, DKGAuthorities W, OnSignedProposal W F,
          ReportOffences W F}.
Implicit Types (s t : Handler) (w : W).

Abbreviation HM A := (M (Handler * W) (DispatchError HandlerError F) A).

Lemma preserves_deposit_event e : preserves (own handler_inv) (deposit_event e : HM unit).
Proof. apply preserves_writes. intros s. apply event_inv. Qed.

Lemma preserves_decode_or_fail p :
  preserves (own handler_inv) (decode_or_fail p : HM ProposalIdentifier).
Proof. apply preserves_lift_result. Qed.

#[local] Hint Resolve preserves_deposit_event preserves_decode_or_fail : preserves.

Lemma preserves_decode_bind {A} p (f : ProposalIdentifier → HM A) :
  (∀ id, decode_proposal_identifier p = Ok id → preserves (own handler_inv) (f id)) →
  preserves (own handler_inv) (id ← decode_or_fail p; f id).
Proof.
  intros Hf q Hq. apply wp_bind. unfold decode_or_fail. apply wp_lift_result; [|done..].
  intros id Hd. by apply Hf.
Qed.

Lemma preserves_store prop id :
  1 <= MaxProposalsPerBatch → decode_proposal_identifier prop = Ok id →
  preserves (own handler_inv) (store_unsigned_proposal prop id : HM unit).
Proof.
  intros Hm Hd [s w] Hs. pose proof (store_unsigned_proposal_wp (F := F) prop id s w Hs Hm Hd) as Hw.
  unfold wp in *. destruct (store_unsigned_proposal prop id (s, w)); unfold own; naive_solver.
Qed.

Lemma preserves_handle_unsigned prop :
  1 <= MaxProposalsPerBatch →
  preserves (own handler_inv) (handle_unsigned_proposal prop : HM unit).
Proof.
  intros Hm. apply preserves_decode_bind. intros id Hd.
  apply preserves_bind; [auto with preserves|intros []]. by apply preserves_store.
Qed.

Lemma preserves_handle_signed `{!IterLaws} prop :
  preserves (own handler_inv) (handle_signed_proposal_batch prop : HM unit).
Proof.
  intros [s w] Hs. unfold wp. rewrite handle_signed_run by done.
  destruct (sign_checks prop s) eqn:Hk; [|done..].
  destruct (notify _ _); [|done..]. unfold own. simpl. by apply sign_batch_inv.
Qed.

Lemma preserves_submit_one `{!IterLaws} prop :
  preserves (own handler_inv) (submit_one prop : HM unit).
Proof.
  unfold submit_one. apply preserves_bind; [auto with preserves|intros k].
  destruct (ensure_signed_by_dkg _ _ _);
    [apply preserves_handle_signed|auto with preserves..].
Qed.

Lemma preserves_foreign_identifier common ps :
  preserves (own handler_inv) (has_foreign_identifier common ps : HM bool).
Proof.
  induction ps as [|p ps IH]; simpl; [auto with preserves|].
  apply preserves_bind; [auto with preserves|intros id]. case_decide; auto with preserves.
Qed.

Lemma preserves_report_signing o sd :
  preserves (own handler_inv) (report_signing_offence o sd : HM unit).
Proof.
  unfold report_signing_offence, report_offence.
  apply preserves_bind; [|intros; auto with preserves]. apply preserves_catch.
  repeat (apply preserves_bind; [auto with preserves|intros ?]). apply preserves_calls.
Qed.

#[local] Hint Resolve preserves_foreign_identifier preserves_report_signing
  preserves_submit_one preserves_for_each : preserves.

Lemma preserves_handler_call `{!IterLaws} o c :
  1 <= MaxProposalsPerBatch → preserves (own handler_inv) (handler_call o c : HM unit).
Proof.
  intros Hm. apply preserves_dispatch. destruct c; simpl.
  - unfold submit_signed_proposals. apply preserves_bind; [auto with preserves|intros _].
    auto with preserves.
  - unfold force_submit_unsigned_proposal. apply preserves_bind; [auto with preserves|intros _].
    destruct (is_unsigned prop); [|auto with preserves].
    apply preserves_decode_bind. intros id Hd.
    apply preserves_bind; [auto with preserves|intros _]. by apply preserves_store.
  - unfold submit_dkg_signing_offence. do 6 (apply preserves_bind; [auto with preserves|intros ?]).
    apply preserves_bind; [auto with preserves|intros []]; [auto with preserves|].
    apply preserves_bind; [auto with preserves|intros [?|]]; [auto with preserves|].
    do 4 (apply preserves_bind; [auto with preserves|intros ?]). auto with preserves.
  - unfold force_remove_unsigned_proposal_batch.
    do 3 (apply preserves_bind; [auto with preserves|intros ?]).
    apply preserves_bind; [|intros; auto with preserves].
    apply preserves_writes. intros s. apply dequeue_inv.
Qed.

(** The rest of the chain is only reached through the signed proposal handlers
    and the offence report. *)
Section world.
Context (J : W → Prop).
Context (signed_J : ∀ p, preserves J (on_signed_proposal p : M W F unit)).
Context (report_J : ∀ o, preserves J (ro_report_offence o : M W F unit)).

#[local] Hint Resolve signed_J report_J : preserves.

Lemma world_foreign_identifier common ps :
  preserves (world J) (has_foreign_identifier common ps : HM bool).
Proof using All.
  induction ps as [|p ps IH]; simpl; unfold decode_or_fail; solve_preserves.
Qed.

#[local] Hint Resolve world_foreign_identifier : preserves.

Lemma world_submit_one prop : preserves (world J) (submit_one prop : HM unit).
Proof using All.
  unfold submit_one, handle_signed_proposal_batch, remove_stale_refresh, decode_or_fail,
    deposit_event. solve_preserves.
Qed.

#[local] Hint Resolve world_submit_one : preserves.

Lemma world_handler_call o c : preserves (world J) (handler_call o c : HM unit).
Proof using All.
  apply preserves_dispatch. destruct c; unfold submit_signed_proposals,
    force_submit_unsigned_proposal, submit_dkg_signing_offence, report_signing_offence,
    report_offence, force_remove_unsigned_proposal_batch, store_unsigned_proposal,
    create_batch_and_add_to_storage, generate_next_batch_id, decode_or_fail, deposit_event;
    solve_preserves.
Qed.
End world.

Lemma world_on_idle (J : W → Prop) now r :
  preserves (world J) (_ ← on_idle now r; mret tt : HM unit).
Proof.
  apply preserves_bind; [|auto with preserves]. unfold on_idle.
  destruct (negb _); [auto with preserves|]. apply preserves_bind; [|intros r'].
  - unfold on_idle_create_proposal_batches. apply preserves_bind; [auto with preserves|intros l].
    cbv zeta. generalize (weight_saturating_sub r (db_reads (wrap 64 (len l)))).
    induction l as [|[c ps] l IH]; intros r0; simpl; unfold generate_next_batch_id; solve_preserves.
  - unfold on_idle_remove_expired_batches. destruct (weight_is_zero r'); [auto with preserves|].
    apply preserves_bind; [auto with preserves|intros l].
    cbv zeta. generalize (weight_saturating_sub r' (db_reads (wrap 64 (len l)))).
    induction l as [|[k b] l IH]; intros r0; simpl; unfold batch_past_expiry, deposit_event;
      solve_preserves.
Qed.

(** Whatever call is dispatched and however it ends, batch identifiers stay
    fresh and unique, batches non-empty, bounded and of one chain, and signed
    batches stay out of the queue. *)
Theorem handler_call_inv `{!IterLaws} o c s w p :
  1 <= MaxProposalsPerBatch → handler_inv s →
  final ((handler_call o c : HM unit) (s, w)) = Some p → handler_inv p.1.
Proof.
  intros Hm Hi. apply (preserves_final (own handler_inv)); [by apply preserves_handler_call|done].
Qed.

Lemma handle_unsigned_run prop id s w :
  1 <= MaxProposalsPerBatch → handler_inv s → decode_proposal_identifier prop = Ok id →
  match (handle_unsigned_proposal prop : HM unit) (s, w) with
  | Ret _ (t, w') => w' = w ∧ handler_inv t ∧
      pending t ≡ₚ mkUnsignedProposal (typed_chain_id id) (key id) prop :: pending s
  | Fail e (t, w') => e = Module ArithmeticOverflow ∧ w' = w ∧ pending t = pending s
  | Panic => False
  end.
Proof.
  intros Hm Hi Hd. unfold handle_unsigned_proposal, decode_or_fail, deposit_event. mrun.
  rewrite Hd. mrun.
  match goal with |- context [store_unsigned_proposal prop id (?s', w)] => set (s1 := s') end.
  pose proof (store_unsigned_proposal_wp (F := F) prop id s1 w (event_inv _ _ Hi) Hm Hd) as Hw.
  unfold wp in Hw. destruct (store_unsigned_proposal prop id (s1, w)) as [? [t w']|e [t w']|];
    [|destruct Hw as [? [= -> ->]]; done|done].
  simpl in Hw. destruct Hw as (-> & ? & _ & ?). done.
Qed.

(** A proposal passed on by the voting pallet is either stored exactly once or
    refused with storage unchanged but for the event; the code never panics on a
    proposal that decodes. *)
Theorem handle_unsigned_proposal_stores prop id s w :
  1 <= MaxProposalsPerBatch → handler_inv s → decode_proposal_identifier prop = Ok id →
  match (handle_unsigned_proposal prop : HM unit) (s, w) with
  | Ret _ (t, w') => w' = w ∧ handler_inv t ∧
      pending t ≡ₚ mkUnsignedProposal (typed_chain_id id) (key id) prop :: pending s
  | Fail e (t, w') => e = Module ArithmeticOverflow ∧ w' = w ∧ pending t = pending s
  | Panic => False
  end.
Proof. apply handle_unsigned_run. Qed.

Lemma on_idle_run `{!IterLaws} now r s w :
  handler_inv s →
  ∃ r' t, (on_idle now r : HM Weight) (s, w) = Ret r' (t, w) ∧ handler_inv t ∧
    SignedProposals t = SignedProposals s ∧ (now mod 2 ≠ 0 → r' = r ∧ t = s) ∧
    ∀ k b, UnsignedProposalQueue s !! k = Some b → UnsignedProposalQueue t !! k = None →
      expired now b = true.
Proof.
  intros Hi. unfold on_idle. destruct (Z.eqb_spec (now mod 2) 0) as [He|Ho]; cbn [negb].
  2: { exists r, s. split_and!; try done. congruence. }
  pose proof (on_idle_create_wp (F := F) r s w Hi) as Hc. unfold wp in Hc.
  unfold mbind, M_bind. destruct (on_idle_create_proposal_batches r (s, w)) as [r1 [s1 w1]|? ?|];
    [|done..]. simpl in Hc. destruct Hc as (-> & Hi1 & Hs1 & Hq1 & _).
  pose proof (on_idle_remove_wp (F := F) now r1 s1 w Hi1) as Hr. unfold wp in Hr.
  destruct (on_idle_remove_expired_batches now r1 (s1, w)) as [r2 [s2 w2]|? ?|]; [|done..].
  simpl in Hr. destruct Hr as (-> & Hi2 & _ & Hs2 & _ & _ & Hgone & _).
  exists r2, s2. split_and!; [done|done|congruence|done|].
  intros k b Hk Hn. apply (Hgone k); [|done]. by eapply lookup_weaken.
Qed.

(** The idle hook never panics or fails and preserves the invariant; on odd
    blocks it does nothing. *)
Theorem on_idle_total `{!IterLaws} now r s w :
  handler_inv s →
  ∃ r' t, (on_idle now r : HM Weight) (s, w) = Ret r' (t, w) ∧ handler_inv t ∧
    SignedProposals t = SignedProposals s ∧ (now mod 2 ≠ 0 → r' = r ∧ t = s) ∧
    ∀ k b, UnsignedProposalQueue s !! k = Some b → UnsignedProposalQueue t !! k = None →
      expired now b = true.
Proof. apply on_idle_run. Qed.

(** A batch that is not signed by the key on chain changes nothing but the
    event log, and a batch that ends up among the signed ones was signed by the key
    on chain when it was submitted. *)
Theorem submit_one_needs_current_key `{!IterLaws} prop s w u t w' :
  handler_inv s → (submit_one prop : HM unit) (s, w) = Ret u (t, w') →
  match ensure_signed_by_dkg (dkg_key w) (sb_signature prop) (signed_batch_data prop) with
  | Ok _ => ∃ k, SignedProposals t = <[k := prop]> (SignedProposals s) ∧
                 k.2 = sb_batch_id prop
  | _ => w' = w ∧ ∃ e, t = s <| handler_events ::= λ es, es ++ [e] |>
  end.
Proof.
  intros Hi. unfold submit_one. mrun.
  destruct (ensure_signed_by_dkg _ _ _) as [[]|e|] eqn:Hsig.
  - rewrite handle_signed_run by done.
    destruct (sign_checks prop s) as [k|?|] eqn:Hk; [|done..].
    destruct (notify _ _); [|done..]. intros [= _ <- _]. exists k. split; [done|].
    by apply sign_checks_Ok in Hk as (? & _).
  - intros [= _ <- <-]. split; [done|]. by eexists.
  - done.
Qed.

(** *** Offence reports *)

(** A batch signed by the current DKG with two proposals of one chain is
    reported as malformed as soon as their payload keys differ, for instance by
    their nonces, although such batches are what the pallet itself produces and
    even when the batch is stored as correctly signed: the comparison is between
    whole identifiers and not, as its comment says, between chain identifiers. *)
Theorem valid_batch_reported_malformed who p1 p2 ps id1 id2 sb s w :
  sb_proposals sb = p1 :: p2 :: ps →
  decode_proposal_identifier p1 = Ok id1 → decode_proposal_identifier p2 = Ok id2 →
  typed_chain_id id1 = typed_chain_id id2 → key id1 ≠ key id2 →
  ensure_signed_by_dkg (dkg_key w) (sb_signature sb) (signed_batch_data sb) = Ok tt →
  (submit_dkg_signing_offence (SignedBy who) sb : HM unit) (s, w) =
  (report_signing_offence SignedMalformedProposal sb : HM unit) (s, w).
Proof.
  intros Hps Hd1 Hd2 Hc Hk Hsig.
  unfold submit_dkg_signing_offence, ensure_signed, decode_or_fail. mrun.
  rewrite Hps. rewrite bool_decide_false by done. cbn [negb]. mrun. rewrite Hsig. mrun.
  cbn [head]. rewrite Hd1. cbn [has_foreign_identifier]. unfold decode_or_fail. mrun. rewrite Hd1.
  rewrite decide_True by done. mrun. rewrite Hd2. rewrite decide_False by congruence. by mrun.
Qed.

(** Offence reports need the signature of the current DKG, and a report that a
    batch was never queued is refused for every batch, signed or queued, of that
    chain with the same bytes. *)
Theorem signing_offence_guards who sb s w u t w' :
  (submit_dkg_signing_offence (SignedBy who) sb : HM unit) (s, w) = Ret u (t, w') →
  ensure_signed_by_dkg (dkg_key w) (sb_signature sb) (signed_batch_data sb) = Ok tt ∧
  ∃ o, handler_events t = handler_events s ++ [SigningOffenceReported o sb] ∧
    UnsignedProposalQueue t = UnsignedProposalQueue s ∧
    SignedProposals t = SignedProposals s ∧
    (o = SignedProposalNotInQueue → ∃ first id, head (sb_proposals sb) = Some first ∧
       decode_proposal_identifier first = Ok id ∧
       ∀ b, (∀ sb', SignedProposals s !! (typed_chain_id id, b) = Some sb' →
               signed_batch_data sb' ≠ signed_batch_data sb) ∧
            (∀ ub, UnsignedProposalQueue s !! (typed_chain_id id, b) = Some ub →
               unsigned_batch_data ub ≠ signed_batch_data sb)).
Proof.
  unfold submit_dkg_signing_offence, ensure_signed, decode_or_fail. mrun.
  destruct (bool_decide (sb_proposals sb = [])); cbn [negb]; [done|]. mrun.
  destruct (ensure_signed_by_dkg _ _ _) as [[]| |]; mrun; [|done..].
  destruct (head (sb_proposals sb)) as [first|] eqn:Hf; mrun; [|done].
  destruct (decode_proposal_identifier first) as [id| |] eqn:Hd; mrun; [|done..].
  assert (∀ o, (report_signing_offence o sb : HM unit) (s, w) = Ret u (t, w') →
    handler_events t = handler_events s ++ [SigningOffenceReported o sb] ∧
    UnsignedProposalQueue t = UnsignedProposalQueue s ∧ SignedProposals t = SignedProposals s)
    as Hrep.
  { intros o. unfold report_signing_offence, deposit_event.
    intros ([a|e] & p & Hr%catch_Ret & Hw)%bind_Ret; dinv Hw; injection Hw as -> ->;
      unfold report_offence in Hr; revert Hr; mrun; unfold calls; simpl;
      destruct (ro_report_offence _ w); intros; simplify_eq/=; done. }
  intros (bad & p & Hfi & Hr)%bind_Ret. split; [done|].
  assert (p = (s, w)) as ->.
  { clear Hr Hrep. revert Hfi. generalize (sb_proposals sb). intros l. induction l as [|q l IH].
    { simpl. by intros [_ ->]%ret_Ret. }
    simpl. intros (i & p' & Hq & Hl)%bind_Ret. unfold decode_or_fail in Hq.
    apply lift_result_Ret in Hq as [_ ->]. case_decide; [auto|by apply ret_Ret in Hl as [_ ->]]. }
  destruct bad.
  - exists SignedMalformedProposal. apply Hrep in Hr as (? & ? & ?). done.
  - revert Hr. mrun. destruct (SignedProposals s !! _) eqn:Hnone; [done|]. mrun.
    destruct (existsb _ (map_to_list (SignedProposals s))) eqn:H1'; cbn [negb]; [done|]. mrun.
    destruct (existsb _ (map_to_list (UnsignedProposalQueue s))) eqn:H2'; cbn [negb]; [done|].
    mrun. intros Hr. exists SignedProposalNotInQueue. apply Hrep in Hr as (? & ? & ?).
    split_and!; try done. intros _. exists first, id. split_and!; [done..|]. intros b.
    split; intros x Hx Heq.
    + apply not_true_iff_false in H1'. apply H1', existsb_exists.
      exists ((typed_chain_id id, b), x). rewrite <- list_elem_of_In, elem_of_map_to_list.
      split; [done|]. by apply bool_decide_eq_true.
    + apply not_true_iff_false in H2'. apply H2', existsb_exists.
      exists ((typed_chain_id id, b), x). rewrite <- list_elem_of_In, elem_of_map_to_list.
      split; [done|]. by apply bool_decide_eq_true.
Qed.
End calls.

(** ** The offchain worker *)

Lemma chunks_fuel_spec {A} fuel n (l : list A) :
  (0 < n)%nat → (length l <= fuel)%nat →
  mjoin (chunks_fuel fuel n l) = l ∧ Forall (λ c, c ≠ [] ∧ (length c <= n)%nat) (chunks_fuel fuel n l).
Proof.
  intros Hn. revert l. induction fuel as [|fuel IH]; intros l Hl.
  - destruct l; [done|simpl in Hl; lia].
  - destruct l as [|x l]; [done|]. simpl chunks_fuel.
    destruct (IH (drop n (x :: l))) as [Hj Hf].
    { rewrite length_drop. simpl in *. lia. }
    split.
    + simpl. rewrite Hj. by rewrite take_drop.
    + constructor; [|done]. destruct n; [lia|]. split; [done|]. rewrite length_take. lia.
Qed.

Section offchain.
Context `{HandlerConfig, WebbProposals, Crypto, IterOrder, Weights} {W F : Type}.
Context `{System W, GetDKGPublicKey W, DKGAuthorities W, OnSignedProposal W F,
          ReportOffences W F}.
Implicit Types (s t : Handler) (w : W).

Abbreviation HM A := (M (Handler * W) (DispatchError HandlerError F) A).

Lemma get_expected_signer_run block s w :
  current_authorities_accounts w ≠ [] → block ≠ 0 →
  in_width 32 (len (current_authorities_accounts w)) →
  (get_expected_signer block : HM _) (s, w) =
  Ret (current_authorities_accounts w !!
       Z.to_nat (block mod len (current_authorities_accounts w))) (s, w).
Proof.
  intros Hne Hb Hw. unfold get_expected_signer. mrun. rewrite bool_decide_false by done.
  destruct (Z.eqb_spec block 0); [done|]. simpl. by rewrite wrap_small.
Qed.

(** Submission is a fair round robin: within any run of as many blocks as
    there are authorities, each authority is the expected submitter of one, and
    there is always an expected submitter after the genesis block. *)
Theorem get_expected_signer_fair start s w i a :
  1 <= start → in_width 32 (len (current_authorities_accounts w)) →
  current_authorities_accounts w !! i = Some a →
  ∃ block, start <= block < start + len (current_authorities_accounts w) ∧
    (get_expected_signer block : HM _) (s, w) = Ret (Some a) (s, w).
Proof.
  intros Hs Hw Hi. set (n := len (current_authorities_accounts w)) in *.
  assert (Z.of_nat i < n) as Hlt by (apply lookup_lt_Some in Hi; lia).
  set (d := (Z.of_nat i - start) mod n).
  assert (0 <= d < n) as Hd by (apply Z.mod_pos_bound; lia).
  exists (start + d). split; [lia|]. rewrite get_expected_signer_run; [| | |done].
  - fold n. replace ((start + d) mod n) with (Z.of_nat i).
    + by rewrite Nat2Z.id, Hi.
    + unfold d. rewrite Z.add_mod_idemp_r by lia.
      replace (start + (Z.of_nat i - start)) with (Z.of_nat i) by lia.
      symmetry. apply Z.mod_small. lia.
  - intros He. rewrite He in Hi. done.
  - lia.
Qed.

Lemma filter_new_batches_wp l s w :
  Forall (λ b, sb_proposals b ≠ []) l →
  (∀ b p, b ∈ l → head (sb_proposals b) = Some p → decode_proposal_identifier p ≠ Panics) →
  wp False (filter_new_batches l : HM _) (s, w)
    (λ r p, p = (s, w) ∧ sublist r l ∧
       ∀ b, b ∈ r → ∃ first id, head (sb_proposals b) = Some first ∧
         decode_proposal_identifier first = Ok id ∧
         SignedProposals s !! (typed_chain_id id, sb_batch_id b) = None)
    (λ _ _, False).
Proof.
  intros Hne Hp. induction l as [|b l IH]; simpl.
  { apply wp_ret. split_and!; [done|constructor|]. intros b Hb. by apply not_elem_of_nil in Hb. }
  apply Forall_cons in Hne as [Hb Hne].
  destruct (sb_proposals b) as [|first ps] eqn:Hps; [done|].
  assert (decode_proposal_identifier first ≠ Panics) as Hd.
  { apply (Hp b); [set_solver|]. by rewrite Hps. }
  apply wp_bind. unfold is_not_existing_proposal_batch. apply wp_bind. rewrite Hps.
  apply wp_expect; [|done]. intros ? [= <-].
  assert (∀ k : bool, (k = true → ∃ id, decode_proposal_identifier first = Ok id ∧
      SignedProposals s !! (typed_chain_id id, sb_batch_id b) = None) →
    wp False (r ← filter_new_batches l; mret (if k then b :: r else r) : HM _) (s, w)
      (λ r p, p = (s, w) ∧ sublist r (b :: l) ∧
       ∀ b, b ∈ r → ∃ first id, head (sb_proposals b) = Some first ∧
         decode_proposal_identifier first = Ok id ∧
         SignedProposals s !! (typed_chain_id id, sb_batch_id b) = None) (λ _ _, False)) as Hk.
  { intros k Hk. apply wp_bind. eapply wp_mono; [apply IH; [done|]|..|done].
    { intros ? ? ?. apply Hp. set_solver. }
    intros r p (-> & Hsub & Hr). apply wp_ret. destruct k.
    - split_and!; [done|by apply sublist_skip|]. intros b' [->|Hin]%elem_of_cons; [|by apply Hr].
      destruct (Hk eq_refl) as (id & ? & ?). exists first, id. by rewrite Hps.
    - split_and!; [done|by apply sublist_cons|done]. }
  destruct (decode_proposal_identifier first) as [id|e|]; [|apply wp_ret; by apply (Hk false)|done].
  apply wp_reads. apply (Hk (negb _)). intros Hb'. exists id. split; [done|].
  apply negb_true_iff, bool_decide_eq_false in Hb'. by apply eq_None_not_Some.
Qed.

(** What the worker sends are calls that the length check of
    [submit_signed_proposals] accepts, made of stored batches in their order, each
    with a batch identifier that is not signed yet, and none is dropped by the
    splitting; it never panics when the stored batches are not empty. *)
Theorem submit_signed_proposal_onchain_calls signers batches block s w :
  1 <= MaxProposalsPerBatch → Forall (λ b, sb_proposals b ≠ []) batches →
  (∀ b p, b ∈ batches → head (sb_proposals b) = Some p → decode_proposal_identifier p ≠ Panics) →
  ∃ r, (submit_signed_proposal_onchain signers (Some (Some batches)) block : HM _) (s, w) =
    Ret r (s, w) ∧
  match r with
  | inl _ => signers = []
  | inr calls => ∃ groups, calls = SubmitSignedProposals <$> groups ∧
      Forall (λ g, 1 <= len g <= MaxProposalsPerBatch) groups ∧ sublist (mjoin groups) batches ∧
      ∀ b, b ∈ mjoin groups → ∃ first id, head (sb_proposals b) = Some first ∧
        decode_proposal_identifier first = Ok id ∧
        SignedProposals s !! (typed_chain_id id, sb_batch_id b) = None
  end.
Proof.
  intros Hm Hne Hp. unfold submit_signed_proposal_onchain.
  destruct signers as [|account signers]; [by eexists|].
  assert (∃ o, (get_expected_signer block : HM _) (s, w) = Ret o (s, w)) as [o Ho].
  { unfold get_expected_signer. mrun. destruct (_ || _); by eexists. }
  unfold mbind, M_bind. rewrite Ho.
  assert (∃ groups : list (list SignedProposalBatch), [] = SubmitSignedProposals <$> groups ∧
    Forall (λ g, 1 <= len g <= MaxProposalsPerBatch) groups ∧ sublist (mjoin groups) batches ∧
      ∀ b, b ∈ mjoin groups → ∃ first id, head (sb_proposals b) = Some first ∧
        decode_proposal_identifier first = Ok id ∧
        SignedProposals s !! (typed_chain_id id, sb_batch_id b) = None) as Hnil.
  { exists []. split_and!; [done|constructor|apply sublist_nil_l|].
    intros b Hb. by apply not_elem_of_nil in Hb. }
  destruct (match o with Some e => _ | None => _ end); [by eexists|].
  cbn [get_next_offchain_signed_proposals].
  destruct batches as [|b0 batches]; [by eexists|].
  pose proof (filter_new_batches_wp (b0 :: batches) s w Hne Hp) as Hw. unfold wp in Hw.
  destruct (filter_new_batches (b0 :: batches) (s, w)) as [r p|? ?|]; [|done..].
  destruct Hw as (-> & Hsub & Hnew). unfold assert_that.
  destruct (Z.ltb_spec 0 MaxProposalsPerBatch); [|lia]. eexists. split; [done|].
  destruct (chunks_fuel_spec (length r) (Z.to_nat MaxProposalsPerBatch) r) as [Hj Hf]; [lia..|].
  exists (chunks (Z.to_nat MaxProposalsPerBatch) r). unfold chunks. rewrite Hj.
  split_and!; [done| |done|done]. eapply Forall_impl; [exact Hf|].
  intros g [Hg Hl]. destruct g; [done|]. simpl in *. lia.
Qed.
End offchain.
