(* ===== verification/Metadata.v ===== *)
(** * pallet-dkg-metadata: storage and operations

    The pallet that keeps the DKG's keys, authority sets, thresholds, jails and
    reputations and rotates them (src/pallets/dkg-metadata/src/lib.rs, types.rs).
    Every storage item is a field of [Metadata]; [MetadataQuorum], [MetadataSpec]
    and [MetadataRotation] have the theorems.  The pallet calls the voting pallet
    ([OnAuthoritySetChangeHandler]) and the proposal handler
    ([ProposalHandlerTrait]) through their interfaces. *)

From S2P Require Import Prelude.
From S2P Require Import Frame.
From S2P Require Import Primitives.
From S2P Require Import Merkle.
From S2P Require Import Traits.

(** ** Data *)

Definition INITIAL_REPUTATION : Z := 1000000000.
Definition BLOCKS_TO_WAIT_BEFORE_KEYGEN_RETRY_TRIGGER : Z := 20.
Definition REPUTATION_INCREMENT : Z := INITIAL_REPUTATION / 1000.

Record RoundMetadata := mkRoundMetadata {
  curr_round_pub_key : bytes;
  next_round_pub_key : bytes;
  refresh_signature : bytes }.

Record VoterSetData := mkVoterSetData {
  voter_set_merkle_root : bytes;
  average_session_length_in_millisecs : Z;
  vs_voter_count : Z }.

Inductive MetadataError :=
| NoMappedAccount | InvalidThreshold | MustBeAQueuedAuthority | MustBeAnActiveAuthority
| InvalidPublicKeys | AlreadySubmittedPublicKey | AlreadySubmittedSignature
| UsedSignature | InvalidSignature | InvalidNonce | InvalidMisbehaviourReports
| RefreshAlreadyInProgress | NoRefreshProposal | InvalidRefreshProposal
| NoNextPublicKey | InvalidControllerAccount | OutOfBounds
| CannotRetreiveSigner | ProposalNotSigned | OffenderNotAuthority | AlreadyJailed
| NotEnoughAuthoritiesToJail.

Inductive MetadataEvent :=
| PublicKeySubmitted (compressed_pub_key : bytes)
| NextPublicKeySubmitted (compressed_pub_key : bytes)
| NextPublicKeySignatureSubmitted (refresh : RefreshProposal) (signature compressed_pub_key : bytes)
| PublicKeyChanged (compressed_pub_key : bytes)
| PublicKeySignatureChanged (refresh : RefreshProposal) (signature compressed_pub_key : bytes)
| MisbehaviourReportsSubmitted (ty : MisbehaviourType) (reporters : list DKGId) (offender : DKGId)
| ProposerSetVotesSubmitted (voters : list DKGId) (signatures : list bytes) (vote : bytes)
| RefreshKeysFinished (next_authority_set_id : Z)
| NextKeygenThresholdUpdated (next_keygen_threshold : Z)
| NextSignatureThresholdUpdated (next_signature_threshold : Z)
| PendingKeygenThresholdUpdated (pending_keygen_threshold : Z)
| PendingSignatureThresholdUpdated (pending_signature_threshold : Z)
| EmergencyKeygenTriggered
| AuthorityJailed (ty : MisbehaviourType) (authority : DKGId)
| AuthorityUnJailed (authority : DKGId).

Record Metadata := mkMetadata {
  UsedSignatures : list bytes;
  RefreshNonce : Z;
  NextUnsignedAt : Z;
  RefreshInProgress : bool;
  ShouldExecuteNewKeygen : bool * bool;
  ShouldSubmitProposerVote : bool;
  NextDKGPublicKey : option (Z * bytes);
  NextPublicKeySignature : option bytes;
  DKGPublicKey : option (Z * bytes);
  DKGPublicKeySignature : bytes;
  PreviousPublicKey : Z * bytes;
  HistoricalRounds : gmap Z RoundMetadata;
  SignatureThreshold : Z;
  KeygenThreshold : Z;
  NextSignatureThreshold : Z;
  NextKeygenThreshold : Z;
  PendingSignatureThreshold : Z;
  PendingKeygenThreshold : Z;
  Authorities : list DKGId;
  AuthoritySetId : Z;
  NextAuthoritySetId : Z;
  NextAuthorities : list DKGId;
  CurrentAuthoritiesAccounts : list AccountId;
  NextAuthoritiesAccounts : list AccountId;
  AccountToAuthority : gmap AccountId DKGId;
  MisbehaviourReports : gmap (MisbehaviourType * Z * DKGId) AggregatedMisbehaviourReports;
  AuthorityReputations : gmap DKGId Z;
  JailedKeygenAuthorities : gmap DKGId Z;
  JailedSigningAuthorities : gmap DKGId Z;
  BestAuthorities : list (Z * DKGId);
  NextBestAuthorities : list (Z * DKGId);
  LastSessionRotationBlock : Z;
  PendingRefreshProposal : option RefreshProposal;
  CurrentRefreshProposal : option RefreshProposal;
  metadata_events : list MetadataEvent;
  consensus_digest : list ConsensusLog }.

#[export] Instance eta_Metadata : Eta Metadata :=
  λ s, mkMetadata (UsedSignatures s) (RefreshNonce s) (NextUnsignedAt s) (RefreshInProgress s)
    (ShouldExecuteNewKeygen s) (ShouldSubmitProposerVote s) (NextDKGPublicKey s)
    (NextPublicKeySignature s) (DKGPublicKey s) (DKGPublicKeySignature s) (PreviousPublicKey s)
    (HistoricalRounds s) (SignatureThreshold s) (KeygenThreshold s) (NextSignatureThreshold s)
    (NextKeygenThreshold s) (PendingSignatureThreshold s) (PendingKeygenThreshold s)
    (Authorities s) (AuthoritySetId s) (NextAuthoritySetId s) (NextAuthorities s)
    (CurrentAuthoritiesAccounts s) (NextAuthoritiesAccounts s) (AccountToAuthority s)
    (MisbehaviourReports s) (AuthorityReputations s) (JailedKeygenAuthorities s)
    (JailedSigningAuthorities s) (BestAuthorities s) (NextBestAuthorities s)
    (LastSessionRotationBlock s) (PendingRefreshProposal s) (CurrentRefreshProposal s)
    (metadata_events s) (consensus_digest s).

(** Storage before genesis: every item at its default. *)
Definition metadata_empty : Metadata := {|
  UsedSignatures := []; RefreshNonce := 0; NextUnsignedAt := 0; RefreshInProgress := false;
  ShouldExecuteNewKeygen := (false, false); ShouldSubmitProposerVote := false;
  NextDKGPublicKey := None; NextPublicKeySignature := None; DKGPublicKey := None;
  DKGPublicKeySignature := []; PreviousPublicKey := (0, []); HistoricalRounds := ∅;
  SignatureThreshold := 0; KeygenThreshold := 0; NextSignatureThreshold := 0;
  NextKeygenThreshold := 0; PendingSignatureThreshold := 0; PendingKeygenThreshold := 0;
  Authorities := []; AuthoritySetId := 0; NextAuthoritySetId := 0; NextAuthorities := [];
  CurrentAuthoritiesAccounts := []; NextAuthoritiesAccounts := []; AccountToAuthority := ∅;
  MisbehaviourReports := ∅; AuthorityReputations := ∅; JailedKeygenAuthorities := ∅;
  JailedSigningAuthorities := ∅; BestAuthorities := []; NextBestAuthorities := [];
  LastSessionRotationBlock := 0; PendingRefreshProposal := None;
  CurrentRefreshProposal := None; metadata_events := []; consensus_digest := [] |}.

Class MetadataConfig := {
  KeygenJailSentence : Z;
  SigningJailSentence : Z;
  (** [T::DecayPercentage::get().mul_floor(..)]. *)
  decay_mul_floor : Z → Z;
  UnsignedInterval : Z;
  MetadataUnsignedPriority : Z;
  SessionPeriod : Z;
  MaxKeyLength : Z;
  MaxSignatureLength : Z;
  MaxAuthorities : Z;
  MaxProposalLength : Z;
  (** [T::NextSessionRotation::average_session_length()], in blocks. *)
  average_session_length : Z;
  (** [pallet_timestamp::Config::MinimumPeriod]. *)
  MinimumPeriod : Z;
  (** The order of [AuthorityReputations::iter()]. *)
  iter_reputations : gmap DKGId Z → list (DKGId * Z) }.

(** A percentage does not increase a reputation, and iteration visits every entry. *)
Class MetadataLaws `{MetadataConfig} : Prop := {
  decay_bounds r : 0 <= r → 0 <= decay_mul_floor r <= r;
  iter_reputations_perm m : iter_reputations m ≡ₚ map_to_list m }.

(** ** Ordered dictionaries keyed by byte strings

    [BTreeMap<Vec<u8>, Vec<DKGId>>] as the list of its entries in key order. *)

Fixpoint bytes_compare (a b : bytes) : comparison :=
  match a, b with
  | [], [] => Eq
  | [], _ :: _ => Lt
  | _ :: _, [] => Gt
  | x :: a', y :: b' =>
      match Z.compare x y with Eq => bytes_compare a' b' | c => c end
  end.

(** [contains_key], [insert] of an empty vector, [get_mut] and [push]. *)
Fixpoint dict_add (k : bytes) (a : DKGId) (d : list (bytes * list DKGId))
    : list (bytes * list DKGId) :=
  match d with
  | [] => [(k, [a])]
  | (k', v) :: d' =>
      match bytes_compare k k' with
      | Eq => (k', if decide (a ∈ v) then v else v ++ [a]) :: d'
      | Lt => (k, [a]) :: (k', v) :: d'
      | Gt => (k', v) :: dict_add k a d'
      end
  end.

(** ** Reputation ranking *)

Definition reputation_of (s : Metadata) (id : DKGId) : Z :=
  default 0 (AuthorityReputations s !! id).

Definition keygen_jailed (s : Metadata) (id : DKGId) : bool :=
  bool_decide (is_Some (JailedKeygenAuthorities s !! id)).

(** [enumerate()] with identifiers from 1, as u16. *)
Definition number_authorities (l : list DKGId) : list (Z * DKGId) :=
  imap (λ i id, (wrap 16 (Z.of_nat i + 1), id)) l.

Definition get_best_authorities_by_reputation (s : Metadata) (count : Z)
    (authorities : list DKGId) : list (Z * DKGId) :=
  let reputations_of_authorities := (λ id, (reputation_of s id, id)) <$> authorities in
  let sorted := sort_by (λ a b, b.1 <=? a.1) reputations_of_authorities in
  number_authorities (take (Z.to_nat count) sorted).*2.

Definition get_best_authorities (s : Metadata) (count : Z) (authorities : list DKGId)
    : list (Z * DKGId) :=
  let jailed_authorities := filter (λ id, keygen_jailed s id = true) authorities in
  let best_authorities := filter (λ id, keygen_jailed s id = false) authorities in
  let best_authorities :=
    if len best_authorities <? count then
      let best_jailed := get_best_authorities_by_reputation s (count - len best_authorities)
        jailed_authorities in
      best_authorities ++ best_jailed.*2
    else best_authorities in
  get_best_authorities_by_reputation s count best_authorities.

(** ** The pallet *)

Module Dkg.
Section pallet.
Context `{MetadataConfig, WebbProposals, Crypto, MerkleLeaf} {W F : Type}.
Context `{System W, OnAuthoritySetChangeHandler W F, ProposalHandlerTrait W F}.

Abbreviation MD A := (M (Metadata * W) (DispatchError MetadataError F) A).

Definition deposit_event (e : MetadataEvent) : MD unit :=
  mutate! metadata_events ::= (λ es, es ++ [e]).

Definition deposit_log (l : ConsensusLog) : MD unit :=
  mutate! consensus_digest ::= (λ ls, ls ++ [l]).

(** [DKGPublicKey::get] with its default. *)
Definition dkg_public_key (s : Metadata) : Z * bytes := default (0, []) (DKGPublicKey s).

(** [BuildGenesisConfig::build]. *)
Definition build (authority_ids : list AccountId) (keygen_threshold signature_threshold : Z)
    : MD unit :=
  assert_that (signature_threshold <? keygen_threshold);;
  assert_that (1 <? keygen_threshold);;
  assert_that (keygen_threshold <=? len authority_ids);;
  store! SignatureThreshold := signature_threshold;;
  store! KeygenThreshold := keygen_threshold;;
  store! NextSignatureThreshold := signature_threshold;;
  store! NextKeygenThreshold := keygen_threshold;;
  store! PendingSignatureThreshold := signature_threshold;;
  store! PendingKeygenThreshold := keygen_threshold;;
  store! RefreshNonce := 0.

(** *** Thresholds *)

Definition update_signature_threshold (new_threshold : Z) : MD unit :=
  store! PendingSignatureThreshold := new_threshold.

Definition update_keygen_threshold (new_threshold : Z) : MD unit :=
  store! PendingKeygenThreshold := new_threshold.

Definition update_next_keygen_threshold (next_threshold : Z) : MD unit :=
  current ← reads NextKeygenThreshold;
  when (negb (current =? next_threshold)) (
    store! NextKeygenThreshold := next_threshold;;
    deposit_event (NextKeygenThresholdUpdated next_threshold)).

Definition update_pending_keygen_threshold (next_threshold : Z) : MD unit :=
  current ← reads PendingKeygenThreshold;
  when (negb (current =? next_threshold)) (
    store! PendingKeygenThreshold := next_threshold;;
    deposit_event (PendingKeygenThresholdUpdated next_threshold)).

Definition update_next_signature_threshold (next_threshold : Z) : MD unit :=
  current ← reads NextSignatureThreshold;
  when (negb (current =? next_threshold)) (
    store! NextSignatureThreshold := next_threshold;;
    deposit_event (NextSignatureThresholdUpdated next_threshold)).

Definition set_signature_threshold (origin : Origin) (new_threshold : Z) : MD unit :=
  ensure_root origin;;
  ensure (0 <? new_threshold) (Module InvalidThreshold);;
  next_authorities ← reads NextAuthorities;
  ensure (new_threshold <? len next_authorities) (Module InvalidThreshold);;
  store! PendingSignatureThreshold := new_threshold;;
  deposit_event (PendingSignatureThresholdUpdated new_threshold).

Definition set_keygen_threshold (origin : Origin) (new_threshold : Z) : MD unit :=
  ensure_root origin;;
  ensure (1 <? new_threshold) (Module InvalidThreshold);;
  next_authorities ← reads NextAuthorities;
  ensure (new_threshold <=? len next_authorities) (Module InvalidThreshold);;
  pending ← reads PendingSignatureThreshold;
  when (new_threshold <=? pending) (
    let pending_signature_threshold := saturating_sub new_threshold 1 in
    update_signature_threshold pending_signature_threshold;;
    deposit_event (PendingSignatureThresholdUpdated pending_signature_threshold));;
  update_keygen_threshold new_threshold;;
  deposit_event (PendingKeygenThresholdUpdated new_threshold).

(** *** Public key submissions *)

(** The 33-byte keys of a set; the conversion panics on any other length. *)
Definition ecdsa_keys (authorities : list DKGId) : option (list bytes) :=
  mapM (λ x, to_slice_33 (dkg_bytes x)) authorities.

Fixpoint process_public_keys (authorities : list DKGId)
    (keys_and_signatures : AggregatedPublicKeys) (dict : list (bytes * list DKGId))
    : MD (list (bytes * list DKGId)) :=
  match keys_and_signatures with
  | [] => mret dict
  | (pub_key, signature) :: rest =>
      maybe_signers ← expect (ecdsa_keys authorities);
      let '(maybe_authority, success) :=
        verify_signer_from_set_ecdsa maybe_signers pub_key signature in
      authority ← ok_or maybe_authority (Module CannotRetreiveSigner);
      process_public_keys authorities rest
        (if success : bool then dict_add pub_key (mkDKGId authority) dict else dict)
  end.

Definition process_public_key_submissions (aggregated_keys : AggregatedPublicKeys)
    (authorities : list DKGId) : MD (list (bytes * list DKGId)) :=
  process_public_keys authorities aggregated_keys [].

(** The loop over the dictionary: the first key with enough reporters. *)
Fixpoint accept_first (threshold : Z) (accept : bytes → list DKGId → MD unit)
    (dict : list (bytes * list DKGId)) : MD bool :=
  match dict with
  | [] => mret false
  | (key, reporters) :: rest =>
      if threshold <=? len reporters then accept key reporters;; mret true
      else accept_first threshold accept rest
  end.

Definition bump_next_unsigned_at : MD unit :=
  current_block ← observes block_number;
  store! NextUnsignedAt := wrap 32 (current_block + UnsignedInterval).

Definition submit_public_key (origin : Origin) (keys_and_signatures : AggregatedPublicKeys)
    : MD unit :=
  ensure_none origin;;
  stored ← reads DKGPublicKey;
  ensure (bool_decide (stored = None)) (Module AlreadySubmittedPublicKey);;
  best ← reads BestAuthorities;
  dict ← process_public_key_submissions keys_and_signatures best.*2;
  threshold ← reads SignatureThreshold;
  accepted ← accept_first threshold (λ key reporters,
    bounded_key ← ok_or (try_bound MaxKeyLength key) (Module OutOfBounds);
    set_id ← reads AuthoritySetId;
    store! DKGPublicKey := Some (set_id, bounded_key);;
    deposit_event (PublicKeySubmitted key);;
    for_each reporters (λ authority,
      mutate! AuthorityReputations ::= λ m,
        <[authority := saturating_add 128 (decay_mul_floor (default 0 (m !! authority)))
                         INITIAL_REPUTATION]> m)) dict;
  if accepted : bool then bump_next_unsigned_at
  else throw (Module InvalidPublicKeys).

Definition submit_next_public_key (origin : Origin)
    (keys_and_signatures : AggregatedPublicKeys) : MD unit :=
  ensure_none origin;;
  stored ← reads NextDKGPublicKey;
  ensure (bool_decide (stored = None)) (Module AlreadySubmittedPublicKey);;
  next_best ← reads NextBestAuthorities;
  dict ← process_public_key_submissions keys_and_signatures next_best.*2;
  threshold ← reads NextSignatureThreshold;
  accepted ← accept_first threshold (λ key accounts,
    bounded_key ← ok_or (try_bound MaxKeyLength key) (Module OutOfBounds);
    set_id ← reads NextAuthoritySetId;
    store! NextDKGPublicKey := Some (set_id, bounded_key);;
    for_each accounts (λ authority,
      mutate! AuthorityReputations ::= λ m,
        <[authority := saturating_add 128 (default 0 (m !! authority))
                         REPUTATION_INCREMENT]> m);;
    deposit_event (NextPublicKeySubmitted key)) dict;
  if accepted : bool then
    bump_next_unsigned_at;;
    store! RefreshInProgress := false
  else throw (Module InvalidPublicKeys).

(** *** Refresh proposals *)

Definition decompress_public_key (compressed : bytes) : result MetadataError bytes :=
  result ← result_of (secp256k1_decompress compressed) InvalidPublicKeys;
  if (length result =? 65)%nat then mret (drop 1 result) else mret result.

Definition create_voter_set_data : MD VoterSetData :=
  voters ← reads NextAuthorities;
  root ← expect (get_voter_set_tree_root voters);
  let average_session_length_in_blocks := average_session_length in
  let average_millisecs_per_block := saturating_mul 64 MinimumPeriod 2 in
  mret {|
    voter_set_merkle_root := root;
    average_session_length_in_millisecs :=
      saturating_mul 64 average_session_length_in_blocks average_millisecs_per_block;
    vs_voter_count := wrap 32 (len voters) |}.

Definition create_refresh_proposal (pub_key : bytes) (nonce : Z) : MD Proposal :=
  uncompressed_pub_key ← lift_result Module (decompress_public_key pub_key);
  data ← create_voter_set_data;
  let proposal := {|
    voter_merkle_root := voter_set_merkle_root data;
    session_length := average_session_length_in_millisecs data;
    voter_count := vs_voter_count data;
    refresh_nonce_of := nonce;
    refresh_pub_key := uncompressed_pub_key |} in
  store! PendingRefreshProposal := Some proposal;;
  encoded ← lift_result Module (refresh_encode proposal);
  let bounded_proposal_data := default [] (try_bound MaxProposalLength encoded) in
  mret (Unsigned Refresh bounded_proposal_data).

Definition do_refresh (pub_key : bytes) : MD unit :=
  nonce ← reads RefreshNonce;
  let next_nonce := wrap 32 (nonce + 1) in
  created ← catch (create_refresh_proposal pub_key next_nonce);
  match created with
  | inr _ => mret tt
  | inl data =>
      handled ← catch (calls (handle_unsigned_proposal data));
      match handled with
      | inl _ => store! RefreshInProgress := true
      | inr _ => mret tt
      end
  end.

Definition should_refresh (s : Metadata) : bool :=
  bool_decide (is_Some (NextDKGPublicKey s)) && bool_decide (NextPublicKeySignature s = None).

(** *** Misbehaviour *)

(** The verifying keys: members whose encoding is not 33 bytes are dropped. *)
Definition verifying_keys (verifying_set : list DKGId) : list bytes :=
  filter (λ x, x ≠ replicate 33 0)
    ((λ x, default (replicate 33 0) (to_slice_33 (dkg_bytes x))) <$> verifying_set).

(** [reports.reporters[inx]] panics out of range, but only for valid signatures. *)
Fixpoint process_reports (reports : AggregatedMisbehaviourReports) (set : list DKGId)
    (inx : nat) (signatures : list bytes) (valid_reporters : list DKGId)
    : result MetadataError (list DKGId) :=
  match signatures with
  | [] => Ok valid_reporters
  | signature :: rest =>
      let signed_payload := misbehaviour_payload (misbehaviour_type reports)
        (report_session_id reports) (offender reports) in
      let '(_, success) :=
        verify_signer_from_set_ecdsa (verifying_keys set) signed_payload signature in
      if success : bool then
        match reporters reports !! inx with
        | Some r => process_reports reports set (S inx) rest
            (if decide (r ∈ valid_reporters) then valid_reporters else valid_reporters ++ [r])
        | None => Panics
        end
      else process_reports reports set (S inx) rest valid_reporters
  end.

Definition process_misbehaviour_reports (reports : AggregatedMisbehaviourReports)
    (verifying_set : list DKGId) : result MetadataError (list DKGId) :=
  process_reports reports verifying_set 0 (report_signatures reports) [].

(** The candidate with the highest reputation among those with an entry, else
    the first candidate. *)
Definition highest_reputation (s : Metadata) (candidates : list DKGId) : option DKGId :=
  let ordered := sort_by (λ a b, a.2 <=? b.2)
    (filter (λ e, e.1 ∈ candidates) (iter_reputations (AuthorityReputations s))) in
  match last ordered with
  | Some most_reputed => Some most_reputed.1
  | None => head candidates
  end.

(** Store the next best authorities, at least two of them. *)
Definition put_next_best (candidates : list DKGId) : MD unit :=
  keygen_threshold ← reads NextKeygenThreshold;
  best ← reads (λ s, get_best_authorities s keygen_threshold candidates);
  next_best_authorities ← ok_or (try_bound MaxAuthorities best) (Module OutOfBounds);
  ensure (2 <=? len next_best_authorities) (Module NotEnoughAuthoritiesToJail);;
  store! NextBestAuthorities := next_best_authorities.

(** Without a replacement the keygen threshold drops with the set. *)
Definition drop_keygen_threshold (unjailed : list DKGId) : MD unit :=
  keygen_threshold ← reads NextKeygenThreshold;
  when ((len unjailed <=? keygen_threshold) && (2 <? len unjailed)) (
    let new_val := if len unjailed - 1 <? 2 ^ 16 then len unjailed - 1 else 0 in
    update_next_keygen_threshold new_val;;
    update_pending_keygen_threshold new_val;;
    next_sig ← reads NextSignatureThreshold;
    next_keygen ← reads NextKeygenThreshold;
    when ((next_keygen <=? next_sig) && negb (next_sig =? 1)) (
      store! NextSignatureThreshold := wrap 16 (next_sig - 1);;
      store! PendingSignatureThreshold := wrap 16 (next_sig - 1))).

(** The keygen branch; [true] when it returns early. *)
Definition jail_keygen (now : Z) (offender : DKGId) (valid_reporters : list DKGId) : MD bool :=
  unjailed ← reads (λ s,
    filter (λ id, keygen_jailed s id = false) (NextBestAuthorities s).*2);
  let rest := filter (λ id, id ≠ offender) unjailed in
  if decide (offender ∈ unjailed) then
    mutate! JailedKeygenAuthorities ::= <[offender := now]>;;
    deposit_event (AuthorityJailed MisbehaviourKeygen offender);;
    spare ← reads (λ s, filter (λ id, keygen_jailed s id = false)
      (filter (λ id, id ∉ unjailed) (NextAuthorities s)));
    match spare with
    | _ :: _ =>
        replacement ← reads (λ s, highest_reputation s spare);
        r ← expect replacement;
        put_next_best (rest ++ [r]);;
        deposit_event (MisbehaviourReportsSubmitted MisbehaviourKeygen valid_reporters offender);;
        mret true
    | [] =>
        drop_keygen_threshold unjailed;;
        put_next_best rest;;
        mret false
    end
  else
    put_next_best rest;;
    mret false.

Definition jail_signing (now : Z) (offender : DKGId) (signature_threshold : Z) : MD unit :=
  unjailed ← reads (λ s, filter
    (λ id, JailedSigningAuthorities s !! id = None ∨ id ≠ offender) (BestAuthorities s).*2);
  if len unjailed <? signature_threshold then
    when (negb (bool_decide (unjailed = []))) (
      mutate! JailedSigningAuthorities ::= <[offender := now]>;;
      let new_val := if len unjailed - 1 <? 2 ^ 16 then len unjailed - 1 else 0 in
      update_next_signature_threshold new_val;;
      store! PendingSignatureThreshold := new_val)
  else
    mutate! JailedSigningAuthorities ::= <[offender := now]>;;
    deposit_event (AuthorityJailed MisbehaviourSign offender).

Definition submit_misbehaviour_reports (origin : Origin)
    (reports : AggregatedMisbehaviourReports) : MD unit :=
  ensure_none origin;;
  let offender := offender reports in
  in_keygen_jail ← reads (λ s, JailedKeygenAuthorities s !! offender);
  ensure (bool_decide (in_keygen_jail = None)) (Module AlreadyJailed);;
  in_signing_jail ← reads (λ s, JailedSigningAuthorities s !! offender);
  ensure (bool_decide (in_signing_jail = None)) (Module AlreadyJailed);;
  let ty := misbehaviour_type reports in
  authorities ← reads (match ty with
    | MisbehaviourKeygen => NextAuthorities
    | MisbehaviourSign => Authorities
    end);
  ensure (bool_decide (offender ∈ authorities)) (Module OffenderNotAuthority);;
  valid_reporters ← lift_result Module (process_misbehaviour_reports reports authorities);
  signature_threshold ← reads (match ty with
    | MisbehaviourKeygen => NextSignatureThreshold
    | MisbehaviourSign => SignatureThreshold
    end);
  if signature_threshold <? len valid_reporters then
    mutate! AuthorityReputations ::= (λ m,
      <[offender := decay_mul_floor (default 0 (m !! offender))]> m);;
    now ← observes block_number;
    early ← match ty with
      | MisbehaviourKeygen => jail_keygen now offender valid_reporters
      | MisbehaviourSign => jail_signing now offender signature_threshold;; mret false
      end;
    if early : bool then mret tt else
    deposit_event (MisbehaviourReportsSubmitted ty valid_reporters offender);;
    bump_next_unsigned_at
  else throw (Module InvalidMisbehaviourReports).

Definition unjail (origin : Origin) : MD unit :=
  who ← ensure_signed origin;
  mapped ← reads (λ s, AccountToAuthority s !! who);
  authority ← ok_or mapped (Module InvalidControllerAccount);
  now ← observes block_number;
  keygen_since ← reads (λ s, default 0 (JailedKeygenAuthorities s !! authority));
  when (saturating_add 32 keygen_since KeygenJailSentence <? now) (
    mutate! JailedKeygenAuthorities ::= delete authority);;
  signing_since ← reads (λ s, default 0 (JailedSigningAuthorities s !! authority));
  when (saturating_add 32 signing_since SigningJailSentence <? now) (
    mutate! JailedSigningAuthorities ::= delete authority).

Definition force_unjail_keygen (origin : Origin) (authority : DKGId) : MD unit :=
  ensure_root origin;;
  mutate! JailedKeygenAuthorities ::= delete authority;;
  deposit_event (AuthorityUnJailed authority).

Definition force_unjail_signing (origin : Origin) (authority : DKGId) : MD unit :=
  ensure_root origin;;
  mutate! JailedSigningAuthorities ::= delete authority;;
  deposit_event (AuthorityUnJailed authority).

(** *** Rotation *)

Definition store_consensus_log (authority_ids next_authority_ids : list DKGId)
    (active_set_id : Z) : MD unit :=
  deposit_log (AuthoritiesChange
    {| as_authorities := authority_ids; as_id := active_set_id |}
    {| as_authorities := next_authority_ids; as_id := saturating_add 64 active_set_id 1 |}).

Definition insert_historical_refresh (dkg_pub_key next_pub_key : Z * bytes)
    (next_pub_key_signature : bytes) : MD unit :=
  mutate! HistoricalRounds ::= <[next_pub_key.1 := {|
    curr_round_pub_key := dkg_pub_key.2;
    next_round_pub_key := next_pub_key.2;
    refresh_signature := next_pub_key_signature |}]>.

(** [try_push] whose failure is only logged. *)
Definition record_used_signature (signature : bytes) : MD unit :=
  mutate! UsedSignatures ::= (λ l, default l (try_push MaxSignatureLength l signature)).

(** The part of [change_authorities] that runs when there is a next key (and,
    unless forced, its signature). *)
Definition rotate_keys (new_authority_ids next_authority_ids : list DKGId)
    (new_authorities_accounts : list AccountId) (next_id : Z)
    (new_best_authorities : list (Z * DKGId))
    (new_current_signature_threshold new_current_keygen_threshold : Z)
    (dkg_pub_key : Z * bytes) (pub_key_signature : bytes)
    (next_pub_key : Z * bytes) (next_pub_key_signature : bytes) : MD unit :=
  store! SignatureThreshold := new_current_signature_threshold;;
  store! KeygenThreshold := new_current_keygen_threshold;;
  bounded_authority_ids ← expect (try_bound MaxAuthorities new_authority_ids);
  store! Authorities := bounded_authority_ids;;
  bounded_authority_accounts ← expect (try_bound MaxAuthorities new_authorities_accounts);
  store! CurrentAuthoritiesAccounts := bounded_authority_accounts;;
  store! BestAuthorities := new_best_authorities;;
  store! AuthoritySetId := next_id;;
  store_consensus_log bounded_authority_ids next_authority_ids next_id;;
  store! NextDKGPublicKey := None;;
  store! NextPublicKeySignature := None;;
  insert_historical_refresh dkg_pub_key next_pub_key next_pub_key_signature;;
  store! DKGPublicKey := Some next_pub_key;;
  store! DKGPublicKeySignature := next_pub_key_signature;;
  store! PreviousPublicKey := dkg_pub_key;;
  record_used_signature pub_key_signature;;
  mutate! RefreshNonce ::= (λ n, saturating_add 32 n 1);;
  deposit_event (PublicKeyChanged next_pub_key.2);;
  current ← reads CurrentRefreshProposal;
  match current with
  | Some curr =>
      deposit_event (PublicKeySignatureChanged curr next_pub_key_signature next_pub_key.2);;
      store! CurrentRefreshProposal := None
  | None => mret tt
  end.

(** Keep the next thresholds within the size of the next set. *)
Definition fit_next_thresholds (n : Z) : MD unit :=
  next_keygen ← reads NextKeygenThreshold;
  when (n <? next_keygen) (
    update_next_keygen_threshold (wrap 16 n);;
    store! PendingKeygenThreshold := wrap 16 n);;
  next_sig ← reads NextSignatureThreshold;
  when (n <=? next_sig) (
    update_next_signature_threshold (wrap 16 (wrap 16 n - 1));;
    store! PendingSignatureThreshold := wrap 16 (wrap 16 n - 1)).

Definition change_authorities (new_authority_ids next_authority_ids : list DKGId)
    (new_authorities_accounts next_authorities_accounts : list AccountId) (forced : bool)
    : MD unit :=
  calls (on_authority_set_changed new_authorities_accounts new_authority_ids);;
  store! RefreshInProgress := false;;
  new_current_signature_threshold ← reads NextSignatureThreshold;
  new_current_keygen_threshold ← reads NextKeygenThreshold;
  pending_signature ← reads PendingSignatureThreshold;
  update_next_signature_threshold pending_signature;;
  pending_keygen ← reads PendingKeygenThreshold;
  update_next_keygen_threshold pending_keygen;;
  next_id ← reads NextAuthoritySetId;
  bounded_next_authority_ids ← expect (try_bound MaxAuthorities next_authority_ids);
  store! NextAuthorities := bounded_next_authority_ids;;
  bounded_next_accounts ← expect (try_bound MaxAuthorities next_authorities_accounts);
  store! NextAuthoritiesAccounts := bounded_next_accounts;;
  store! NextAuthoritySetId := saturating_add 64 next_id 1;;
  new_best_authorities ← reads NextBestAuthorities;
  next_pub_key ← reads NextDKGPublicKey;
  next_pub_key_signature ← reads NextPublicKeySignature;
  dkg_pub_key ← reads dkg_public_key;
  pub_key_signature ← reads DKGPublicKeySignature;
  fit_next_thresholds (len next_authority_ids);;
  keygen_threshold ← reads NextKeygenThreshold;
  best ← reads (λ s, get_best_authorities s keygen_threshold next_authority_ids);
  bounded_authorities ← expect (try_bound MaxAuthorities best);
  store! NextBestAuthorities := bounded_authorities;;
  let signature := if forced : bool then Some [] else next_pub_key_signature in
  match next_pub_key, signature with
  | Some pk, Some sig =>
      rotate_keys new_authority_ids next_authority_ids new_authorities_accounts next_id
        new_best_authorities new_current_signature_threshold new_current_keygen_threshold
        dkg_pub_key pub_key_signature pk sig
  | _, _ => mret tt
  end.

Definition initialize_authorities (authorities : list DKGId)
    (authority_account_ids : list AccountId) : MD unit :=
  if bool_decide (authorities = []) then mret tt else
  current ← reads Authorities;
  assert_that (bool_decide (current = []));;
  bounded_authorities ← expect (try_bound MaxAuthorities authorities);
  store! Authorities := bounded_authorities;;
  store! AuthoritySetId := 0;;
  bounded_accounts ← expect (try_bound MaxAuthorities authority_account_ids);
  store! CurrentAuthoritiesAccounts := bounded_accounts;;
  store! NextAuthorities := bounded_authorities;;
  store! NextAuthoritySetId := 1;;
  store! NextAuthoritiesAccounts := bounded_accounts;;
  keygen_threshold ← reads KeygenThreshold;
  best_authorities ← reads (λ s, get_best_authorities s keygen_threshold authorities);
  bounded_best ← expect (try_bound MaxAuthorities best_authorities);
  store! BestAuthorities := bounded_best;;
  next_best_authorities ← reads (λ s, get_best_authorities s keygen_threshold authorities);
  bounded_next_best ← expect (try_bound MaxAuthorities next_best_authorities);
  store! NextBestAuthorities := bounded_next_best;;
  calls (on_authority_set_changed authority_account_ids authorities).

(** [OneSessionHandler]. *)
Definition on_genesis_session (validators : list (AccountId * DKGId)) : MD unit :=
  initialize_authorities validators.*2 validators.*1.

Definition register_accounts (validators : list (AccountId * DKGId)) : MD unit :=
  for_each validators (λ '(acc, k), mutate! AccountToAuthority ::= <[acc := k]>).

Definition on_new_session (validators queued_validators : list (AccountId * DKGId)) : MD unit :=
  register_accounts validators;;
  register_accounts queued_validators;;
  now ← observes block_number;
  store! LastSessionRotationBlock := now;;
  change_authorities validators.*2 queued_validators.*2 validators.*1 queued_validators.*1 false.

Definition on_disabled (i : Z) : MD unit := deposit_log (OnDisabled (wrap 32 i)).

Definition force_change_authorities (origin : Origin) : MD unit :=
  ensure_root origin;;
  next_authorities ← reads NextAuthorities;
  next_authority_accounts ← reads NextAuthoritiesAccounts;
  next_pub_key ← reads NextDKGPublicKey;
  store! PendingRefreshProposal := None;;
  store! CurrentRefreshProposal := None;;
  change_authorities next_authorities next_authorities
    next_authority_accounts next_authority_accounts true;;
  match next_pub_key with
  | Some pub_key =>
      store! ShouldSubmitProposerVote := true;;
      next_nonce ← reads RefreshNonce;
      data ← create_refresh_proposal pub_key.2 next_nonce;
      handled ← catch (calls (handle_unsigned_proposal data));
      match handled with
      | inl _ => store! RefreshInProgress := true;; store! RefreshNonce := next_nonce
      | inr _ => mret tt
      end
  | None => mret tt
  end.

Definition trigger_emergency_keygen (origin : Origin) : MD unit :=
  ensure_root origin;;
  store! NextDKGPublicKey := None;;
  store! NextPublicKeySignature := None;;
  deposit_event EmergencyKeygenTriggered;;
  store! ShouldExecuteNewKeygen := (true, true).

(** *** Signed refresh proposals *)

(** [OnSignedProposal::on_signed_proposal]. *)
Definition on_signed_proposal (proposal : Proposal) : MD unit :=
  ensure (is_signed proposal) (Module ProposalNotSigned);;
  if decide (proposal_kind proposal = Refresh) then
    stored ← reads NextDKGPublicKey;
    next ← ok_or stored (Module NoNextPublicKey);
    existing ← reads NextPublicKeySignature;
    ensure (bool_decide (existing = None)) (Module AlreadySubmittedSignature);;
    maybe_prop ← reads PendingRefreshProposal;
    ensure (bool_decide (maybe_prop ≠ None)) (Module NoRefreshProposal);;
    let curr := default refresh_default maybe_prop in
    encoded ← lift_result Module (refresh_encode curr);
    ensure (bool_decide (encoded = proposal_data proposal)) (Module InvalidRefreshProposal);;
    let signature := default [] (proposal_signature proposal) in
    bounded_signature ← ok_or (try_bound MaxSignatureLength signature) (Module InvalidSignature);
    used ← reads UsedSignatures;
    ensure (negb (bool_decide (bounded_signature ∈ used))) (Module UsedSignature);;
    store! NextPublicKeySignature := Some bounded_signature;;
    store! CurrentRefreshProposal := Some curr;;
    store! PendingRefreshProposal := None;;
    deposit_event (NextPublicKeySignatureSubmitted curr signature next.2)
  else mret tt.

(** *** Hooks *)

Definition on_initialize (n : Z) : MD unit :=
  flag ← reads ShouldExecuteNewKeygen;
  when flag.1 (store! ShouldExecuteNewKeygen := (false, false));;
  last_rotation ← reads LastSessionRotationBlock;
  let blocks_passed_since_last_session_rotation := wrap 32 (n - last_rotation) in
  when ((SessionPeriod <=? blocks_passed_since_last_session_rotation) &&
        (blocks_passed_since_last_session_rotation mod
           BLOCKS_TO_WAIT_BEFORE_KEYGEN_RETRY_TRIGGER =? 0))
    (store! ShouldExecuteNewKeygen := (true, false));;
  refresh ← reads should_refresh;
  in_progress ← reads RefreshInProgress;
  if refresh && negb in_progress then
    next ← reads NextDKGPublicKey;
    match next with
    | Some pub_key => do_refresh pub_key.2
    | None => mret tt
    end
  else mret tt.

(** *** Calls *)

Inductive MetadataCall :=
| SetSignatureThreshold (new_threshold : Z)
| SetKeygenThreshold (new_threshold : Z)
| SubmitPublicKey (keys_and_signatures : AggregatedPublicKeys)
| SubmitNextPublicKey (keys_and_signatures : AggregatedPublicKeys)
| SubmitMisbehaviourReports (reports : AggregatedMisbehaviourReports)
| Unjail
| ForceUnjailKeygen (authority : DKGId)
| ForceUnjailSigning (authority : DKGId)
| ForceChangeAuthorities
| TriggerEmergencyKeygen.

Definition metadata_call (origin : Origin) (c : MetadataCall) : MD unit :=
  dispatch match c with
  | SetSignatureThreshold n => set_signature_threshold origin n
  | SetKeygenThreshold n => set_keygen_threshold origin n
  | SubmitPublicKey ks => submit_public_key origin ks
  | SubmitNextPublicKey ks => submit_next_public_key origin ks
  | SubmitMisbehaviourReports r => submit_misbehaviour_reports origin r
  | Unjail => unjail origin
  | ForceUnjailKeygen a => force_unjail_keygen origin a
  | ForceUnjailSigning a => force_unjail_signing origin a
  | ForceChangeAuthorities => force_change_authorities origin
  | TriggerEmergencyKeygen => trigger_emergency_keygen origin
  end.

Inductive InvalidTransaction := InvalidCall | Stale.

Definition validate_unsigned (source : TransactionSource) (call : MetadataCall)
    : MD (ValidTransaction + InvalidTransaction) :=
  match source with
  | External => mret (inr InvalidCall)
  | Local | InBlock =>
      current_block ← observes block_number;
      next_unsigned_at ← reads NextUnsignedAt;
      if current_block <? next_unsigned_at then mret (inr Stale) else
      match call with
      | SubmitPublicKey _ | SubmitNextPublicKey _ | SubmitMisbehaviourReports _ =>
          mret (inl {| priority := MetadataUnsignedPriority; longevity := 5;
                       provides := current_block; propagate := true |})
      | _ => mret (inr InvalidCall)
      end
  end.

Definition authority_set (s : Metadata) : AuthoritySet :=
  {| as_authorities := Authorities s; as_id := AuthoritySetId s |}.

Definition next_authority_set (s : Metadata) : AuthoritySet :=
  {| as_authorities := NextAuthorities s; as_id := NextAuthoritySetId s |}.

Definition is_member (s : Metadata) (authority_id : DKGId) : bool :=
  existsb (λ id, bool_decide (id = authority_id)) (Authorities s).
End pallet.
End Dkg.

(** [GetDKGPublicKey] for the pallet. *)
#[export] Instance metadata_dkg_key : GetDKGPublicKey Metadata := {|
  dkg_key s := (Dkg.dkg_public_key s).2;
  previous_dkg_key s := (PreviousPublicKey s).2 |}.
