(* ===== verification/MetadataQuorum.v ===== *)
(** * Who can set a DKG public key, and who takes part in key generation

    The two public key submissions of pallet-dkg-metadata only accept a key that a
    threshold of distinct authorities signed; the ranking of authorities picks the
    right ones. *)

From S2P Require Import Prelude.
From S2P Require Import Frame.
From S2P Require Import Primitives.
From S2P Require Import Merkle.
From S2P Require Import Traits.
From S2P Require Import Metadata.
Import Dkg.

(** ** Dictionaries *)

Lemma bytes_compare_eq a b : bytes_compare a b = Eq → a = b.
Proof.
  revert b. induction a as [|x a IH]; intros [|y b]; simpl; try done.
  destruct (Z.compare_spec x y); try done. intros. f_equal; auto.
Qed.

Lemma dict_add_cases k a d k' v :
  (k', v) ∈ dict_add k a d →
  (k', v) ∈ d ∨
  k' = k ∧ (v = [a] ∨ ∃ v0, (k, v0) ∈ d ∧ v = if decide (a ∈ v0) then v0 else v0 ++ [a]).
Proof.
  induction d as [|[k0 v0] d IH]; simpl.
  - intros [[= -> ->]|[]%not_elem_of_nil]%elem_of_cons. auto.
  - destruct (bytes_compare k k0) eqn:Hc.
    + apply bytes_compare_eq in Hc as <-. intros [[= -> ->]|Hin]%elem_of_cons.
      * right. split; [done|]. right. exists v0. split; [set_solver|done].
      * left. set_solver.
    + intros [[= -> ->]|Hin]%elem_of_cons; auto.
    + intros [[= -> ->]|Hin]%elem_of_cons; [left; set_solver|].
      apply IH in Hin as [?|(-> & [->|(v1 & ? & ->)])].
      * left. set_solver.
      * auto.
      * right. split; [done|]. right. exists v1. split; [set_solver|done].
Qed.

Section quorum.
Context `{MetadataConfig, WebbProposals, Crypto, MerkleLeaf} {W F : Type}.
Context `{System W, OnAuthoritySetChangeHandler W F, ProposalHandlerTrait W F}.
Implicit Types (s t : Metadata) (w : W).

Abbreviation MD A := (M (Metadata * W) (DispatchError MetadataError F) A).

(** Authority [a] signed [key] in this submission. *)
Definition supports (ks : AggregatedPublicKeys) (key : bytes) (a : DKGId) : Prop :=
  ∃ sig k, (key, sig) ∈ ks ∧ recover_ecdsa_pub_key key sig = Some k ∧
           drop 1 (dkg_bytes a) = take 32 k.

(** Distinct members of [set] that all signed [key]. *)
Definition backed_by (ks : AggregatedPublicKeys) (set : list DKGId) (key : bytes)
    (voters : list DKGId) : Prop :=
  NoDup voters ∧ ∀ a, a ∈ voters → a ∈ set ∧ supports ks key a.

Lemma dict_add_backed ks set k a d :
  (∀ k' v, (k', v) ∈ d → backed_by ks set k' v) → a ∈ set → supports ks k a →
  ∀ k' v, (k', v) ∈ dict_add k a d → backed_by ks set k' v.
Proof.
  intros Hd Ha Hs k' v Hin. apply dict_add_cases in Hin as [?|(-> & [->|(v0 & Hv0 & ->)])]; [auto|..].
  - split; [apply NoDup_singleton|]. intros a' Ha'%list_elem_of_singleton. by subst.
  - apply Hd in Hv0 as [Hnd Hall]. case_decide; [done|]. split.
    + apply NoDup_app. split; [done|]. split; [set_solver|apply NoDup_singleton].
    + intros a' [?|Ha'%list_elem_of_singleton]%elem_of_app; [|subst]; auto.
Qed.

Lemma ecdsa_keys_Some set l : ecdsa_keys set = Some l → l = dkg_bytes <$> set.
Proof.
  unfold ecdsa_keys. intros Hm%mapM_Some. induction Hm as [|x y set l Hx _ IH]; [done|].
  simpl. f_equal; [|done]. unfold to_slice_33 in Hx. by case_match; simplify_eq.
Qed.

Lemma process_public_keys_wp pan ks0 set ks d p :
  (∀ e, e ∈ ks → e ∈ ks0) → (∀ k v, (k, v) ∈ d → backed_by ks0 set k v) →
  (is_Some (ecdsa_keys set) ∨ pan) →
  wp pan (process_public_keys set ks d : MD _) p
    (λ d' q, q = p ∧ ∀ k v, (k, v) ∈ d' → backed_by ks0 set k v)
    (λ e q, e = Module CannotRetreiveSigner ∧ q = p).
Proof.
  intros Hks Hd Hpan. revert d Hd. induction ks as [|[key sig] ks IH]; intros d Hd; simpl.
  { by apply wp_ret. }
  apply wp_bind, wp_expect; [|intros Hn; rewrite Hn in Hpan; destruct Hpan as [[? ?]|?]; done].
  intros l Hl%ecdsa_keys_Some. subst l.
  destruct (verify_signer_from_set_ecdsa _ key sig) as [o b] eqn:Hv.
  apply verify_signer_cases in Hv as [_ Ho].
  apply wp_bind, wp_ok_or; [intros x ->|done]. apply IH; [set_solver|].
  destruct Ho as (-> & Hin & k & Hr & Hk). apply list_elem_of_fmap in Hin as (a & -> & Ha).
  destruct a as [ab]. apply dict_add_backed; [done|done|].
  exists sig, k. split_and!; [apply Hks; set_solver|done..].
Qed.

Lemma accept_first_Ret threshold accept d p b q :
  (accept_first threshold accept d : MD bool) p = Ret b q →
  if b then ∃ key voters u, (key, voters) ∈ d ∧ threshold <= len voters ∧
              accept key voters p = Ret u q
  else q = p ∧ ∀ key voters, (key, voters) ∈ d → len voters < threshold.
Proof.
  induction d as [|[key voters] d IH]; simpl.
  { intros [-> ->]%ret_Ret. split; [done|]. by intros ? ? ?%not_elem_of_nil. }
  destruct (Z.leb_spec threshold (len voters)).
  - intros (u & r & Ha & Hr)%bind_Ret. apply ret_Ret in Hr as [-> ->].
    exists key, voters, u. split_and!; [set_solver|done..].
  - intros Hb. apply IH in Hb. destruct b.
    + destruct Hb as (k' & v' & u & Hin & Ht & Ha). exists k', v', u. split; [set_solver|done].
    + destruct Hb as [-> Hall]. split; [done|].
      intros k' v' [[= -> ->]|Hin]%elem_of_cons; eauto.
Qed.

(** Reputation updates touch nothing else. *)
Definition same_but_reputations (s t : Metadata) : Prop :=
  t = s <| AuthorityReputations := AuthorityReputations t |>.

Lemma reputation_loop_Ret (g : gmap DKGId Z → DKGId → Z) l s w u q :
  (for_each l (λ a, mutate! AuthorityReputations ::= λ m, <[a := g m a]> m) : MD unit) (s, w)
    = Ret u q → q.2 = w ∧ same_but_reputations s q.1.
Proof.
  revert s. induction l as [|a l IH]; intros s; simpl.
  - intros [_ ->]%ret_Ret. split; [done|]. by destruct s.
  - intros (u' & r & Hw & Hr)%bind_Ret. apply writes_Ret in Hw. subst r. simpl in Hr.
    apply IH in Hr as [? Hs]. split; [done|]. unfold same_but_reputations in *.
    destruct s, (q.1); simpl in *. by simplify_eq.
Qed.

Lemma process_public_keys_Ret ks set p d q :
  (process_public_keys set ks [] : MD _) p = Ret d q →
  q = p ∧ ∀ k v, (k, v) ∈ d → backed_by ks set k v.
Proof.
  intros Hr. pose proof (process_public_keys_wp True ks set ks [] p) as Hw.
  unfold wp in Hw. rewrite Hr in Hw. apply Hw; [done|by intros ? ? ?%not_elem_of_nil|by right].
Qed.

(** What both submissions do between the checks and the bookkeeping. *)
Lemma quorum_Ret ks set p d q threshold (accept : bytes → list DKGId → MD unit) r :
  (process_public_keys set ks [] : MD _) p = Ret d q →
  accept_first threshold accept d q = Ret true r →
  q = p ∧ ∃ key voters u, backed_by ks set key voters ∧ threshold <= len voters ∧
    accept key voters p = Ret u r.
Proof.
  intros [-> Hd]%process_public_keys_Ret (key & voters & u & Hin & Ht & Ha)%accept_first_Ret.
  split; [done|]. exists key, voters, u. auto.
Qed.

(** What storing a genesis key establishes. *)
Lemma submit_public_key_Ret origin ks s w u t w' :
  (submit_public_key origin ks : MD unit) (s, w) = Ret u (t, w') →
  origin = NoOrigin ∧ w' = w ∧ DKGPublicKey s = None ∧
  ∃ key voters, backed_by ks (BestAuthorities s).*2 key voters ∧
    SignatureThreshold s <= len voters ∧
    DKGPublicKey t = Some (AuthoritySetId s, key) ∧
    NextDKGPublicKey t = NextDKGPublicKey s ∧
    BestAuthorities t = BestAuthorities s ∧ Authorities t = Authorities s ∧
    NextUnsignedAt t = wrap 32 (block_number w + UnsignedInterval).
Proof.
  intros Hr. unfold submit_public_key, process_public_key_submissions, bump_next_unsigned_at in Hr.
  dinv Hr. apply bool_decide_eq_true in Hr0. destruct a2; [|by dinv Hr].
  assert (u0 = (s, w)) as -> by (by eapply process_public_keys_Ret).
  eapply quorum_Ret in Hr2 as (_ & key & voters & u2 & Hb & Ht & Ha); [|done].
  unfold deposit_event in Ha. dinv Ha.
  match goal with E : try_bound _ _ = Some _ |- _ => apply try_bound_Some in E as [-> _] end.
  apply (reputation_loop_Ret (λ m a, saturating_add 128 (decay_mul_floor (default 0 (m !! a)))
    INITIAL_REPUTATION)) in Ha as [Hw Hs].
  dinv Hr. simplify_eq/=. rewrite Hs. split_and!; try done.
  exists key, voters. split_and!; try done.
Qed.

(** The genesis key is only stored when no key is stored yet and at least the
    signature threshold of distinct best authorities signed exactly that key; it is
    stored for the current set and nothing but reputations, the event log and the
    unsigned cool-down changes besides. *)
Theorem submit_public_key_quorum origin ks s w u t w' :
  (submit_public_key origin ks : MD unit) (s, w) = Ret u (t, w') →
  origin = NoOrigin ∧ w' = w ∧ DKGPublicKey s = None ∧
  ∃ key voters, backed_by ks (BestAuthorities s).*2 key voters ∧
    SignatureThreshold s <= len voters ∧
    DKGPublicKey t = Some (AuthoritySetId s, key) ∧
    NextDKGPublicKey t = NextDKGPublicKey s ∧
    BestAuthorities t = BestAuthorities s ∧ Authorities t = Authorities s ∧
    NextUnsignedAt t = wrap 32 (block_number w + UnsignedInterval).
Proof. apply submit_public_key_Ret. Qed.

(** What storing a next key establishes. *)
Lemma submit_next_public_key_Ret origin ks s w u t w' :
  (submit_next_public_key origin ks : MD unit) (s, w) = Ret u (t, w') →
  origin = NoOrigin ∧ w' = w ∧ NextDKGPublicKey s = None ∧
  ∃ key voters, backed_by ks (NextBestAuthorities s).*2 key voters ∧
    NextSignatureThreshold s <= len voters ∧
    NextDKGPublicKey t = Some (NextAuthoritySetId s, key) ∧ DKGPublicKey t = DKGPublicKey s ∧
    RefreshInProgress t = false ∧ NextBestAuthorities t = NextBestAuthorities s ∧
    NextUnsignedAt t = wrap 32 (block_number w + UnsignedInterval).
Proof.
  intros Hr. unfold submit_next_public_key, process_public_key_submissions,
    bump_next_unsigned_at in Hr.
  dinv Hr. apply bool_decide_eq_true in Hr0. destruct a2; [|by dinv Hr].
  assert (u0 = (s, w)) as -> by (by eapply process_public_keys_Ret).
  eapply quorum_Ret in Hr2 as (_ & key & voters & u2 & Hb & Ht & Ha); [|done].
  unfold deposit_event in Ha. dinv Ha.
  match goal with E : try_bound _ _ = Some _ |- _ => apply try_bound_Some in E as [-> _] end.
  match goal with E : for_each _ _ _ = Ret _ _ |- _ =>
    apply (reputation_loop_Ret (λ m a, saturating_add 128 (default 0 (m !! a))
      REPUTATION_INCREMENT)) in E as [Hw Hs] end.
  dinv Hr. simplify_eq/=. rewrite Hs. split_and!; try done.
  exists key, voters. split_and!; try done.
Qed.

(** The next key is only stored when none is waiting and at least the next
    signature threshold of distinct next best authorities signed exactly that key;
    it is stored for the next set and a new refresh may start. *)
Theorem submit_next_public_key_quorum origin ks s w u t w' :
  (submit_next_public_key origin ks : MD unit) (s, w) = Ret u (t, w') →
  origin = NoOrigin ∧ w' = w ∧ NextDKGPublicKey s = None ∧
  ∃ key voters, backed_by ks (NextBestAuthorities s).*2 key voters ∧
    NextSignatureThreshold s <= len voters ∧
    NextDKGPublicKey t = Some (NextAuthoritySetId s, key) ∧ DKGPublicKey t = DKGPublicKey s ∧
    RefreshInProgress t = false ∧ NextBestAuthorities t = NextBestAuthorities s ∧
    NextUnsignedAt t = wrap 32 (block_number w + UnsignedInterval).
Proof. apply submit_next_public_key_Ret. Qed.
End quorum.

(** ** The best authorities *)

Lemma number_authorities_ids l : (number_authorities l).*2 = l.
Proof.
  unfold number_authorities. apply list_eq. intros i.
  rewrite list_lookup_fmap, list_lookup_imap. by destruct (l !! i).
Qed.

Lemma number_authorities_numbers l :
  len l < 2 ^ 16 → (number_authorities l).*1 = seqZ 1 (len l).
Proof.
  intros Hl. unfold number_authorities. apply list_eq. intros i.
  rewrite list_lookup_fmap, list_lookup_imap. destruct (l !! i) as [x|] eqn:Hi; simpl.
  - apply lookup_lt_Some in Hi. symmetry. apply lookup_seqZ.
    rewrite wrap_small by (unfold in_width; lia). lia.
  - apply lookup_ge_None in Hi. symmetry. apply lookup_seqZ_ge. lia.
Qed.

Section ranking.
Implicit Types (s : Metadata) (l : list DKGId).

Definition by_reputation (a b : Z * DKGId) : bool := b.1 <=? a.1.

(** The authorities of [l], best first. *)
Definition ranked s l : list DKGId :=
  (sort_by by_reputation ((λ id, (reputation_of s id, id)) <$> l)).*2.

Lemma ranked_perm s l : ranked s l ≡ₚ l.
Proof.
  unfold ranked. rewrite sort_by_perm, <- list_fmap_compose. simpl. by rewrite list_fmap_id.
Qed.

Lemma ranked_sorted s l : StronglySorted (λ a b, reputation_of s b <= reputation_of s a) (ranked s l).
Proof.
  unfold ranked.
  pose proof (sort_by_sorted by_reputation) as Hs.
  assert (StronglySorted by_reputation
    (sort_by by_reputation ((λ id, (reputation_of s id, id)) <$> l))) as Hs'.
  { apply Hs; unfold by_reputation; intros; rewrite ?Z.leb_le in *; lia. }
  assert (Forall (λ e, e.1 = reputation_of s e.2)
    (sort_by by_reputation ((λ id, (reputation_of s id, id)) <$> l))) as Hf.
  { rewrite sort_by_perm. apply Forall_fmap, Forall_true. done. }
  clear Hs. induction Hs' as [|e es Hs' IH He]; simpl; [constructor|].
  apply Forall_cons in Hf as [He1 Hf]. constructor; [by apply IH|].
  apply Forall_fmap. rewrite Forall_forall in He, Hf |- *. intros e' Hin.
  specialize (He _ Hin). specialize (Hf _ Hin). simpl in *.
  unfold by_reputation in He. apply Is_true_eq_true, Z.leb_le in He. lia.
Qed.

Lemma by_reputation_ranked s count l :
  get_best_authorities_by_reputation s count l =
  number_authorities (take (Z.to_nat count) (ranked s l)).
Proof. unfold get_best_authorities_by_reputation, ranked. by rewrite fmap_take. Qed.

Lemma by_reputation_ids s count l :
  (get_best_authorities_by_reputation s count l).*2 = take (Z.to_nat count) (ranked s l).
Proof. by rewrite by_reputation_ranked, number_authorities_ids. Qed.

Definition unjailed s l := filter (λ id, keygen_jailed s id = false) l.
Definition jailed s l := filter (λ id, keygen_jailed s id = true) l.

(** The pool from which the best are taken. *)
Definition pool s (count : Z) l : list DKGId :=
  unjailed s l ++ take (Z.to_nat (count - len (unjailed s l))) (ranked s (jailed s l)).

Lemma get_best_authorities_pool s count l :
  get_best_authorities s count l = get_best_authorities_by_reputation s count (pool s count l).
Proof.
  unfold get_best_authorities, pool. fold (unjailed s l) (jailed s l).
  destruct (Z.ltb_spec (len (unjailed s l)) count); [by rewrite by_reputation_ids|].
  replace (Z.to_nat (count - len (unjailed s l))) with 0%nat by lia.
  by rewrite take_0, app_nil_r.
Qed.

Lemma jail_partition s l : unjailed s l ++ jailed s l ≡ₚ l.
Proof.
  unfold unjailed, jailed. induction l as [|x l IH]; [done|].
  destruct (keygen_jailed s x) eqn:Hx.
  - rewrite filter_cons_False, filter_cons_True by congruence.
    by rewrite <- Permutation_middle, IH.
  - rewrite filter_cons_True, filter_cons_False by congruence. simpl. by rewrite IH.
Qed.

Lemma pool_submseteq s count l : pool s count l ⊆+ l.
Proof.
  rewrite <- (jail_partition s l) at 2. unfold pool. apply submseteq_skips_l.
  rewrite <- (ranked_perm s (jailed s l)) at 2. apply submseteq_take.
Qed.

Lemma pool_length s count l :
  0 <= count → Z.min count (len l) <= len (pool s count l).
Proof.
  intros Hc. pose proof (Permutation_length (jail_partition s l)) as Hp.
  pose proof (Permutation_length (ranked_perm s (jailed s l))) as Hr.
  rewrite length_app in Hp. unfold pool. rewrite length_app, length_take. lia.
Qed.

Lemma best_authorities_facts s count l :
  let best := (get_best_authorities s count l).*2 in
  best ⊆+ l ∧ (0 <= count → len best = Z.min count (len l)).
Proof.
  simpl. rewrite get_best_authorities_pool, by_reputation_ids. split.
  - etrans; [apply submseteq_take|]. rewrite ranked_perm. apply pool_submseteq.
  - intros Hc. pose proof (pool_length s count l Hc) as Hl.
    pose proof (submseteq_length _ _ (pool_submseteq s count l)).
    pose proof (Permutation_length (ranked_perm s (pool s count l))).
    rewrite length_take. lia.
Qed.

Lemma best_authorities_length s count l :
  0 <= count → len (get_best_authorities s count l) = Z.min count (len l).
Proof.
  intros Hc. destruct (best_authorities_facts s count l) as [_ Hl]. rewrite <- Hl by done.
  by rewrite length_fmap.
Qed.

Lemma best_authorities_subset s count l a :
  a ∈ (get_best_authorities s count l).*2 → a ∈ l.
Proof.
  intros Ha. destruct (best_authorities_facts s count l) as [Hs _].
  by eapply elem_of_submseteq.
Qed.

(** A chosen jailed authority means that all unjailed ones are chosen. *)
Lemma best_authorities_jailed s count l a b :
  0 <= count → a ∈ (get_best_authorities s count l).*2 → keygen_jailed s a = true →
  b ∈ l → keygen_jailed s b = false → b ∈ (get_best_authorities s count l).*2.
Proof.
  intros Hc Ha Hja Hb Hjb. rewrite get_best_authorities_pool, by_reputation_ids in *.
  assert (len (unjailed s l) < count) as Hlt.
  { destruct (Z.lt_ge_cases (len (unjailed s l)) count) as [|Hge]; [done|exfalso].
    assert (a ∈ pool s count l) as Hp.
    { rewrite <- (ranked_perm s (pool s count l)). by eapply elem_of_submseteq, submseteq_take. }
    unfold pool in Hp. replace (Z.to_nat (count - len (unjailed s l))) with 0%nat in Hp by lia.
    rewrite take_0, app_nil_r in Hp. apply list_elem_of_filter in Hp as [? _]. congruence. }
  rewrite take_ge.
  - rewrite ranked_perm. unfold pool. apply elem_of_app. left. by apply list_elem_of_filter.
  - rewrite (Permutation_length (ranked_perm s _)). unfold pool.
    rewrite length_app, length_take. lia.
Qed.

(** Among authorities of the same jail status the chosen ones rank at least as
    high as the others. *)
Lemma best_authorities_top s count l a b :
  NoDup l → a ∈ (get_best_authorities s count l).*2 → b ∈ l →
  b ∉ (get_best_authorities s count l).*2 → keygen_jailed s a = keygen_jailed s b →
  reputation_of s b <= reputation_of s a.
Proof.
  intros Hnd Ha Hb Hnb Hj. rewrite get_best_authorities_pool, by_reputation_ids in *.
  set (n := Z.to_nat count) in *.
  assert (a ∈ pool s count l) as Hpa.
  { rewrite <- (ranked_perm s (pool s count l)). by eapply elem_of_submseteq, submseteq_take. }
  destruct (decide (b ∈ pool s count l)) as [Hpb|Hpb].
  - assert (b ∈ drop n (ranked s (pool s count l))) as Hd.
    { rewrite <- (ranked_perm s (pool s count l)), <- (take_drop n (ranked _ _)) in Hpb.
      by apply elem_of_app in Hpb as [?|?]. }
    pose proof (ranked_sorted s (pool s count l)) as Hs.
    rewrite <- (take_drop n (ranked _ _)) in Hs.
    exact (StronglySorted_app_1_elem_of _ _ _ _ _ Hs Ha Hd).
  - (* [b] was cut from the jailed ones, so [a] is a jailed one that was kept *)
    assert (keygen_jailed s b = true) as Hjb.
    { destruct (keygen_jailed s b) eqn:E; [done|]. destruct Hpb. unfold pool.
      apply elem_of_app. left. by apply list_elem_of_filter. }
    unfold pool in Hpa, Hpb. set (m := Z.to_nat (count - _)) in *.
    apply elem_of_app in Hpa as [[Hja _]%list_elem_of_filter|Hka]; [congruence|].
    assert (b ∈ drop m (ranked s (jailed s l))) as Hkb.
    { assert (b ∈ ranked s (jailed s l)) as Hr.
      { rewrite ranked_perm. by apply list_elem_of_filter. }
      rewrite <- (take_drop m (ranked _ _)) in Hr.
      apply elem_of_app in Hr as [?|?]; [|done]. destruct Hpb. apply elem_of_app. by right. }
    pose proof (ranked_sorted s (jailed s l)) as Hs.
    rewrite <- (take_drop m (ranked _ _)) in Hs.
    exact (StronglySorted_app_1_elem_of _ _ _ _ _ Hs Hka Hkb).
Qed.

(** C22: [get_best_authorities] returns [min(count, n)] distinct authorities of the
    given ones, numbered from 1 in order of decreasing reputation; jailed ones are
    only used when the unjailed ones do not suffice, and within each of the two
    groups nobody who is left out has a higher reputation than one who is in. *)
Theorem get_best_authorities_spec s count l :
  0 <= count → NoDup l → len l < 2 ^ 16 →
  let best := get_best_authorities s count l in
  best.*1 = seqZ 1 (Z.min count (len l)) ∧ NoDup best.*2 ∧ best.*2 ⊆ l ∧
  StronglySorted (λ a b, reputation_of s b <= reputation_of s a) best.*2 ∧
  (∀ a b, a ∈ best.*2 → keygen_jailed s a = true → b ∈ l → keygen_jailed s b = false →
     b ∈ best.*2) ∧
  (∀ a b, a ∈ best.*2 → b ∈ l → b ∉ best.*2 → keygen_jailed s a = keygen_jailed s b →
     reputation_of s b <= reputation_of s a).
Proof.
  intros Hc Hnd Hl best. destruct (best_authorities_facts s count l) as [Hsub Hlen].
  fold best in Hsub, Hlen. split_and!.
  - rewrite <- Hlen by done. subst best.
    rewrite get_best_authorities_pool, by_reputation_ranked, number_authorities_ids.
    apply number_authorities_numbers.
    rewrite <- by_reputation_ids, <- get_best_authorities_pool, Hlen by done. lia.
  - destruct (submseteq_Permutation _ _ Hsub) as [k Hk]. rewrite Hk in Hnd.
    by apply NoDup_app in Hnd as [? _].
  - intros a Ha. by eapply elem_of_submseteq.
  - subst best. rewrite get_best_authorities_pool, by_reputation_ids.
    pose proof (ranked_sorted s (pool s count l)) as Hs.
    rewrite <- (take_drop (Z.to_nat count) (ranked _ _)) in Hs.
    by eapply StronglySorted_app_1_l.
  - intros a b. by apply best_authorities_jailed.
  - intros a b. by apply best_authorities_top.
Qed.
End ranking.
