(* ===== verification/MetadataSpec.v ===== *)
(** * Thresholds, misbehaviour and refresh proposals of pallet-dkg-metadata *)

From S2P Require Import Prelude.
From S2P Require Import Frame.
From S2P Require Import Primitives.
From S2P Require Import Merkle.
From S2P Require Import Traits.
From S2P Require Import Metadata.
From S2P Require Import MetadataQuorum.
Import Dkg.

Section thresholds.
Context `{MetadataConfig, WebbProposals, Crypto, MerkleLeaf} {W F : Type}.
Context `{System W, OnAuthoritySetChangeHandler W F, ProposalHandlerTrait W F}.
Implicit Types (s t : Metadata) (w : W).

Abbreviation MD A := (M (Metadata * W) (DispatchError MetadataError F) A).

(** The pending thresholds describe a t-of-n scheme with t < n. *)
Definition pending_ok (s : Metadata) : Prop :=
  PendingSignatureThreshold s < PendingKeygenThreshold s.

(** A new keygen threshold is set by the root origin only, is at least two and
    at most the number of next authorities, and the pending signature threshold
    ends up below it, lowered only if it has to be. *)
Theorem set_keygen_threshold_valid origin n s w u t w' :
  (set_keygen_threshold origin n : MD unit) (s, w) = Ret u (t, w') →
  origin = Root ∧ w' = w ∧ PendingKeygenThreshold t = n ∧
  2 <= n <= len (NextAuthorities t) ∧ pending_ok t ∧
  PendingSignatureThreshold t = Z.min (PendingSignatureThreshold s) (n - 1).
Proof.
  intros Hr. unfold set_keygen_threshold, update_keygen_threshold, update_signature_threshold,
    deposit_event in Hr. dinv Hr.
  apply Z.ltb_lt in Hr0. apply Z.leb_le in Hr1. unfold pending_ok.
  destruct (Z.leb_spec n (PendingSignatureThreshold s)); unfold when in Hr2; dinv Hr2;
    simplify_eq/=; simp_get; unfold saturating_sub; split_and!; try done; lia.
Qed.

(** The signature threshold is only checked against the number of next
    authorities and not against the keygen threshold: the root origin can set a
    pending signature threshold that no key of the pending size can meet. *)
Theorem set_signature_threshold_unchecked n s w :
  0 < n < len (NextAuthorities s) → PendingKeygenThreshold s <= n →
  ∃ t, (set_signature_threshold Root n : MD unit) (s, w) = Ret tt (t, w) ∧
    PendingSignatureThreshold t = n ∧ ¬ pending_ok t.
Proof.
  intros Hn Hk. unfold set_signature_threshold, deposit_event, ensure_root. mrun.
  destruct (Z.ltb_spec 0 n); [|lia]. mrun.
  destruct (Z.ltb_spec n (len (NextAuthorities s))); [|lia]. mrun.
  eexists. split; [reflexivity|]. unfold pending_ok. cbn [fst snd]. simp_get. split; [done|lia].
Qed.

(** *** Jails *)

(** An authority leaves a jail through [unjail] exactly when its sentence in
    that jail is over, on the call of the account mapped to it; no other
    authority's jail entry changes. *)
Theorem unjail_after_sentence origin s w u t w' :
  (unjail origin : MD unit) (s, w) = Ret u (t, w') →
  ∃ who a, origin = SignedBy who ∧ AccountToAuthority s !! who = Some a ∧ w' = w ∧
    JailedKeygenAuthorities t =
      (if saturating_add 32 (default 0 (JailedKeygenAuthorities s !! a)) KeygenJailSentence
            <? block_number w
       then delete a (JailedKeygenAuthorities s) else JailedKeygenAuthorities s) ∧
    JailedSigningAuthorities t =
      (if saturating_add 32 (default 0 (JailedSigningAuthorities s !! a)) SigningJailSentence
            <? block_number w
       then delete a (JailedSigningAuthorities s) else JailedSigningAuthorities s) ∧
    DKGPublicKey t = DKGPublicKey s ∧ NextBestAuthorities t = NextBestAuthorities s.
Proof.
  intros Hr. unfold unjail in Hr. dinv Hr. eexists _, _. split; [done|]. split; [done|].
  unfold when in *.
  destruct (saturating_add 32 (default 0 (JailedKeygenAuthorities s !! _)) _ <? _);
    dinv Hr1; cbn [fst snd] in *; simp_get_in Hr;
    destruct (saturating_add 32 (default 0 (JailedSigningAuthorities s !! _)) _ <? _);
    dinv Hr; simplify_eq/=; simp_get; done.
Qed.

(** *** Misbehaviour reports *)

(** Reports are counted by the reporters they name and not by who signed them:
    one valid signature of any member of the set, repeated next to a list of
    distinct names, counts as that many reporters. *)
Theorem one_signer_counts_as_many reports set sig names :
  report_signatures reports = replicate (length names) sig → reporters reports = names →
  NoDup names →
  (verify_signer_from_set_ecdsa (verifying_keys set)
     (misbehaviour_payload (misbehaviour_type reports) (report_session_id reports)
        (offender reports)) sig).2 = true →
  process_misbehaviour_reports reports set = Ok names.
Proof.
  intros Hs Hn Hnd Hv. unfold process_misbehaviour_reports. rewrite Hs.
  assert (∀ done todo, names = done ++ todo →
    process_reports reports set (length done) (replicate (length todo) sig) done = Ok names) as Hgen.
  { intros dn todo. revert dn. induction todo as [|x todo IH]; intros dn Hsplit; simpl.
    { by rewrite app_nil_r in Hsplit; subst. }
    destruct (verify_signer_from_set_ecdsa _ _ sig) as [o b] eqn:E. simpl in Hv. subst b.
    rewrite Hn, Hsplit at 1. rewrite lookup_app_r, Nat.sub_diag by lia. simpl.
    rewrite decide_False.
    - replace (S (length dn)) with (length (dn ++ [x])) by (rewrite length_app; simpl; lia).
      apply IH. by rewrite <- app_assoc.
    - intros Hin. rewrite Hsplit in Hnd. apply NoDup_app in Hnd as (_ & Hd & _).
      apply (Hd x Hin). set_solver. }
  apply (Hgen [] names eq_refl).
Qed.

Lemma put_next_best_Ret cs s w u q :
  (put_next_best cs : MD unit) (s, w) = Ret u q →
  q = (s <| NextBestAuthorities := get_best_authorities s (NextKeygenThreshold s) cs |>, w) ∧
  2 <= len (get_best_authorities s (NextKeygenThreshold s) cs).
Proof.
  intros Hr. unfold put_next_best in Hr. dinv Hr.
  match goal with E : try_bound _ _ = Some _ |- _ => apply try_bound_Some in E as [-> _] end.
  match goal with E : (2 <=? _) = true |- _ => apply Z.leb_le in E end. done.
Qed.

Lemma drop_keygen_threshold_Ret l s w u q :
  (drop_keygen_threshold l : MD unit) (s, w) = Ret u q →
  q.2 = w ∧ JailedKeygenAuthorities q.1 = JailedKeygenAuthorities s ∧
  AuthorityReputations q.1 = AuthorityReputations s.
Proof.
  intros Hr. unfold drop_keygen_threshold, update_next_keygen_threshold,
    update_pending_keygen_threshold, deposit_event, when in Hr. dinv Hr.
  repeat (case_match; dinv Hr; try done);
    repeat match goal with
    | E : (if ?b then _ else _) _ = Ret _ _ |- _ => destruct b; dinv E
    end; done.
Qed.

Lemma highest_reputation_in `{!MetadataLaws} s cs r :
  highest_reputation s cs = Some r → r ∈ cs.
Proof.
  unfold highest_reputation. destruct (last _) as [[x n]|] eqn:Hl.
  - intros [= <-]. apply last_Some in Hl as [l Hl].
    assert ((x, n) ∈ filter (λ e, e.1 ∈ cs) (iter_reputations (AuthorityReputations s))) as Hin.
    { rewrite <- (sort_by_perm (λ a b, a.2 <=? b.2)), Hl. set_solver. }
    by apply list_elem_of_filter in Hin as [? _].
  - destruct cs; [done|]. intros [= <-]. set_solver.
Qed.

(** The keygen branch: whoever is reported is out of the next best authorities. *)
Lemma jail_keygen_Ret `{!MetadataLaws} now who vs s w b q :
  (jail_keygen now who vs : MD bool) (s, w) = Ret b q →
  q.2 = w ∧ (who ∉ (NextBestAuthorities q.1).*2) ∧ 2 <= len (NextBestAuthorities q.1) ∧
  AuthorityReputations q.1 = AuthorityReputations s ∧
  (who ∈ (NextBestAuthorities s).*2 → keygen_jailed s who = false →
     JailedKeygenAuthorities q.1 = <[who := now]> (JailedKeygenAuthorities s)).
Proof.
  intros Hr. unfold jail_keygen, deposit_event in Hr. dinv Hr.
  set (uj := filter _ _) in *.
  assert (∀ s' n cs, who ∉ cs → who ∉ (get_best_authorities s' n cs).*2) as Hout.
  { intros s' n cs Hn Hin. by apply best_authorities_subset in Hin. }
  assert (who ∉ filter (λ id, id ≠ who) uj) as Hrest.
  { intros [? _]%list_elem_of_filter. done. }
  case_decide as Hin; dinv Hr.
  - set (spare := filter _ (filter _ _)) in *. destruct spare as [|sp spare'] eqn:Hsp; dinv Hr.
    + apply drop_keygen_threshold_Ret in Hr0 as (Hw & Hj & Hrep). destruct u as [s1 w1].
      apply put_next_best_Ret in Hr1 as [-> Hlen]. simpl in *. subst w1.
      simp_get. split_and!; try done. by apply Hout.
    + apply highest_reputation_in in Hr0.
      apply put_next_best_Ret in Hr1 as [-> Hlen]. simpl in *. simp_get.
      split_and!; try done. apply Hout. intros [?|Hr'%list_elem_of_singleton]%elem_of_app; [done|].
      subst. rewrite <- Hsp in Hr0. unfold spare in Hr0.
      apply list_elem_of_filter in Hr0 as [_ [Hni _]%list_elem_of_filter]. done.
  - apply put_next_best_Ret in Hr0 as [-> Hlen]. simpl. simp_get.
    split_and!; try done; [by apply Hout|]. intros Hb Hj. destruct Hin.
    by apply list_elem_of_filter.
Qed.

(** The common part of an accepted report. *)
Lemma misbehaviour_Ret origin r s w u t w' :
  (submit_misbehaviour_reports origin r : MD unit) (s, w) = Ret u (t, w') →
  ∃ vs set th,
    set = match misbehaviour_type r with
          | MisbehaviourKeygen => NextAuthorities s | MisbehaviourSign => Authorities s end ∧
    th = match misbehaviour_type r with
         | MisbehaviourKeygen => NextSignatureThreshold s
         | MisbehaviourSign => SignatureThreshold s end ∧
    origin = NoOrigin ∧ JailedKeygenAuthorities s !! offender r = None ∧
    JailedSigningAuthorities s !! offender r = None ∧ offender r ∈ set ∧
    process_misbehaviour_reports r set = Ok vs ∧ th < len vs ∧
    let s1 := s <| AuthorityReputations ::=
      λ m, <[offender r := decay_mul_floor (default 0 (m !! offender r))]> m |> in
    ∃ early p, (match misbehaviour_type r with
      | MisbehaviourKeygen => jail_keygen (block_number w) (offender r) vs
      | MisbehaviourSign => jail_signing (block_number w) (offender r) th;; mret false
      end : MD bool) (s1, w) = Ret early p ∧
      NextBestAuthorities t = NextBestAuthorities p.1 ∧
      AuthorityReputations t = AuthorityReputations p.1 ∧
      JailedKeygenAuthorities t = JailedKeygenAuthorities p.1 ∧
      JailedSigningAuthorities t = JailedSigningAuthorities p.1 ∧
      NextSignatureThreshold t = NextSignatureThreshold p.1 ∧
      (early = false → NextUnsignedAt t = wrap 32 (block_number p.2 + UnsignedInterval)).
Proof.
  intros Hr. unfold submit_misbehaviour_reports, bump_next_unsigned_at, deposit_event in Hr.
  dinv Hr. rewrite !bool_decide_eq_true in *.
  destruct (misbehaviour_type r);
    match type of Hr with (if ?th <? len ?vs then _ else _) _ = _ =>
      destruct (Z.ltb_spec th (len vs)); [|by dinv Hr]; eexists vs, _, th
    end; apply bind_Ret in Hr as (? & ? & Hm & Hr); dinv Hm;
    apply bind_Ret in Hr as (? & ? & Hm & Hr); dinv Hm;
    apply bind_Ret in Hr as (early & p & Hj & Hr);
    (split_and!; try done); exists early, p; (split; [exact Hj|]);
    destruct early; dinv Hr; simplify_eq/=; done.
Qed.

(** C24: an accepted keygen report is against a next authority that was in neither jail,
    names more reporters than the next signature threshold, decays the offender's
    reputation, removes the offender from the next best authorities while keeping at
    least two of them, and jails it if it was among them. *)
Theorem keygen_report_effect `{!MetadataLaws} origin r s w u t w' :
  misbehaviour_type r = MisbehaviourKeygen →
  (submit_misbehaviour_reports origin r : MD unit) (s, w) = Ret u (t, w') →
  origin = NoOrigin ∧ offender r ∈ NextAuthorities s ∧ JailedKeygenAuthorities s !! offender r = None ∧
  JailedSigningAuthorities s !! offender r = None ∧
  (∃ vs, process_misbehaviour_reports r (NextAuthorities s) = Ok vs ∧
     NextSignatureThreshold s < len vs) ∧
  (offender r ∉ (NextBestAuthorities t).*2) ∧ 2 <= len (NextBestAuthorities t) ∧
  reputation_of t (offender r) = decay_mul_floor (reputation_of s (offender r)) ∧
  (offender r ∈ (NextBestAuthorities s).*2 →
     JailedKeygenAuthorities t !! offender r = Some (block_number w)).
Proof.
  intros Hty (vs & set & th & Hset & Hth & -> & Hk & Hs & Hin & Hvs & Hlen & early & p & Hj & Hnb
    & Hrep & Hjk & _)%misbehaviour_Ret. rewrite Hty in *. subst.
  apply jail_keygen_Ret in Hj as (_ & Hout & H2' & Hrep' & Hjail).
  rewrite Hnb. split_and!; try done; [by exists vs|..].
  - unfold reputation_of. rewrite Hrep, Hrep'. simp_get. by rewrite lookup_insert_eq.
  - intros Hbest. rewrite Hjk, Hjail; [by rewrite lookup_insert_eq|done|].
    unfold keygen_jailed. simp_get. rewrite Hk. done.
Qed.

(** An accepted signing report against a current authority that was in no jail
    jails it and decays its reputation, and leaves the thresholds alone as long as the
    signing set is as large as the threshold; the offender itself is still counted
    in that set. *)
Theorem signing_report_effect origin r s w u t w' :
  misbehaviour_type r = MisbehaviourSign →
  SignatureThreshold s <= len (BestAuthorities s) →
  (submit_misbehaviour_reports origin r : MD unit) (s, w) = Ret u (t, w') →
  offender r ∈ Authorities s ∧
  JailedSigningAuthorities t = <[offender r := block_number w]> (JailedSigningAuthorities s) ∧
  JailedKeygenAuthorities t = JailedKeygenAuthorities s ∧
  NextSignatureThreshold t = NextSignatureThreshold s ∧
  reputation_of t (offender r) = decay_mul_floor (reputation_of s (offender r)) ∧
  NextUnsignedAt t = wrap 32 (block_number w + UnsignedInterval).
Proof.
  intros Hty Hth (vs & set & th & Hset & Hthr & -> & _ & Hs & Hin & _ & _ & early & p & Hj & _
    & Hrep & Hjk & Hjs & Hns & Hnu)%misbehaviour_Ret. rewrite Hty in *. subst.
  apply bind_Ret in Hj as (u' & q & Hj & Hr). apply ret_Ret in Hr as [-> ->].
  unfold jail_signing, deposit_event in Hj. dinv Hj. simp_get_in Hj.
  rewrite filter_all in Hj.
  2: { apply Forall_true. intros x. destruct (decide (x = offender r)) as [->|]; [by left|by right]. }
  rewrite length_fmap in Hj.
  destruct (Z.ltb_spec (len (BestAuthorities s)) (SignatureThreshold s)); [lia|].
  dinv Hj. simplify_eq/=. rewrite Hjs, Hjk, Hns, Hnu by done. simp_get.
  split_and!; try done. unfold reputation_of. rewrite Hrep. simp_get. by rewrite lookup_insert_eq.
Qed.
End thresholds.

(** ** Refresh proposals *)

Section refresh.
Context `{MetadataConfig, WebbProposals, Crypto, MerkleLeaf} {W F : Type}.
Context `{System W, OnAuthoritySetChangeHandler W F, ProposalHandlerTrait W F}.
Context `{!WebbLaws, !CryptoLaws}.
Implicit Types (s t : Metadata) (w : W).

Abbreviation MD A := (M (Metadata * W) (DispatchError MetadataError F) A).

(** The proposal that a refresh to [key] makes. *)
Definition refresh_for (s : Metadata) (root key : bytes) (nonce : Z) : RefreshProposal := {|
  voter_merkle_root := root;
  session_length := saturating_mul 64 average_session_length (saturating_mul 64 MinimumPeriod 2);
  voter_count := wrap 32 (len (NextAuthorities s));
  refresh_nonce_of := nonce;
  refresh_pub_key := key |}.

Lemma decompress_public_key_run pk :
  decompress_public_key pk =
  match secp256k1_decompress pk with Some k => Ok (drop 1 k) | None => Err InvalidPublicKeys end.
Proof.
  unfold decompress_public_key. destruct (secp256k1_decompress pk) as [k|] eqn:Hk; [|done].
  simpl. by rewrite (decompress_length _ _ Hk).
Qed.

Lemma refresh_for_wf s root k pk nonce :
  length root = 32%nat → secp256k1_decompress pk = Some k → in_width 32 nonce →
  0 <= average_session_length → 0 <= MinimumPeriod →
  refresh_wf (refresh_for s root (drop 1 k) nonce).
Proof.
  intros Hroot Hk Hn Ha Hm. split_and!; simpl; [done| | |done|].
  - unfold saturating_mul, max_of, in_width. lia.
  - by apply wrap_in_width.
  - rewrite length_drop, (decompress_length _ _ Hk). done.
Qed.

Lemma create_refresh_run pk nonce s w :
  len (NextAuthorities s) < 2 ^ 32 → in_width 32 nonce →
  0 <= average_session_length → 0 <= MinimumPeriod →
  Z.of_nat REFRESH_LENGTH <= MaxProposalLength →
  match secp256k1_decompress pk with
  | Some k => ∃ root data, length root = 32%nat ∧
      get_voter_set_tree_root (NextAuthorities s) = Some root ∧
      refresh_wf (refresh_for s root (drop 1 k) nonce) ∧
      refresh_encode (refresh_for s root (drop 1 k) nonce) = (Ok data : result MetadataError _) ∧
      (create_refresh_proposal pk nonce : MD Proposal) (s, w) =
      Ret (Unsigned Refresh data)
        (s <| PendingRefreshProposal := Some (refresh_for s root (drop 1 k) nonce) |>, w)
  | None => (create_refresh_proposal pk nonce : MD Proposal) (s, w) =
      Fail (Module InvalidPublicKeys) (s, w)
  end.
Proof.
  intros Hv Hn Ha Hm Hmax. unfold create_refresh_proposal, create_voter_set_data. mrun.
  rewrite decompress_public_key_run. destruct (secp256k1_decompress pk) as [k|] eqn:Hk; [|done].
  destruct (voter_set_tree_root_total (NextAuthorities s) Hv) as (root & Hroot & Hlen).
  pose proof (refresh_for_wf s root k pk nonce Hlen Hk Hn Ha Hm) as Hwf.
  pose proof (refresh_encode_layout (E := MetadataError) _ Hwf) as He.
  eexists root, _. split_and!; [done|done|done|exact He|]. mrun. rewrite Hroot. mrun.
  match goal with |- context [refresh_encode ?p] =>
    change p with (refresh_for s root (drop 1 k) nonce) end.
  rewrite He. unfold mret, M_ret. f_equal. f_equal.
  match goal with |- default [] (try_bound _ ?l) = _ =>
    assert (try_bound MaxProposalLength l = Some l) as -> end; [|done].
  apply try_bound_Some. split; [done|]. destruct Hwf as (H1' & _ & _ & _ & H2').
  rewrite !length_app, !be_encode_length, nonce_to_bytes_length, H1', H2'. exact Hmax.
Qed.

(** A refresh proposal can be made for every key that is a valid curve point and
    for every next authority set: the code does not panic, what it stores as pending
    is exactly what the bytes it hands out decode to, and for an invalid key it fails
    without a trace. *)
Theorem create_refresh_proposal_total pk nonce s w :
  len (NextAuthorities s) < 2 ^ 32 → in_width 32 nonce →
  0 <= average_session_length → 0 <= MinimumPeriod →
  Z.of_nat REFRESH_LENGTH <= MaxProposalLength →
  match secp256k1_decompress pk with
  | Some k => ∃ p data, refresh_pub_key p = drop 1 k ∧ refresh_nonce_of p = nonce ∧
      get_voter_set_tree_root (NextAuthorities s) = Some (voter_merkle_root p) ∧
      refresh_decode data = Some p ∧
      (create_refresh_proposal pk nonce : MD Proposal) (s, w) =
      Ret (Unsigned Refresh data) (s <| PendingRefreshProposal := Some p |>, w)
  | None => (create_refresh_proposal pk nonce : MD Proposal) (s, w) =
      Fail (Module InvalidPublicKeys) (s, w)
  end.
Proof.
  intros Hv Hn Ha Hm Hmax. pose proof (create_refresh_run pk nonce s w Hv Hn Ha Hm Hmax) as Hc.
  destruct (secp256k1_decompress pk) as [k|]; [|done].
  destruct Hc as (root & data & _ & Hroot & Hwf & He & Hrun).
  destruct (refresh_decode_encode (E := MetadataError) _ Hwf) as (bs & He' & _ & Hdec).
  rewrite He in He'. injection He' as <-.
  by exists (refresh_for s root (drop 1 k) nonce), data.
Qed.

(** *** Signed refresh proposals *)

Lemma on_signed_refresh_run curr data sig key s w :
  NextDKGPublicKey s = Some key → NextPublicKeySignature s = None →
  PendingRefreshProposal s = Some curr →
  refresh_encode curr = (Ok data : result MetadataError _) →
  len sig <= MaxSignatureLength → sig ∉ UsedSignatures s →
  (on_signed_proposal (Signed Refresh data sig) : MD unit) (s, w) =
  Ret tt (s <| NextPublicKeySignature := Some sig |> <| CurrentRefreshProposal := Some curr |>
            <| PendingRefreshProposal := None |>
            <| metadata_events ::= λ es,
                 es ++ [NextPublicKeySignatureSubmitted curr sig key.2] |>, w).
Proof.
  intros Hk Hs Hp He Hl Hu. unfold on_signed_proposal. mrun. cbn [is_signed proposal_kind].
  rewrite decide_True by done. mrun. rewrite Hk. mrun. rewrite Hs, bool_decide_true by done. mrun.
  rewrite Hp, bool_decide_true by done. mrun. cbn [default from_option id]. rewrite He. mrun.
  cbn [proposal_data proposal_signature]. rewrite bool_decide_true by done. mrun. cbn [default from_option id].
  assert (try_bound MaxSignatureLength sig = Some sig) as -> by (by apply try_bound_Some).
  mrun. rewrite bool_decide_false by done. cbn [negb]. mrun. done.
Qed.

(** A signed refresh is accepted only while a next key waits for its signature,
    and only if its bytes are the encoding of the pending proposal and its signature
    was not used before; it then becomes the current proposal and its signature the
    one of the next key. *)
Theorem on_signed_refresh_accepts p s w u t w' :
  proposal_kind p = Refresh → (on_signed_proposal p : MD unit) (s, w) = Ret u (t, w') →
  ∃ key curr sig, p = Signed Refresh (proposal_data p) sig ∧ NextDKGPublicKey s = Some key ∧
    NextPublicKeySignature s = None ∧ PendingRefreshProposal s = Some curr ∧
    refresh_encode curr = (Ok (proposal_data p) : result MetadataError _) ∧
    (sig ∉ UsedSignatures s) ∧
    w' = w ∧ NextPublicKeySignature t = Some sig ∧ CurrentRefreshProposal t = Some curr ∧
    PendingRefreshProposal t = None ∧ NextDKGPublicKey t = NextDKGPublicKey s ∧
    DKGPublicKey t = DKGPublicKey s ∧ RefreshNonce t = RefreshNonce s.
Proof.
  intros Hk Hr. unfold on_signed_proposal, deposit_event in Hr. apply bind_Ret in Hr as (? & ? & Hs & Hr).
  dinv Hs. rewrite decide_True in Hr by done. dinv Hr.
  repeat match goal with
  | E : bool_decide _ = true |- _ => apply bool_decide_eq_true in E
  | E : negb (bool_decide _) = true |- _ => apply negb_true_iff, bool_decide_eq_false in E
  | E : try_bound _ _ = Some _ |- _ => apply try_bound_Some in E as [-> _]
  end.
  destruct p as [k data sig|]; [|done]. simpl in Hk. subst k.
  destruct (PendingRefreshProposal s) as [curr|]; [|done]. simplify_eq/=.
  eexists _, curr, sig. split_and!; done.
Qed.

(** Once a signature for the next key is stored, no other signed refresh is
    accepted until the keys rotate, whatever its signature. *)
Theorem signed_refresh_only_once p sig s w :
  proposal_kind p = Refresh → NextPublicKeySignature s = Some sig →
  returns ((on_signed_proposal p : MD unit) (s, w)) = false.
Proof.
  intros Hk Hs. unfold on_signed_proposal. mrun. destruct (is_signed p); [|done].
  rewrite decide_True by done. mrun. destruct (NextDKGPublicKey s); [|done]. mrun.
  by rewrite Hs, bool_decide_false.
Qed.

(** The signature that a refresh proposal carries is never checked against the
    key on chain: any unused bytes of bounded length inside an otherwise matching
    proposal are stored as the signature of the next key and announced.  (The batch
    signature covers the proposal's data only, and anybody may submit a batch.) *)
Theorem refresh_signature_unverified curr data sig key s w :
  NextDKGPublicKey s = Some key → NextPublicKeySignature s = None →
  PendingRefreshProposal s = Some curr →
  refresh_encode curr = (Ok data : result MetadataError _) →
  len sig <= MaxSignatureLength → (sig ∉ UsedSignatures s) →
  ∃ t, (on_signed_proposal (Signed Refresh data sig) : MD unit) (s, w) = Ret tt (t, w) ∧
    NextPublicKeySignature t = Some sig.
Proof. intros. eexists. split; [by apply on_signed_refresh_run|done]. Qed.

(** The refresh cycle closes: for a waiting next key that is a valid curve
    point, [do_refresh] hands the handler a refresh proposal, and when exactly those
    bytes come back signed they are accepted in the state that was left behind. *)
Theorem refresh_cycle key k sig s w w' :
  len (NextAuthorities s) < 2 ^ 32 → 0 <= average_session_length → 0 <= MinimumPeriod →
  Z.of_nat REFRESH_LENGTH <= MaxProposalLength → len sig <= MaxSignatureLength →
  NextDKGPublicKey s = Some key → NextPublicKeySignature s = None →
  secp256k1_decompress key.2 = Some k → (sig ∉ UsedSignatures s) →
  (∀ data, handle_unsigned_proposal (Unsigned Refresh data) w = Ret tt w') →
  ∃ t data, (do_refresh key.2 : MD unit) (s, w) = Ret tt (t, w') ∧ RefreshInProgress t = true ∧
    ∃ v, (on_signed_proposal (Signed Refresh data sig) : MD unit) (t, w') = Ret tt (v, w') ∧
      NextPublicKeySignature v = Some sig ∧
      refresh_decode data = CurrentRefreshProposal v.
Proof.
  intros Hv Ha Hm Hmax Hl Hk Hs Hd Hu Hh.
  pose proof (create_refresh_run key.2 (wrap 32 (RefreshNonce s + 1)) s w Hv
    (wrap_in_width 32 _ ltac:(lia)) Ha Hm Hmax) as Hc.
  rewrite Hd in Hc. destruct Hc as (root & data & _ & _ & Hwf & He & Hrun).
  destruct (refresh_decode_encode (E := MetadataError) _ Hwf) as (bs & He' & _ & Hdec).
  rewrite He in He'. injection He' as <-.
  set (p := refresh_for s root (drop 1 k) (wrap 32 (RefreshNonce s + 1))) in *.
  exists (s <| PendingRefreshProposal := Some p |> <| RefreshInProgress := true |>), data.
  split; [|split; [done|eexists; split;
    [by apply (on_signed_refresh_run p _ _ key)|by rewrite Hdec]]].
  unfold do_refresh. mrun. unfold mbind at 1, M_bind at 1, catch at 1. rewrite Hrun.
  unfold mbind at 1, M_bind at 1, catch at 1, calls at 1. cbn [fst snd]. by rewrite Hh.
Qed.
End refresh.
