(* ===== verification/MetadataRotation.v ===== *)
(** * Rotation of keys and authority sets in pallet-dkg-metadata

    What a session change does to keys, sets and thresholds, with and without a
    signed next key; the block hook; and a genesis that is consistent. *)

From S2P Require Import Prelude.
From S2P Require Import Frame.
From S2P Require Import Primitives.
From S2P Require Import Merkle.
From S2P Require Import Traits.
From S2P Require Import Metadata.
From S2P Require Import MetadataQuorum.
From S2P Require Import MetadataSpec.
Import Dkg.

Section rotation.
Context `{MetadataConfig, WebbProposals, Crypto, MerkleLeaf} {W F : Type}.
Context `{System W, OnAuthoritySetChangeHandler W F, ProposalHandlerTrait W F}.
Implicit Types (s t : Metadata) (w : W).

Abbreviation MD A := (M (Metadata * W) (DispatchError MetadataError F) A).

Lemma update_next_keygen_run n s w :
  ∃ es, (update_next_keygen_threshold n : MD unit) (s, w) =
    Ret tt (s <| NextKeygenThreshold := n |> <| metadata_events := es |>, w).
Proof.
  unfold update_next_keygen_threshold, deposit_event, when. mrun.
  destruct (Z.eqb_spec (NextKeygenThreshold s) n) as [<-|]; simpl; [|by eexists].
  exists (metadata_events s). by destruct s.
Qed.

Lemma update_next_signature_run n s w :
  ∃ es, (update_next_signature_threshold n : MD unit) (s, w) =
    Ret tt (s <| NextSignatureThreshold := n |> <| metadata_events := es |>, w).
Proof.
  unfold update_next_signature_threshold, deposit_event, when. mrun.
  destruct (Z.eqb_spec (NextSignatureThreshold s) n) as [<-|]; simpl; [|by eexists].
  exists (metadata_events s). by destruct s.
Qed.

Definition fit_keygen (n k : Z) : Z := if n <? k then wrap 16 n else k.
Definition fit_signature (n t : Z) : Z := if n <=? t then wrap 16 (wrap 16 n - 1) else t.

Lemma fit_next_thresholds_run n s w :
  ∃ es, (fit_next_thresholds n : MD unit) (s, w) =
    Ret tt (s <| NextKeygenThreshold := fit_keygen n (NextKeygenThreshold s) |>
              <| PendingKeygenThreshold :=
                   (if n <? NextKeygenThreshold s then wrap 16 n else PendingKeygenThreshold s) |>
              <| NextSignatureThreshold := fit_signature n (NextSignatureThreshold s) |>
              <| PendingSignatureThreshold :=
                   (if n <=? NextSignatureThreshold s then wrap 16 (wrap 16 n - 1)
                    else PendingSignatureThreshold s) |>
              <| metadata_events := es |>, w).
Proof.
  unfold fit_next_thresholds, fit_keygen, fit_signature, when. mrun.
  destruct (n <? NextKeygenThreshold s).
  - destruct (update_next_keygen_run (wrap 16 n) s w) as [es1 H1']. mrun.
    unfold mbind at 1, M_bind at 1. rewrite H1'. mrun. simp_get.
    destruct (n <=? NextSignatureThreshold s).
    + unfold mbind at 1, M_bind at 1.
      match goal with |- context [update_next_signature_threshold ?x (?s', w)] =>
        destruct (update_next_signature_run x s' w) as [es2 H2']; rewrite H2' end.
      exists es2. by destruct s.
    + exists es1. by destruct s.
  - mrun. destruct (n <=? NextSignatureThreshold s).
    + unfold mbind at 1, M_bind at 1.
      match goal with |- context [update_next_signature_threshold ?x (?s', w)] =>
        destruct (update_next_signature_run x s' w) as [es2 H2']; rewrite H2' end.
      exists es2. by destruct s.
    + exists (metadata_events s). by destruct s.
Qed.

(** The fields that describe the running DKG. *)
Definition rotated_to (s t : Metadata) (pk : Z * bytes) (sig : bytes)
    (ids : list DKGId) (accounts : list AccountId) : Prop :=
  DKGPublicKey t = Some pk ∧ DKGPublicKeySignature t = sig ∧
  PreviousPublicKey t = dkg_public_key s ∧ AuthoritySetId t = NextAuthoritySetId s ∧
  Authorities t = ids ∧ CurrentAuthoritiesAccounts t = accounts ∧
  BestAuthorities t = NextBestAuthorities s ∧
  SignatureThreshold t = NextSignatureThreshold s ∧ KeygenThreshold t = NextKeygenThreshold s ∧
  NextDKGPublicKey t = None ∧ NextPublicKeySignature t = None ∧
  RefreshNonce t = saturating_add 32 (RefreshNonce s) 1 ∧
  HistoricalRounds t !! pk.1 = Some {| curr_round_pub_key := (dkg_public_key s).2;
    next_round_pub_key := pk.2; refresh_signature := sig |}.

Definition same_dkg (s t : Metadata) : Prop :=
  DKGPublicKey t = DKGPublicKey s ∧ DKGPublicKeySignature t = DKGPublicKeySignature s ∧
  PreviousPublicKey t = PreviousPublicKey s ∧ AuthoritySetId t = AuthoritySetId s ∧
  Authorities t = Authorities s ∧
  CurrentAuthoritiesAccounts t = CurrentAuthoritiesAccounts s ∧
  BestAuthorities t = BestAuthorities s ∧ SignatureThreshold t = SignatureThreshold s ∧
  KeygenThreshold t = KeygenThreshold s ∧ NextDKGPublicKey t = NextDKGPublicKey s ∧
  NextPublicKeySignature t = NextPublicKeySignature s ∧ RefreshNonce t = RefreshNonce s ∧
  HistoricalRounds t = HistoricalRounds s.

(** What every session change prepares for the session after it. *)
Definition prepared (s t : Metadata) (next_ids : list DKGId) (next_accounts : list AccountId)
    : Prop :=
  NextAuthorities t = next_ids ∧ NextAuthoritiesAccounts t = next_accounts ∧
  NextAuthoritySetId t = saturating_add 64 (NextAuthoritySetId s) 1 ∧
  RefreshInProgress t = false ∧
  NextKeygenThreshold t = fit_keygen (len next_ids) (PendingKeygenThreshold s) ∧
  NextSignatureThreshold t = fit_signature (len next_ids) (PendingSignatureThreshold s) ∧
  ∃ s', AuthorityReputations s' = AuthorityReputations s ∧
    JailedKeygenAuthorities s' = JailedKeygenAuthorities s ∧
    NextBestAuthorities t = get_best_authorities s' (NextKeygenThreshold t) next_ids.

Lemma rotate_keys_Ret ids next_ids accs nid best ts tk old oldsig pk sig s w u t w' :
  (rotate_keys ids next_ids accs nid best ts tk old oldsig pk sig : MD unit) (s, w)
    = Ret u (t, w') →
  w' = w ∧ DKGPublicKey t = Some pk ∧ DKGPublicKeySignature t = sig ∧
  PreviousPublicKey t = old ∧ AuthoritySetId t = nid ∧ Authorities t = ids ∧
  CurrentAuthoritiesAccounts t = accs ∧ BestAuthorities t = best ∧
  SignatureThreshold t = ts ∧ KeygenThreshold t = tk ∧
  NextDKGPublicKey t = None ∧ NextPublicKeySignature t = None ∧
  RefreshNonce t = saturating_add 32 (RefreshNonce s) 1 ∧
  HistoricalRounds t !! pk.1 = Some {| curr_round_pub_key := old.2;
    next_round_pub_key := pk.2; refresh_signature := sig |} ∧
  NextAuthorities t = NextAuthorities s ∧ NextAuthoritiesAccounts t = NextAuthoritiesAccounts s ∧
  NextAuthoritySetId t = NextAuthoritySetId s ∧ RefreshInProgress t = RefreshInProgress s ∧
  NextKeygenThreshold t = NextKeygenThreshold s ∧
  NextSignatureThreshold t = NextSignatureThreshold s ∧
  NextBestAuthorities t = NextBestAuthorities s.
Proof.
  intros Hr. unfold rotate_keys, store_consensus_log, insert_historical_refresh,
    record_used_signature, deposit_event, deposit_log in Hr. dinv Hr.
  repeat match goal with E : try_bound _ _ = Some _ |- _ => apply try_bound_Some in E as [-> _] end.
  simp_get_in Hr.
  destruct (CurrentRefreshProposal s); dinv Hr; simplify_eq/=; simp_get;
    split_and!; try done; by rewrite lookup_insert_eq.
Qed.

Ltac step_over lem :=
  match goal with |- (_ ≫= _) (?s', ?w') = _ → _ =>
    let es := fresh "es" in let E := fresh "E" in
    edestruct (lem s' w') as [es E]; rewrite (run_call _ _ _ _ _ E); clear E; mrun; simp_get
  end.

Lemma change_authorities_Ret ids next_ids accs next_accs forced s w u t w' :
  (change_authorities ids next_ids accs next_accs forced : MD unit) (s, w) = Ret u (t, w') →
  on_authority_set_changed accs ids w = Ret tt w' ∧ prepared s t next_ids next_accs ∧
  match NextDKGPublicKey s, (if forced then Some [] else NextPublicKeySignature s) with
  | Some pk, Some sig => rotated_to s t pk sig ids accs
  | _, _ => same_dkg s t
  end.
Proof.
  unfold change_authorities. mrun.
  destruct (on_authority_set_changed accs ids w) as [[] w1|? ?|]; [|done..]. mrun. simp_get.
  step_over (update_next_signature_run (PendingSignatureThreshold s)).
  step_over (update_next_keygen_run (PendingKeygenThreshold s)).
  destruct (try_bound MaxAuthorities next_ids) as [l|] eqn:El; [|done].
  apply try_bound_Some in El as [-> _]. mrun.
  destruct (try_bound MaxAuthorities next_accs) as [l|] eqn:El; [|done].
  apply try_bound_Some in El as [-> _]. mrun. simp_get.
  step_over (fit_next_thresholds_run (len next_ids)).
  match goal with |- context [try_bound MaxAuthorities ?l] =>
    destruct (try_bound MaxAuthorities l) as [b|] eqn:El; [|done] end.
  apply try_bound_Some in El as [-> _]. mrun.
  assert (dkg_public_key s = default (0, []) (DKGPublicKey s)) as Hdkg by done.
  destruct (NextDKGPublicKey s) as [pk|]; [destruct (if forced then _ else _) as [sig|]|].
  - intros Hr. apply rotate_keys_Ret in Hr.
    repeat match type of Hr with context [?p (@set ?R ?T ?q ?i ?f ?s0)] => simp_get_in Hr end.
    destruct_and! Hr. subst w1. split; [done|]. split.
    + unfold prepared. split_and!; try done.
      match goal with E : NextBestAuthorities t = get_best_authorities ?s' _ _ |- _ =>
        exists s'; simp_get; split_and!; [done|done|congruence] end.
    + unfold rotated_to. split_and!; done.
  - intros [-> [= -> ->]]%ret_Ret. split; [done|]. unfold prepared, same_dkg. simp_get.
    split; split_and!; try done.
    match goal with |- ∃ _, _ ∧ _ ∧ get_best_authorities ?s' _ _ = _ => exists s' end.
    simp_get. done.
  - intros [-> [= -> ->]]%ret_Ret. split; [done|]. unfold prepared, same_dkg. simp_get.
    split; split_and!; try done.
    match goal with |- ∃ _, _ ∧ _ ∧ get_best_authorities ?s' _ _ = _ => exists s' end.
    simp_get. done.
Qed.

Lemma register_accounts_run l s w :
  (register_accounts l : MD unit) (s, w) =
  Ret tt (s <| AccountToAuthority ::= λ m, foldl (λ m '(acc, k), <[acc := k]> m) m l |>, w).
Proof.
  unfold register_accounts. revert s. induction l as [|[acc k] l IH]; intros s; simpl.
  - by destruct s.
  - mrun. rewrite IH. by destruct s.
Qed.

Lemma on_new_session_Ret validators queued s w u t w' :
  (on_new_session validators queued : MD unit) (s, w) = Ret u (t, w') →
  on_authority_set_changed validators.*1 validators.*2 w = Ret tt w' ∧
  prepared s t queued.*2 queued.*1 ∧
  match NextDKGPublicKey s, NextPublicKeySignature s with
  | Some pk, Some sig => rotated_to s t pk sig validators.*2 validators.*1
  | _, _ => same_dkg s t
  end.
Proof.
  unfold on_new_session. rewrite (run_call _ _ _ _ _ (register_accounts_run _ _ _)).
  rewrite (run_call _ _ _ _ _ (register_accounts_run _ _ _)). mrun.
  intros Hr. apply change_authorities_Ret in Hr. unfold prepared, rotated_to, same_dkg,
    dkg_public_key in *. simp_get_in Hr. destruct Hr as (Hh & Hp & Hm).
  split; [done|]. split.
  - destruct Hp as (? & ? & ? & ? & ? & ? & s' & Hr' & Hj & ?). simp_get_in Hr'. simp_get_in Hj.
    split_and!; try done. by exists s'.
  - by destruct (NextDKGPublicKey s), (NextPublicKeySignature s).
Qed.

(** C18: at a session change the DKG rotates exactly when the next key and its
    signature are on chain: then key, previous key, history, authorities, accounts,
    best authorities, set identifier and thresholds all move together from the next
    set to the current one and the refresh nonce grows by one; otherwise the running
    DKG keeps all of them.  In both cases the next set is replaced by the queued one. *)
Theorem on_new_session_effect validators queued s w u t w' :
  (on_new_session validators queued : MD unit) (s, w) = Ret u (t, w') →
  on_authority_set_changed validators.*1 validators.*2 w = Ret tt w' ∧
  prepared s t queued.*2 queued.*1 ∧
  match NextDKGPublicKey s, NextPublicKeySignature s with
  | Some pk, Some sig => rotated_to s t pk sig validators.*2 validators.*1
  | _, _ => same_dkg s t
  end.
Proof. apply on_new_session_Ret. Qed.

(** C23: if the pending thresholds are a t-of-n with t < n and n not negative, then after a
    session change with at least one and fewer than 2^16 queued authorities the next
    thresholds are a t-of-n with t < n again and fit the queued authorities, and that many
    next best authorities are chosen.  Without queued authorities the threshold wraps
    ([empty_queued_set_wraps]). *)
Theorem next_thresholds_valid validators queued s w u t w' :
  pending_ok s → 0 <= PendingKeygenThreshold s → 1 <= len queued < 2 ^ 16 →
  (on_new_session validators queued : MD unit) (s, w) = Ret u (t, w') →
  NextSignatureThreshold t < NextKeygenThreshold t <= len queued ∧
  len (NextBestAuthorities t) = NextKeygenThreshold t.
Proof.
  intros Hp Hpos Hn (_ & (_ & _ & _ & _ & Hk & Hs & s' & _ & _ & Hb) & _)%on_new_session_Ret.
  rewrite !length_fmap in *.
  assert (NextSignatureThreshold t < NextKeygenThreshold t <= len queued ∧
    0 <= NextKeygenThreshold t) as [Hv H0'].
  { unfold pending_ok, fit_keygen, fit_signature in *.
    rewrite (wrap_small 16 (len queued)) in Hk, Hs by (unfold in_width; lia).
    rewrite (wrap_small 16 (len queued - 1)) in Hs by (unfold in_width; lia).
    destruct (Z.ltb_spec (len queued) (PendingKeygenThreshold s));
      destruct (Z.leb_spec (len queued) (PendingSignatureThreshold s)); lia. }
  split; [done|]. rewrite Hb, best_authorities_length, length_fmap by done. lia.
Qed.

(** The u16 arithmetic on an empty queued set wraps: the next signature threshold
    becomes 65535, which no later keygen can meet. *)
Theorem empty_queued_set_wraps validators s w u t w' :
  0 <= PendingSignatureThreshold s →
  (on_new_session validators [] : MD unit) (s, w) = Ret u (t, w') →
  NextSignatureThreshold t = 65535.
Proof.
  intros Hp (_ & (_ & _ & _ & _ & _ & Hs & _) & _)%on_new_session_Ret.
  rewrite Hs. unfold fit_signature. change (len (@nil (AccountId * DKGId)).*2) with 0.
  destruct (Z.leb_spec 0 (PendingSignatureThreshold s)); [done|lia].
Qed.

(** *** The block hook *)

Lemma do_refresh_Ret pk s w u t w' :
  (do_refresh pk : MD unit) (s, w) = Ret u (t, w') →
  ShouldExecuteNewKeygen t = ShouldExecuteNewKeygen s ∧ DKGPublicKey t = DKGPublicKey s ∧
  NextDKGPublicKey t = NextDKGPublicKey s ∧ RefreshNonce t = RefreshNonce s.
Proof.
  intros Hr. unfold do_refresh in Hr.
  apply bind_Ret in Hr as (n & q & Hn & Hr). dinv Hn.
  apply bind_Ret in Hr as (r & q & Hc & Hr). apply catch_Ret in Hc.
  assert (q.2 = w ∧ ∃ x, q.1 = s <| PendingRefreshProposal := x |>) as [Hw [x Hx]].
  { clear Hr. assert (wp True (create_refresh_proposal pk (wrap 32 (RefreshNonce s + 1)) : MD _) (s, w)
      (λ _ q, q.2 = w ∧ ∃ x, q.1 = s <| PendingRefreshProposal := x |>)
      (λ _ q, q.2 = w ∧ ∃ x, q.1 = s <| PendingRefreshProposal := x |>)) as Hwp.
    { assert (s = s <| PendingRefreshProposal := PendingRefreshProposal s |>) as Hid by (by destruct s).
      unfold create_refresh_proposal, create_voter_set_data. repeat (dwp_step; try done);
        try (split; [done|by eexists]). }
    unfold wp in Hwp. by destruct r; rewrite Hc in Hwp. }
  destruct q as [s1 w1]. simpl in *. subst s1 w1.
  destruct r as [data|e]; [|dinv Hr; simplify_eq/=; by simp_get].
  apply bind_Ret in Hr as (r & q & Hh & Hr). apply catch_Ret in Hh.
  assert (q.1 = s <| PendingRefreshProposal := x |>) as Hq.
  { unfold calls in Hh. cbn [fst snd] in Hh.
    by destruct r; destruct (handle_unsigned_proposal data w); simplify_eq/=. }
  destruct q as [s1 w1]. simpl in Hq. subst s1.
  destruct r; dinv Hr; simplify_eq/=; by simp_get.
Qed.

(** The block hook raises the keygen flag exactly at the blocks that are a
    positive multiple of the retry interval past the session period, clears a flag
    that was raised before, starts a refresh only for a next key without signature and
    without a refresh under way, and never touches the keys. *)
Theorem on_initialize_effect n s w u t w' :
  (on_initialize n : MD unit) (s, w) = Ret u (t, w') →
  let passed := wrap 32 (n - LastSessionRotationBlock s) in
  ShouldExecuteNewKeygen t =
    (if (SessionPeriod <=? passed) && (passed mod 20 =? 0) then (true, false)
     else if (ShouldExecuteNewKeygen s).1 then (false, false) else ShouldExecuteNewKeygen s) ∧
  DKGPublicKey t = DKGPublicKey s ∧ NextDKGPublicKey t = NextDKGPublicKey s ∧
  RefreshNonce t = RefreshNonce s ∧
  ((NextDKGPublicKey s = None ∨ NextPublicKeySignature s ≠ None ∨ RefreshInProgress s = true) →
     w' = w ∧ RefreshInProgress t = RefreshInProgress s ∧
     PendingRefreshProposal t = PendingRefreshProposal s).
Proof.
  intros Hr passed. unfold on_initialize in Hr. apply bind_Ret in Hr as (fl & q & Hf & Hr). dinv Hf.
  apply bind_Ret in Hr as (a & q & Hq & Hr).
  assert (q = (s <| ShouldExecuteNewKeygen := if (ShouldExecuteNewKeygen s).1 then (false, false)
    else ShouldExecuteNewKeygen s |>, w)) as ->.
  { unfold when in Hq. destruct (ShouldExecuteNewKeygen s).1; dinv Hq; [done|]. by destruct s. }
  clear Hq. apply bind_Ret in Hr as (l & q & Hq & Hr). dinv Hq. simp_get_in Hr.
  change BLOCKS_TO_WAIT_BEFORE_KEYGEN_RETRY_TRIGGER with 20 in Hr. fold passed in Hr.
  apply bind_Ret in Hr as (b & q & Hq & Hr).
  set (flag := if (SessionPeriod <=? passed) && (passed mod 20 =? 0) then (true, false)
     else if (ShouldExecuteNewKeygen s).1 then (false, false) else ShouldExecuteNewKeygen s).
  assert (q = (s <| ShouldExecuteNewKeygen := flag |>, w)) as ->.
  { unfold when in Hq. subst flag. destruct (_ && _); dinv Hq; [|done]. by destruct s. }
  clear Hq. apply bind_Ret in Hr as (rf & q & Hq & Hr). dinv Hq.
  apply bind_Ret in Hr as (ip & q & Hq & Hr). dinv Hq. unfold should_refresh in Hr. simp_get_in Hr.
  destruct (_ && negb _) eqn:Hc.
  - rewrite !andb_true_iff, negb_true_iff, !bool_decide_eq_true in Hc.
    apply bind_Ret in Hr as (nk & q & Hq & Hr). dinv Hq. simp_get_in Hr.
    destruct (NextDKGPublicKey s) as [pk|] eqn:Hk; [|by destruct Hc as [[[? ?] _] _]].
    apply do_refresh_Ret in Hr. simp_get_in Hr. destruct Hr as (? & ? & ? & ?).
    split_and!; try congruence. intros [?|[?|?]]; [done|tauto|destruct Hc; congruence].
  - dinv Hr. simplify_eq/=. by simp_get.
Qed.

(** *** Genesis *)

(** Genesis refuses thresholds that are not a t-of-n with t < n and 1 < n covered
    by the accounts, and otherwise starts with the same thresholds for the current,
    next and pending sessions. *)
Theorem build_thresholds ids keygen signature s w :
  match (build ids keygen signature : MD unit) (s, w) with
  | Ret _ (t, w') => signature < keygen ∧ 1 < keygen <= len ids ∧ w' = w ∧ pending_ok t ∧
      KeygenThreshold t = keygen ∧ NextKeygenThreshold t = keygen ∧
      PendingKeygenThreshold t = keygen ∧ SignatureThreshold t = signature ∧
      NextSignatureThreshold t = signature ∧ PendingSignatureThreshold t = signature
  | Fail _ _ => False
  | Panic => keygen <= signature ∨ keygen <= 1 ∨ len ids < keygen
  end.
Proof.
  unfold build. mrun. destruct (Z.ltb_spec signature keygen); [|auto]. mrun.
  destruct (Z.ltb_spec 1 keygen); [|auto]. mrun. destruct (Z.leb_spec keygen (len ids)); [|auto].
  mrun. unfold writes, modify. cbn [fst snd]. unfold pending_ok. simp_get. split_and!; done || lia.
Qed.
End rotation.
