(* ===== verification/MetadataKeys.v ===== *)
(** * Where the keys of pallet-dkg-metadata come from

    Two invariants that hold across every operation of the pallet: the rest of
    the chain is only reached through the two interfaces the pallet is
    configured with, and a key is only ever put on chain by the two submissions;
    everything else moves keys that are there already. *)

From S2P Require Import Prelude.
From S2P Require Import Frame.
From S2P Require Import Primitives.
From S2P Require Import Merkle.
From S2P Require Import Traits.
From S2P Require Import Metadata.
From S2P Require Import MetadataQuorum.
Import Dkg.

(** Every key on chain, current or next, satisfies [K]. *)
Definition keys_from (K : bytes → Prop) (s : Metadata) : Prop :=
  (∀ i k, DKGPublicKey s = Some (i, k) → K k) ∧
  (∀ i k, NextDKGPublicKey s = Some (i, k) → K k).

Lemma keys_from_mono (K L : bytes → Prop) s :
  (∀ k, K k → L k) → keys_from K s → keys_from L s.
Proof. intros HKL [Hc Hn]. split; eauto. Qed.

(** A threshold of distinct best authorities, or of the next set's, signed [k]. *)
Definition quorum_signed `{Crypto} (s : Metadata) (k : bytes) : Prop :=
  ∃ ks voters, backed_by ks (BestAuthorities s).*2 k voters ∧ SignatureThreshold s <= len voters ∨
               backed_by ks (NextBestAuthorities s).*2 k voters ∧
               NextSignatureThreshold s <= len voters.

Section keys.
Context `{MetadataConfig, WebbProposals, Crypto, MerkleLeaf} {W F : Type}.
Context `{System W, OnAuthoritySetChangeHandler W F, ProposalHandlerTrait W F}.
Implicit Types (s t : Metadata) (w : W).

Abbreviation MD A := (M (Metadata * W) (DispatchError MetadataError F) A).

(** *** The rest of the chain *)

Section world.
Context (J : W → Prop).
Context (on_change_J : ∀ accs ids,
  preserves J (on_authority_set_changed accs ids : M W F unit)).
Context (handle_J : ∀ p, preserves J (handle_unsigned_proposal p : M W F unit)).

#[local] Hint Resolve on_change_J handle_J : preserves.

Lemma world_process_public_keys set ks d :
  preserves (world J) (process_public_keys set ks d : MD _).
Proof using All.
  revert d. induction ks as [|[k sig] ks IH]; intros d; simpl; [auto with preserves|].
  apply preserves_bind; [auto with preserves|intros l].
  destruct (verify_signer_from_set_ecdsa _ _ _). auto with preserves.
Qed.

Lemma world_accept_first th accept d :
  (∀ k v, preserves (world J) (accept k v : MD unit)) →
  preserves (world J) (accept_first th accept d : MD bool).
Proof using All.
  intros Ha. induction d as [|[k v] d IH]; simpl; [auto with preserves|].
  destruct (_ <=? _); auto with preserves.
Qed.

Lemma world_create_refresh_proposal pk n :
  preserves (world J) (create_refresh_proposal pk n : MD _).
Proof using All. unfold create_refresh_proposal, create_voter_set_data. solve_preserves. Qed.

#[local] Hint Resolve world_process_public_keys world_accept_first
  world_create_refresh_proposal : preserves.

Lemma world_change_authorities ids next_ids accs next_accs forced :
  preserves (world J) (change_authorities ids next_ids accs next_accs forced : MD unit).
Proof using All.
  unfold change_authorities, rotate_keys, store_consensus_log, insert_historical_refresh,
    record_used_signature, fit_next_thresholds, update_next_keygen_threshold,
    update_next_signature_threshold, deposit_log, deposit_event.
  solve_preserves.
Qed.

#[local] Hint Resolve world_change_authorities : preserves.

Lemma world_jail_keygen now o l : preserves (world J) (jail_keygen now o l : MD bool).
Proof using All.
  unfold jail_keygen, put_next_best, drop_keygen_threshold, update_next_keygen_threshold,
    update_pending_keygen_threshold, deposit_event.
  solve_preserves.
Qed.

Lemma world_jail_signing now o th : preserves (world J) (jail_signing now o th : MD unit).
Proof using All. unfold jail_signing, update_next_signature_threshold, deposit_event. solve_preserves. Qed.

#[local] Hint Resolve world_jail_keygen world_jail_signing : preserves.

Lemma world_misbehaviour o r : preserves (world J) (submit_misbehaviour_reports o r : MD unit).
Proof using All.
  unfold submit_misbehaviour_reports, bump_next_unsigned_at, deposit_event. solve_preserves.
Qed.

#[local] Hint Resolve world_misbehaviour : preserves.

Lemma world_metadata_call o c : preserves (world J) (metadata_call o c : MD unit).
Proof using All.
  apply preserves_dispatch. destruct c; cbv iota;
    unfold set_signature_threshold, set_keygen_threshold, submit_public_key,
    submit_next_public_key, process_public_key_submissions, bump_next_unsigned_at,
    update_signature_threshold, update_keygen_threshold, unjail,
    force_unjail_keygen, force_unjail_signing, force_change_authorities,
    trigger_emergency_keygen, deposit_event;
    solve_preserves.
Qed.

Lemma world_on_new_session v q : preserves (world J) (on_new_session v q : MD unit).
Proof using All.
  unfold on_new_session, register_accounts.
  do 2 (apply preserves_bind; [apply preserves_for_each; intros []; auto with preserves|intros _]).
  solve_preserves.
Qed.

Lemma world_on_genesis_session v : preserves (world J) (on_genesis_session v : MD unit).
Proof using All.
  unfold on_genesis_session, initialize_authorities. solve_preserves.
Qed.

Lemma world_on_initialize n : preserves (world J) (on_initialize n : MD unit).
Proof using All. unfold on_initialize, do_refresh. solve_preserves. Qed.
End world.

(** *** The keys *)

Section keys_from.
Context (K : bytes → Prop).

Lemma keys_writes f :
  (∀ s, keys_from K s → keys_from K (f s)) →
  preserves (own (keys_from K)) (writes f : MD unit).
Proof. apply preserves_writes. Qed.

#[local] Hint Extern 1 (preserves (own (keys_from _)) (writes _)) =>
  apply keys_writes; exact (λ s Hs, Hs) : preserves.

Lemma keys_create_refresh_proposal pk n :
  preserves (own (keys_from K)) (create_refresh_proposal pk n : MD _).
Proof. unfold create_refresh_proposal, create_voter_set_data. solve_preserves. Qed.

#[local] Hint Resolve keys_create_refresh_proposal : preserves.

Lemma keys_drop_next :
  preserves (own (keys_from K)) (store! NextDKGPublicKey := None : MD unit).
Proof. apply keys_writes. intros s [Hc _]. by split. Qed.

#[local] Hint Resolve keys_drop_next | 0 : preserves.

Lemma keys_rotate a b c d e f g h i pk j :
  K pk.2 → preserves (own (keys_from K)) (rotate_keys a b c d e f g h i pk j : MD unit).
Proof.
  intros Hk. assert (preserves (own (keys_from K))
    (store! DKGPublicKey := Some pk : MD unit)) as Hput.
  { apply keys_writes. intros s [_ Hn]. split; [|done].
    change (DKGPublicKey (s <| DKGPublicKey := Some pk |>)) with (Some pk). by intros ? ? [= ->]. }
  unfold rotate_keys, store_consensus_log, insert_historical_refresh,
    record_used_signature, deposit_log, deposit_event.
  solve_preserves.
Qed.

Lemma keys_change_authorities ids next_ids accs next_accs forced :
  preserves (own (keys_from K)) (change_authorities ids next_ids accs next_accs forced : MD unit).
Proof.
  unfold change_authorities, fit_next_thresholds, update_next_keygen_threshold,
    update_next_signature_threshold, deposit_event.
  do 15 (apply preserves_bind; [solve_preserves|intros ?]).
  apply preserves_reads_bind. intros s [_ Hn].
  assert (∀ pk, NextDKGPublicKey s = Some pk → K pk.2) as Hk by (intros [i k]; apply Hn).
  do 8 (apply preserves_bind; [solve_preserves|intros ?]).
  destruct (NextDKGPublicKey s) as [pk|]; [|auto with preserves].
  destruct (if forced then _ else _); [|auto with preserves]. by apply keys_rotate, Hk.
Qed.

#[local] Hint Resolve keys_change_authorities : preserves.

Lemma keys_jail_keygen now o l : preserves (own (keys_from K)) (jail_keygen now o l : MD bool).
Proof.
  unfold jail_keygen, put_next_best, drop_keygen_threshold, update_next_keygen_threshold,
    update_pending_keygen_threshold, deposit_event.
  solve_preserves.
Qed.

Lemma keys_jail_signing now o th : preserves (own (keys_from K)) (jail_signing now o th : MD unit).
Proof. unfold jail_signing, update_next_signature_threshold, deposit_event. solve_preserves. Qed.

#[local] Hint Resolve keys_jail_keygen keys_jail_signing : preserves.

Lemma keys_misbehaviour o r : preserves (own (keys_from K)) (submit_misbehaviour_reports o r : MD unit).
Proof.
  unfold submit_misbehaviour_reports, bump_next_unsigned_at, deposit_event. solve_preserves.
Qed.

#[local] Hint Resolve keys_misbehaviour : preserves.

(** Every call but the two submissions. *)
Lemma keys_metadata_call o c :
  (∀ ks, c ≠ SubmitPublicKey ks) → (∀ ks, c ≠ SubmitNextPublicKey ks) →
  preserves (own (keys_from K)) (metadata_call o c : MD unit).
Proof.
  intros Hs Hn. apply preserves_dispatch. destruct c; cbv iota;
    [..|by edestruct Hs|by edestruct Hn| | | | | | ];
    unfold set_signature_threshold, set_keygen_threshold, bump_next_unsigned_at,
    update_signature_threshold, update_keygen_threshold, unjail,
    force_unjail_keygen, force_unjail_signing, force_change_authorities,
    trigger_emergency_keygen, deposit_event;
    solve_preserves.
Qed.

Lemma keys_on_new_session v q :
  preserves (own (keys_from K)) (on_new_session v q : MD unit).
Proof.
  unfold on_new_session, register_accounts.
  do 2 (apply preserves_bind; [apply preserves_for_each; intros []; auto with preserves|intros _]).
  solve_preserves.
Qed.

Lemma keys_build ids n th : preserves (own (keys_from K)) (build ids n th : MD unit).
Proof. unfold build. solve_preserves. Qed.

Lemma keys_on_genesis_session v :
  preserves (own (keys_from K)) (on_genesis_session v : MD unit).
Proof. unfold on_genesis_session, initialize_authorities. solve_preserves. Qed.

Lemma keys_on_initialize n : preserves (own (keys_from K)) (on_initialize n : MD unit).
Proof. unfold on_initialize, do_refresh. solve_preserves. Qed.

Lemma keys_on_signed_proposal p :
  preserves (own (keys_from K)) (on_signed_proposal p : MD unit).
Proof. unfold on_signed_proposal, deposit_event. solve_preserves. Qed.
End keys_from.

(** A call puts a key on chain only if a quorum signed it. *)
Lemma keys_call_quorum K o c s w p :
  keys_from K s → (∀ k, quorum_signed s k → K k) →
  final ((metadata_call o c : MD unit) (s, w)) = Some p → keys_from K p.1.
Proof.
  intros Hs Hq.
  assert ((∀ ks, c ≠ SubmitPublicKey ks) ∧ (∀ ks, c ≠ SubmitNextPublicKey ks) ∨
    (∃ ks, c = SubmitPublicKey ks) ∨ ∃ ks, c = SubmitNextPublicKey ks) as Hc
    by (destruct c; naive_solver).
  destruct Hc as [[? ?]|Hc].
  { by eapply (preserves_final (own (keys_from K))); [apply keys_metadata_call|]. }
  destruct (metadata_call o c (s, w)) as [u [t w']|e q|] eqn:Hr; simpl; intros [= <-].
  2: { apply dispatch_Fail in Hr. by subst. }
  unfold metadata_call in Hr. apply (proj1 (dispatch_Ret _ _ _ _)) in Hr. destruct Hs as [Hc' Hn].
  destruct Hc as [[ks ->]|[ks ->]].
  - apply submit_public_key_Ret in Hr as (_ & _ & _ & key & vs & Hb & Ht & Hd & Hnx & _).
    split; simpl; [rewrite Hd|by rewrite Hnx]. intros i k [= <- <-]. apply Hq. exists ks, vs. auto.
  - apply submit_next_public_key_Ret in Hr as (_ & _ & _ & key & vs & Hb & Ht & Hd & Hcur & _).
    split; simpl; [by rewrite Hcur|rewrite Hd]. intros i k [= <- <-]. apply Hq. exists ks, vs. auto.
Qed.
End keys.
