(* ===== verification/MetadataPending.v ===== *)
(** * The pending refresh proposal of pallet-dkg-metadata

    The proposal that waits for a signature can always be encoded: it is stored by the
    code that encodes it next, and a proposal that cannot be encoded makes that code
    panic.  So the comparison with a signed refresh never panics. *)

From S2P Require Import Prelude.
From S2P Require Import Frame.
From S2P Require Import Primitives.
From S2P Require Import Merkle.
From S2P Require Import Traits.
From S2P Require Import Metadata.
From S2P Require Import MetadataQuorum.
Import Dkg.

(** The pending proposal, if there is one, has an encoding. *)
Definition pending_encodes `{WebbProposals} (s : Metadata) : Prop :=
  ∀ p, PendingRefreshProposal s = Some p →
    ∃ bs, refresh_encode p = (Ok bs : result MetadataError bytes).

Section pending.
Context `{MetadataConfig, WebbProposals, Crypto, MerkleLeaf} {W F : Type}.
Context `{System W, OnAuthoritySetChangeHandler W F, ProposalHandlerTrait W F}.
Implicit Types (s t : Metadata) (w : W).

Abbreviation MD A := (M (Metadata * W) (DispatchError MetadataError F) A).
Abbreviation keeps m := (preserves (own pending_encodes) m).

Lemma pending_writes f :
  (∀ s, pending_encodes s → pending_encodes (f s)) → keeps (writes f : MD unit).
Proof. apply preserves_writes. Qed.

#[local] Hint Extern 1 (preserves (own pending_encodes) (writes _)) =>
  apply pending_writes; exact (λ s Hs, Hs) : preserves.

Lemma pending_drop : keeps (store! PendingRefreshProposal := None : MD unit).
Proof. apply pending_writes. by intros s _ p. Qed.

#[local] Hint Resolve pending_drop | 0 : preserves.

Lemma refresh_encode_no_error {E} p (e : E) : refresh_encode p ≠ Err e.
Proof.
  unfold refresh_encode, copy_range.
  repeat (case_decide; cbn [mbind result_bind]; [|done]). done.
Qed.

Lemma pending_create_refresh_proposal pk n : keeps (create_refresh_proposal pk n : MD _).
Proof.
  unfold create_refresh_proposal.
  apply preserves_bind; [solve_preserves|intros key].
  apply preserves_bind; [unfold create_voter_set_data; solve_preserves|intros data].
  cbv zeta. intros [s w] Hs. unfold wp. mrun.
  destruct (refresh_encode _) as [bs|e|] eqn:He; [| |done].
  - intros p. simp_get. intros [= <-]. by exists bs.
  - by apply refresh_encode_no_error in He.
Qed.

#[local] Hint Resolve pending_create_refresh_proposal : preserves.

Lemma pending_change_authorities ids next_ids accs next_accs forced :
  keeps (change_authorities ids next_ids accs next_accs forced : MD unit).
Proof.
  unfold change_authorities, rotate_keys, store_consensus_log, insert_historical_refresh,
    record_used_signature, fit_next_thresholds, update_next_keygen_threshold,
    update_next_signature_threshold, deposit_log, deposit_event.
  solve_preserves.
Qed.

Lemma pending_process_public_keys set ks d : keeps (process_public_keys set ks d : MD _).
Proof.
  revert d. induction ks as [|[k sig] ks IH]; intros d; simpl; [auto with preserves|].
  apply preserves_bind; [auto with preserves|intros l].
  destruct (verify_signer_from_set_ecdsa _ _ _). auto with preserves.
Qed.

Lemma pending_accept_first th accept d :
  (∀ k v, keeps (accept k v : MD unit)) → keeps (accept_first th accept d : MD bool).
Proof.
  intros Ha. induction d as [|[k v] d IH]; simpl; [auto with preserves|].
  destruct (_ <=? _); auto with preserves.
Qed.

Lemma pending_jail_keygen now o l : keeps (jail_keygen now o l : MD bool).
Proof.
  unfold jail_keygen, put_next_best, drop_keygen_threshold, update_next_keygen_threshold,
    update_pending_keygen_threshold, deposit_event.
  solve_preserves.
Qed.

Lemma pending_jail_signing now o th : keeps (jail_signing now o th : MD unit).
Proof. unfold jail_signing, update_next_signature_threshold, deposit_event. solve_preserves. Qed.

#[local] Hint Resolve pending_change_authorities pending_process_public_keys
  pending_accept_first pending_jail_keygen pending_jail_signing : preserves.

Lemma pending_misbehaviour o r : keeps (submit_misbehaviour_reports o r : MD unit).
Proof.
  unfold submit_misbehaviour_reports, bump_next_unsigned_at, deposit_event. solve_preserves.
Qed.

#[local] Hint Resolve pending_misbehaviour : preserves.

Lemma pending_metadata_call o c : keeps (metadata_call o c : MD unit).
Proof.
  apply preserves_dispatch. destruct c; cbv iota;
    unfold set_signature_threshold, set_keygen_threshold, submit_public_key,
    submit_next_public_key, process_public_key_submissions, bump_next_unsigned_at,
    update_signature_threshold, update_keygen_threshold, unjail,
    force_unjail_keygen, force_unjail_signing, force_change_authorities,
    trigger_emergency_keygen, deposit_event;
    solve_preserves.
Qed.

Lemma pending_on_new_session v q : keeps (on_new_session v q : MD unit).
Proof.
  unfold on_new_session, register_accounts.
  do 2 (apply preserves_bind; [apply preserves_for_each; intros []; auto with preserves|intros _]).
  solve_preserves.
Qed.

Lemma pending_build ids n th : keeps (build ids n th : MD unit).
Proof. unfold build. solve_preserves. Qed.

Lemma pending_on_genesis_session v : keeps (on_genesis_session v : MD unit).
Proof. unfold on_genesis_session, initialize_authorities. solve_preserves. Qed.

Lemma pending_on_initialize n : keeps (on_initialize n : MD unit).
Proof. unfold on_initialize, do_refresh. solve_preserves. Qed.

Lemma pending_on_disabled i : keeps (on_disabled i : MD unit).
Proof. unfold on_disabled, deposit_log. solve_preserves. Qed.

Lemma pending_on_signed_proposal p : keeps (on_signed_proposal p : MD unit).
Proof. unfold on_signed_proposal, deposit_event. solve_preserves. Qed.

(** A signed refresh is compared with the pending one without a panic. *)
Lemma on_signed_proposal_no_panic p s w :
  pending_encodes s → (on_signed_proposal p : MD unit) (s, w) ≠ Panic.
Proof.
  intros Hs. unfold on_signed_proposal, deposit_event. mrun.
  destruct (is_signed p); [|done]. case_decide; [|done]. mrun.
  destruct (NextDKGPublicKey s); [|done]. mrun.
  destruct (bool_decide _); [|done]. mrun.
  destruct (PendingRefreshProposal s) as [curr|] eqn:Hp; [|done].
  rewrite bool_decide_true by done. change (default ?x (Some curr)) with curr. mrun.
  destruct (Hs curr Hp) as [bs ->]. mrun.
  destruct (bool_decide _); [|done]. mrun. destruct (try_bound _ _); [|done]. mrun.
  by destruct (negb _).
Qed.
End pending.
