(* ===== verification/MetadataSubmission.v ===== *)
(** * Which key submissions pallet-dkg-metadata accepts

    The outcome of [submit_next_public_key] for every list of keys and signatures,
    against a reference count of the signers of each key: accepted is the least key in
    byte order that enough distinct authorities signed, and one signature of somebody
    else makes the whole list fail. *)

From S2P Require Import Prelude.
From S2P Require Import Frame.
From S2P Require Import Primitives.
From S2P Require Import Merkle.
From S2P Require Import Traits.
From S2P Require Import Metadata.
From S2P Require Import MetadataQuorum.
Import Dkg.

(** ** The order of keys *)

Lemma bytes_compare_refl a : bytes_compare a a = Eq.
Proof. induction a as [|x a IH]; cbn; [done|]. by rewrite Z.compare_refl. Qed.

Lemma bytes_compare_opp a b : bytes_compare b a = CompOpp (bytes_compare a b).
Proof.
  revert b. induction a as [|x a IH]; intros [|y b]; cbn; try done.
  rewrite (Z.compare_antisym x y). destruct (x ?= y); cbn; [apply IH|done..].
Qed.

Definition bytes_lt (a b : bytes) : Prop := bytes_compare a b = Lt.

#[export] Instance bytes_lt_trans : Transitive bytes_lt.
Proof.
  intros a. unfold bytes_lt. induction a as [|x a IH]; intros [|y b] [|z c]; cbn; try done.
  destruct (Z.compare_spec x y), (Z.compare_spec y z), (Z.compare_spec x z);
    subst; try done || lia. apply IH.
Qed.

Lemma bytes_lt_irrefl a : ¬ bytes_lt a a.
Proof. unfold bytes_lt. by rewrite bytes_compare_refl. Qed.

(** ** The dictionary is a map in key order *)

Abbreviation dict_sorted := (StronglySorted (λ e f : bytes * list DKGId, bytes_lt e.1 f.1)).

Definition add_voter (a : DKGId) (v : list DKGId) : list DKGId :=
  if decide (a ∈ v) then v else v ++ [a].

Lemma dict_add_keys k a d e : e ∈ dict_add k a d → e.1 = k ∨ e.1 ∈ d.*1.
Proof.
  destruct e as [k' v]. intros [Hin|[-> _]]%dict_add_cases; [right|by left].
  apply list_elem_of_fmap. by exists (k', v).
Qed.

Lemma dict_add_sorted k a d : dict_sorted d → dict_sorted (dict_add k a d).
Proof.
  induction 1 as [|[k' v] d Hs IH Hall]; cbn; [by repeat constructor|].
  destruct (bytes_compare k k') eqn:Hc.
  - by constructor.
  - constructor; [by constructor|]. constructor; [exact Hc|].
    eapply Forall_impl; [exact Hall|]. intros [k1 v1]. by apply transitivity.
  - constructor; [done|]. apply Forall_forall. intros e [->|He]%dict_add_keys.
    + unfold bytes_lt. cbn. by rewrite bytes_compare_opp, Hc.
    + apply list_elem_of_fmap in He as (f & -> & Hf). rewrite Forall_forall in Hall. by apply Hall.
Qed.

Lemma dict_sorted_fresh k k' v d :
  dict_sorted ((k', v) :: d) → bytes_lt k k' → k ∉ ((k', v) :: d).*1.
Proof.
  intros [_ Hall]%StronglySorted_inv Hlt. cbn. rewrite not_elem_of_cons. split.
  - intros ->. by apply bytes_lt_irrefl in Hlt.
  - intros ([k1 v1] & -> & He)%list_elem_of_fmap. rewrite Forall_forall in Hall.
    specialize (Hall _ He). cbn in Hall. by apply (bytes_lt_irrefl k1), (transitivity Hlt).
Qed.

Lemma dict_add_map k a d :
  dict_sorted d →
  (list_to_map (dict_add k a d) : gmap bytes (list DKGId)) =
    <[k := add_voter a (default [] ((list_to_map d : gmap bytes (list DKGId)) !! k))]>
      (list_to_map d).
Proof.
  induction 1 as [|[k' v] d Hs IH Hall]; [done|].
  cbn [dict_add]. destruct (bytes_compare k k') eqn:Hc; cbn.
  - apply bytes_compare_eq in Hc as <-. by rewrite lookup_insert_eq, insert_insert_eq.
  - assert (k ∉ ((k', v) :: d).*1) as Hk by (apply dict_sorted_fresh; [by constructor|done]).
    apply not_elem_of_list_to_map_1 in Hk. cbn in Hk. rewrite Hk. by unfold add_voter.
  - assert (k ≠ k') by (intros ->; by rewrite bytes_compare_refl in Hc).
    by rewrite lookup_insert_ne, IH, insert_insert_ne.
Qed.

Lemma dict_elem k v d :
  dict_sorted d → (k, v) ∈ d ↔ (list_to_map d : gmap bytes (list DKGId)) !! k = Some v.
Proof.
  intros Hd. apply elem_of_list_to_map.
  induction Hd as [|[k' v'] d Hs IH Hall]; cbn; constructor; [|done].
  intros ([k1 v1] & -> & He)%list_elem_of_fmap. rewrite Forall_forall in Hall.
  by apply (bytes_lt_irrefl k1), (Hall _ He).
Qed.

(** ** The reference count *)

Section submission.
Context `{MetadataConfig, WebbProposals, Crypto, MerkleLeaf} {W F : Type}.
Context `{System W, OnAuthoritySetChangeHandler W F, ProposalHandlerTrait W F}.
Implicit Types (s t : Metadata) (w : W) (set : list DKGId) (ks : AggregatedPublicKeys).

Abbreviation MD A := (M (Metadata * W) (DispatchError MetadataError F) A).

(** The authority of the set that made a signature. *)
Definition signer set (e : bytes * bytes) : option DKGId :=
  mkDKGId <$> (verify_signer_from_set_ecdsa (dkg_bytes <$> set) e.1 e.2).1.

(** The distinct signers of a key, in the order of the list. *)
Definition tally set ks (key : bytes) : list DKGId :=
  foldl (λ v a, add_voter a v) []
    (omap (λ e : bytes * bytes, if decide (e.1 = key) then signer set e else None) ks).

(** The keys of the list with the signers of each. *)
Definition count set ks : gmap bytes (list DKGId) :=
  list_to_map ((λ e : bytes * bytes, (e.1, tally set ks e.1)) <$> ks).

Lemma tally_snoc set ks e a key :
  signer set e = Some a →
  tally set (ks ++ [e]) key =
    if decide (e.1 = key) then add_voter a (tally set ks key) else tally set ks key.
Proof.
  intros Ha. unfold tally. rewrite omap_app, foldl_app. cbn.
  destruct (decide (e.1 = key)); [|done]. by rewrite Ha.
Qed.

Lemma tally_absent set ks key : key ∉ ks.*1 → tally set ks key = [].
Proof.
  intros Hk. unfold tally. induction ks as [|e ks IH]; [done|].
  apply not_elem_of_cons in Hk as [Hne Hk]. cbn. rewrite decide_False by congruence. by apply IH.
Qed.

Lemma count_lookup set ks key :
  count set ks !! key = if decide (key ∈ ks.*1) then Some (tally set ks key) else None.
Proof.
  unfold count. case_decide as Hk.
  - generalize (tally set ks). intros f. induction ks as [|[k sig] ks IH]; cbn; [by apply not_elem_of_nil in Hk|].
    destruct (decide (k = key)) as [->|Hne]; [by rewrite lookup_insert_eq|].
    rewrite lookup_insert_ne by done. apply IH. by apply elem_of_cons in Hk as [->|].
  - apply not_elem_of_list_to_map_1. by rewrite <- list_fmap_compose.
Qed.

Lemma count_snoc set ks e a :
  signer set e = Some a →
  count set (ks ++ [e]) =
    <[e.1 := add_voter a (default [] (count set ks !! e.1))]> (count set ks).
Proof.
  intros Ha. apply map_eq. intros key. rewrite count_lookup, fmap_app.
  destruct (decide (key = e.1)) as [->|Hne].
  - rewrite decide_True, lookup_insert_eq by set_solver.
    rewrite (tally_snoc _ _ _ a), decide_True by done. do 2 f_equal.
    rewrite count_lookup. case_decide as Hk; [done|]. cbn.
    by apply tally_absent.
  - rewrite lookup_insert_ne, count_lookup by done. rewrite (tally_snoc _ _ _ a) by done.
    rewrite (decide_False (P := e.1 = key)) by done. cbn.
    destruct (decide (key ∈ ks.*1)); [rewrite decide_True by set_solver|
      rewrite decide_False by set_solver]; done.
Qed.

(** The keys of the set are well formed, so that the conversion does not panic. *)
Definition well_formed set : Prop := ∀ x, x ∈ set → length (dkg_bytes x) = 33%nat.

Lemma ecdsa_keys_wf set : well_formed set → ecdsa_keys set = Some (dkg_bytes <$> set).
Proof.
  intros Hs. unfold ecdsa_keys. apply mapM_Some, Forall2_fmap_r, Forall_Forall2_diag, Forall_forall.
  intros x Hx. unfold to_slice_33, ECDSA_KEY_LENGTH. by rewrite (Hs x Hx).
Qed.

Lemma process_run set pre ks d p :
  well_formed set → dict_sorted d → list_to_map d = count set pre →
  if decide (Forall (λ e, is_Some (signer set e)) ks) then
    ∃ d', (process_public_keys set ks d : MD _) p = Ret d' p ∧ dict_sorted d' ∧
      list_to_map d' = count set (pre ++ ks)
  else (process_public_keys set ks d : MD _) p = Fail (Module CannotRetreiveSigner) p.
Proof.
  intros Hwf. revert pre d. induction ks as [|[key sig] ks IH]; intros pre d Hd Hm.
  { rewrite decide_True by done. exists d. by rewrite app_nil_r. }
  cbn [process_public_keys]. rewrite run_expect, (ecdsa_keys_wf _ Hwf).
  pose proof (eq_refl (signer set (key, sig))) as Hs. unfold signer in Hs at 2. cbn [fst snd] in Hs.
  destruct (verify_signer_from_set_ecdsa _ key sig) as [[x|] b] eqn:Hv; cbn in Hs.
  - apply verify_signer_in in Hv as [-> _]. rewrite run_ok_or.
    specialize (IH (pre ++ [(key, sig)]) (dict_add key (mkDKGId x) d)).
    rewrite <- (assoc_L (++)) in IH.
    assert (list_to_map (dict_add key (mkDKGId x) d) = count set (pre ++ [(key, sig)])) as Hm'.
    { by rewrite dict_add_map, Hm, (count_snoc _ _ _ (mkDKGId x)). }
    specialize (IH (dict_add_sorted _ _ _ Hd) Hm').
    destruct (decide (Forall _ ks)) as [Hks|Hks].
    + rewrite decide_True; [exact IH|]. by constructor; [rewrite Hs|].
    + rewrite decide_False; [exact IH|]. by intros [_ ?]%Forall_cons.
  - rewrite decide_False; [done|]. intros [Hx _]%Forall_cons. rewrite Hs in Hx. by destruct Hx.
Qed.

(** The loop over the dictionary takes the first key with enough signers. *)
Lemma accept_first_run threshold accept d p :
  (accept_first threshold accept d : MD bool) p =
    match list_find (λ e, threshold <= len e.2) d with
    | Some (_, (key, voters)) => (accept key voters;; mret true) p
    | None => Ret false p
    end.
Proof.
  induction d as [|[key v] d IH]; [done|]. cbn [accept_first list_find fst snd].
  destruct (Z.leb_spec threshold (len v)); [by rewrite decide_True|].
  rewrite decide_False by lia. rewrite IH. by destruct (list_find _ d) as [[? []]|].
Qed.

Lemma reputation_loop_runs (g : gmap DKGId Z → DKGId → Z) l s w :
  ∃ t, (for_each l (λ a, mutate! AuthorityReputations ::= λ m, <[a := g m a]> m) : MD unit) (s, w)
    = Ret tt (t, w) ∧ same_but_reputations s t.
Proof.
  revert s. induction l as [|a l IH]; intros s; [exists s; split; [done|by destruct s]|].
  destruct (IH (s <| AuthorityReputations ::= λ m, <[a := g m a]> m |>)) as (t & Ht & Hs).
  exists t. cbn [for_each]. split; [exact Ht|]. unfold same_but_reputations in *.
  destruct s, t; cbn in *. by simplify_eq.
Qed.

(** The least key in byte order among those with enough signers. *)
Record wins set ks (threshold : Z) (key : bytes) : Prop := {
  win_listed : key ∈ ks.*1;
  win_enough : threshold <= len (tally set ks key);
  win_least key' : key' ∈ ks.*1 → threshold <= len (tally set ks key') →
    key' = key ∨ bytes_lt key key' }.

Lemma wins_unique set ks threshold key key' :
  wins set ks threshold key → wins set ks threshold key' → key = key'.
Proof.
  intros [Hl He Hm] [Hl' He' Hm']. destruct (Hm key' Hl' He') as [|Hlt]; [done|].
  destruct (Hm' key Hl He) as [|Hlt']; [done|]. destruct (bytes_lt_irrefl key). by transitivity key'.
Qed.

Lemma sorted_lookup {A} (R : A → A → Prop) l i j x y :
  StronglySorted R l → l !! i = Some x → l !! j = Some y → (i < j)%nat → R x y.
Proof.
  intros Hl. revert i j. induction Hl as [|z l _ IH Hall]; intros [|i] [|j] Hi Hj Hlt; try done || lia.
  - injection Hi as ->. rewrite Forall_forall in Hall. by eapply Hall, list_elem_of_lookup_2.
  - apply (IH i j); [done..|lia].
Qed.

Lemma dict_elem_tally set ks d key v :
  dict_sorted d → list_to_map d = count set ks →
  (key, v) ∈ d ↔ key ∈ ks.*1 ∧ v = tally set ks key.
Proof.
  intros Hd Hm. rewrite dict_elem, Hm, count_lookup by done. case_decide; naive_solver.
Qed.

Lemma winner_found set ks d threshold :
  dict_sorted d → list_to_map d = count set ks →
  match list_find (λ e, threshold <= len e.2) d with
  | Some (_, (key, voters)) => wins set ks threshold key ∧ voters = tally set ks key
  | None => ∀ key, key ∈ ks.*1 → len (tally set ks key) < threshold
  end.
Proof.
  intros Hd Hm. pose proof (λ key v, dict_elem_tally set ks d key v Hd Hm) as Hin.
  destruct (list_find _ d) as [[i [key v]]|] eqn:Hf.
  - apply list_find_Some in Hf as (Hi & Hle & Hbefore). cbn in Hle.
    assert ((key, v) ∈ d) as [Hk ->]%Hin by by eapply list_elem_of_lookup_2.
    split; [|done]. split; [done..|]. intros key' Hk' Hle'.
    assert ((key', tally set ks key') ∈ d) as Hd' by by apply Hin.
    apply list_elem_of_lookup in Hd' as [j Hj].
    destruct (Nat.lt_trichotomy i j) as [Hlt|[->|Hlt]].
    + right. by apply (sorted_lookup _ _ _ _ _ _ Hd Hi Hj).
    + left. congruence.
    + destruct (Hbefore j _ Hj Hlt). done.
  - apply list_find_None in Hf. intros key Hk. rewrite Forall_forall in Hf.
    assert ((key, tally set ks key) ∈ d) as Hd' by by apply Hin.
    specialize (Hf _ Hd'). cbn in Hf. lia.
Qed.

(** What is done for the key that wins. *)
Definition accept_next (key : bytes) (accounts : list DKGId) : MD unit :=
  bounded_key ← ok_or (try_bound MaxKeyLength key) (Module OutOfBounds);
  set_id ← reads NextAuthoritySetId;
  store! NextDKGPublicKey := Some (set_id, bounded_key);;
  for_each accounts (λ authority,
    mutate! AuthorityReputations ::= λ m,
      <[authority := saturating_add 128 (default 0 (m !! authority)) REPUTATION_INCREMENT]> m);;
  deposit_event (NextPublicKeySubmitted key);;
  bump_next_unsigned_at;;
  store! RefreshInProgress := false.

Lemma accept_next_runs key accounts s w :
  len key <= MaxKeyLength →
  ∃ t, accept_next key accounts (s, w) = Ret tt (t, w) ∧
    NextDKGPublicKey t = Some (NextAuthoritySetId s, key) ∧ DKGPublicKey t = DKGPublicKey s.
Proof.
  intros Hl. unfold accept_next, deposit_event, bump_next_unsigned_at. mrun. unfold try_bound.
  rewrite (proj2 (Z.leb_le _ _) Hl). mrun.
  destruct (reputation_loop_runs (λ m a, saturating_add 128 (default 0 (m !! a))
    REPUTATION_INCREMENT) accounts (s <| NextDKGPublicKey := Some (NextAuthoritySetId s, key) |>) w)
    as (t & Ht & Hs).
  unfold mbind at 1, M_bind at 1. rewrite Ht. mrun. eexists. split; [reflexivity|].
  simp_get. rewrite Hs. by simp_get.
Qed.

Lemma submit_next_run ks s w d :
  NextDKGPublicKey s = None →
  (process_public_keys (NextBestAuthorities s).*2 ks [] : MD _) (s, w) = Ret d (s, w) →
  (submit_next_public_key NoOrigin ks : MD unit) (s, w) =
    match list_find (λ e, NextSignatureThreshold s <= len e.2) d with
    | Some (_, (key, voters)) => accept_next key voters (s, w)
    | None => Fail (Module InvalidPublicKeys) (s, w)
    end.
Proof.
  intros Hn Hr. unfold submit_next_public_key, process_public_key_submissions, ensure_none. mrun.
  rewrite Hn, (bool_decide_true (None = None)) by done. mrun.
  rewrite (run_call _ _ _ _ _ Hr). mrun. unfold mbind at 1, M_bind at 1. rewrite accept_first_run.
  destruct (list_find _ d) as [[i [key v]]|]; [|done]. unfold accept_next. mrun.
  destruct (try_bound _ _); [|done]. mrun.
  unfold mbind, M_bind. by destruct (for_each _ _ _).
Qed.

Lemma next_key_outcome ks s w :
  let set := (NextBestAuthorities s).*2 in
  let run := (submit_next_public_key NoOrigin ks : MD unit) (s, w) in
  NextDKGPublicKey s = None → well_formed set →
  if decide (Forall (λ e, is_Some (signer set e)) ks) then
    (∃ key, wins set ks (NextSignatureThreshold s) key ∧
       if len key <=? MaxKeyLength
       then ∃ t, run = Ret tt (t, w) ∧ NextDKGPublicKey t = Some (NextAuthoritySetId s, key) ∧
              DKGPublicKey t = DKGPublicKey s
       else run = Fail (Module OutOfBounds) (s, w)) ∨
    (∀ key, key ∈ ks.*1 → len (tally set ks key) < NextSignatureThreshold s) ∧
      run = Fail (Module InvalidPublicKeys) (s, w)
  else run = Fail (Module CannotRetreiveSigner) (s, w).
Proof.
  intros set run Hn Hwf.
  pose proof (process_run set [] ks [] (s, w) Hwf (SSorted_nil _) eq_refl) as Hp. cbn [app] in Hp.
  destruct (decide (Forall _ ks)) as [Hall|Hall].
  - destruct Hp as (d & Hr & Hd & Hm).
    pose proof (winner_found set ks d (NextSignatureThreshold s) Hd Hm) as Hw.
    unfold run. rewrite (submit_next_run ks s w d Hn Hr).
    destruct (list_find _ d) as [[i [key v]]|]; [left|by right].
    destruct Hw as [Hwin ->]. exists key. split; [done|].
    destruct (Z.leb_spec (len key) MaxKeyLength) as [Hle|Hgt].
    + destruct (accept_next_runs key (tally set ks key) s w Hle) as (t & Ht & Hk & Hc). by exists t.
    + unfold accept_next. mrun. unfold try_bound. by rewrite (proj2 (Z.leb_gt _ _) Hgt).
  - unfold run, submit_next_public_key, process_public_key_submissions, ensure_none. mrun.
    rewrite Hn, (bool_decide_true (None = None)) by done. mrun.
    fold set. unfold mbind at 1, M_bind at 1. by rewrite Hp.
Qed.

(** C7: the outcome of every list of keys and signatures that is submitted while there is
    no next key; the members of the set are keys of 33 bytes, as their type says.  It is
    decided by the signers first: one signature that no next best authority made is
    [CannotRetreiveSigner].  If all are by such authorities, the least key in byte order
    among those with as many distinct signers as the threshold becomes the next key,
    unless it is longer than the bound on keys, which is [OutOfBounds]; if no key has
    enough, the list is refused as [InvalidPublicKeys].  A refused list writes nothing. *)
Theorem next_key_submission ks s w :
  let set := (NextBestAuthorities s).*2 in
  let run := (submit_next_public_key NoOrigin ks : MD unit) (s, w) in
  NextDKGPublicKey s = None → well_formed set →
  if decide (Forall (λ e, is_Some (signer set e)) ks) then
    (∃ key, wins set ks (NextSignatureThreshold s) key ∧
       if len key <=? MaxKeyLength
       then ∃ t, run = Ret tt (t, w) ∧ NextDKGPublicKey t = Some (NextAuthoritySetId s, key) ∧
              DKGPublicKey t = DKGPublicKey s
       else run = Fail (Module OutOfBounds) (s, w)) ∨
    (∀ key, key ∈ ks.*1 → len (tally set ks key) < NextSignatureThreshold s) ∧
      run = Fail (Module InvalidPublicKeys) (s, w)
  else run = Fail (Module CannotRetreiveSigner) (s, w).
Proof. apply next_key_outcome. Qed.
End submission.
