(* ===== verification/Sessions.v ===== *)
(** * Session timing and the offchain workers of pallet-dkg-metadata

    [DKGPeriodicSessions] decides when a session ends; the offchain workers
    submit aggregated public keys and misbehaviour reports that the gadget left
    in offchain storage. *)

From S2P Require Import Prelude.
From S2P Require Import Frame.
From S2P Require Import Primitives.
From S2P Require Import Merkle.
From S2P Require Import Traits.
From S2P Require Import Metadata.
Import Dkg.

(** [Permill]. *)
Class PermillOps := {
  Permill : Type;
  permill_from_percent : Z → Permill;
  permill_from_rational : Z → Z → Permill }.

Module Sessions.
Section sessions.
Context (Period Offset : Z).

(** [a % b], a panic for a zero divisor. *)
Definition rem_or_panic (a b : Z) : result Empty_set Z :=
  if b =? 0 then Panics else Ok (a mod b).

Definition should_end_session (s : Metadata) (now : Z) : result Empty_set bool :=
  let next_public_key_exists := bool_decide (is_Some (NextDKGPublicKey s)) in
  let next_public_key_signature_exists := bool_decide (is_Some (NextPublicKeySignature s)) in
  if next_public_key_exists && next_public_key_signature_exists && (Offset <=? now) then
    r ← rem_or_panic (now - Offset) Period; mret (0 <=? r)
  else mret false.

Definition average_session_length : Z := Period.

Definition estimate_current_session_progress `{PermillOps} (s : Metadata) (now : Z)
    : result Empty_set Permill :=
  if Offset <=? now then
    let current_elapsed_time := saturating_sub now (LastSessionRotationBlock s) in
    if Period <? current_elapsed_time then mret (permill_from_percent 100)
    else
      r ← rem_or_panic (now - Offset) Period;
      mret (permill_from_rational (wrap 32 (r + 1)) Period)
  else mret (permill_from_rational (wrap 32 (now + 1)) Offset).

Definition estimate_next_session_rotation (now : Z) : result Empty_set Z :=
  if Offset <? now then
    block_after_last_session ← rem_or_panic (now - Offset) Period;
    if 0 <? block_after_last_session
    then mret (saturating_add 32 now (saturating_sub Period block_after_last_session))
    else mret (wrap 32 (now + Period))
  else mret Offset.

(** A session ends as soon as the next key and its signature are on chain and the
    offset has passed: the remainder of an unsigned division is never negative, so the
    period does not delay it, although the documentation asks for an elapsed period. *)
Theorem should_end_session_ignores_period s now :
  0 < Period →
  should_end_session s now =
  Ok (bool_decide (is_Some (NextDKGPublicKey s)) &&
      bool_decide (is_Some (NextPublicKeySignature s)) && (Offset <=? now)).
Proof.
  intros Hpos. unfold should_end_session, rem_or_panic.
  destruct (_ && _); [|done]. destruct (Z.eqb_spec Period 0); [lia|]. simpl.
  pose proof (Z.mod_pos_bound (now - Offset) Period Hpos).
  by destruct (Z.leb_spec 0 ((now - Offset) mod Period)); [|lia].
Qed.

(** The estimated next rotation lies strictly in the future, at most one period
    ahead, and on the grid of the period, as long as the block number does not
    reach the end of u32. *)
Theorem estimate_next_session_rotation_next now :
  0 < Period → Offset < now → 0 <= now → now + Period < 2 ^ 32 →
  ∃ r, estimate_next_session_rotation now = Ok r ∧ now < r <= now + Period ∧
       (r - Offset) mod Period = 0.
Proof.
  intros Hp Ho Hn Hw. unfold estimate_next_session_rotation, rem_or_panic.
  destruct (Z.ltb_spec Offset now); [|lia]. destruct (Z.eqb_spec Period 0); [lia|]. simpl.
  pose proof (Z.mod_pos_bound (now - Offset) Period Hp) as Hb.
  set (b := (now - Offset) mod Period) in *.
  destruct (Z.ltb_spec 0 b).
  - eexists. split; [done|]. unfold saturating_sub. rewrite Z.max_r by lia.
    rewrite saturating_add_exact by lia. split; [lia|].
    replace (now + (Period - b) - Offset) with (((now - Offset) - b) + 1 * Period) by lia.
    rewrite Z.mod_add by lia. subst b. rewrite Zminus_mod_idemp_r, Z.sub_diag. done.
  - eexists. split; [done|]. rewrite wrap_small by (unfold in_width; lia). split; [lia|].
    replace (now + Period - Offset) with ((now - Offset) + 1 * Period) by lia.
    rewrite Z.mod_add by lia. fold b. lia.
Qed.
End sessions.
End Sessions.

(** ** Offchain storage *)

(** What [StorageValueRef::get] finds: nothing, undecodable bytes, or a value. *)
Inductive Stored (A : Type) := Missing | Corrupt | Present (a : A).
Arguments Missing {A}.
Arguments Corrupt {A}.
Arguments Present {A} _.

Record OffchainKeys := mkOffchainKeys {
  agg_keys : Stored AggregatedPublicKeys;
  submit_at : Stored Z }.

#[export] Instance eta_OffchainKeys : Eta OffchainKeys :=
  λ o, mkOffchainKeys (agg_keys o) (submit_at o).

(** The outcome of a worker: an error message or success, the offchain storage
    left behind, and the call sent to the pool, if any. *)
Abbreviation WorkerResult S := ((string + unit) * S * option MetadataCall)%type.

Module Workers.
Section workers.
(** Whether the transaction pool takes the call. *)
Context (submit_unsigned_transaction : MetadataCall → bool).

Definition submit_keys_onchain (known : bool) (mk : AggregatedPublicKeys → MetadataCall)
    (retry_message : string) (s : Metadata) (o : OffchainKeys) (block_number : Z)
    : WorkerResult OffchainKeys :=
  if block_number <? NextUnsignedAt s
  then (inl "Too early to send unsigned transaction", o, None) else
  match agg_keys o with
  | Missing => (inr tt, o, None)
  | keys =>
      match submit_at o with
      | Present at_ =>
          if block_number <? at_ then (inr tt, o, None) else
          let o := o <| submit_at := Missing |> in
          if known then (inr tt, o <| agg_keys := Missing |>, None) else
          match keys with
          | Present ks =>
              let call := mk ks in
              if submit_unsigned_transaction call
              then (inr tt, o <| agg_keys := Missing |>, Some call)
              else (inl retry_message, o, Some call)
          | _ => (inr tt, o, None)
          end
      | _ => (inl "Already submitted a key in this session", o, None)
      end
  end.

Definition submit_genesis_public_key_onchain (s : Metadata) (o : OffchainKeys)
    (block_number : Z) : WorkerResult OffchainKeys :=
  submit_keys_onchain (negb (bool_decide ((dkg_public_key s).2 = []))) SubmitPublicKey
    "Failed to submit the public key, will retry later" s o block_number.

Definition submit_next_public_key_onchain (s : Metadata) (o : OffchainKeys)
    (block_number : Z) : WorkerResult OffchainKeys :=
  submit_keys_onchain (bool_decide (is_Some (NextDKGPublicKey s))) SubmitNextPublicKey
    "Failed to submit the next public key, will retry later" s o block_number.

Definition submit_misbehaviour_reports_onchain (can_sign : bool) (s : Metadata)
    (o : Stored AggregatedMisbehaviourReports) (block_number : Z)
    : WorkerResult (Stored AggregatedMisbehaviourReports) :=
  if block_number <? NextUnsignedAt s
  then (inl "Too early to send unsigned transaction", o, None) else
  if negb can_sign then (inl "No local accounts available", o, None) else
  match o with
  | Present reports =>
      if bool_decide (is_Some (MisbehaviourReports s !!
           (misbehaviour_type reports, report_session_id reports, offender reports)))
      then (inr tt, Missing, None) else
      let call := SubmitMisbehaviourReports reports in
      if submit_unsigned_transaction call then (inr tt, Missing, Some call)
      else (inl "Failed to submit the misbehaviour reports, will retry later", o, Some call)
  | _ => (inr tt, o, None)
  end.

(** The worker sends the aggregated next key only when the unsigned cool-down is
    over, its scheduled block has come and the chain has no next key yet; a call that
    the pool took is not sent again, and after any attempt the schedule is cleared. *)
Theorem submit_next_public_key_onchain_once s o block r o' call :
  submit_next_public_key_onchain s o block = (r, o', Some call) →
  NextUnsignedAt s <= block ∧ NextDKGPublicKey s = None ∧
  (∃ ks at_, agg_keys o = Present ks ∧ submit_at o = Present at_ ∧ at_ <= block ∧
     call = SubmitNextPublicKey ks) ∧
  submit_at o' = Missing ∧ (r = inr tt → agg_keys o' = Missing) ∧
  ∀ block', (submit_next_public_key_onchain s o' block').2 = None.
Proof.
  unfold submit_next_public_key_onchain, submit_keys_onchain.
  destruct (Z.ltb_spec block (NextUnsignedAt s)); [done|].
  destruct (agg_keys o) as [| |ks] eqn:Hk; [done|..];
    destruct (submit_at o) as [| |at_] eqn:Ha; try done;
    destruct (Z.ltb_spec block at_); try done;
    case_bool_decide as Hn; try done.
  destruct (submit_unsigned_transaction _); intros [= <- <- <-];
    (split_and!; [lia|by apply eq_None_not_Some|by exists ks, at_|done|done|]);
    intros block'; simpl; rewrite ?Hk; by repeat case_match.
Qed.
End workers.
End Workers.
