(* ===== verification/Runtime.v ===== *)
(** * The runtime: the pallets wired together

    The composition of src/standalone/runtime/src/lib.rs: the configuration of
    the four pallets, the interfaces through which they call each other, the
    genesis build, the dispatch of calls and the hooks, as one transition system
    on the storage of the whole chain, and the read-only [DKGApi].  The pallets
    of Substrate (system, session, staking, offences) are the parameter [Sys].
    RuntimeSpec.v has the theorems. *)

From S2P Require Import Prelude.
From S2P Require Import Frame.
From S2P Require Import Primitives.
From S2P Require Import Merkle.
From S2P Require Import Traits.
From S2P Require Import BridgeRegistry.
From S2P Require Import Proposals.
From S2P Require Import ProposalHandler.
From S2P Require Import Metadata.
From S2P Require Import Sessions.

(** ** Configuration *)

(** constants.rs, module [time], for six second blocks. *)
Definition MILLISECS_PER_BLOCK : Z := 6000.
Definition SLOT_DURATION : Z := MILLISECS_PER_BLOCK.
Definition MINUTES : Z := 60 / (MILLISECS_PER_BLOCK / 1000).
Definition HOURS : Z := MINUTES * 60.

Definition Period : Z := MINUTES.
Definition Offset : Z := 0.

(** The order of [AuthorityReputations::iter()]. *)
Class ReputationOrder := reputation_order : gmap DKGId Z → list (DKGId * Z).

Class ReputationOrderLaws `{ReputationOrder} : Prop :=
  reputation_order_perm m : reputation_order m ≡ₚ map_to_list m.

#[export] Instance runtime_merkle_leaf `{Crypto} : MerkleLeaf := DKGEcdsaToEthereumAddress.

#[export] Instance runtime_metadata_config `{ReputationOrder} : MetadataConfig := {|
  KeygenJailSentence := Period;
  SigningJailSentence := Period;
  decay_mul_floor r := r * 50 / 100;
  UnsignedInterval := 3;
  MetadataUnsignedPriority := Z.shiftl 1 20;
  SessionPeriod := Period;
  MaxKeyLength := 512;
  MaxSignatureLength := 512;
  MaxAuthorities := 1024;
  MaxProposalLength := 10000;
  average_session_length := Sessions.average_session_length Period;
  MinimumPeriod := SLOT_DURATION / 2;
  iter_reputations := reputation_order |}.

#[export] Instance runtime_handler_config : HandlerConfig := {|
  MaxProposalsPerBatch := 10;
  UnsignedProposalExpiry := Period * 2;
  UnsignedPriority := Z.shiftl 1 20 |}.

#[export] Instance runtime_proposals_config : ProposalsConfig := {|
  ChainIdentifier := Substrate 5;
  ProposalLifetime := HOURS / 5;
  MaxVotes := 100;
  MaxResourceLength := 1000;
  MaxProposers := 1000;
  VotingKeySize := 512 |}.

#[export] Instance runtime_bridge_config : BridgeConfig := {|
  MaxAdditionalFields := 100;
  MaxResources := 1000 |}.

(** ** Errors and changes of view *)

(** [sp_runtime::DispatchError] of the runtime. *)
Inductive RuntimeError :=
| RuntimeBadOrigin
| DKGError (e : MetadataError)
| DKGProposalsError (e : ProposalsError)
| DKGProposalHandlerError (e : HandlerError)
| BridgeRegistryError (e : BridgeError)
| OtherError (e : Z).

Definition flatten {E} (inj : E → RuntimeError) (e : DispatchError E RuntimeError)
    : RuntimeError :=
  match e with
  | BadOrigin => RuntimeBadOrigin
  | Module e => inj e
  | Foreign f => f
  end.

(** Run a pallet's code on a state [T] that is the pallet's storage and the rest
    of the chain in another arrangement. *)
Definition via {T S E A : Type} (out : T → S) (back : S → T) (inj : E → RuntimeError)
    (m : M S (DispatchError E RuntimeError) A) : M T RuntimeError A := λ t,
  match m (out t) with
  | Ret a p => Ret a (back p)
  | Fail e p => Fail (flatten inj e) (back p)
  | Panic => Panic
  end.

(** [(a, (b, c))] seen as [(b, (a, c))]. *)
Definition flip {A B C : Type} (p : A * (B * C)) : B * (A * C) := (p.2.1, (p.1, p.2.2)).

(** ** Interfaces *)

#[export] Instance system_pair {A B} `{System B} : System (A * B) := λ w, block_number w.2.

Section interfaces.
Context `{WebbProposals, Crypto, ReputationOrder}.

(** [ProposalHandler = DKGProposalHandler]. *)
#[export] Instance proposal_handler {W} `{System W}
    : ProposalHandlerTrait (Handler * W) RuntimeError := λ p,
  via id id DKGProposalHandlerError (Batches.handle_unsigned_proposal p).

(** [OnAuthoritySetChangeHandler = DKGProposals]. *)
#[export] Instance authority_set_change_handler {A W}
    : OnAuthoritySetChangeHandler (A * (Proposals * W)) RuntimeError := λ accounts ids,
  via flip flip DKGProposalsError (Voting.authority_set_changed accounts ids).

#[export] Instance dkg_public_keys {W} : GetDKGPublicKey (Metadata * W) := {|
  dkg_key w := dkg_key w.1;
  previous_dkg_key w := previous_dkg_key w.1 |}.

#[export] Instance dkg_authorities {W} : DKGAuthorities (Metadata * W) := λ w,
  CurrentAuthoritiesAccounts w.1.

(** [SignedProposalHandler = (BridgeRegistry, DKG)]. *)
#[export] Instance signed_proposal_handler {A W}
    : OnSignedProposal (Metadata * (A * (BridgeRegistry * W))) RuntimeError :=
  on_signed_proposal_pair
    (λ p, zoom (λ w, w.2.2.1) (λ b w, (w.1, (w.2.1, (b, w.2.2.2))))
            (map_err (flatten BridgeRegistryError) (Registry.on_signed_proposal p)))
    (λ p, via id id DKGError (Dkg.on_signed_proposal p)).
End interfaces.

(** [ValidatorSet = Historical], [ReportOffences = Offences]. *)
#[export] Instance report_offences {A B C Sys} `{ReportOffences Sys RuntimeError}
    : ReportOffences (A * (B * (C * Sys))) RuntimeError := {|
  session_index w := session_index w.2.2.2;
  validators w := validators w.2.2.2;
  identification_of w := identification_of w.2.2.2;
  ro_report_offence o :=
    zoom (λ w, w.2.2.2) (λ s w, (w.1, (w.2.1, (w.2.2.1, s)))) (ro_report_offence o) |}.

(** ** The chain *)

(** The storage of the runtime, by pallet. *)
Record Chain (Sys : Type) := mkChain {
  dkg : Metadata;
  voting : Proposals;
  queue : Handler;
  bridges : BridgeRegistry;
  system : Sys }.
Arguments mkChain {Sys} _ _ _ _ _.
Arguments dkg {Sys} _.
Arguments voting {Sys} _.
Arguments queue {Sys} _.
Arguments bridges {Sys} _.
Arguments system {Sys} _.

Definition registry_empty : BridgeRegistry := {|
  NextBridgeIndex := 0; Bridges := ∅; ResourceToBridgeIndex := ∅ |}.

(** Storage before genesis. *)
Definition chain_empty {Sys} (s : Sys) : Chain Sys := {|
  dkg := metadata_empty; voting := proposals_empty; queue := handler_empty;
  bridges := registry_empty; system := s |}.

Inductive BridgeCall :=
| SetMetadata (bridge_index : Z) (info : BridgeInfo)
| ForceResetIndices (resource_ids : list bytes) (bridge_index : Z).

Inductive RuntimeCall :=
| CallDKG (c : Dkg.MetadataCall)
| CallDKGProposals (c : Voting.ProposalsCall)
| CallDKGProposalHandler (c : Batches.HandlerCall)
| CallBridgeRegistry (c : BridgeCall).

(** The genesis configuration of the four pallets and the initial session keys. *)
Record GenesisConfig := mkGenesisConfig {
  gen_authority_ids : list AccountId;
  gen_keygen_threshold : Z;
  gen_signature_threshold : Z;
  gen_chain_ids : list bytes;
  gen_r_ids : list (bytes * bytes);
  gen_proposers : list AccountId;
  gen_validators : list (AccountId * DKGId);
  gen_bridges : list BridgeMetadata }.

Section runtime.
Context `{WebbProposals, Crypto, ReputationOrder, IterOrder, Weights} {Sys : Type}.
Context `{System Sys, ReportOffences Sys RuntimeError}.
Implicit Types c d : Chain Sys.

Abbreviation RT A := (M (Chain Sys) RuntimeError A).

Definition dkg_view c := (dkg c, (queue c, (voting c, (bridges c, system c)))).
Definition of_dkg_view (p : Metadata * (Handler * (Proposals * (BridgeRegistry * Sys)))) :=
  mkChain p.1 p.2.2.1 p.2.1 p.2.2.2.1 p.2.2.2.2.

Definition voting_view c := (voting c, (queue c, (dkg c, (bridges c, system c)))).
Definition of_voting_view (p : Proposals * (Handler * (Metadata * (BridgeRegistry * Sys)))) :=
  mkChain p.2.2.1 p.1 p.2.1 p.2.2.2.1 p.2.2.2.2.

Definition queue_view c := (queue c, (dkg c, (voting c, (bridges c, system c)))).
Definition of_queue_view (p : Handler * (Metadata * (Proposals * (BridgeRegistry * Sys)))) :=
  mkChain p.2.1 p.2.2.1 p.1 p.2.2.2.1 p.2.2.2.2.

Definition in_dkg {A} (m : M _ (DispatchError MetadataError RuntimeError) A) : RT A :=
  via dkg_view of_dkg_view DKGError m.

Definition in_voting {A} (m : M _ (DispatchError ProposalsError RuntimeError) A) : RT A :=
  via voting_view of_voting_view DKGProposalsError m.

Definition in_queue {A} (m : M _ (DispatchError HandlerError RuntimeError) A) : RT A :=
  via queue_view of_queue_view DKGProposalHandlerError m.

Definition in_bridges {A} (m : M BridgeRegistry (DispatchError BridgeError RuntimeError) A)
    : RT A :=
  zoom bridges (λ b c, mkChain (dkg c) (voting c) (queue c) b (system c))
    (map_err (flatten BridgeRegistryError) m).

Definition bridge_call (o : Origin) (c : BridgeCall)
    : M BridgeRegistry (DispatchError BridgeError RuntimeError) unit :=
  dispatch match c with
  | SetMetadata i info => Registry.set_metadata o i info
  | ForceResetIndices ids i => Registry.force_reset_indices o ids i
  end.

(** [RuntimeCall::dispatch]. *)
Definition runtime_call (o : Origin) (c : RuntimeCall) : RT unit :=
  match c with
  | CallDKG c => in_dkg (Dkg.metadata_call o c)
  | CallDKGProposals c => in_voting (Voting.proposals_call o c)
  | CallDKGProposalHandler c => in_queue (Batches.handler_call o c)
  | CallBridgeRegistry c => in_bridges (bridge_call o c)
  end.

(** [BuildGenesisConfig::build] of the four DKG pallets in the order of
    [construct_runtime!]; the session pallet starts the genesis session.  The builds of
    Substrate's own pallets, with their checks of balances, stakes and session keys, are
    not part of it. *)
Definition genesis (g : GenesisConfig) : RT unit :=
  in_dkg (Dkg.build (gen_authority_ids g) (gen_keygen_threshold g) (gen_signature_threshold g));;
  in_voting (Voting.build (gen_chain_ids g) (gen_r_ids g) (gen_proposers g));;
  in_dkg (Dkg.on_genesis_session (gen_validators g));;
  in_bridges (Registry.build (gen_bridges g)).

Definition initial c : Prop := ∃ g s, genesis g (chain_empty s) = Ret tt c.

(** What the block execution does besides calls: the hooks of the pallets and
    the session pallet's callbacks. *)
Inductive Hook :=
| OnInitialize (n : Z)
| OnIdle (n : Z) (remaining_weight : Weight)
| OnNewSession (validators queued_validators : list (AccountId * DKGId))
| OnDisabledValidator (i : Z).

Definition run_hook (h : Hook) : RT unit :=
  match h with
  | OnInitialize n => in_dkg (Dkg.on_initialize n)
  | OnIdle n w => in_queue (_ ← Batches.on_idle n w; mret tt)
  | OnNewSession v q => in_dkg (Dkg.on_new_session v q)
  | OnDisabledValidator i => in_dkg (Dkg.on_disabled i)
  end.

(** One step of the chain; the Substrate pallets may change their own storage
    at any time. *)
Inductive step : Chain Sys → Chain Sys → Prop :=
| step_call o call c d : final (runtime_call o call c) = Some d → step c d
| step_hook h c d : final (run_hook h c) = Some d → step c d
| step_system c s : step c (mkChain (dkg c) (voting c) (queue c) (bridges c) s).

Definition reachable d : Prop := ∃ c, initial c ∧ rtc step c d.

(** ** [DKGApi], read by the gadget *)

Definition api_authority_set c : AuthoritySet :=
  {| as_authorities := Authorities (dkg c); as_id := AuthoritySetId (dkg c) |}.

Definition api_queued_authority_set c : AuthoritySet :=
  {| as_authorities := NextAuthorities (dkg c); as_id := wrap 64 (AuthoritySetId (dkg c) + 1) |}.

Definition api_thresholds c : Z * Z * Z * Z :=
  (SignatureThreshold (dkg c), KeygenThreshold (dkg c),
   NextSignatureThreshold (dkg c), NextKeygenThreshold (dkg c)).

Definition api_should_refresh c : bool := Dkg.should_refresh (dkg c).

Definition api_next_dkg_pub_key c : option (Z * bytes) := NextDKGPublicKey (dkg c).

Definition api_next_pub_key_sig c : option bytes := NextPublicKeySignature (dkg c).

Definition api_dkg_pub_key c : Z * bytes := Dkg.dkg_public_key (dkg c).

Definition api_get_best_authorities c : list (Z * DKGId) := BestAuthorities (dkg c).

Definition api_get_next_best_authorities c : list (Z * DKGId) := NextBestAuthorities (dkg c).

Definition api_get_current_session_progress `{PermillOps} c (n : Z) :=
  Sessions.estimate_current_session_progress Period Offset (dkg c) n.

Definition api_get_unsigned_proposal_batches c : list StoredUnsignedProposalBatch :=
  (iter_queue (UnsignedProposalQueue (queue c))).*2.

Definition api_get_authority_accounts c : list AccountId * list AccountId :=
  (CurrentAuthoritiesAccounts (dkg c), NextAuthoritiesAccounts (dkg c)).

Definition api_get_reputations c (authorities : list DKGId) : list (DKGId * Z) :=
  (λ a, (a, reputation_of (dkg c) a)) <$> authorities.

Definition api_get_keygen_jailed c (set : list DKGId) : list DKGId :=
  filter (λ a, is_Some (JailedKeygenAuthorities (dkg c) !! a)) set.

Definition api_get_signing_jailed c (set : list DKGId) : list DKGId :=
  filter (λ a, is_Some (JailedSigningAuthorities (dkg c) !! a)) set.

Definition api_refresh_nonce c : Z := RefreshNonce (dkg c).

Definition api_should_execute_new_keygen c : bool * bool := ShouldExecuteNewKeygen (dkg c).

Definition api_should_submit_proposer_vote c : bool := ShouldSubmitProposerVote (dkg c).
End runtime.
