(* ===== verification/RuntimeSpec.v ===== *)
(** * Theorems about the whole chain

    The invariants of the pallets hold in every reachable state of the runtime;
    every DKG key that ever becomes active was signed by a threshold of distinct
    authorities; an approved proposal reaches the signing queue, and a signed
    refresh reaches the metadata pallet. *)

From S2P Require Import Prelude.
From S2P Require Import Frame.
From S2P Require Import Primitives.
From S2P Require Import Merkle.
From S2P Require Import Traits.
From S2P Require Import BridgeRegistry.
From S2P Require Import Proposals.
From S2P Require Import ProposalHandler.
From S2P Require Import ProposalHandlerSpec.
From S2P Require Import Metadata.
From S2P Require Import MetadataQuorum.
From S2P Require Import MetadataSpec.
From S2P Require Import MetadataRotation.
From S2P Require Import MetadataKeys.
From S2P Require Import Runtime.

(** ** Changes of view *)

Section views.
Context {T S E A : Type}.

Lemma preserves_via (I : T → Prop) (J : S → Prop) out back inj
    (m : M S (DispatchError E RuntimeError) A) :
  (∀ t, I t → J (out t)) → (∀ p, J p → I (back p)) → preserves J m →
  preserves I (via out back inj m).
Proof.
  intros Hout Hback Hm t Ht. specialize (Hm (out t) (Hout t Ht)). unfold wp, via in *.
  destruct (m (out t)); auto.
Qed.

Lemma preserves_zoom (I : T → Prop) (get : T → S) put (m : M S E A) :
  (∀ t s, I t → I (put s t)) → preserves I (zoom get put m).
Proof. intros Hp t Ht. unfold wp, zoom. destruct (m (get t)); auto. Qed.

Lemma via_Ret out back inj (m : M S (DispatchError E RuntimeError) A) t a t' :
  (via out back inj m : M T RuntimeError A) t = Ret a t' ↔
  ∃ p, m (out t) = Ret a p ∧ t' = back p.
Proof. unfold via. destruct (m (out t)); naive_solver. Qed.
End views.

#[export] Hint Resolve preserves_zoom : preserves.

Section chain.
Context `{WebbProposals, Crypto, ReputationOrder, IterOrder, Weights} {Sys : Type}.
Context `{System Sys, ReportOffences Sys RuntimeError}.
Implicit Types c d : Chain Sys.

(** Both pallets with an invariant are in order. *)
Definition chain_inv c : Prop := handler_inv (queue c) ∧ votes_inv (voting c).

(** The same, seen by the metadata pallet. *)
Definition dkg_world (w : Handler * (Proposals * (BridgeRegistry * Sys))) : Prop :=
  handler_inv w.1 ∧ votes_inv w.2.1.

Lemma handler_world {W} `{System W} (J : W → Prop) p :
  preserves (λ w : Handler * W, J w.2)
    (handle_unsigned_proposal p : M (Handler * W) RuntimeError unit).
Proof.
  apply (preserves_via _ (world J)); [done..|].
  unfold Batches.handle_unsigned_proposal, Batches.store_unsigned_proposal,
      Batches.create_batch_and_add_to_storage, Batches.generate_next_batch_id,
      Batches.decode_or_fail, Batches.deposit_event. solve_preserves.
Qed.

Lemma handler_keeps {W} `{System W} (J : W → Prop) p :
  preserves (λ w : Handler * W, handler_inv w.1 ∧ J w.2)
    (handle_unsigned_proposal p : M (Handler * W) RuntimeError unit).
Proof.
  apply preserves_and; [|apply handler_world].
  apply (preserves_via _ (own handler_inv)); [done..|]. by apply preserves_handle_unsigned.
Qed.

Lemma authority_change_keeps accs ids :
  preserves dkg_world (on_authority_set_changed accs ids : M _ RuntimeError unit).
Proof.
  eapply (preserves_via _ (λ p, votes_inv p.1 ∧ handler_inv p.2.1)); [by intros ? []..|].
  apply preserves_and.
  - change (preserves (own votes_inv) (Voting.authority_set_changed accs ids :
      M (Proposals * (Handler * (BridgeRegistry * Sys))) (DispatchError ProposalsError RuntimeError) unit)).
    unfold Voting.authority_set_changed, Voting.deposit_event.
    repeat (apply preserves_bind; [|intros ?]);
      solve [apply preserves_writes; exact (λ s Hs, Hs)|solve_preserves].
  - change (preserves (world (λ w, handler_inv w.1)) (Voting.authority_set_changed accs ids :
      M (Proposals * (Handler * (BridgeRegistry * Sys))) (DispatchError ProposalsError RuntimeError) unit)).
    unfold Voting.authority_set_changed, Voting.deposit_event. solve_preserves.
Qed.

(** *** The pallets' invariants in the chain *)

Lemma in_dkg_keeps {A} (m : M _ (DispatchError MetadataError RuntimeError) A) :
  preserves (world dkg_world) m → preserves chain_inv (in_dkg m : M (Chain Sys) _ A).
Proof. apply preserves_via; done. Qed.

Lemma in_voting_keeps {A} (m : M _ (DispatchError ProposalsError RuntimeError) A) :
  preserves (own votes_inv) m → preserves (world (λ w, handler_inv w.1)) m →
  preserves chain_inv (in_voting m : M (Chain Sys) _ A).
Proof.
  intros Ho Hw. eapply (preserves_via _ (λ p, votes_inv p.1 ∧ handler_inv p.2.1));
    [by intros ? []..|by apply preserves_and].
Qed.

Lemma in_queue_keeps {A} (m : M _ (DispatchError HandlerError RuntimeError) A) :
  preserves (own handler_inv) m → preserves (world (λ w, votes_inv w.2.1)) m →
  preserves chain_inv (in_queue m : M (Chain Sys) _ A).
Proof.
  intros Ho Hw. eapply (preserves_via _ (λ p, handler_inv p.1 ∧ votes_inv p.2.2.1));
    [by intros ? []..|by apply preserves_and].
Qed.

Lemma in_bridges_keeps {A} (m : M BridgeRegistry (DispatchError BridgeError RuntimeError) A) :
  preserves chain_inv (in_bridges m : M (Chain Sys) _ A).
Proof. by apply preserves_zoom. Qed.

Lemma signed_handler_keeps (J : Proposals → Prop) p :
  preserves (λ w : Metadata * (Proposals * (BridgeRegistry * Sys)), J w.2.1)
    (on_signed_proposal p : M _ RuntimeError unit).
Proof.
  apply preserves_bind; [by apply preserves_zoom|intros _].
  apply (preserves_via _ (world (λ w, J w.1))); [done..|].
  unfold Dkg.on_signed_proposal, Dkg.deposit_event. solve_preserves.
Qed.

Lemma on_idle_keeps n r `{!IterLaws} :
  preserves (own handler_inv) (_ ← Batches.on_idle n r; mret tt :
    M (Handler * (Metadata * (Proposals * (BridgeRegistry * Sys))))
      (DispatchError HandlerError RuntimeError) unit).
Proof.
  intros [s w] Hs. destruct (on_idle_run (F := RuntimeError) n r s w Hs) as (r' & t & Hr & Ht & _).
  unfold wp, mbind, M_bind. rewrite Hr. exact Ht.
Qed.

Lemma dkg_world_keeps
    (m : M (Metadata * (Handler * (Proposals * (BridgeRegistry * Sys))))
           (DispatchError MetadataError RuntimeError) unit) :
  (∀ J : _ → Prop,
     (∀ accs ids, preserves J (on_authority_set_changed accs ids : M _ RuntimeError unit)) →
     (∀ p, preserves J (handle_unsigned_proposal p : M _ RuntimeError unit)) →
     preserves (world J) m) →
  preserves chain_inv (in_dkg m : M (Chain Sys) RuntimeError unit).
Proof.
  intros Hm. apply in_dkg_keeps, Hm; [apply authority_change_keeps|].
  apply (handler_keeps (λ w : Proposals * (BridgeRegistry * Sys), votes_inv w.1)).
Qed.

Lemma runtime_call_keeps `{!IterLaws} o call :
  preserves chain_inv (runtime_call o call : M (Chain Sys) RuntimeError unit).
Proof.
  destruct call; simpl.
  - apply dkg_world_keeps. intros. by apply world_metadata_call.
  - apply in_voting_keeps; [by apply preserves_proposals_call|].
    apply world_proposals_call. intros p. eapply preserves_iff; [|apply (handler_keeps (λ _, True))].
    naive_solver.
  - apply in_queue_keeps; [by apply preserves_handler_call|].
    apply world_handler_call; [apply signed_handler_keeps|intros; by apply preserves_zoom].
  - apply in_bridges_keeps.
Qed.

Lemma run_hook_keeps `{!IterLaws} h :
  preserves chain_inv (run_hook h : M (Chain Sys) RuntimeError unit).
Proof.
  destruct h; simpl.
  - apply dkg_world_keeps. intros. by apply world_on_initialize.
  - apply in_queue_keeps; [by apply on_idle_keeps|]. apply world_on_idle.
  - apply dkg_world_keeps. intros. by apply world_on_new_session.
  - apply dkg_world_keeps. intros. unfold Dkg.on_disabled, Dkg.deposit_log. solve_preserves.
Qed.

Lemma genesis_keeps g : preserves chain_inv (genesis g : M (Chain Sys) RuntimeError unit).
Proof.
  apply preserves_bind; [|intros _; apply preserves_bind; [|intros _; apply preserves_bind;
    [|intros _; apply in_bridges_keeps]]].
  - apply dkg_world_keeps. intros. unfold Dkg.build. solve_preserves.
  - apply in_voting_keeps; unfold Voting.build.
    + repeat (apply preserves_bind; [|intros ?]); try solve [solve_preserves];
        try (apply preserves_for_each; intros ?); try solve [apply preserves_writes; exact (λ s Hs, Hs)].
    + solve_preserves.
  - apply dkg_world_keeps. intros. by apply world_on_genesis_session.
Qed.

Lemma chain_empty_inv s : chain_inv (chain_empty s : Chain Sys).
Proof. split; [apply handler_empty_inv|]. apply map_Forall_empty. Qed.

Lemma step_keeps `{!IterLaws} c d : step c d → chain_inv c → chain_inv d.
Proof.
  intros [o call c' d' Hf|h c' d' Hf|c' s] Hi; [..|done].
  - by eapply preserves_final; [apply (runtime_call_keeps o call)|..].
  - by eapply preserves_final; [apply (run_hook_keeps h)|..].
Qed.

Lemma initial_inv c : initial c → chain_inv c.
Proof.
  intros (g & s & Hg).
  eapply (preserves_final chain_inv (genesis g)); [apply genesis_keeps|apply (chain_empty_inv s)|].
  by rewrite Hg.
Qed.

Lemma steps_keep `{!IterLaws} c d : rtc step c d → chain_inv c → chain_inv d.
Proof. induction 1 as [|? ? ? Hs _ IH]; [done|]. intros. by apply IH, (step_keeps _ _ Hs). Qed.

(** C2: in every state that the runtime can reach from a genesis configuration, by
    any calls from any origins, hooks and session changes, with or without errors,
    the storage of the proposal handler and of the voting pallet is consistent. *)
Theorem reachable_inv `{!IterLaws} c : reachable c → chain_inv c.
Proof. intros (c0 & Hi & Hr). by eapply steps_keep, initial_inv. Qed.

(** *** An invariant of the metadata pallet alone *)

Section metadata_invariant.
Context (I : Metadata → Prop).

Definition dkg_has c : Prop := I (dkg c).

Lemma in_dkg_has {A} (m : M _ (DispatchError MetadataError RuntimeError) A) :
  preserves (own I) m → preserves dkg_has (in_dkg m : M (Chain Sys) _ A).
Proof. by apply preserves_via. Qed.

Lemma in_voting_has {A} (m : M _ (DispatchError ProposalsError RuntimeError) A) :
  preserves (world (λ w, I w.2.1)) m →
  preserves dkg_has (in_voting m : M (Chain Sys) _ A).
Proof. by apply preserves_via. Qed.

Lemma in_queue_has {A} (m : M _ (DispatchError HandlerError RuntimeError) A) :
  preserves (world (λ w, I w.1)) m →
  preserves dkg_has (in_queue m : M (Chain Sys) _ A).
Proof. by apply preserves_via. Qed.

Lemma in_bridges_has {A} (m : M BridgeRegistry (DispatchError BridgeError RuntimeError) A) :
  preserves dkg_has (in_bridges m : M (Chain Sys) _ A).
Proof. by apply preserves_zoom. Qed.

Abbreviation Rest := (Proposals * (BridgeRegistry * Sys))%type.
Abbreviation DM W := (M (Metadata * W) (DispatchError MetadataError RuntimeError) unit).

(** What the pallet itself must preserve: its hooks, and what the others call of it. *)
Record dkg_keeps : Prop := {
  dk_build ids n th : preserves (own I) (Dkg.build ids n th : DM (Handler * Rest));
  dk_genesis v : preserves (own I) (Dkg.on_genesis_session v : DM (Handler * Rest));
  dk_initialize n : preserves (own I) (Dkg.on_initialize n : DM (Handler * Rest));
  dk_new_session v q : preserves (own I) (Dkg.on_new_session v q : DM (Handler * Rest));
  dk_disabled i : preserves (own I) (Dkg.on_disabled i : DM (Handler * Rest));
  dk_signed p : preserves (own I) (Dkg.on_signed_proposal p : DM Rest) }.

Context (Hkeeps : dkg_keeps).

Lemma signed_handler_has p :
  preserves (λ w : Metadata * (Proposals * (BridgeRegistry * Sys)), I w.1)
    (on_signed_proposal p : M _ RuntimeError unit).
Proof using All.
  apply preserves_bind; [by apply preserves_zoom|intros _].
  apply (preserves_via _ (own I)); [done..|]. by apply dk_signed.
Qed.

Lemma run_hook_has h :
  preserves dkg_has (run_hook h : M (Chain Sys) RuntimeError unit).
Proof using All.
  destruct h; simpl; [apply in_dkg_has|apply in_queue_has|apply in_dkg_has|apply in_dkg_has].
  - by apply dk_initialize.
  - apply world_on_idle.
  - by apply dk_new_session.
  - by apply dk_disabled.
Qed.

Lemma genesis_has g :
  preserves dkg_has (genesis g : M (Chain Sys) RuntimeError unit).
Proof using All.
  apply preserves_bind; [|intros _; apply preserves_bind; [|intros _; apply preserves_bind;
    [|intros _; apply in_bridges_has]]].
  - by apply in_dkg_has, dk_build.
  - apply in_voting_has. unfold Voting.build. solve_preserves.
  - by apply in_dkg_has, dk_genesis.
Qed.

(** The calls of the other pallets, too. *)
Lemma other_call_has o call :
  (∀ mc, call ≠ CallDKG mc) → preserves dkg_has (runtime_call o call : M (Chain Sys) RuntimeError unit).
Proof using All.
  intros Hc. destruct call as [mc|vc|hc|bc]; simpl; [by edestruct Hc|..].
  - apply in_voting_has, world_proposals_call.
    intros p. apply (handler_world (λ w : Metadata * (BridgeRegistry * Sys), I w.1)).
  - apply in_queue_has, world_handler_call; [apply signed_handler_has|].
    intros. by apply preserves_zoom.
  - apply in_bridges_has.
Qed.
End metadata_invariant.

(** *** Keys *)

Section keys.
Context (K : bytes → Prop).

Abbreviation chain_keys := (dkg_has (keys_from K)).

Lemma keys_kept : dkg_keeps (keys_from K).
Proof.
  split; intros; [apply keys_build|apply keys_on_genesis_session|apply keys_on_initialize|
    apply keys_on_new_session| |apply keys_on_signed_proposal].
  apply preserves_writes. exact (λ s Hs, Hs).
Qed.

Lemma step_keys c d :
  step c d → chain_keys c → (∀ k, quorum_signed (dkg c) k → K k) → chain_keys d.
Proof.
  intros [o call c' d' Hf|h c' d' Hf|c' s] Hi Hq; [|by eapply preserves_final;
    [apply (run_hook_has _ keys_kept h)|..]|done].
  destruct call as [mc|vc|hc|bc].
  2-4: by eapply (preserves_final chain_keys); [apply (other_call_has _ keys_kept)| |exact Hf].
  simpl in Hf. unfold in_dkg, via in Hf.
  destruct (Dkg.metadata_call o mc (dkg_view c')) as [u p|e p|] eqn:Hr; simplify_eq/=;
    eapply (keys_call_quorum K o mc (dkg c')); try done; by unfold dkg_view in Hr; rewrite Hr.
Qed.
End keys.

(** C1: every DKG key that is ever on chain, as the current key or as the next one,
    was signed by at least the signature threshold of distinct authorities of the
    best set, or of the next best set, of a state that the chain went through. *)
Theorem key_provenance c0 c :
  initial c0 → rtc step c0 c →
  keys_from (λ k, ∃ c', rtc step c0 c' ∧ rtc step c' c ∧ quorum_signed (dkg c') k) (dkg c).
Proof.
  intros (g & s & Hg) Hc. revert c Hc.
  apply (rtc_ind_r (λ c, keys_from (λ k, ∃ c', rtc step c0 c' ∧ rtc step c' c ∧
    quorum_signed (dkg c') k) (dkg c))); [|intros c1 c2 Hr Hs IH].
  - eapply (preserves_final (dkg_has _) (genesis g)); [apply genesis_has, keys_kept|
      |by rewrite Hg]. by split.
  - eapply step_keys; [done|..].
    + eapply keys_from_mono; [|exact IH]. intros k (c' & ? & ? & ?). exists c'.
      split_and!; [done| |done]. by eapply rtc_r.
    + intros k Hk. exists c1. split_and!; [done| |done]. by apply rtc_once.
Qed.

(** *** From votes to the signing queue *)

Lemma handler_stores {W} `{System W} p (h : Handler) (w : W) u q :
  handler_inv h → (handle_unsigned_proposal p : M (Handler * W) RuntimeError unit) (h, w) = Ret u q →
  ∃ id, decode_proposal_identifier p = Ok id ∧
    pending q.1 ≡ₚ mkUnsignedProposal (typed_chain_id id) (key id) p :: pending h ∧ q.2 = w.
Proof.
  intros Hi Hr. apply via_Ret in Hr as ([t w'] & Hr & ->). unfold id in *.
  assert (1 <= MaxProposalsPerBatch) as Hm by done.
  destruct (decode_proposal_identifier p) as [id|e|] eqn:Hd.
  - exists id. pose proof (handle_unsigned_run (F := RuntimeError) p id h w Hm Hi Hd) as Hh.
    rewrite Hr in Hh. naive_solver.
  - unfold Batches.handle_unsigned_proposal, Batches.decode_or_fail in Hr.
    rewrite Hd in Hr. done.
  - unfold Batches.handle_unsigned_proposal, Batches.decode_or_fail in Hr.
    rewrite Hd in Hr. done.
Qed.

(** C4: when a vote approves a proposal on the running chain, the proposal has at
    least the threshold of distinct votes in favour and is at that moment added to
    the proposals that wait for the DKG's signature, once, under its own chain and
    key; nothing that waited is lost and the metadata and the bridges are untouched. *)
Theorem approved_proposal_queued o call c d k :
  chain_inv c → runtime_call o (CallDKGProposals call) c = Ret tt d →
  newly_approved (voting c) (voting d) k →
  ∃ v id, Votes (voting d) !! k = Some v ∧ NoDup (votes_for v) ∧
    ProposerThreshold (voting c) <= len (votes_for v) ∧
    decode_proposal_identifier k.2.2 = Ok id ∧
    pending (queue d) ≡ₚ mkUnsignedProposal (typed_chain_id id) (key id) k.2.2 :: pending (queue c) ∧
    dkg d = dkg c ∧ bridges d = bridges c.
Proof.
  intros [Hh Hv] Hr Hk. simpl in Hr. apply via_Ret in Hr as ([t w] & Hr & ->).
  assert (0 <= MaxVotes) as Hm by done.
  destruct (approval_Ret _ _ _ _ _ _ _ Hm Hv Hr) as [Ha _].
  destruct (Ha k Hk) as ((v & Hv' & Hth & Hnd) & Hrun).
  apply handler_stores in Hrun as (id & Hd & Hp & Hw); [|done].
  exists v, id. split_and!; try done; simpl; by rewrite Hw.
Qed.

(** *** From a signed refresh to the next key *)

Lemma ensure_signed_valid key sig data :
  ensure_signed_by_dkg key sig data = Ok tt → validate_ecdsa_signature data sig = true.
Proof.
  unfold ensure_signed_by_dkg, recover_ecdsa_pub_key, validate_ecdsa_signature.
  destruct (length sig =? SIGNATURE_LENGTH)%nat; [|done].
  destruct (secp256k1_ecdsa_recover _ _); [|done]. intros _. by apply bool_decide_true.
Qed.

Lemma signed_refresh_notifies curr data sig nk (s : Metadata)
    (w : Proposals * (BridgeRegistry * Sys)) :
  NextDKGPublicKey s = Some nk → NextPublicKeySignature s = None →
  PendingRefreshProposal s = Some curr →
  refresh_encode curr = (Ok data : result MetadataError _) →
  len sig <= MaxSignatureLength → (sig ∉ UsedSignatures s) →
  ∃ t, notify [Signed Refresh data sig] (s, w) = (Ret tt (t, w) : outcome _ RuntimeError _) ∧
    NextDKGPublicKey t = Some nk ∧ NextPublicKeySignature t = Some sig ∧
    DKGPublicKey t = DKGPublicKey s ∧ NextAuthoritySetId t = NextAuthoritySetId s.
Proof.
  intros Hnk Hns Hp He Hl Hu. destruct w as [p [b r]].
  pose proof (on_signed_refresh_run (F := RuntimeError) curr data sig nk s (p, (b, r))
    Hnk Hns Hp He Hl Hu) as Hrun.
  unfold notify. cbn [for_each]. cbv [mbind M_bind catch on_signed_proposal signed_proposal_handler
    on_signed_proposal_pair zoom map_err via id]. cbn [fst snd].
  change (Registry.on_signed_proposal (Signed Refresh data sig) b)
    with (Ret tt b : outcome BridgeRegistry (DispatchError BridgeError RuntimeError) unit).
  cbn [fst snd]. rewrite Hrun. by eexists.
Qed.

(** C3: the rotation closes over three pallets: a batch with the pending refresh
    proposal, signed by the active DKG key, is accepted by the proposal handler from
    any origin, reaches the metadata pallet past the bridge registry, and the next
    session change that succeeds then makes the next key the active one and keeps the
    old key as the previous one. *)
Theorem refresh_rotates_key `{!IterLaws} o c b id curr data sig bsig nk :
  let sb := {| sb_batch_id := b; sb_proposals := [Signed Refresh data sig]; sb_signature := bsig |} in
  chain_inv c →
  decode_proposal_identifier (Signed Refresh data sig) = Ok id →
  is_Some (UnsignedProposalQueue (queue c) !! (typed_chain_id id, b)) →
  ensure_signed_by_dkg (api_dkg_pub_key c).2 bsig (signed_batch_data sb) = Ok tt →
  api_next_dkg_pub_key c = Some nk → api_next_pub_key_sig c = None →
  PendingRefreshProposal (dkg c) = Some curr →
  refresh_encode curr = (Ok data : result MetadataError _) →
  len sig <= 512 → (sig ∉ UsedSignatures (dkg c)) →
  ∃ d, runtime_call o (CallDKGProposalHandler (Batches.SubmitSignedProposals [sb])) c = Ret tt d ∧
    SignedProposals (queue d) !! (typed_chain_id id, b) = Some sb ∧
    UnsignedProposalQueue (queue d) !! (typed_chain_id id, b) = None ∧
    ∀ v q e, run_hook (OnNewSession v q) d = Ret tt e →
      api_dkg_pub_key e = nk ∧ DKGPublicKeySignature (dkg e) = sig ∧
      PreviousPublicKey (dkg e) = api_dkg_pub_key c ∧ api_authority_set e =
        {| as_authorities := v.*2; as_id := NextAuthoritySetId (dkg c) |}.
Proof.
  intros sb [Hh _] Hd Hq Hsig Hnk Hns Hpend Henc Hl Hu.
  destruct (signed_refresh_notifies curr data sig nk (dkg c)
    (voting c, (bridges c, system c)) Hnk Hns Hpend Henc Hl Hu) as (t & Hn & Ht & Hts & Htc & Hid).
  set (k := (typed_chain_id id, b)).
  assert (sign_checks sb (queue c) = Ok k) as Hk.
  { unfold sign_checks. cbn [head sb_proposals sb result_of mbind result_bind]. rewrite Hd.
    cbn [result_map_err mbind result_bind]. rewrite bool_decide_true by done. cbn [negb].
    by rewrite (ensure_signed_valid _ _ _ Hsig : validate_ecdsa_signature
      (signed_batch_data sb) (sb_signature sb) = true). }
  exists (of_queue_view (sign_batch k sb (queue c), (t, (voting c, (bridges c, system c))))).
  split_and!; [|by apply lookup_insert_eq|..].
  - cbn [runtime_call]. unfold in_queue, via, Batches.handler_call, dispatch,
      Batches.submit_signed_proposals.
    change (len [sb] <=? MaxProposalsPerBatch) with true. cbn [for_each].
    unfold Batches.submit_one. mrun. unfold queue_view at 1. cbn [fst snd].
    unfold api_dkg_pub_key in Hsig. cbn [dkg_key dkg_public_keys metadata_dkg_key fst].
    change (sb_signature sb) with bsig. rewrite Hsig. unfold mbind at 1, M_bind at 1.
    unfold queue_view. rewrite handle_signed_run, Hk by done.
    change (sb_proposals sb) with [Signed Refresh data sig]. by rewrite Hn.
  - cbn [of_queue_view queue fst]. unfold sign_batch. simp_get. unfold drop_stale.
    destruct (existsb _ _); [apply map_lookup_filter_None; left|]; apply lookup_delete_eq.
  - intros v q e He. cbn [run_hook] in He. apply via_Ret in He as ([m w] & He & ->).
    unfold dkg_view in He. cbn [of_queue_view dkg queue voting bridges system fst snd] in He.
    apply on_new_session_Ret in He as (_ & _ & He). rewrite Ht, Hts in He.
    destruct He as (Hpk & Hpsig & Hprev & Hset & Hauth & _).
    unfold api_dkg_pub_key, api_authority_set, of_dkg_view in *.
    cbn [dkg fst]. unfold Dkg.dkg_public_key in *. rewrite Hpk, Hprev, Htc, Hset, Hauth, Hid. done.
Qed.

(** The two set identifiers for the queued authorities drift apart: after a
    session change without a signed next key, the runtime API announces the queued
    set under the identifier of the current set plus one, while the pallet will
    store the next key, and rotate to it, under an identifier that has moved on. *)
Theorem queued_set_id_diverges v q c d :
  0 <= AuthoritySetId (dkg c) → AuthoritySetId (dkg c) + 2 < 2 ^ 64 →
  NextAuthoritySetId (dkg c) = as_id (api_queued_authority_set c) →
  api_next_pub_key_sig c = None →
  run_hook (OnNewSession v q) c = Ret tt d →
  as_authorities (api_queued_authority_set d) = q.*2 ∧
  NextAuthoritySetId (dkg d) = as_id (api_queued_authority_set d) + 1.
Proof.
  intros H0' Hw Hid Hs Hr. cbn [run_hook] in Hr. apply via_Ret in Hr as ([m w] & Hr & ->).
  unfold dkg_view in Hr. apply on_new_session_Ret in Hr as (_ & (Hn & _ & Hnid & _) & Hm).
  unfold api_next_pub_key_sig in Hs. rewrite Hs in Hm.
  assert (same_dkg (dkg c) m) as (_ & _ & _ & Hset & _) by (by destruct (NextDKGPublicKey (dkg c))).
  unfold api_queued_authority_set, of_dkg_view in *. cbn [as_authorities as_id dkg fst] in *.
  rewrite Hn, Hnid, Hset, Hid. split; [done|]. rewrite wrap_small by (unfold in_width; lia).
  rewrite saturating_add_exact; lia.
Qed.
End chain.
