(* ===== verification/DebugLogger.v ===== *)
(** * The debug logger

    src/dkg-logging/src/debug_logger.rs: a logger puts its messages into a channel, and a
    task of its own writes them to four files, one for messages and one for the events of
    each kind of protocol.  The readable names of the nodes, the indices of the parties
    and the checkpoints are shared by all loggers of the process.

    The state is one logger with the shared maps and the files.  An open file is a path
    and a position: the files are not opened for appending.  The name of a party is
    looked up when the task writes the event, not when it is logged.  Hashes, the hex and
    JSON forms and whether the operating system lets a file be made or written are
    parameters; what goes to the console is left out. *)

From Stdlib Require Import Ascii.
From stdpp Require Import pretty.
From S2P Require Import Prelude.
From S2P Require Import Frame.

(** ** Data *)

Inductive AsyncProtocolType :=
| ProtoKeygen
| ProtoSigning (hash : bytes)
| ProtoVoting (hash : bytes).

Inductive RoundsEventType :=
| SentMessage (session round sender : Z) (receiver : option Z) (msg_hash : string)
| ReceivedMessage (session round sender : Z) (receiver : option Z) (msg_hash : string)
| ProcessedMessage (session round sender : Z) (receiver : option Z) (msg_hash : string)
| ProceededToRound (session round : Z)
| PartyIndexChanged (previous new : Z).

Record RoundsEvent := { event_name : string; event_of : RoundsEventType; event_proto : AsyncProtocolType }.

Inductive MessageType :=
| DefaultMessage (message : string)
| EventMessage (event : RoundsEvent)
| ClearMessage.

Record Checkpoint := { checkpoint : string; message_hash : string }.

(** An open file. *)
Record Handle := { h_path : string; h_pos : nat }.

Record DebugLogger := {
  identifier : string;
  to_file_io : list MessageType;
  (** Whether the task that reads the channel was started. *)
  receiving : bool;
  file_handle : option Handle;
  events_file_handle_keygen : option Handle;
  events_file_handle_signing : option Handle;
  events_file_handle_voting : option Handle;
  checkpoints_enabled : bool;
  paths : list string;
  NAMES_MAP : gmap string string;
  PARTY_I_MAP : gmap Z string;
  CHECKPOINTS : gmap string Checkpoint;
  files : gmap string bytes }.

#[export] Instance DebugLogger_eta : Eta DebugLogger := λ l,
  Build_DebugLogger (identifier l) (to_file_io l) (receiving l) (file_handle l)
    (events_file_handle_keygen l) (events_file_handle_signing l) (events_file_handle_voting l)
    (checkpoints_enabled l) (paths l) (NAMES_MAP l) (PARTY_I_MAP l) (CHECKPOINTS l) (files l).

Definition NAMES : list string := [
  "Alice"; "Bob"; "Charlie"; "Dave"; "Eve"; "Faythe"; "Grace"; "Heidi"; "Ivan"; "Judy";
  "Mallory"; "Niaj"; "Olivia"; "Peggy"; "Rupert"; "Sybil"; "Trent"; "Walter"; "Wendy"; "Zach"]%string.

Class LogEnv := {
  (** [hex::encode], and the hex form of [sha2_256]. *)
  hex_of : bytes → string;
  sha2_256_hex : bytes → string;
  can_create : string → bool;
  can_write : string → bool }.

(** The only error is that of a file that cannot be made. *)
Inductive LogError := IoError (path : string).

(** ** The text of an event *)

Definition event_sender (e : RoundsEventType) : option Z :=
  match e with
  | SentMessage _ _ sender _ _ | ReceivedMessage _ _ sender _ _ | ProcessedMessage _ _ sender _ _ =>
      Some sender
  | _ => None
  end.

Definition proto_hash (p : AsyncProtocolType) : option bytes :=
  match p with ProtoKeygen => None | ProtoSigning hash | ProtoVoting hash => Some hash end.

Section code.
Context `{LogEnv}.
Local Open Scope string_scope.
Implicit Types l : DebugLogger.

Abbreviation LG := (M DebugLogger LogError).

Definition get_legible_name l (idx : option Z) : string :=
  match idx with
  | Some party_i =>
      match PARTY_I_MAP l !! party_i with
      | Some uuid => default (pretty party_i) (NAMES_MAP l !! uuid)
      | None => pretty party_i
      end
  | None => "everyone"
  end.

Definition newline : string := String.String "010"%char "".

(** [Debug for RoundsEvent]. *)
Definition fmt_event l (ev : RoundsEvent) : string :=
  let me := event_name ev in
  let hash_str := match proto_hash (event_proto ev) with
                  | Some hash => " unsigned proposal " +:+ hex_of hash
                  | None => ""
                  end in
  let msg_type (receiver : option Z) := match receiver with Some _ => "direct" | None => "broadcast" end in
  match event_of ev with
  | SentMessage session round _ receiver msg_hash =>
      me +:+ " sent a message to " +:+ get_legible_name l receiver +:+ " for session " +:+
      pretty session +:+ " round " +:+ pretty round +:+ hash_str +:+ " | " +:+ msg_hash
  | ReceivedMessage session round sender receiver msg_hash =>
      me +:+ " received a " +:+ msg_type receiver +:+ " message from " +:+
      get_legible_name l (Some sender) +:+ " for session " +:+ pretty session +:+ " round " +:+
      pretty round +:+ hash_str +:+ "| " +:+ msg_hash
  | ProcessedMessage session round sender receiver msg_hash =>
      me +:+ " processed a " +:+ msg_type receiver +:+ " message from " +:+
      get_legible_name l (Some sender) +:+ " for session " +:+ pretty session +:+ " round " +:+
      pretty round +:+ hash_str +:+ "| " +:+ msg_hash
  | ProceededToRound session round =>
      newline +:+ "~~~~~~~~~~~~~~~~~ " +:+ me +:+ " Proceeded to round " +:+ pretty round +:+
      " for session " +:+ pretty session +:+ " " +:+ hash_str +:+ " ~~~~~~~~~~~~~~~~~"
  | PartyIndexChanged previous new =>
      "!!!! Party index changed from " +:+ pretty previous +:+ " to " +:+ pretty new +:+ " !!!!"
  end +:+ newline.

(** ** Files *)

(** A write at a position: what lies between the end of the file and it becomes zero. *)
Definition write_at (content : bytes) (pos : nat) (data : bytes) : bytes :=
  take pos (content ++ replicate (pos - length content) 0) ++ data ++ drop (pos + length data) content.

(** [File::create]. *)
Definition file_create (path : string) : LG Handle :=
  ensure (can_create path) (IoError path);;
  upd! files ::= <[path := []]>;;
  mret {| h_path := path; h_pos := 0 |}.

(** [writeln!(file, ..).unwrap()]. *)
Definition write_line (h : Handle) (line : string) : LG Handle :=
  assert_that (can_write (h_path h));;
  let data := ascii_bytes (line +:+ newline) in
  upd! files ::= (λ fs, <[h_path h := write_at (default [] (fs !! h_path h)) (h_pos h) data]> fs);;
  mret {| h_path := h_path h; h_pos := h_pos h + length data |}.

Definition get_files (base_output : option string)
    : LG (option Handle * option Handle * option Handle * option Handle) :=
  match base_output with
  | Some file_path =>
      file ← file_create file_path;
      let keygen_path := file_path +:+ ".keygen.log" in
      let signing_path := file_path +:+ ".signing.log" in
      let voting_path := file_path +:+ ".voting.log" in
      events_file ← file_create keygen_path;
      events_file_signing ← file_create signing_path;
      events_file_voting ← file_create voting_path;
      put! paths := [file_path; keygen_path; signing_path; voting_path];;
      mret (Some file, Some events_file, Some events_file_signing, Some events_file_voting)
  | None => mret (None, None, None, None)
  end.

(** [DebugLogger::new], in a process with the given shared maps and files: [checkpoints]
    is whether the environment asks for them and [runtime] whether a task can be started. *)
Definition logger_new (id : string) (file : option string) (checkpoints runtime : bool) : LG unit :=
  put! paths := [];;
  '(file, keygen, signing, voting) ← get_files file;
  put! identifier := id;;
  put! to_file_io := [];;
  put! receiving := runtime;;
  put! file_handle := file;;
  put! events_file_handle_keygen := keygen;;
  put! events_file_handle_signing := signing;;
  put! events_file_handle_voting := voting;;
  put! checkpoints_enabled := checkpoints.

Definition set_output (file : option string) : LG unit :=
  '(file, event_file, signing_file, voting_file) ← get_files file;
  put! file_handle := file;;
  put! events_file_handle_keygen := event_file;;
  put! events_file_handle_signing := signing_file;;
  put! events_file_handle_voting := voting_file.

(** The task: what it does with one message. *)
Definition io_message (message : MessageType) : LG unit :=
  match message with
  | DefaultMessage message =>
      fh ← gets file_handle;
      match fh with
      | Some file => file ← write_line file message; put! file_handle := Some file
      | None => mret tt
      end
  | EventMessage event =>
      line ← gets (λ l, fmt_event l event);
      match event_proto event with
      | ProtoKeygen =>
          fh ← gets events_file_handle_keygen;
          match fh with
          | Some file => file ← write_line file line; put! events_file_handle_keygen := Some file
          | None => mret tt
          end
      | ProtoSigning _ =>
          fh ← gets events_file_handle_signing;
          match fh with
          | Some file => file ← write_line file line; put! events_file_handle_signing := Some file
          | None => mret tt
          end
      | ProtoVoting _ =>
          fh ← gets events_file_handle_voting;
          match fh with
          | Some file => file ← write_line file line; put! events_file_handle_voting := Some file
          | None => mret tt
          end
      end
  | ClearMessage =>
      lock ← gets paths;
      for_each lock (λ path, _ ← catch (file_create path); mret tt)
  end.

(** One turn of its loop. *)
Definition io_step : LG unit :=
  queue ← gets to_file_io;
  match queue with
  | message :: rest => put! to_file_io := rest;; io_message message
  | [] => mret tt
  end.

(** ** Calls *)

Definition send_io (m : MessageType) : LG unit :=
  open ← gets receiving;
  when open (upd! to_file_io ::= (λ q, q ++ [m])%list).

Definition set_id (id : string) : LG unit :=
  names_map ← gets NAMES_MAP;
  let len := size names_map in
  assert_that (bool_decide (len < length NAMES)%nat);;
  name ← expect (NAMES !! len);
  upd! NAMES_MAP ::= <[id := name]>;;
  put! identifier := id.

Definition log_to_file (target level time message : string) : LG unit :=
  send_io (DefaultMessage ("[" +:+ target +:+ "] [" +:+ level +:+ "] [" +:+ time +:+ "] : " +:+ message)).

(** [trace], [debug], [info], [warn] and [error], and the same for signing and keygen. *)
Inductive Level := Trace | DebugLevel | Info | Warn | ErrorLevel.
Inductive Topic := General | SigningTopic | KeygenTopic.

Definition level_name (v : Level) : string :=
  match v with Trace => "trace" | DebugLevel => "debug" | Info => "info" | Warn => "warn" | ErrorLevel => "error" end.

Definition topic_target (t : Topic) : string :=
  match t with
  | General => "dkg_gadget"
  | SigningTopic => "dkg_gadget::async_protocol::signing"
  | KeygenTopic => "dkg_gadget::async_protocol::keygen"
  end.

Definition log_message (t : Topic) (v : Level) (time message : string) : LG unit :=
  log_to_file (topic_target t) (level_name v) time message.

Definition round_event (proto : AsyncProtocolType) (event : RoundsEventType) : LG unit :=
  id ← gets identifier;
  match event with
  | SentMessage _ _ sender _ _ => upd! PARTY_I_MAP ::= <[sender := id]>
  | _ => mret tt
  end;;
  names ← gets NAMES_MAP;
  let name := default id (names !! id) in
  send_io (EventMessage {| event_name := name; event_of := event; event_proto := proto |}).

(** [message_to_string_hash]: the JSON form, which must exist, is hashed. *)
Definition message_to_string_hash (json : option bytes) : LG string :=
  json ← expect json;
  mret (sha2_256_hex json).

Definition raw_message_to_hash (payload : bytes) : string := sha2_256_hex payload.

Definition insert_checkpoint (hash point : string) : LG unit :=
  upd! CHECKPOINTS ::= <[hash := {| checkpoint := point; message_hash := hash |}]>.

Definition checkpoint_message (json : option bytes) (point : string) : LG unit :=
  enabled ← gets checkpoints_enabled;
  when enabled (hash ← message_to_string_hash json; insert_checkpoint hash point).

Definition checkpoint_message_raw (payload : bytes) (point : string) : LG unit :=
  enabled ← gets checkpoints_enabled;
  when enabled (insert_checkpoint (raw_message_to_hash payload) point).

Definition clear_checkpoints : LG unit :=
  enabled ← gets checkpoints_enabled;
  when enabled (put! CHECKPOINTS := ∅).

Definition clear_checkpoint_for_message (json : option bytes) : LG unit :=
  enabled ← gets checkpoints_enabled;
  when enabled (hash ← message_to_string_hash json; upd! CHECKPOINTS ::= delete hash).

Definition clear_checkpoint_for_message_raw (payload : bytes) : LG unit :=
  enabled ← gets checkpoints_enabled;
  when enabled (upd! CHECKPOINTS ::= delete (raw_message_to_hash payload)).

Definition clear_local_logs : LG unit := send_io ClearMessage.
End code.

(** ** The logs *)

Inductive LogFile := MainFile | KeygenFile | SigningFile | VotingFile.

#[export] Instance LogFile_eq_dec : EqDecision LogFile.
Proof. solve_decision. Defined.

Definition handle_of (k : LogFile) : DebugLogger → option Handle :=
  match k with
  | MainFile => file_handle
  | KeygenFile => events_file_handle_keygen
  | SigningFile => events_file_handle_signing
  | VotingFile => events_file_handle_voting
  end.

Definition log_path (base : string) (k : LogFile) : string :=
  (base +:+ match k with
            | MainFile => ""
            | KeygenFile => ".keygen.log"
            | SigningFile => ".signing.log"
            | VotingFile => ".voting.log"
            end)%string.

(** The file that a message is written to, and the line. *)
Definition message_file (m : MessageType) : option LogFile :=
  match m with
  | DefaultMessage _ => Some MainFile
  | EventMessage e =>
      Some match event_proto e with
           | ProtoKeygen => KeygenFile | ProtoSigning _ => SigningFile | ProtoVoting _ => VotingFile
           end
  | ClearMessage => None
  end.

Definition message_line `{LogEnv} (l : DebugLogger) (m : MessageType) : bytes :=
  match m with
  | DefaultMessage message => ascii_bytes (message +:+ newline)
  | EventMessage e => ascii_bytes (fmt_event l e +:+ newline)
  | ClearMessage => []
  end.

(** The lines of a list of messages that belong to one file. *)
Definition log_lines `{LogEnv} (l : DebugLogger) (k : LogFile) (ms : list MessageType) : bytes :=
  ms ≫= λ m, if decide (message_file m = Some k) then message_line l m else [].

(** The calls that leave the files alone. *)
Inductive LogCall :=
| CallLog (t : Topic) (v : Level) (time message : string)
| CallEvent (proto : AsyncProtocolType) (event : RoundsEventType)
| CallSetId (id : string)
| CallCheckpoint (json : option bytes) (point : string)
| CallCheckpointRaw (payload : bytes) (point : string)
| CallClearCheckpoints
| CallClearCheckpoint (json : option bytes)
| CallClearCheckpointRaw (payload : bytes).

Definition log_call `{LogEnv} (c : LogCall) : M DebugLogger LogError unit :=
  match c with
  | CallLog t v time message => log_message t v time message
  | CallEvent proto event => round_event proto event
  | CallSetId id => set_id id
  | CallCheckpoint json point => checkpoint_message json point
  | CallCheckpointRaw payload point => checkpoint_message_raw payload point
  | CallClearCheckpoints => clear_checkpoints
  | CallClearCheckpoint json => clear_checkpoint_for_message json
  | CallClearCheckpointRaw payload => clear_checkpoint_for_message_raw payload
  end.

(** All four files are open at their end. *)
Definition opened (base : string) (l : DebugLogger) (content : LogFile → bytes) : Prop := ∀ k,
  handle_of k l = Some {| h_path := log_path base k; h_pos := length (content k) |} ∧
  files l !! log_path base k = Some (content k).

(** What the lines depend on. *)
Definition same_names (l l' : DebugLogger) : Prop :=
  NAMES_MAP l' = NAMES_MAP l ∧ PARTY_I_MAP l' = PARTY_I_MAP l.

Lemma write_at_end content data : write_at content (length content) data = content ++ data.
Proof.
  unfold write_at. rewrite Nat.sub_diag, app_nil_r, take_ge, drop_ge, app_nil_r by lia. done.
Qed.

Lemma string_app_nil (s : string) : (s +:+ "")%string = s.
Proof.
  induction s as [|c s IH]; [done|].
  change (String.String c (s +:+ "") = String.String c s)%string. by rewrite IH.
Qed.

#[export] Instance log_path_inj base : Inj (=) (=) (log_path base).
Proof. intros k j E%(inj (String.append base)). by destruct k, j. Qed.

Section logs.
Context `{LogEnv}.
Hypothesis creatable : ∀ p, can_create p = true.
Hypothesis writable : ∀ p, can_write p = true.

Lemma message_line_names l l' m : same_names l l' → message_line l' m = message_line l m.
Proof.
  intros [E1 E2]. destruct m as [|e|]; [done| |done]. unfold message_line, fmt_event, get_legible_name.
  by rewrite E1, E2.
Qed.

Lemma write_line_end h line l content :
  files l !! h_path h = Some content → h_pos h = length content →
  write_line h line l = Ret {| h_path := h_path h; h_pos := h_pos h + length (ascii_bytes (line +:+ newline)) |}
    (l <| files ::= <[h_path h := content ++ ascii_bytes (line +:+ newline)]> |>).
Proof.
  intros Hf Hp. unfold write_line. rewrite writable. autorewrite with mrun.
  cbv [mret M_ret]. f_equal. unfold set. simpl. f_equal. by rewrite Hf, Hp; simpl; rewrite write_at_end.
Qed.

(** The task appends the line of a message to its file and changes nothing else. *)
Lemma io_message_appends base l content m k :
  opened base l content → message_file m = Some k →
  ∃ l', io_message m l = Ret tt l' ∧ same_names l l' ∧ to_file_io l' = to_file_io l ∧
    opened base l' (λ j, if decide (j = k) then content k ++ message_line l m else content j).
Proof.
  intros Ho Hm. destruct (Ho k) as [Hh Hf].
  assert (∀ line l', ascii_bytes (line +:+ newline) = message_line l m →
    files l' = <[log_path base k := content k ++ message_line l m]> (files l) →
    handle_of k l' = Some {| h_path := log_path base k; h_pos := length (content k) + length (ascii_bytes (line +:+ newline)) |} →
    (∀ j, j ≠ k → handle_of j l' = handle_of j l) →
    opened base l' (λ j, if decide (j = k) then content k ++ message_line l m else content j)) as Hopen.
  { intros line l' El Ef Ek Ej j. rewrite Ef. case_decide as D; [subst j|].
    - rewrite Ek, lookup_insert_eq, El, length_app. done.
    - rewrite Ej, lookup_insert_ne by (done || by intros ?%(inj (log_path base))). apply Ho. }
  assert (Hrun : ∀ line (set_handle : Handle → DebugLogger → DebugLogger),
    ascii_bytes (line +:+ newline) = message_line l m →
    (∀ h l', files (set_handle h l') = files l' ∧ handle_of k (set_handle h l') = Some h ∧
       same_names l' (set_handle h l') ∧ to_file_io (set_handle h l') = to_file_io l' ∧
       ∀ j, j ≠ k → handle_of j (set_handle h l') = handle_of j l') →
    ∃ l', (match handle_of k l with
           | Some file => file ← write_line file line; modify (set_handle file)
           | None => mret tt
           end) l = Ret tt l' ∧ same_names l l' ∧ to_file_io l' = to_file_io l ∧
      opened base l' (λ j, if decide (j = k) then content k ++ message_line l m else content j)).
  { intros line set_handle El Hset. rewrite Hh.
    erewrite run_call by (apply write_line_end; [exact Hf|done]). eexists. split; [reflexivity|].
    match goal with |- context [set_handle ?h ?l'] => destruct (Hset h l') as (Ef & Ek & [] & Eq & Ej) end.
    split; [done|]. split; [done|]. eapply Hopen; [exact El| |exact Ek|].
    - rewrite Ef, <- El. done.
    - intros j Hj. rewrite (Ej j Hj). by destruct j. }
  destruct m as [s|e|]; [| |done].
  - injection Hm as <-. cbn [io_message]. autorewrite with mrun.
    apply (Hrun s (λ h, set file_handle (λ _, Some h))); [done|]. intros. split_and!; try done. by intros [].
  - cbn [message_file io_message] in *. autorewrite with mrun.
    destruct (event_proto e); injection Hm as <-; autorewrite with mrun.
    + apply (Hrun (fmt_event l e) (λ h, set events_file_handle_keygen (λ _, Some h))); [done|].
      intros. split_and!; try done. by intros [].
    + apply (Hrun (fmt_event l e) (λ h, set events_file_handle_signing (λ _, Some h))); [done|].
      intros. split_and!; try done. by intros [].
    + apply (Hrun (fmt_event l e) (λ h, set events_file_handle_voting (λ _, Some h))); [done|].
      intros. split_and!; try done. by intros [].
Qed.

Lemma opened_ext base l content content' :
  (∀ k, content k = content' k) → opened base l content → opened base l content'.
Proof. intros E Ho k. rewrite <- E. apply Ho. Qed.

Lemma log_lines_names l l' k ms : same_names l l' → log_lines l' k ms = log_lines l k ms.
Proof.
  intros Hn. unfold log_lines. induction ms as [|m ms IH]; [done|]. rewrite !bind_cons, IH.
  by rewrite (message_line_names l l').
Qed.

Lemma io_step_cons l m ms :
  to_file_io l = m :: ms → io_step l = io_message m (l <| to_file_io := ms |>).
Proof. intros Hq. unfold io_step. autorewrite with mrun. by rewrite Hq. Qed.

(** The task works the queue off in order. *)
Lemma io_steps base ms l content :
  to_file_io l = ms → opened base l content → Forall (λ m, message_file m ≠ None) ms →
  ∃ l', for_each ms (λ _, io_step) l = Ret tt l' ∧ to_file_io l' = [] ∧
    opened base l' (λ k, content k ++ log_lines l k ms).
Proof.
  revert l content. induction ms as [|m ms IH]; intros l content Hq Ho Hms.
  - exists l. split_and!; [done..|]. eapply opened_ext; [|exact Ho]. intros. by rewrite app_nil_r.
  - apply Forall_cons in Hms as [Hm Hms]. destruct (message_file m) as [k|] eqn:Ek; [|done].
    assert (opened base (l <| to_file_io := ms |>) content) as Ho1 by (intros j; specialize (Ho j); by destruct j).
    destruct (io_message_appends base _ content m k Ho1 Ek) as (l1 & Hrun & Hn & Hq1 & Ho2).
    destruct (IH l1 _ Hq1 Ho2 Hms) as (l2 & Hrun2 & Hq2 & Ho3). exists l2. split_and!; [|done|].
    + cbn [for_each]. erewrite run_call; [exact Hrun2|]. by rewrite (io_step_cons _ _ _ Hq).
    + eapply opened_ext; [|exact Ho3]. intros j. cbv beta.
      rewrite (log_lines_names l l1) by done. unfold log_lines. rewrite bind_cons, Ek.
      rewrite (message_line_names l) by done.
      repeat case_decide; simplify_eq; by rewrite ?app_assoc, ?app_nil_r.
Qed.

Lemma new_opens base id checkpoints l0 l1 :
  logger_new id (Some base) checkpoints true l0 = Ret tt l1 →
  opened base l1 (λ _, []) ∧ to_file_io l1 = [].
Proof.
  unfold logger_new, get_files, file_create. rewrite !creatable. autorewrite with mrun.
  intros [= <-]. split; [|done].
  intros k. split.
  - destruct k; simpl; unfold log_path; by rewrite ?string_app_nil.
  - simpl. destruct k; unfold log_path; rewrite ?string_app_nil;
      repeat (rewrite lookup_insert; case_decide; [done|]); done.
Qed.

(** The calls leave the files alone, and do not ask for them to be cleared. *)
Definition logging base content l : Prop :=
  opened base l content ∧ Forall (λ m, message_file m ≠ None) (to_file_io l).

Lemma logging_keep base content l l' :
  files l' = files l → (∀ k, handle_of k l' = handle_of k l) → to_file_io l' = to_file_io l →
  logging base content l → logging base content l'.
Proof. intros Ef Eh Eq [Ho Hq]. split; [|by rewrite Eq]. intros k. rewrite Ef, Eh. apply Ho. Qed.

Lemma send_io_logging base content m :
  message_file m ≠ None → preserves (logging base content) (send_io m).
Proof.
  intros Hm. unfold send_io. apply preserves_bind; [apply preserves_gets|]. intros open.
  apply preserves_when, preserves_modify. intros l [Ho Hq]. split; [intros k; specialize (Ho k); by destruct k|].
  apply Forall_app. by split; [|constructor].
Qed.

Ltac keep_logging := apply preserves_modify; intros ?; apply logging_keep; [done|by intros []|done].

#[local] Hint Resolve send_io_logging : preserves.
#[local] Hint Extern 1 (message_file _ ≠ None) => discriminate : preserves.
#[local] Hint Extern 3 (preserves (logging _ _) (modify _)) => keep_logging : preserves.

Lemma log_call_logging base content c : preserves (logging base content) (log_call c).
Proof.
  destruct c; cbn [log_call]; unfold log_message, log_to_file, round_event, set_id, checkpoint_message,
    checkpoint_message_raw, clear_checkpoints, clear_checkpoint_for_message,
    clear_checkpoint_for_message_raw, message_to_string_hash, insert_checkpoint.
  all: solve_preserves.
Qed.

(** What is written is what was logged: after any calls, a task that works off the channel
    leaves in each file exactly the lines of the messages that belong to it, in the order
    in which they were logged. *)
Lemma logs_written base id checkpoints calls l0 l1 :
  (logger_new id (Some base) checkpoints true;; for_each calls log_call) l0 = Ret tt l1 →
  ∃ l2, for_each (to_file_io l1) (λ _, io_step) l1 = Ret tt l2 ∧ to_file_io l2 = [] ∧
    ∀ k, files l2 !! log_path base k = Some (log_lines l1 k (to_file_io l1)).
Proof.
  intros Hrun. apply bind_Ret in Hrun as ([] & l & Hnew & Hrun).
  destruct (new_opens _ _ _ _ _ Hnew) as [Ho Hq].
  assert (preserves (logging base (λ _, [])) (for_each calls log_call)) as Hp
    by (apply preserves_for_each; intros; apply log_call_logging).
  specialize (Hp l). unfold wp in Hp. rewrite Hrun in Hp.
  destruct Hp as [Ho1 Hq1]; [split; [done|by rewrite Hq]|].
  destruct (io_steps base (to_file_io l1) l1 (λ _, [])) as (l2 & Hio & Hq2 & Ho2); [done..|].
  exists l2. split_and!; [done..|]. intros k. by destruct (Ho2 k).
Qed.
End logs.

(** ** Names *)

Section names.
Context `{LogEnv}.

(** The identifiers set so far have the first names, in order. *)
Record named (ids : list string) (l : DebugLogger) : Prop := {
  nm_size : size (NAMES_MAP l) = length ids;
  nm_none id : id ∉ ids → NAMES_MAP l !! id = None;
  nm_some i id : ids !! i = Some id → NAMES_MAP l !! id = NAMES !! i }.

Lemma set_id_named ids id l :
  named ids l → id ∉ ids →
  if decide (length ids < 20)%nat
  then ∃ l', set_id id l = Ret tt l' ∧ identifier l' = id ∧ named (ids ++ [id]) l'
  else set_id id l = Panic.
Proof.
  intros [Hs Hnone Hl] Hid. unfold set_id. autorewrite with mrun. rewrite Hs. change (length NAMES) with 20%nat.
  case_decide as Hlt; [|by rewrite bool_decide_eq_false_2].
  rewrite bool_decide_eq_true_2 by done.
  destruct (lookup_lt_is_Some_2 NAMES (length ids) Hlt) as [name Hn]. rewrite Hn.
  eexists. split; [reflexivity|]. split; [done|]. split; simp_get.
  - rewrite map_size_insert_None, Hs, length_app; [simpl; lia|]. by apply Hnone.
  - intros x Hx. rewrite lookup_insert_ne by (intros ->; set_solver). apply Hnone. set_solver.
  - intros i x [Hx|[Hi Hx]]%lookup_app_Some.
    + rewrite lookup_insert_ne; [by apply Hl|]. intros ->. by apply list_elem_of_lookup_2 in Hx.
    + apply list_lookup_singleton_Some in Hx as [? ->].
      by rewrite lookup_insert_eq, <- Hn; replace i with (length ids) by lia.
Qed.

Lemma for_each_set_id done_ids ids l :
  named done_ids l → NoDup (done_ids ++ ids) →
  if decide (length (done_ids ++ ids) <= 20)%nat
  then ∃ l', for_each ids set_id l = Ret tt l' ∧ named (done_ids ++ ids) l'
  else for_each ids set_id l = Panic ∨ (20 < length done_ids)%nat.
Proof.
  revert done_ids l. induction ids as [|id ids IH]; intros done_ids l Hn Hnd.
  - rewrite app_nil_r. case_decide; [by exists l|right; lia].
  - assert (id ∉ done_ids) as Hid by (apply NoDup_app in Hnd; set_solver).
    pose proof (set_id_named done_ids id l Hn Hid) as Hset. cbn [for_each].
    rewrite cons_middle, app_assoc in Hnd |- *. rewrite (length_app (_ ++ _)), length_app. simpl.
    destruct (decide (length done_ids < 20)%nat).
    + destruct Hset as (l1 & E & _ & Hn1). rewrite (run_call _ _ _ _ _ E).
      specialize (IH _ _ Hn1 Hnd). rewrite (length_app (_ ++ _)), length_app in IH. simpl in IH.
      case_decide; [done|]. destruct IH; [by left|lia].
    + rewrite decide_False by lia. left. cbv [mbind M_bind]. by rewrite Hset.
Qed.

(** Up to twenty different identifiers get different names, and one more is too many. *)
Lemma set_ids_named ids l :
  NoDup ids → NAMES_MAP l = ∅ →
  if decide (length ids <= 20)%nat
  then ∃ l', for_each ids set_id l = Ret tt l' ∧
         ∀ i id, ids !! i = Some id → NAMES_MAP l' !! id = NAMES !! i
  else for_each ids set_id l = Panic.
Proof.
  intros Hnd He. assert (named [] l) as Hn.
  { split; [by rewrite He|intros; by rewrite He|done]. }
  pose proof (for_each_set_id [] ids l Hn Hnd) as Hrun. simpl in Hrun. case_decide.
  - destruct Hrun as (l' & E & [_ _ Hs]). by exists l'.
  - destruct Hrun; [done|lia].
Qed.
End names.

(** ** Two departures *)

(** A logger whose identifier is set twice takes two names, and the next logger shares
    the second one. *)
Example repeated_id_shares_name `{LogEnv} l :
  NAMES_MAP l = ∅ →
  ∃ l', for_each ["a"; "a"; "b"]%string set_id l = Ret tt l' ∧
    NAMES_MAP l' !! "a"%string = Some "Bob"%string ∧ NAMES_MAP l' !! "b"%string = Some "Bob"%string.
Proof. destruct l; simpl. intros ->. eexists. split; [reflexivity|]. done. Qed.

(** Clearing empties the files, but the task writes on where it was: a log of [n] bytes is
    followed by a line after [n] zeros. *)
Lemma clear_leaves_zeros `{LogEnv} base l content (m : string) :
  (∀ p, can_create p = true) → (∀ p, can_write p = true) →
  opened base l content → paths l = log_path base <$> [MainFile; KeygenFile; SigningFile; VotingFile] →
  ∃ l', for_each [ClearMessage; DefaultMessage m] io_message l = Ret tt l' ∧
    files l' !! log_path base MainFile =
      Some (replicate (length (content MainFile)) 0 ++ ascii_bytes (m +:+ newline)).
Proof.
  intros Hc Hw Ho Hp. destruct (Ho MainFile) as [Hh Hf]. cbn [handle_of] in Hh.
  assert (∀ p l, (_ ← catch (file_create p); mret tt) l = Ret tt (l <| files ::= <[p := []]> |>)) as Hcreate.
  { intros p l'. unfold file_create, catch. by rewrite Hc. }
  assert (∃ l1, io_message ClearMessage l = Ret tt l1 ∧ file_handle l1 = file_handle l ∧
    files l1 !! log_path base MainFile = Some []) as (l1 & E1 & Eh & Ef).
  { cbn [io_message]. autorewrite with mrun. rewrite Hp, !fmap_cons, fmap_nil. cbn [for_each].
    rewrite !(run_call _ _ _ _ _ (Hcreate _ _)). eexists. split; [reflexivity|]. split; [done|].
    simp_get. by rewrite !lookup_insert_ne, lookup_insert_eq by (intros ?%(inj (log_path base)); done). }
  cbn [for_each]. rewrite (run_call _ _ _ _ _ E1). cbn [io_message]. autorewrite with mrun.
  rewrite Eh, Hh. unfold write_line. rewrite Hw. autorewrite with mrun. eexists. split; [reflexivity|].
  simp_get. cbn [h_path h_pos]. rewrite lookup_insert_eq, Ef. unfold write_at. simpl.
  rewrite Nat.sub_0_r, take_ge, drop_nil, app_nil_r by (rewrite length_replicate; done). done.
Qed.
