(* ===== verification/GadgetTypes.v ===== *)
(** * Data of the gadget

    Messages between the nodes (src/dkg-primitives/src/types.rs and
    src/dkg-runtime-primitives/src/gossip_messages.rs), the errors of the gadget,
    the party identifiers of key generation and of the offline stage
    (src/dkg-gadget/src/async_protocols/mod.rs), the tables that lead from a party
    to its authority (utils.rs) and the constants of the managers.  The theorems
    relate the two kinds of identifiers and show whom a table blames. *)

From S2P Require Import Prelude.
From S2P Require Import Frame.
From S2P Require Import Primitives.

(** ** Messages *)

Record DKGKeygenMessage := mkDKGKeygenMessage {
  km_sender_id : Z;
  km_keygen_msg : bytes;
  km_keygen_protocol_hash : bytes }.

Record DKGOfflineMessage := mkDKGOfflineMessage {
  om_key : bytes;
  om_signer_set_id : Z;
  om_offline_msg : bytes;
  om_unsigned_proposal_hash : bytes }.

Record DKGVoteMessage := mkDKGVoteMessage {
  vm_party_ind : Z;
  vm_round_key : bytes;
  vm_partial_signature : bytes;
  vm_unsigned_proposal_hash : bytes }.

Record PublicKeyMessage := mkPublicKeyMessage {
  pk_session_id : Z;
  pk_pub_key : bytes;
  pk_signature : bytes }.

Record MisbehaviourMessage := mkMisbehaviourMessage {
  mb_misbehaviour_type : MisbehaviourType;
  mb_session_id : Z;
  mb_offender : DKGId;
  mb_signature : bytes }.

Inductive NetworkMsgPayload :=
| PKeygen (m : DKGKeygenMessage)
| POffline (m : DKGOfflineMessage)
| PVote (m : DKGVoteMessage)
| PPublicKeyBroadcast (m : PublicKeyMessage)
| PMisbehaviourBroadcast (m : MisbehaviourMessage).

Record DKGMessage := mkDKGMessage {
  sender_id : DKGId;
  recipient_id : option DKGId;
  payload : NetworkMsgPayload;
  msg_session_id : Z;
  msg_associated_block_id : Z;
  msg_ssid : Z }.

Record SignedDKGMessage := mkSignedDKGMessage {
  msg : DKGMessage;
  msg_signature : option bytes }.

#[export] Instance DKGKeygenMessage_eq_dec : EqDecision DKGKeygenMessage.
Proof. solve_decision. Defined.

#[export] Instance DKGOfflineMessage_eq_dec : EqDecision DKGOfflineMessage.
Proof. solve_decision. Defined.

#[export] Instance DKGVoteMessage_eq_dec : EqDecision DKGVoteMessage.
Proof. solve_decision. Defined.

#[export] Instance PublicKeyMessage_eq_dec : EqDecision PublicKeyMessage.
Proof. solve_decision. Defined.

#[export] Instance MisbehaviourMessage_eq_dec : EqDecision MisbehaviourMessage.
Proof. solve_decision. Defined.

#[export] Instance NetworkMsgPayload_eq_dec : EqDecision NetworkMsgPayload.
Proof. solve_decision. Defined.

#[export] Instance DKGMessage_eq_dec : EqDecision DKGMessage.
Proof. solve_decision. Defined.

#[export] Instance SignedDKGMessage_eq_dec : EqDecision SignedDKGMessage.
Proof. solve_decision. Defined.

(** [NetworkMsgPayload::payload]. *)
Definition payload_bytes (p : NetworkMsgPayload) : bytes :=
  match p with
  | POffline m => om_offline_msg m
  | PVote m => vm_partial_signature m
  | PKeygen m => km_keygen_msg m
  | PPublicKeyBroadcast m => pk_pub_key m
  | PMisbehaviourBroadcast m => mb_signature m
  end.

Definition unsigned_proposal_hash (p : NetworkMsgPayload) : option bytes :=
  match p with
  | POffline m => Some (om_unsigned_proposal_hash m)
  | PVote m => Some (vm_unsigned_proposal_hash m)
  | _ => None
  end.

Definition keygen_protocol_hash (p : NetworkMsgPayload) : option bytes :=
  match p with PKeygen m => Some (km_keygen_protocol_hash m) | _ => None end.

(** The [as u16] of the offline stage wraps. *)
Definition async_proto_only_get_sender_id (p : NetworkMsgPayload) : option Z :=
  match p with
  | PKeygen m => Some (km_sender_id m)
  | POffline m => Some (wrap 16 (om_signer_set_id m))
  | PVote m => Some (vm_party_ind m)
  | _ => None
  end.

(** ** Errors

    [DKGError]; the texts of the reasons are left out. *)

Inductive DKGError :=
| EKeygenMisbehaviour (bad_actors : list DKGId) (session_id : Z)
| EKeygenTimeout (session_id : Z) (bad_actors : list DKGId)
| EStartKeygen
| EStartOffline
| ECreateOfflineStage
| EVote
| ECriticalError
| EGenericError
| ENoAuthorityAccounts
| ENoHeader
| ESignMisbehaviour (bad_actors : list DKGId) (session_id : Z)
| EInvalidPeerId
| EInvalidSignature
| EInvalidKeygenPartyId
| EInvalidSigningSet
| EInputOutOfBounds
| ECannotSign
| ELocalKeyNotFound
| EStoringLocalKeyFailed.

(** ** Local keys

    What a key generation leaves on a node; keys, commitments and the state of a FROST
    party are kept in their serialized form. *)

Inductive LocalKeyType :=
| ECDSA (key : bytes)
| FROST (public_key : list bytes) (state : bytes).

#[export] Instance LocalKeyType_eq_dec : EqDecision LocalKeyType.
Proof. solve_decision. Defined.

(** ** Constants *)

Module SigningConstants.
Definition MAX_RUNNING_TASKS : nat := 1.
Definition MAX_ENQUEUED_TASKS : nat := 20.
End SigningConstants.

Module KeygenConstants.
Definition MAX_RUNNING_TASKS : nat := 1.
Definition MAX_ENQUEUED_TASKS : nat := 0.
End KeygenConstants.

Definition MAX_KNOWN_MESSAGES : nat := 4096.
Definition MAX_DUPLICATED_MESSAGES_PER_PEER : Z := 8.

(** ** Parties

    A [KeygenPartyId] numbers the parties of a key generation from one, an
    [OfflinePartyId] the members of a signing set; both wrap a u16. *)

Record KeygenPartyId := mkKeygenPartyId { keygen_id : Z }.
Record OfflinePartyId := mkOfflinePartyId { offline_id : Z }.

#[export] Instance KeygenPartyId_eq_dec : EqDecision KeygenPartyId.
Proof. solve_decision. Defined.

#[export] Instance OfflinePartyId_eq_dec : EqDecision OfflinePartyId.
Proof. solve_decision. Defined.

(** [KeygenPartyId::try_from]. *)
Definition keygen_party_id (value : Z) : result DKGError KeygenPartyId :=
  if value =? 0 then Err EInvalidKeygenPartyId else Ok (mkKeygenPartyId value).

(** [usize] subtraction. *)
Definition keygen_to_index (i : KeygenPartyId) : Z := wrap 64 (keygen_id i - 1).

Definition offline_to_index (i : OfflinePartyId) : Z := wrap 64 (offline_id i - 1).

(** [slice.iter().position(..)]. *)
Definition find_index {A} `{EqDecision A} (queue : list A) (value : A) : option nat :=
  fst <$> list_find (λ v, value = v) queue.

Definition try_from_keygen_party_id (i : KeygenPartyId) (s_l : list KeygenPartyId)
    : result DKGError OfflinePartyId :=
  index ← result_of (find_index s_l i) EInvalidKeygenPartyId;
  Ok (mkOfflinePartyId (wrap 16 (wrap 16 (Z.of_nat index) + 1))).

Definition try_to_keygen_party_id (i : OfflinePartyId) (s_l : list KeygenPartyId)
    : result DKGError KeygenPartyId :=
  result_of (s_l !! Z.to_nat (offline_to_index i)) EInvalidSigningSet.

Inductive KeygenRound := Genesis | Next.

#[export] Instance KeygenRound_eq_dec : EqDecision KeygenRound.
Proof. solve_decision. Defined.

Inductive ProtoStageType :=
| KeygenGenesis
| KeygenStandard
| Signing (unsigned_proposal_hash : bytes).

Record AnticipatedKeygenExecutionStatus := mkAnticipated {
  execute : bool;
  force_execute : bool }.

(** ** From parties to authorities *)

(** [bad_actors_to_authorities]. *)
Definition bad_actors_to_authorities (bad_actors : list Z) (mapping : gmap Z DKGId)
    : list DKGId :=
  omap (λ i, mapping !! i) bad_actors.

(** [generate_authority_mapping]; a later entry replaces an earlier one. *)
Definition generate_authority_mapping (authorities : list (KeygenPartyId * DKGId))
    (proto_ty : ProtoStageType) : gmap Z DKGId :=
  match proto_ty with
  | KeygenGenesis | KeygenStandard =>
      foldl (λ m e, <[keygen_id e.1 := e.2]> m) ∅ authorities
  | Signing _ =>
      foldl (λ m e,
        match try_from_keygen_party_id e.1 authorities.*1 with
        | Ok offline_index => <[offline_id offline_index := e.2]> m
        | _ => m
        end) ∅ authorities
  end.

(** ** Theorems *)

Lemma find_index_Some {A} `{EqDecision A} (l : list A) x n :
  find_index l x = Some n ↔ l !! n = Some x ∧ ∀ m y, l !! m = Some y → (m < n)%nat → y ≠ x.
Proof.
  unfold find_index. rewrite fmap_Some. split.
  - intros ([m y] & (Hm & <- & Hlt)%list_find_Some & ->). simpl. split; [done|].
    intros k z Hk Hlt'. specialize (Hlt k z Hk Hlt'). congruence.
  - intros [Hn Hlt]. exists (n, x). split; [|done]. apply list_find_Some.
    split_and!; [done..|]. intros k z Hk Hlt' ->. by apply (Hlt k z).
Qed.

Lemma find_index_None {A} `{EqDecision A} (l : list A) x : find_index l x = None ↔ x ∉ l.
Proof.
  unfold find_index. rewrite fmap_None, list_find_None, Forall_forall. split.
  - intros Hl Hx. by apply (Hl x).
  - intros Hx y Hy ->. done.
Qed.

Lemma find_index_lookup {A} `{EqDecision A} (l : list A) n x :
  NoDup l → l !! n = Some x → find_index l x = Some n.
Proof.
  intros Hl Hn. apply find_index_Some. split; [done|]. intros m y Hm Hlt ->.
  pose proof (NoDup_lookup l m n x Hl Hm Hn). lia.
Qed.

Lemma wrap16_succ (n : nat) : Z.of_nat n < 2 ^ 16 - 1 →
  wrap 16 (wrap 16 (Z.of_nat n) + 1) = Z.of_nat n + 1.
Proof. intros Hn. rewrite !wrap_small; [done|..]; rewrite ?wrap_small; unfold in_width; lia. Qed.

(** The two conversions between party identifiers are inverse to each other: a
    member of a signing set (of fewer than 2^16 parties) has an offline identifier
    between one and the size of the set that leads back to it; a party outside the
    set has none. *)
Theorem offline_party_roundtrip i s_l :
  len s_l < 2 ^ 16 →
  match try_from_keygen_party_id i s_l with
  | Ok o => 1 <= offline_id o <= len s_l ∧ i ∈ s_l ∧ try_to_keygen_party_id o s_l = Ok i
  | Err e => e = EInvalidKeygenPartyId ∧ i ∉ s_l
  | Panics => False
  end.
Proof.
  intros Hl. unfold try_from_keygen_party_id.
  destruct (find_index s_l i) as [n|] eqn:Hn; simpl; [|by rewrite find_index_None in Hn].
  apply find_index_Some in Hn as [Hn _].
  pose proof (lookup_lt_Some _ _ _ Hn). rewrite wrap16_succ by lia.
  split_and!; [lia..|by eapply list_elem_of_lookup_2|].
  unfold try_to_keygen_party_id, offline_to_index. simpl.
  rewrite wrap_small by (unfold in_width; lia).
  replace (Z.to_nat (Z.of_nat n + 1 - 1)) with n by lia. by rewrite Hn.
Qed.

Lemma foldl_insert_fresh {A} (f : A → Z) (g : A → DKGId) l (m : gmap Z DKGId) k :
  k ∉ f <$> l → foldl (λ m e, <[f e := g e]> m) m l !! k = m !! k.
Proof.
  revert m. induction l as [|e l IH]; intros m Hk; [done|].
  rewrite fmap_cons, not_elem_of_cons in Hk. simpl.
  rewrite IH by naive_solver. apply lookup_insert_ne. naive_solver.
Qed.

Lemma foldl_insert_lookup {A} (f : A → Z) (g : A → DKGId) l (m : gmap Z DKGId) n e :
  NoDup (f <$> l) → l !! n = Some e →
  foldl (λ m e, <[f e := g e]> m) m l !! f e = Some (g e).
Proof.
  revert m n. induction l as [|x l IH]; intros m n Hnd He; [done|].
  rewrite fmap_cons, NoDup_cons in Hnd. destruct Hnd as [Hx Hnd]. simpl.
  destruct n as [|n]; simplify_eq/=; [|by eapply IH].
  rewrite foldl_insert_fresh by done. apply lookup_insert_eq.
Qed.

(** The table of a key generation leads from a party to its authority. *)
Theorem keygen_mapping_blames best ty i a :
  (ty = KeygenGenesis ∨ ty = KeygenStandard) → NoDup (keygen_id ∘ fst <$> best) →
  (i, a) ∈ best → bad_actors_to_authorities [keygen_id i] (generate_authority_mapping best ty) = [a].
Proof.
  intros Hty Hnd [n Hn]%list_elem_of_lookup_1.
  assert (generate_authority_mapping best ty !! keygen_id i = Some a) as E.
  { destruct Hty as [-> | ->];
      exact (foldl_insert_lookup (keygen_id ∘ fst) snd best ∅ n (i, a) Hnd Hn). }
  unfold bad_actors_to_authorities. simpl. by rewrite E.
Qed.

Lemma signing_mapping_foldl best (l : list (KeygenPartyId * DKGId)) (m : gmap Z DKGId) :
  NoDup best.*1 → len best < 2 ^ 16 → l ⊆ best →
  foldl (λ m e, match try_from_keygen_party_id e.1 best.*1 with
                | Ok o => <[offline_id o := e.2]> m
                | _ => m
                end) m l =
  foldl (λ m e, <[Z.of_nat (default 0%nat (find_index best.*1 e.1)) + 1 := e.2]> m) m l.
Proof.
  intros Hnd Hl. revert m. induction l as [|[i a] l IH]; intros m Hsub; [done|]. simpl.
  rewrite IH by (intros x Hx; apply Hsub; by right). f_equal.
  assert ((i, a) ∈ best) as [n Hn]%list_elem_of_lookup_1 by (apply Hsub; by left).
  unfold try_from_keygen_party_id.
  assert (find_index best.*1 i = Some n) as ->.
  { apply find_index_lookup; [done|]. by rewrite list_lookup_fmap, Hn. }
  simpl. rewrite wrap16_succ; [done|]. apply lookup_lt_Some in Hn. lia.
Qed.

(** The table of a signing protocol numbers the best authorities by their position,
    whatever the signing set of the protocol is. *)
Theorem signing_mapping_position best h n i a :
  NoDup best.*1 → len best < 2 ^ 16 → best !! n = Some (i, a) →
  generate_authority_mapping best (Signing h) !! (Z.of_nat n + 1) = Some a.
Proof.
  intros Hnd Hl Hn. unfold generate_authority_mapping.
  rewrite signing_mapping_foldl by done.
  set (f (e : KeygenPartyId * DKGId) := Z.of_nat (default 0%nat (find_index best.*1 e.1)) + 1).
  assert (∀ k e, best !! k = Some e → f e = Z.of_nat k + 1) as Hf.
  { intros k e Hk. unfold f. rewrite (find_index_lookup _ k); [done..|].
    by rewrite list_lookup_fmap, Hk. }
  rewrite <- (Hf n (i, a)) by done.
  apply (foldl_insert_lookup f snd best ∅ n (i, a)); [|done].
  apply NoDup_alt. intros k k' x. rewrite !list_lookup_fmap.
  destruct (best !! k) as [e|] eqn:E, (best !! k') as [e'|] eqn:E'; simpl; try done.
  intros [= <-] [= Heq]. rewrite (Hf _ _ E), (Hf _ _ E') in Heq. lia.
Qed.

(** So a stalled signing protocol can blame an authority that does not even take
    part in it: the first party of the signing set {2, 3} is party 2. *)
Lemma signing_blame_misses a1 a2 a3 h :
  let best := [(mkKeygenPartyId 1, a1); (mkKeygenPartyId 2, a2); (mkKeygenPartyId 3, a3)] in
  let s_l := [mkKeygenPartyId 2; mkKeygenPartyId 3] in
  try_to_keygen_party_id (mkOfflinePartyId 1) s_l = Ok (mkKeygenPartyId 2) ∧
  bad_actors_to_authorities [1] (generate_authority_mapping best (Signing h)) = [a1].
Proof. split; reflexivity. Qed.
