(* ===== verification/Remote.v ===== *)
(** * The remote control of a protocol

    [AsyncProtocolRemote] (src/dkg-gadget/src/async_protocols/remote.rs) is shared
    by the manager of a protocol and the protocol itself.  A [Handle] is what its
    clones carry; the shared part behind the [Arc]s is a [Remote], found in a store
    by the identifier of the handle.  The ends of the channels are in the remote: a
    sender that was taken is [false], a receiver that was dropped is closed. *)

From S2P Require Import Prelude.
From S2P Require Import Frame.
From S2P Require Import Primitives.
From S2P Require Import GadgetTypes.

Inductive MetaHandlerStatus :=
| Beginning
| StKeygen
| AwaitingProposals
| OfflineAndVoting
| Complete
| Terminated.

#[export] Instance MetaHandlerStatus_eq_dec : EqDecision MetaHandlerStatus.
Proof. solve_decision. Defined.

Inductive ShutdownReason := Stalled | DropCode.

#[export] Instance ShutdownReason_eq_dec : EqDecision ShutdownReason.
Proof. solve_decision. Defined.

Record Remote := mkRemote {
  status : MetaHandlerStatus;
  status_history : list MetaHandlerStatus;
  (** The messages in the two channels. *)
  rx_keygen_signing : list SignedDKGMessage;
  rx_voting : list SignedDKGMessage;
  rx_keygen_signing_open : bool;
  rx_voting_open : bool;
  (** The start signal: its sender, whether it was sent, its receiver. *)
  start_tx : bool;
  start_sent : bool;
  start_rx_open : bool;
  (** The same for the stop signal. *)
  stop_tx : bool;
  stop_sent : option ShutdownReason;
  stop_rx_open : bool;
  blamed_parties : list Z }.

#[export] Instance Remote_eta : Eta Remote := λ r,
  mkRemote (status r) (status_history r) (rx_keygen_signing r) (rx_voting r)
    (rx_keygen_signing_open r) (rx_voting_open r) (start_tx r) (start_sent r) (start_rx_open r)
    (stop_tx r) (stop_sent r) (stop_rx_open r) (blamed_parties r).

Record Handle := mkHandle {
  remote_id : Z;
  started_at : Z;
  session_id : Z;
  associated_block_id : Z;
  ssid : Z;
  proto_stage_type : ProtoStageType;
  index_to_authority_mapping : gmap Z DKGId }.

(** [AsyncProtocolRemote::new]: the shared part. *)
Definition remote_new : Remote := {|
  status := Beginning; status_history := [Beginning];
  rx_keygen_signing := []; rx_voting := [];
  rx_keygen_signing_open := true; rx_voting_open := true;
  start_tx := true; start_sent := false; start_rx_open := true;
  stop_tx := true; stop_sent := None; stop_rx_open := true;
  blamed_parties := [] |}.

(** ** Status *)

(** The transitions that [set_status] does not complain about. *)
Definition should_update (old new : MetaHandlerStatus) : bool :=
  match old, new with
  | Beginning, StKeygen | Beginning, OfflineAndVoting | Beginning, Terminated => true
  | StKeygen, Complete | StKeygen, Terminated => true
  | OfflineAndVoting, Complete | OfflineAndVoting, Terminated => true
  | _, _ => false
  end.

(** The other transitions are made all the same, with an error in the log. *)
Definition set_status (new : MetaHandlerStatus) (r : Remote) : Remote :=
  if should_update (status r) new
  then r <| status_history ::= (λ h, h ++ [new]) |> <| status := new |>
  else r <| status_history ::= (λ h, h ++ [new]) |> <| status := new |>.

Definition is_active (r : Remote) : bool :=
  negb (bool_decide (status r = Complete)) && negb (bool_decide (status r = Terminated)).

Definition has_started (r : Remote) : bool := negb (bool_decide (status r = Beginning)).

Definition is_completed (r : Remote) : bool := bool_decide (status r = Complete).

Definition is_terminated (r : Remote) : bool := bool_decide (status r = Terminated).

Definition is_done (r : Remote) : bool := is_terminated r || is_completed r.

(** Block numbers are u32. *)
Definition has_stalled (h : Handle) (r : Remote) (now timeout : Z) : bool :=
  if bool_decide (status r = Terminated) then true
  else wrap 32 (started_at h + timeout) <=? now.

Definition keygen_has_stalled (h : Handle) (r : Remote) (now : Z) : bool :=
  has_stalled h r now KEYGEN_TIMEOUT.

Definition signing_has_stalled (h : Handle) (r : Remote) (now : Z) : bool :=
  has_stalled h r now SIGN_TIMEOUT.

(** ** Signals and messages *)

Abbreviation RM A := (M Remote DKGError A).

(** [deliver_message]; a closed channel is the only error. *)
Definition remote_deliver (m : SignedDKGMessage) : RM unit :=
  active ← gets is_active;
  if active : bool then
    match payload (msg m) with
    | PVote _ =>
        is_open ← gets rx_voting_open;
        ensure is_open EGenericError;;
        upd! rx_voting ::= (λ q, q ++ [m])
    | _ =>
        is_open ← gets rx_keygen_signing_open;
        ensure is_open EGenericError;;
        upd! rx_keygen_signing ::= (λ q, q ++ [m])
    end
  else mret tt.

Definition start : RM unit :=
  tx ← gets start_tx;
  ensure tx EGenericError;;
  put! start_tx := false;;
  is_open ← gets start_rx_open;
  ensure is_open EGenericError;;
  put! start_sent := true.

Definition shutdown (reason : ShutdownReason) : RM unit :=
  tx ← gets stop_tx;
  when tx (
    put! stop_tx := false;;
    is_open ← gets stop_rx_open;
    ensure is_open EGenericError;;
    put! stop_sent := Some reason).

(** [let _ = m;] and [if let Err(err) = m { log }]. *)
Definition ignore {S E} (m : M S E unit) : M S E unit := _ ← catch m; mret tt.

(** [Drop] of the primary handle. *)
Definition remote_drop : RM unit :=
  st ← gets status;
  when (negb (bool_decide (st = Complete))) (
    when (negb (bool_decide (st = Terminated))) (modify (set_status Terminated)));;
  ignore (shutdown DropCode).

(** The effect of a computation that neither fails nor panics for the caller. *)
Definition effect (m : RM unit) (r : Remote) : Remote := default r (final (m r)).

(** ** Lemmas *)

Lemma set_status_status new r : status (set_status new r) = new.
Proof. unfold set_status. by destruct (should_update _ _). Qed.

Lemma set_status_stop new r : stop_tx (set_status new r) = stop_tx r.
Proof. unfold set_status. by destruct (should_update _ _). Qed.

Lemma set_status_stop_sent new r : stop_sent (set_status new r) = stop_sent r.
Proof. unfold set_status. by destruct (should_update _ _). Qed.

Lemma is_done_active r : is_done r = negb (is_active r).
Proof.
  unfold is_done, is_active, is_terminated, is_completed.
  by repeat case_bool_decide.
Qed.

Lemma shutdown_effect reason r :
  effect (shutdown reason) r =
    if stop_tx r then
      if stop_rx_open r then r <| stop_tx := false |> <| stop_sent := Some reason |>
      else r <| stop_tx := false |>
    else r.
Proof. destruct r as [????????? [] ? [] ?]; reflexivity. Qed.

Lemma shutdown_total reason r : shutdown reason r ≠ Panic.
Proof. destruct r as [????????? [] ? [] ?]; discriminate. Qed.

Lemma remote_drop_effect r :
  effect remote_drop r =
    effect (shutdown DropCode) (if is_active r then set_status Terminated r else r).
Proof.
  unfold effect, remote_drop, ignore, is_active, when, catch.
  cbv [mbind M_bind gets modify mret M_ret].
  repeat case_bool_decide; try congruence; cbn [negb andb];
    match goal with |- context [shutdown DropCode ?x] =>
      pose proof (shutdown_total DropCode x); by destruct (shutdown DropCode x) end.
Qed.

(** A manager that drops its handle of a protocol leaves it ended or with the stop
    signal on its way, and the signal that was sent first is the one that counts. *)
Lemma remote_drop_ends r :
  let r' := effect remote_drop r in
  stop_tx r' = false ∧ is_active r' = false ∧
  (stop_tx r = false → stop_sent r' = stop_sent r) ∧
  (stop_tx r = true → stop_rx_open r = true → stop_sent r' = Some DropCode).
Proof.
  cbv zeta. rewrite remote_drop_effect, shutdown_effect.
  destruct r as [st h q1 q2 o1 o2 s1 s2 s3 [] t2 [] b]; destruct st; cbn; naive_solver.
Qed.
