(* ===== verification/WorkManager.v ===== *)
(** * The work manager of the gadget

    src/dkg-gadget/src/signing_manager/work_manager.rs: the jobs that run, the jobs
    that wait and the messages for jobs that do not exist yet.  The key generation
    and the signing manager have one each.  Every operation holds the lock of the
    manager, so it is one step.  The remotes of the jobs, which the running
    protocols change as well, are a store next to the manager's own fields; the
    theorems hold for whatever the protocols put there.

    The order in which the [HashSet] of active jobs is walked is the parameter
    [JobOrder]. *)

From S2P Require Import Prelude.
From S2P Require Import Frame.
From S2P Require Import Primitives.
From S2P Require Import GadgetTypes.
From S2P Require Import Remote.

Inductive PollMethod := Interval (millis : Z) | Manual.

#[export] Instance PollMethod_eq_dec : EqDecision PollMethod.
Proof. solve_decision. Defined.

Record WorkConfig := mkWorkConfig {
  max_tasks : nat;
  max_enqueued_tasks : nat;
  poll_method : PollMethod }.

(** Equality and hash of a [Job] are those of its [task_hash]. *)
Record Job := mkJob {
  task_hash : bytes;
  handle : Handle }.

Abbreviation MessageQueues := (gmap bytes (gmap Z (list SignedDKGMessage))).

(** [active_tasks] is keyed by the hash of the job, which is what its [HashSet]
    compares; [spawned] are the tasks given to the executor, [to_handler] the
    channel of the poller with [handler_open] its receiver. *)
Record WorkManager := mkWorkManager {
  active_tasks : gmap bytes Job;
  enqueued_tasks : list Job;
  enqueued_messages : MessageQueues;
  remotes : gmap Z Remote;
  spawned : list Job;
  to_handler : list bytes;
  handler_open : bool }.

#[export] Instance WorkManager_eta : Eta WorkManager := λ s,
  mkWorkManager (active_tasks s) (enqueued_tasks s) (enqueued_messages s) (remotes s)
    (spawned s) (to_handler s) (handler_open s).

Definition work_empty : WorkManager := {|
  active_tasks := ∅; enqueued_tasks := []; enqueued_messages := ∅; remotes := ∅;
  spawned := []; to_handler := []; handler_open := true |}.

(** The order of [HashSet::iter]. *)
Class JobOrder := iter_jobs : gmap bytes Job → list (bytes * Job).

Class JobOrderLaws `{JobOrder} : Prop := iter_jobs_perm m : iter_jobs m ≡ₚ map_to_list m.

Record JobMetadata := mkJobMetadata {
  md_session_id : Z;
  md_is_stalled : bool;
  md_is_finished : bool;
  md_has_started : bool;
  md_is_active : bool }.

Definition remote_of (s : WorkManager) (h : Handle) : Remote :=
  default remote_new (remotes s !! remote_id h).

(** [Job::metadata]. *)
Definition job_metadata (s : WorkManager) (now : Z) (j : Job) : JobMetadata :=
  let r := remote_of s (handle j) in {|
  md_session_id := session_id (handle j);
  md_is_stalled := keygen_has_stalled (handle j) r now;
  md_is_finished := is_completed r;
  md_has_started := has_started r;
  md_is_active := is_active r |}.

Definition should_deliver (task : Job) (m : SignedDKGMessage) (message_task_hash : bytes) : bool :=
  (session_id (handle task) =? msg_session_id (msg m)) &&
  bool_decide (task_hash task = message_task_hash) &&
  (ssid (handle task) =? msg_ssid (msg m)) &&
  associated_block_id_acceptable (associated_block_id (handle task))
    (msg_associated_block_id (msg m)).

(** ** Operations *)

Module Work.
Section work.
Context `{JobOrder} (cfg : WorkConfig).

Abbreviation WM A := (M WorkManager DKGError A).

(** A method of a remote; whether it succeeded. *)
Definition remote_do (h : Handle) (m : RM unit) : WM bool :=
  ok ← gets (λ s, returns (m (remote_of s h)));
  upd! remotes ::= alter (effect m) (remote_id h);;
  mret ok.

(** [Drop] of a [Job] and then of its primary handle. *)
Definition drop_job (j : Job) : WM unit :=
  remote_do (handle j) (shutdown DropCode);;
  remote_do (handle j) remote_drop;;
  mret tt.

(** Hand stored messages to a job that was started. *)
Definition deliver_enqueued (j : Job) (ms : list SignedDKGMessage) : WM unit :=
  for_each ms (λ m,
    when (should_deliver j m (task_hash j)) (
      remote_do (handle j) (remote_deliver m);; mret tt)).

Definition start_job_unconditional (j : Job) : WM unit :=
  ok ← remote_do (handle j) start;
  when ok (
    queues ← gets enqueued_messages;
    match queues !! task_hash j with
    | None => mret tt
    | Some enqueued_messages_map =>
        upd! enqueued_messages ::= delete (task_hash j);;
        match enqueued_messages_map !! ssid (handle j) with
        | Some ms => deliver_enqueued j ms
        | None => mret tt
        end;;
        let others := delete (ssid (handle j)) enqueued_messages_map in
        when (negb (bool_decide (others = ∅)))
          (upd! enqueued_messages ::= insert (task_hash j) others)
    end);;
  active ← gets active_tasks;
  (* inserting an equal job drops the new one *)
  match active !! task_hash j with
  | Some _ => drop_job j
  | None => upd! active_tasks ::= insert (task_hash j) j
  end;;
  upd! spawned ::= (λ l, l ++ [j]).

Definition push_task (hash : bytes) (force_start : bool) (h : Handle) : WM unit :=
  let job := mkJob hash h in
  if force_start then start_job_unconditional job
  else
    upd! enqueued_tasks ::= (λ l, l ++ [job]);;
    if negb (bool_decide (poll_method cfg = Manual)) then
      is_open ← gets handler_open;
      ensure is_open EGenericError;;
      upd! to_handler ::= (λ l, l ++ [hash])
    else mret tt.

Definition clear_enqueued_tasks : WM unit :=
  tasks ← gets enqueued_tasks;
  put! enqueued_tasks := [];;
  for_each tasks drop_job.

Definition can_submit_more_tasks (s : WorkManager) : bool :=
  (length (enqueued_tasks s) <? max_enqueued_tasks cfg)%nat.

Definition get_active_sessions_metadata (s : WorkManager) (now : Z) : list JobMetadata :=
  (λ e, job_metadata s now e.2) <$> iter_jobs (active_tasks s).

Definition force_shutdown_all : WM unit :=
  active ← gets active_tasks;
  put! active_tasks := ∅;;
  for_each (iter_jobs active) (λ e, drop_job e.2);;
  clear_enqueued_tasks;;
  put! enqueued_messages := ∅.

(** [active_tasks.retain(..)]: a job that is not kept is dropped. *)
Definition retain_active (now : Z) : WM unit :=
  active ← gets active_tasks;
  for_each (iter_jobs active) (λ e,
    r ← gets (λ s, remote_of s (handle e.2));
    if signing_has_stalled (handle e.2) r now then
      remote_do (handle e.2) (shutdown Stalled);;
      upd! active_tasks ::= delete e.1;;
      drop_job e.2
    else when (is_done r) (
      upd! active_tasks ::= delete e.1;;
      drop_job e.2)).

(** [for _ in 0..n], popping the front of the queue. *)
Fixpoint start_enqueued (n : nat) : WM unit :=
  match n with
  | O => mret tt
  | S n' =>
      tasks ← gets enqueued_tasks;
      match tasks with
      | [] => mret tt
      | j :: rest =>
          put! enqueued_tasks := rest;;
          start_job_unconditional j;;
          start_enqueued n'
      end
  end.

(** Outdated messages go, then empty queues, then empty maps. *)
Definition prune_messages (now : Z) (qs : MessageQueues) : MessageQueues :=
  let retained := (λ q : gmap Z (list SignedDKGMessage),
    filter (λ m, associated_block_id_acceptable now (msg_associated_block_id (msg m)) = true) <$> q)
    <$> qs in
  let without_empty := (λ q : gmap Z (list SignedDKGMessage),
    filter (λ e, e.2 ≠ []) q) <$> retained in
  filter (λ e, e.2 ≠ ∅) without_empty.

Definition poll (now : Z) : WM unit :=
  retain_active now;;
  count ← gets (λ s, size (active_tasks s));
  start_enqueued (max_tasks cfg - count);;
  upd! enqueued_messages ::= prune_messages now.

Definition job_exists (s : WorkManager) (job : bytes) : bool :=
  bool_decide (is_Some (active_tasks s !! job)) ||
  existsb (λ j, bool_decide (task_hash j = job)) (enqueued_tasks s).

(** [entry(hash).or_default().entry(ssid).or_default().push_back(msg)]. *)
Definition store_message (m : SignedDKGMessage) (hash : bytes) (qs : MessageQueues)
    : MessageQueues :=
  let inner := default ∅ (qs !! hash) in
  let queue := default [] (inner !! msg_ssid (msg m)) in
  <[hash := <[msg_ssid (msg m) := queue ++ [m]]> inner]> qs.

Definition deliver_message (m : SignedDKGMessage) (message_task_hash : bytes) : WM unit :=
  enqueued ← gets enqueued_tasks;
  active ← gets active_tasks;
  match List.find (λ j, should_deliver j m message_task_hash)
          (enqueued ++ (iter_jobs active).*2) with
  | Some j => remote_do (handle j) (remote_deliver m);; mret tt
  | None => upd! enqueued_messages ::= store_message m message_task_hash
  end.
End work.
End Work.
