(* ===== verification/WorkManagerSpec.v ===== *)
(** * Theorems about the work manager

    No protocol is left running without a manager, messages that arrive before
    their job are neither lost nor duplicated, jobs start in the order they were
    pushed, and a poll clears finished jobs, fills free places and forgets outdated
    messages. *)

From S2P Require Import Prelude.
From S2P Require Import Frame.
From S2P Require Import Primitives.
From S2P Require Import GadgetTypes.
From S2P Require Import Remote.
From S2P Require Import WorkManager.

Import Work.

(** The computation returns, in a state that satisfies [Q]. *)
Abbreviation total m s Q := (wp False m s (λ _ t, Q t) (λ _ _, False)).

Lemma total_Ret {S E} (m : M S E unit) s Q : total m s Q → ∃ t, m s = Ret tt t ∧ Q t.
Proof. unfold wp. destruct (m s) as [[] t| |]; naive_solver. Qed.

(** ** Remotes *)

(** What dropping a job does to its remote. *)
Definition ended (r : Remote) : Remote := effect remote_drop (effect (shutdown DropCode) r).

Lemma ended_stop r : stop_tx (ended r) = false.
Proof. apply remote_drop_ends. Qed.

Lemma ended_done r : is_active (ended r) = false.
Proof. apply remote_drop_ends. Qed.

Lemma ended_idem r : ended (ended r) = ended r.
Proof.
  pose proof (ended_stop r) as Hs. pose proof (ended_done r) as Ha. unfold ended at 1.
  assert (effect (shutdown DropCode) (ended r) = ended r) as ->.
  { by rewrite shutdown_effect, Hs. }
  by rewrite remote_drop_effect, Ha, shutdown_effect, Hs.
Qed.

(** Hand a list of messages to a remote. *)
Definition deliver_all (ms : list SignedDKGMessage) (r : Remote) : Remote :=
  foldl (λ r m, effect (remote_deliver m) r) r ms.

Lemma remote_deliver_stop m r : stop_tx (effect (remote_deliver m) r) = stop_tx r.
Proof.
  unfold remote_deliver, effect. cbv [mbind M_bind gets].
  destruct (is_active r); [|done]. destruct (payload (msg m)), r as [???? [] [] ???????]; done.
Qed.

Definition is_vote (m : SignedDKGMessage) : Prop :=
  match payload (msg m) with PVote _ => True | _ => False end.

#[export] Instance is_vote_dec m : Decision (is_vote m).
Proof. unfold is_vote. destruct (payload (msg m)); apply _. Defined.

(** A running protocol whose receivers are alive gets every message, in order, each
    in the channel of its kind. *)
Lemma deliver_all_open ms r :
  is_active r = true → rx_keygen_signing_open r = true → rx_voting_open r = true →
  rx_keygen_signing (deliver_all ms r) = rx_keygen_signing r ++ filter (λ m, ¬ is_vote m) ms ∧
  rx_voting (deliver_all ms r) = rx_voting r ++ filter is_vote ms ∧
  status (deliver_all ms r) = status r.
Proof.
  revert r. induction ms as [|m ms IH]; intros r Ha Hk Hv.
  { by rewrite !filter_nil, !app_nil_r. }
  assert (effect (remote_deliver m) r =
    if decide (is_vote m) then r <| rx_voting ::= (λ q, q ++ [m]) |>
    else r <| rx_keygen_signing ::= (λ q, q ++ [m]) |>) as E.
  { unfold remote_deliver, effect. cbv [mbind M_bind gets]. rewrite Ha.
    unfold is_vote_dec, is_vote. destruct (payload (msg m)); rewrite ?Hk, ?Hv; done. }
  change (deliver_all (m :: ms) r) with (deliver_all ms (effect (remote_deliver m) r)).
  rewrite E. destruct (decide (is_vote m)) as [Hm|Hm].
  - destruct (IH (r <| rx_voting ::= (λ q, q ++ [m]) |>)) as (-> & -> & ->); try done.
    rewrite filter_cons_False, filter_cons_True by naive_solver. simp_get.
    by rewrite <- app_assoc.
  - destruct (IH (r <| rx_keygen_signing ::= (λ q, q ++ [m]) |>)) as (-> & -> & ->); try done.
    rewrite filter_cons_True, filter_cons_False by naive_solver. simp_get.
    by rewrite <- app_assoc.
Qed.

(** ** Runs of the operations *)

Section runs.
Context `{JobOrder} (cfg : WorkConfig).
Implicit Types (s t : WorkManager) (j : Job).

Lemma remote_do_run h m s :
  remote_do h m s = Ret (returns (m (remote_of s h)))
    (s <| remotes ::= alter (effect m) (remote_id h) |>).
Proof. done. Qed.

Lemma remotes_twice f g s :
  s <| remotes ::= f |> <| remotes ::= g |> = s <| remotes ::= g ∘ f |>.
Proof. by destruct s. Qed.

Lemma remotes_ext f g s : (∀ m, f m = g m) → s <| remotes ::= f |> = s <| remotes ::= g |>.
Proof. destruct s. cbv [set]. by intros ->. Qed.

Lemma drop_job_run j s :
  drop_job j s = Ret tt (s <| remotes ::= alter ended (remote_id (handle j)) |>).
Proof.
  unfold drop_job. cbv [mbind M_bind]. rewrite !remote_do_run. cbv [mret M_ret].
  rewrite remotes_twice. f_equal. apply remotes_ext. intros m. simpl.
  apply alter_alter_eq.
Qed.

(** End the protocols of a list of jobs. *)
Definition end_jobs (js : list Job) (m : gmap Z Remote) : gmap Z Remote :=
  foldl (λ m j, alter ended (remote_id (handle j)) m) m js.

Lemma end_jobs_lookup js m i :
  end_jobs js m !! i =
    (if decide (i ∈ remote_id ∘ handle <$> js) then ended else id) <$> m !! i.
Proof.
  revert m. induction js as [|j js IH]; intros m.
  { simpl. by rewrite option_fmap_id. }
  simpl. fold (end_jobs js (alter ended (remote_id (handle j)) m)). rewrite IH.
  destruct (decide (i = remote_id (handle j))) as [->|Hne].
  - rewrite lookup_alter_eq. rewrite (decide_True (P := _ ∈ _ :: _)) by left.
    destruct (m !! _) as [r|]; [|done]. simpl. case_decide; by rewrite ?ended_idem.
  - rewrite lookup_alter_ne by done.
    destruct (decide (i ∈ remote_id ∘ handle <$> js)).
    + by rewrite decide_True by (by right).
    + rewrite decide_False; [done|]. rewrite not_elem_of_cons. done.
Qed.

Lemma drop_jobs_run js s :
  for_each js drop_job s = Ret tt (s <| remotes ::= end_jobs js |>).
Proof.
  revert s. induction js as [|j js IH]; intros s; simpl.
  { by destruct s. }
  cbv [mbind M_bind]. rewrite drop_job_run, IH, remotes_twice. done.
Qed.

(** The stored messages of a job, and the store without them. *)
Definition stored (qs : MessageQueues) (hash : bytes) (ss : Z) : list SignedDKGMessage :=
  default [] (qs !! hash ≫= λ q : gmap Z (list SignedDKGMessage), q !! ss).

Definition take_queue (hash : bytes) (ss : Z) (qs : MessageQueues) : MessageQueues :=
  match qs !! hash with
  | None => qs
  | Some q => if decide (delete ss q = ∅) then delete hash qs else <[hash := delete ss q]> qs
  end.

Definition acceptable_for (j : Job) (ms : list SignedDKGMessage) : list SignedDKGMessage :=
  filter (λ m, should_deliver j m (task_hash j) = true) ms.

Lemma deliver_enqueued_run j ms s :
  deliver_enqueued j ms s =
    Ret tt (s <| remotes ::= alter (deliver_all (acceptable_for j ms)) (remote_id (handle j)) |>).
Proof.
  unfold deliver_enqueued. revert s. induction ms as [|m ms IH]; intros s; cbn [for_each].
  { unfold acceptable_for. rewrite filter_nil.
    rewrite (remotes_ext _ id); [by destruct s|]. intros q. by apply alter_id. }
  cbv [mbind M_bind when]. unfold acceptable_for. rewrite filter_cons.
  destruct (should_deliver j m (task_hash j)) eqn:E.
  - rewrite remote_do_run. cbv [mret M_ret].
    rewrite IH, remotes_twice. f_equal. apply remotes_ext. intros q.
    unfold compose. by rewrite alter_alter_eq.
  - cbv [mret M_ret]. rewrite IH. done.
Qed.

(** The state after a job is started. *)
Definition started (j : Job) (s : WorkManager) : WorkManager :=
  let ok := returns (start (remote_of s (handle j))) in
  let ms := if ok then stored (enqueued_messages s) (task_hash j) (ssid (handle j)) else [] in
  let dup := bool_decide (is_Some (active_tasks s !! task_hash j)) in
  s <| remotes ::= alter ((if dup then ended else id) ∘ deliver_all (acceptable_for j ms)
         ∘ effect start) (remote_id (handle j)) |>
    <| enqueued_messages ::=
         if ok then take_queue (task_hash j) (ssid (handle j)) else id |>
    <| active_tasks ::= if dup then id else insert (task_hash j) j |>
    <| spawned ::= (λ l, l ++ [j]) |>.

(** The last part of a start: the job becomes active, or is dropped. *)
Lemma activate_run j s :
  (active ← gets active_tasks;
   match active !! task_hash j with
   | Some _ => drop_job j
   | None => modify (λ s, s <| active_tasks ::= insert (task_hash j) j |>)
   end;;
   modify (λ s, s <| spawned ::= (λ l, l ++ [j]) |>)) s =
  let dup := bool_decide (is_Some (active_tasks s !! task_hash j)) in
  Ret tt (s <| remotes ::= alter (if dup then ended else id) (remote_id (handle j)) |>
    <| active_tasks ::= if dup then id else insert (task_hash j) j |>
    <| spawned ::= (λ l, l ++ [j]) |>).
Proof.
  cbv [mbind M_bind gets modify]. destruct (active_tasks s !! task_hash j) as [j'|] eqn:Ea.
  - rewrite drop_job_run, bool_decide_true by done. by destruct s.
  - rewrite bool_decide_false by (by intros []).
    rewrite (remotes_ext (alter id (remote_id (handle j))) id); [by destruct s|].
    intros m. by apply alter_id.
Qed.

(** The messages of the job, if its start signal could be sent. *)
Lemma start_messages_run j s (ok : bool) :
  when ok (
    queues ← gets enqueued_messages;
    match queues !! task_hash j with
    | None => mret tt
    | Some enqueued_messages_map =>
        modify (λ s, s <| enqueued_messages ::= delete (task_hash j) |>);;
        match enqueued_messages_map !! ssid (handle j) with
        | Some ms => deliver_enqueued j ms
        | None => mret tt
        end;;
        let others := delete (ssid (handle j)) enqueued_messages_map in
        when (negb (bool_decide (others = ∅)))
          (modify (λ s, s <| enqueued_messages ::= insert (task_hash j) others |>))
    end) s =
  let ms := if ok then stored (enqueued_messages s) (task_hash j) (ssid (handle j)) else [] in
  Ret tt (s <| remotes ::= alter (deliver_all (acceptable_for j ms)) (remote_id (handle j)) |>
    <| enqueued_messages ::= if ok then take_queue (task_hash j) (ssid (handle j)) else id |>).
Proof.
  assert (∀ m : gmap Z Remote,
    alter (deliver_all (acceptable_for j [])) (remote_id (handle j)) m = m) as Hnil.
  { intros m. by apply alter_id. }
  destruct ok; cbv zeta; cbv [mbind M_bind when gets modify mret M_ret];
    [|rewrite (remotes_ext _ id) by done; by destruct s].
  unfold stored, take_queue. destruct s as [act enq ems rem sp th ho]. cbn.
  destruct (ems !! task_hash j) as [q|] eqn:Eq; cbn;
    [|cbv [set]; cbn; by rewrite ?Eq, ?Hnil].
  destruct (q !! ssid (handle j)) as [ms|] eqn:Ems; cbn;
    [rewrite deliver_enqueued_run|]; cbv [set]; cbn; rewrite ?Hnil, ?Eq;
    repeat case_bool_decide; repeat case_decide; try done; cbn; by rewrite ?insert_delete_eq.
Qed.

Lemma start_job_run j s : start_job_unconditional j s = Ret tt (started j s).
Proof.
  unfold start_job_unconditional, started.
  rewrite (run_call _ _ _ _ _ (remote_do_run _ _ _)).
  rewrite (run_call _ _ _ _ _ (start_messages_run _ _ _)), activate_run.
  cbv zeta. simp_get. f_equal.
  destruct (returns _), (bool_decide _); destruct s; cbv [set]; cbn; f_equal;
    by rewrite !alter_alter_eq.
Qed.
End runs.

(** ** Polling *)

Section poll.
Context `{JobOrder}.
Implicit Types (s t : WorkManager) (j : Job) (now : Z).

Abbreviation ids js := (remote_id ∘ handle <$> js).

(** Whether a poll keeps a job, and what it does to the remote of one it drops. *)
Definition keeps s now j : bool :=
  negb (signing_has_stalled (handle j) (remote_of s (handle j)) now) &&
  negb (is_done (remote_of s (handle j))).

Definition halted s now j (r : Remote) : Remote :=
  ended (if signing_has_stalled (handle j) (remote_of s (handle j)) now
         then effect (shutdown Stalled) r else r).

Definition sweep s now (l : list (bytes * Job)) (t : WorkManager) : WorkManager :=
  t <| active_tasks ::= λ m,
        foldl (λ m e, if keeps s now e.2 then m else delete e.1 m) m l |>
    <| remotes ::= λ m, foldl (λ m e, if keeps s now e.2 then m
         else alter (halted s now e.2) (remote_id (handle e.2)) m) m l |>.

Lemma sweep_cons s now e l t : sweep s now (e :: l) t = sweep s now l (sweep s now [e] t).
Proof. by destruct t. Qed.

Lemma remote_of_frame s t h : remotes t !! remote_id h = remotes s !! remote_id h →
  remote_of t h = remote_of s h.
Proof. unfold remote_of. by intros ->. Qed.

Lemma sweep_one_run s now e t :
  remote_of t (handle e.2) = remote_of s (handle e.2) →
  (r ← gets (λ s, remote_of s (handle e.2));
   if signing_has_stalled (handle e.2) r now then
     remote_do (handle e.2) (shutdown Stalled);;
     modify (λ s, s <| active_tasks ::= delete e.1 |>);;
     drop_job e.2
   else when (is_done r) (
     modify (λ s, s <| active_tasks ::= delete e.1 |>);;
     drop_job e.2)) t = Ret tt (sweep s now [e] t).
Proof.
  intros Hr. unfold sweep, keeps, halted. cbv [mbind M_bind gets when modify]. rewrite Hr.
  destruct (signing_has_stalled (handle e.2) (remote_of s (handle e.2)) now) eqn:Es;
    [|destruct (is_done (remote_of s (handle e.2))) eqn:Ed].
  - rewrite remote_do_run, drop_job_run. destruct t; cbv [set]; cbn -[effect ended].
    by rewrite Es, alter_alter_eq.
  - rewrite drop_job_run. destruct t; cbv [set]; cbn -[effect ended].
    by rewrite Es, Ed.
  - destruct t; cbv [set]; cbn -[effect ended]. by rewrite Es, Ed.
Qed.

Lemma retain_loop s now l t :
  NoDup (ids l.*2) → (∀ e, e ∈ l → remote_of t (handle e.2) = remote_of s (handle e.2)) →
  for_each l (λ e,
    r ← gets (λ s, remote_of s (handle e.2));
    if signing_has_stalled (handle e.2) r now then
      remote_do (handle e.2) (shutdown Stalled);;
      modify (λ s, s <| active_tasks ::= delete e.1 |>);;
      drop_job e.2
    else when (is_done r) (
      modify (λ s, s <| active_tasks ::= delete e.1 |>);;
      drop_job e.2)) t = Ret tt (sweep s now l t).
Proof.
  revert t. induction l as [|e l IH]; intros t Hnd Hr; cbn [for_each]; [by destruct t|].
  rewrite !fmap_cons, NoDup_cons in Hnd. destruct Hnd as [He Hnd].
  rewrite (run_call _ _ _ _ _ (sweep_one_run s now e t (Hr e (list_elem_of_here _ _)))).
  rewrite sweep_cons. apply IH; [done|]. intros e' He'.
  rewrite <- (Hr e') by (by right). apply remote_of_frame. unfold sweep. simp_get. cbn.
  destruct (keeps s now e.2); [done|]. apply lookup_alter_ne. intros Heq. apply He.
  rewrite <- list_fmap_compose. apply list_elem_of_fmap. exists e'. split; [done|done].
Qed.

Lemma foldl_delete_lookup_if (P : Job → bool) (l : list (bytes * Job)) (m : gmap bytes Job) k :
  foldl (λ m e, if P e.2 then m else delete e.1 m) m l !! k =
    if decide (Exists (λ e, e.1 = k ∧ P e.2 = false) l) then None else m !! k.
Proof.
  revert m. induction l as [|e l IH]; intros m; cbn [foldl].
  { destruct (decide _) as [Hn|]; [|done]. by apply Exists_nil in Hn. }
  rewrite IH. destruct (decide (Exists _ l)) as [Hl|Hl].
  { rewrite decide_True; [done|]. by right. }
  destruct (P e.2) eqn:Hp.
  { rewrite decide_False; [done|]. rewrite Exists_cons. intros [[_ Hp']|]; congruence. }
  destruct (decide (e.1 = k)) as [Hk|Hk].
  { rewrite decide_True by (by left). by rewrite Hk, lookup_delete_eq. }
  rewrite lookup_delete_ne by done. rewrite decide_False; [done|].
  rewrite Exists_cons. naive_solver.
Qed.

(** What the sweep over all active jobs leaves. *)
Lemma sweep_active `{!JobOrderLaws} s now :
  active_tasks (sweep s now (iter_jobs (active_tasks s)) s) =
    filter (λ e, keeps s now e.2 = true) (active_tasks s).
Proof.
  unfold sweep. simp_get. apply map_eq. intros k. rewrite foldl_delete_lookup_if.
  assert (∀ e, e ∈ iter_jobs (active_tasks s) ↔ active_tasks s !! e.1 = Some e.2) as Hin.
  { intros [h j]. by rewrite iter_jobs_perm, elem_of_map_to_list. }
  case_decide as Hd.
  - apply Exists_exists in Hd as (e & He%Hin & <- & Hk). symmetry.
    apply map_lookup_filter_None. right. intros j Hj. simpl. congruence.
  - destruct (active_tasks s !! k) as [j|] eqn:Hj; symmetry.
    + apply map_lookup_filter_Some. split; [done|]. simpl.
      destruct (keeps s now j) eqn:Hk; [done|]. destruct Hd. apply Exists_exists.
      exists (k, j). by rewrite Hin.
    + apply map_lookup_filter_None. by left.
Qed.
End poll.

Section polling.
Context `{JobOrder, !JobOrderLaws} (cfg : WorkConfig).
Implicit Types (s t : WorkManager) (j : Job) (now : Z).

Lemma started_enqueued j l s :
  started j (s <| enqueued_tasks := l |>) = (started j s) <| enqueued_tasks := l |>.
Proof. by destruct s. Qed.

Lemma started_all_enqueued js l s :
  foldl (λ s j, started j s) (s <| enqueued_tasks := l |>) js =
    (foldl (λ s j, started j s) s js) <| enqueued_tasks := l |>.
Proof.
  revert s. induction js as [|j js IH]; intros s; [done|]. simpl.
  by rewrite started_enqueued, IH.
Qed.

(** The first [n] waiting jobs start, in order. *)
Lemma start_enqueued_run n s :
  start_enqueued n s =
    Ret tt ((foldl (λ s j, started j s) s (take n (enqueued_tasks s)))
              <| enqueued_tasks := drop n (enqueued_tasks s) |>).
Proof.
  revert s. induction n as [|n IH]; intros s; [by destruct s|].
  cbn [start_enqueued]. rewrite run_gets.
  destruct (enqueued_tasks s) as [|j rest] eqn:Eq; [destruct s; simpl in *; by subst|].
  rewrite run_modify, (run_call _ _ _ _ _ (start_job_run _ _)), IH.
  rewrite started_enqueued. simp_get. cbn [take drop foldl].
  rewrite started_all_enqueued. by destruct (foldl _ _ _).
Qed.

(** The state after a poll. *)
Definition polled now s : WorkManager :=
  let s1 := sweep s now (iter_jobs (active_tasks s)) s in
  let n := (max_tasks cfg - size (active_tasks s1))%nat in
  (foldl (λ s j, started j s) s1 (take n (enqueued_tasks s)))
    <| enqueued_tasks := drop n (enqueued_tasks s) |>
    <| enqueued_messages ::= prune_messages now |>.

Definition active_jobs s : list Job := (map_to_list (active_tasks s)).*2.

Lemma poll_run now s :
  NoDup (remote_id ∘ handle <$> active_jobs s) → poll cfg now s = Ret tt (polled now s).
Proof.
  intros Hnd. unfold poll, retain_active, polled.
  assert (NoDup (remote_id ∘ handle <$> (iter_jobs (active_tasks s)).*2)) as Hnd'.
  { unfold active_jobs in Hnd. by rewrite iter_jobs_perm. }
  rewrite run_bind_bind, run_gets.
  rewrite (run_call _ _ _ _ _ (retain_loop s now _ s Hnd' (λ _ _, eq_refl))).
  rewrite run_gets. by rewrite (run_call _ _ _ _ _ (start_enqueued_run _ _)).
Qed.

Lemma started_active j s : active_tasks s !! task_hash j = None →
  active_tasks (started j s) = <[task_hash j := j]> (active_tasks s).
Proof. intros Hj. unfold started. simp_get. by rewrite Hj. Qed.

(** Distinct jobs all become active. *)
Lemma started_all_active js s :
  NoDup (task_hash <$> js) → (∀ j, j ∈ js → active_tasks s !! task_hash j = None) →
  active_tasks (foldl (λ s j, started j s) s js) =
    list_to_map ((λ j, (task_hash j, j)) <$> js) ∪ active_tasks s.
Proof.
  revert s. induction js as [|j js IH]; intros s Hnd Hf.
  { cbn. by rewrite (left_id_L ∅ (∪)). }
  rewrite fmap_cons, NoDup_cons in Hnd. destruct Hnd as [Hj Hnd]. cbn [foldl].
  assert (active_tasks s !! task_hash j = None) as E by (apply Hf; by left).
  rewrite IH; [|done|].
  - rewrite started_active by done. cbn. rewrite <- insert_union_r; [by rewrite insert_union_l|].
    apply not_elem_of_list_to_map_1. by rewrite <- list_fmap_compose.
  - intros j' Hj'. rewrite started_active by done. rewrite lookup_insert_ne.
    + apply Hf. by right.
    + intros Heq. apply Hj. rewrite Heq. by apply list_elem_of_fmap_2.
Qed.

(** Pruning keeps exactly the acceptable messages, in order, and leaves neither an
    empty queue nor an empty map behind. *)
Lemma prune_messages_spec now qs h ss :
  stored (prune_messages now qs) h ss =
    filter (λ m, associated_block_id_acceptable now (msg_associated_block_id (msg m)) = true)
      (stored qs h ss).
Proof.
  unfold stored, prune_messages. rewrite map_lookup_filter, !lookup_fmap.
  destruct (qs !! h) as [q|]; cbn; [|done].
  set (f := filter _ : list SignedDKGMessage → list SignedDKGMessage).
  assert (∀ q' : gmap Z (list SignedDKGMessage),
    default [] (filter (λ e, e.2 ≠ []) q' !! ss) = default [] (q' !! ss)) as Hf.
  { intros q'. rewrite map_lookup_filter. destruct (q' !! ss) as [l|]; [|done]. cbn.
    by destruct l. }
  case_guard as Hg; cbn.
  - rewrite Hf, lookup_fmap. destruct (q !! ss); [done|]. by unfold f.
  - transitivity (default [] (filter (λ e, e.2 ≠ []) (f <$> q) !! ss)).
    + by rewrite Hg, lookup_empty.
    + rewrite Hf, lookup_fmap. destruct (q !! ss); [done|]. by unfold f.
Qed.

Lemma prune_messages_nonempty now qs h q :
  prune_messages now qs !! h = Some q → q ≠ ∅ ∧ ∀ ss l, q !! ss = Some l → l ≠ [].
Proof.
  unfold prune_messages. rewrite map_lookup_filter_Some. intros [Hq Hne]. split; [done|].
  rewrite !lookup_fmap_Some in Hq. destruct Hq as (q' & <- & _).
  intros ss l [_ Hl]%map_lookup_filter_Some. done.
Qed.

(** A poll drops the jobs that are done or stalled, starts waiting jobs in the order
    they were pushed until the places are taken or none waits, and keeps only the
    messages that are still acceptable. *)
Theorem poll_spec now s :
  NoDup (remote_id ∘ handle <$> active_jobs s) →
  NoDup (task_hash <$> enqueued_tasks s) →
  (∀ j, j ∈ enqueued_tasks s → active_tasks s !! task_hash j = None) →
  ∃ t, poll cfg now s = Ret tt t ∧
    let kept := filter (λ e, keeps s now e.2 = true) (active_tasks s) in
    let n := (max_tasks cfg - size kept)%nat in
    active_tasks t =
      list_to_map ((λ j, (task_hash j, j)) <$> take n (enqueued_tasks s)) ∪ kept ∧
    enqueued_tasks t = drop n (enqueued_tasks s) ∧
    (size (active_tasks t) <= max (max_tasks cfg) (size kept))%nat ∧
    ((max_tasks cfg <= size (active_tasks t))%nat ∨ enqueued_tasks t = []) ∧
    (∀ h ss m, m ∈ stored (enqueued_messages t) h ss →
       associated_block_id_acceptable now (msg_associated_block_id (msg m)) = true).
Proof.
  intros Hids Hnd Hfr. exists (polled now s). split; [by apply poll_run|]. cbv zeta.
  unfold polled. simp_get. rewrite sweep_active.
  set (kept := filter (λ e, keeps s now e.2 = true) (active_tasks s)).
  set (n := (max_tasks cfg - size kept)%nat). set (js := take n (enqueued_tasks s)).
  assert (NoDup (task_hash <$> js)) as Hjs.
  { unfold js. rewrite fmap_take. by eapply sublist_NoDup, sublist_take. }
  assert (∀ j, j ∈ js → kept !! task_hash j = None) as Hf.
  { intros j Hj. apply map_lookup_filter_None. left. apply Hfr.
    by eapply elem_of_submseteq, sublist_submseteq, sublist_take. }
  assert (active_tasks (foldl (λ s j, started j s)
    (sweep s now (iter_jobs (active_tasks s)) s) js) =
    list_to_map ((λ j, (task_hash j, j)) <$> js) ∪ kept) as Ha.
  { rewrite started_all_active; [by rewrite sweep_active|done|]. by rewrite sweep_active. }
  assert (size (active_tasks (foldl (λ s j, started j s)
    (sweep s now (iter_jobs (active_tasks s)) s) js)) = (length js + size kept)%nat) as Hsz.
  { rewrite Ha, map_size_disj_union, map_size_list_to_map, length_fmap; [done|..].
    - by rewrite <- list_fmap_compose.
    - apply map_disjoint_spec. intros k x y Hx Hy.
      apply elem_of_list_to_map_2, list_elem_of_fmap in Hx as (j & [= -> ->] & Hj).
      by rewrite (Hf j Hj) in Hy. }
  rewrite Hsz. split_and!; [done|done|..].
  - unfold js. rewrite length_take. unfold n. lia.
  - unfold js. rewrite length_take.
    destruct (decide (length (enqueued_tasks s) <= n)%nat); [right; by apply drop_ge|left].
    unfold n in *. lia.
  - intros h ss m. rewrite prune_messages_spec. by intros [? _]%list_elem_of_filter.
Qed.
End polling.

(** ** No protocol runs without a manager *)

Section ownership.
Context `{JobOrder, !JobOrderLaws} (cfg : WorkConfig).
Implicit Types (s t : WorkManager) (j : Job) (now : Z) (X : list Z).

Abbreviation id_of j := (remote_id (handle j)).

Definition jobs s : list Job := active_jobs s ++ enqueued_tasks s.

(** Handles that are created and not pushed yet are the loose ones [X]. *)
Record work_inv_upto X s : Prop := {
  wi_ids : NoDup ((remote_id ∘ handle <$> jobs s) ++ X);
  wi_known j : j ∈ jobs s → is_Some (remotes s !! id_of j);
  wi_loose i : i ∈ X → is_Some (remotes s !! i);
  wi_key h j : active_tasks s !! h = Some j → task_hash j = h;
  wi_stopped i r : remotes s !! i = Some r →
    i ∈ (remote_id ∘ handle <$> jobs s) ∨ i ∈ X ∨ stop_tx r = false }.

Abbreviation work_inv := (work_inv_upto []).

Lemma jobs_active h j s : active_tasks s !! h = Some j → j ∈ jobs s.
Proof.
  intros Hj. apply elem_of_app. left. apply list_elem_of_fmap. exists (h, j).
  by rewrite elem_of_map_to_list.
Qed.

Lemma work_empty_inv : work_inv work_empty.
Proof.
  assert (jobs work_empty = []) as E.
  { unfold jobs, active_jobs. cbn. by rewrite map_to_list_empty. }
  split; rewrite ?E; cbn; [apply NoDup_nil_2|..]; intros *;
    rewrite ?lookup_empty, ?elem_of_nil; done.
Qed.

Lemma active_jobs_insert h j s m : active_tasks s = <[h := j]> m → m !! h = None →
  active_jobs s ≡ₚ j :: (map_to_list m).*2.
Proof. unfold active_jobs. intros -> Hm. by rewrite map_to_list_insert. Qed.

Lemma started_inv X j s : work_inv_upto (id_of j :: X) s → work_inv_upto X (started j s).
Proof.
  intros [Hids Hk Hl Hkey Hst].
  assert (∀ i, i ≠ id_of j → remotes (started j s) !! i = remotes s !! i) as Hne.
  { intros i Hi. unfold started. simp_get. by rewrite lookup_alter_ne. }
  assert (is_Some (remotes (started j s) !! id_of j)) as Hsome.
  { unfold started. simp_get. rewrite lookup_alter_eq, fmap_is_Some. apply Hl. by left. }
  assert (∀ i, is_Some (remotes s !! i) → is_Some (remotes (started j s) !! i)) as Hsub.
  { intros i Hi. destruct (decide (i = id_of j)) as [->|]; [done|by rewrite Hne]. }
  rewrite NoDup_app, NoDup_cons in Hids. destruct Hids as (Hn1 & Hdis & Hj & Hn2).
  assert (id_of j ∉ (remote_id ∘ handle <$> jobs s)) as Hnew.
  { intros Hin. apply (Hdis _ Hin). by left. }
  destruct (active_tasks s !! task_hash j) as [j'|] eqn:Ea.
  - assert (jobs (started j s) = jobs s) as Ej.
    { unfold jobs, active_jobs, started. simp_get. by rewrite Ea. }
    split; rewrite ?Ej; auto.
    + apply NoDup_app. split_and!; [done| |done]. intros i Hi ?. apply (Hdis i Hi). by right.
    + intros i Hi. apply Hsub, Hl. by right.
    + intros h j0. unfold started. simp_get. rewrite Ea. apply Hkey.
    + intros i r Hr. destruct (decide (i = id_of j)) as [->|Hi].
      * right; right. unfold started in Hr. simp_get_in Hr. rewrite Ea in Hr.
        rewrite bool_decide_true in Hr by done. rewrite lookup_alter_eq in Hr.
        apply fmap_Some in Hr as (r0 & _ & ->). apply ended_stop.
      * rewrite Hne in Hr by done. destruct (Hst i r Hr) as [?|[[?|?]%elem_of_cons|?]]; tauto.
  - assert (active_tasks (started j s) = <[task_hash j := j]> (active_tasks s)) as Ea'
      by (by apply started_active).
    assert (jobs (started j s) ≡ₚ j :: jobs s) as Ej.
    { unfold jobs. rewrite active_jobs_insert by done. simpl. f_equiv. f_equiv.
      unfold started. by simp_get. }
    split.
    + rewrite Ej. rewrite fmap_cons. apply NoDup_app. rewrite NoDup_cons.
      split_and!; [done..| |done]. intros i [->|Hi]%elem_of_cons ?; [done|].
      apply (Hdis i Hi). by right.
    + intros j0. rewrite Ej. intros [->|Hj0]%elem_of_cons; [done|]. by apply Hsub, Hk.
    + intros i Hi. apply Hsub, Hl. by right.
    + intros h j0. rewrite Ea', lookup_insert_Some. naive_solver.
    + intros i r Hr. rewrite Ej, fmap_cons, elem_of_cons.
      destruct (decide (i = id_of j)) as [->|Hi]; [by left; left|].
      rewrite Hne in Hr by done. destruct (Hst i r Hr) as [?|[[?|?]%elem_of_cons|?]]; tauto.
Qed.

(** A loose handle that is told to stop is settled. *)
Lemma settle_inv X i f s :
  (∀ r, stop_tx (f r) = false) → work_inv_upto (i :: X) s →
  work_inv_upto X (s <| remotes ::= alter f i |>).
Proof.
  intros Hf [Hids Hk Hl Hkey Hst].
  assert (∀ k, is_Some (remotes s !! k) → is_Some (alter f i (remotes s) !! k)) as Hsub.
  { intros k Hk'. destruct (decide (i = k)) as [->|]; [by rewrite lookup_alter_eq, fmap_is_Some|].
    by rewrite lookup_alter_ne. }
  rewrite NoDup_app, NoDup_cons in Hids. destruct Hids as (Hn1 & Hdis & Hj & Hn2).
  split.
  - change (jobs (s <| remotes ::= _ |>)) with (jobs s). apply NoDup_app.
    split_and!; [done| |done]. intros k Hk' ?. apply (Hdis k Hk'). by right.
  - intros j Hj'. apply Hsub. by apply Hk.
  - intros k Hk'. apply Hsub, Hl. by right.
  - apply Hkey.
  - intros k r Hr. change (jobs (s <| remotes ::= _ |>)) with (jobs s). simp_get_in Hr.
    apply lookup_alter_Some in Hr as [(-> & r0 & _ & ->)|[Hne Hr]]; [by right; right|].
    destruct (Hst k r Hr) as [?|[[?|?]%elem_of_cons|?]]; [tauto|congruence|tauto..].
Qed.

(** Jobs may become loose handles, and loose handles jobs. *)
Lemma loosen_inv X Y s t :
  work_inv_upto X s → remotes t = remotes s →
  (remote_id ∘ handle <$> jobs t) ++ Y ≡ₚ (remote_id ∘ handle <$> jobs s) ++ X →
  (∀ h j, active_tasks t !! h = Some j → task_hash j = h) → work_inv_upto Y t.
Proof.
  intros [Hids Hk Hl Hkey Hst] Hr Hp Hkey'.
  assert (∀ i, i ∈ (remote_id ∘ handle <$> jobs t) ∨ i ∈ Y ↔
               i ∈ (remote_id ∘ handle <$> jobs s) ∨ i ∈ X) as Hin.
  { intros i. rewrite <- !elem_of_app. by rewrite Hp. }
  assert (∀ i, i ∈ (remote_id ∘ handle <$> jobs s) ∨ i ∈ X → is_Some (remotes s !! i)) as Hsome.
  { intros i [(j & -> & Hj)%list_elem_of_fmap|Hi]; [by apply Hk|by apply Hl]. }
  split; rewrite ?Hr; [by rewrite Hp| | |done|].
  - intros j Hj. apply Hsome, Hin. left. by apply (list_elem_of_fmap_2 (remote_id ∘ handle)).
  - intros i Hi. apply Hsome, Hin. by right.
  - intros i r Hi. specialize (Hst i r Hi). specialize (Hin i). tauto.
Qed.

(** Protocols and messages do not take the stop signal back. *)
Lemma frame_inv X s t :
  work_inv_upto X s → jobs t = jobs s → active_tasks t = active_tasks s →
  (∀ i, is_Some (remotes t !! i) ↔ is_Some (remotes s !! i)) →
  (∀ i r r', remotes s !! i = Some r → remotes t !! i = Some r' →
     stop_tx r = false → stop_tx r' = false) →
  work_inv_upto X t.
Proof.
  intros [Hids Hk Hl Hkey Hst] Hj Ha Hd Hs. split; rewrite ?Hj, ?Ha; [done| | |done|].
  - intros j Hj'. by apply Hd, Hk.
  - intros i Hi. by apply Hd, Hl.
  - intros i r' Hr'. destruct (proj1 (Hd i) (mk_is_Some _ _ Hr')) as [r Hr].
    destruct (Hst i r Hr) as [?|[?|?]]; eauto.
Qed.

Lemma same_remotes_inv X s t :
  work_inv_upto X s → jobs t = jobs s → active_tasks t = active_tasks s →
  remotes t = remotes s → work_inv_upto X t.
Proof. intros Hs ?? Hr. apply (frame_inv X s); [done..| |]; rewrite Hr; [done|congruence]. Qed.

(** Loose handles are settled in any order. *)
Lemma end_jobs_inv X js s :
  work_inv_upto ((remote_id ∘ handle <$> js) ++ X) s →
  work_inv_upto X (s <| remotes ::= end_jobs js |>).
Proof.
  revert s. induction js as [|j js IH]; intros s Hs; [by destruct s|].
  change (s <| remotes ::= end_jobs (j :: js) |>)
    with (s <| remotes ::= alter ended (id_of j) |> <| remotes ::= end_jobs js |>).
  apply IH. by apply settle_inv; [apply ended_stop|].
Qed.

Lemma started_all_inv js s :
  work_inv_upto (remote_id ∘ handle <$> js) s →
  work_inv (foldl (λ s j, started j s) s js).
Proof.
  revert s. induction js as [|j js IH]; intros s Hs; [done|]. simpl.
  by apply IH, started_inv.
Qed.

Lemma active_delete_jobs s h j : active_tasks s !! h = Some j →
  jobs s ≡ₚ j :: jobs (s <| active_tasks ::= delete h |>).
Proof.
  intros Hj. unfold jobs, active_jobs. simp_get.
  by rewrite <- (map_to_list_delete _ _ _ Hj).
Qed.

Lemma sweep_inv s0 now l s :
  NoDup l.*1 → (∀ e, e ∈ l → active_tasks s !! e.1 = Some e.2) →
  work_inv s → work_inv (sweep s0 now l s).
Proof.
  revert s. induction l as [|[h j] l IH]; intros s Hnd Hl Hs; [by destruct s|].
  apply NoDup_cons in Hnd as [Hh Hnd]. rewrite sweep_cons.
  assert (active_tasks s !! h = Some j) as Hj by (apply (Hl (h, j)); by left).
  apply IH; [done|..].
  - intros e He. unfold sweep. simp_get. cbn. destruct (keeps s0 now j); [apply Hl; by right|].
    rewrite lookup_delete_ne; [apply Hl; by right|]. intros ->. apply Hh.
    by apply (list_elem_of_fmap_2 fst l e).
  - unfold sweep. cbn. destruct (keeps s0 now j); [by destruct s|].
    apply settle_inv; [intros r; apply ended_stop|].
    eapply loosen_inv; [exact Hs|done|..].
    + rewrite (active_delete_jobs s h j Hj). rewrite app_nil_r, fmap_cons.
      by rewrite <- Permutation_cons_append.
    + intros k j'. simp_get. rewrite lookup_delete_Some. intros [_ ?]. by eapply wi_key.
Qed.

Lemma polled_inv now s : work_inv s → work_inv (polled cfg now s).
Proof.
  intros Hs. unfold polled. set (s1 := sweep s now _ s). set (n := (_ - _)%nat).
  assert (work_inv s1) as H1.
  { apply sweep_inv; [| |done].
    - rewrite iter_jobs_perm. apply NoDup_fst_map_to_list.
    - intros [h j]. by rewrite iter_jobs_perm, elem_of_map_to_list. }
  change (enqueued_tasks s) with (enqueued_tasks s1).
  apply (frame_inv [] (foldl (λ s j, started j s)
    (s1 <| enqueued_tasks := drop n (enqueued_tasks s1) |>) (take n (enqueued_tasks s1))));
    [|by rewrite started_all_enqueued..| |].
  - apply started_all_inv. eapply loosen_inv; [exact H1|done| |by apply H1].
    unfold jobs, active_jobs. simp_get. rewrite app_nil_r, <- fmap_app, <- (assoc_L (++)).
    by rewrite (Permutation_app_comm (drop _ _)), take_drop.
  - by rewrite started_all_enqueued.
  - rewrite started_all_enqueued. intros i r r'. simp_get. congruence.
Qed.

(** ** The stop signal is on its way *)

(** A sender that is gone has sent, unless the protocol no longer listens. *)
Definition stop_ok (r : Remote) : Prop :=
  stop_tx r = false → is_Some (stop_sent r) ∨ stop_rx_open r = false.

Definition told (r : Remote) : Prop := stop_tx r = false ∧ stop_ok r.

Abbreviation stops_ok m := (map_Forall (λ _ : Z, stop_ok) m).

Lemma shutdown_ok reason r : stop_ok r → stop_ok (effect (shutdown reason) r).
Proof.
  rewrite shutdown_effect. destruct r as [????????? [] ? [] ?]; unfold stop_ok; cbn; eauto.
Qed.

Lemma ended_ok r : stop_ok r → stop_ok (ended r).
Proof.
  intros Hr. unfold ended. rewrite remote_drop_effect. apply shutdown_ok.
  assert (∀ r', stop_ok r' → stop_ok (set_status Terminated r')) as Hset.
  { intros r'. unfold set_status, stop_ok. by destruct (should_update _ _). }
  destruct (is_active _); [apply Hset|]; by apply shutdown_ok.
Qed.

Lemma start_ok r : stop_ok r → stop_ok (effect start r).
Proof. by destruct r as [?????? [] ? [] ????]. Qed.

Lemma deliver_all_ok ms r : stop_ok r → stop_ok (deliver_all ms r).
Proof.
  revert r. induction ms as [|m ms IH]; intros r Hr; [done|]. apply IH.
  unfold remote_deliver, effect. cbv [mbind M_bind gets].
  destruct (is_active r); [|done]. by destruct (payload (msg m)), r as [???? [] [] ???????].
Qed.

Lemma alter_stops_ok (f : Remote → Remote) i (m : gmap Z Remote) :
  (∀ r, stop_ok r → stop_ok (f r)) → stops_ok m → stops_ok (alter f i m).
Proof.
  intros Hf Hm k r. rewrite lookup_alter_Some. intros [(-> & r0 & Hr & ->)|[_ Hr]]; eauto.
Qed.

Lemma started_stops_ok j s : stops_ok (remotes s) → stops_ok (remotes (started j s)).
Proof.
  unfold started. simp_get. apply alter_stops_ok. intros r Hr. cbn.
  case_bool_decide; [apply ended_ok|]; by apply deliver_all_ok, start_ok.
Qed.

Lemma sweep_stops_ok s0 now l s : stops_ok (remotes s) → stops_ok (remotes (sweep s0 now l s)).
Proof.
  revert s. induction l as [|e l IH]; intros s Hs; [done|]. rewrite sweep_cons. apply IH.
  unfold sweep. simp_get. cbn. destruct (keeps _ _ _); [done|]. apply alter_stops_ok; [|done].
  intros r Hr. apply ended_ok.
  destruct (signing_has_stalled _ _ _); [by apply shutdown_ok|done].
Qed.

Lemma end_jobs_stops_ok js m : stops_ok m → stops_ok (end_jobs js m).
Proof.
  revert m. induction js as [|j js IH]; intros m Hm; [done|]. apply IH.
  apply alter_stops_ok; [apply ended_ok|done].
Qed.

Lemma polled_stops_ok now s : stops_ok (remotes s) → stops_ok (remotes (polled cfg now s)).
Proof.
  intros Hs. unfold polled. simp_get. generalize (take (max_tasks cfg -
    size (active_tasks (sweep s now (iter_jobs (active_tasks s)) s))) (enqueued_tasks s)).
  intros js. generalize (sweep_stops_ok s now (iter_jobs (active_tasks s)) s Hs).
  generalize (sweep s now (iter_jobs (active_tasks s)) s).
  induction js as [|j js IH]; intros s' Hs'; [done|]. by apply IH, started_stops_ok.
Qed.

(** ** Reachable states *)

(** What a protocol does to its remote while it runs. *)
Inductive protocol_step : Remote → Remote → Prop :=
| proto_status r st : protocol_step r (set_status st r)
| proto_started r : start_sent r = true → protocol_step r (r <| start_rx_open := false |>)
| proto_message r m ms : rx_keygen_signing r = m :: ms →
    protocol_step r (r <| rx_keygen_signing := ms |>)
| proto_vote r m ms : rx_voting r = m :: ms → protocol_step r (r <| rx_voting := ms |>)
| proto_blame r l : protocol_step r (r <| blamed_parties := l |>)
| proto_hang_up r : protocol_step r (r <| rx_keygen_signing_open := false |>
    <| rx_voting_open := false |> <| start_rx_open := false |> <| stop_rx_open := false |>).

Lemma protocol_step_stop r r' : protocol_step r r' →
  stop_tx r' = stop_tx r ∧ (stop_ok r → stop_ok r').
Proof.
  intros []; unfold stop_ok; try done; simp_get; eauto.
  rewrite set_status_stop, set_status_stop_sent. split; [done|]. unfold set_status.
  by destruct (should_update _ _).
Qed.

(** The operations of a manager, and the protocols between them.  A handle is
    created and pushed at once; the state after an error counts as well. *)
Inductive work_step : WorkManager → WorkManager → Prop :=
| step_push hash force h s t :
    remotes s !! remote_id h = None →
    final (push_task cfg hash force h (s <| remotes ::= insert (remote_id h) remote_new |>))
      = Some t →
    work_step s t
| step_poll now s t : final (poll cfg now s) = Some t → work_step s t
| step_deliver m hash s t : final (deliver_message m hash s) = Some t → work_step s t
| step_clear s t : final (clear_enqueued_tasks s) = Some t → work_step s t
| step_shutdown s t : final (force_shutdown_all s) = Some t → work_step s t
| step_protocol i r r' s :
    remotes s !! i = Some r → protocol_step r r' →
    work_step s (s <| remotes ::= insert i r' |>)
| step_poller s : work_step s (s <| handler_open := false |>).

Lemma pushed_inv h s :
  remotes s !! remote_id h = None → work_inv s →
  work_inv_upto [remote_id h] (s <| remotes ::= insert (remote_id h) remote_new |>).
Proof.
  intros Hn [Hids Hk Hl Hkey Hst].
  assert (remote_id h ∉ (remote_id ∘ handle <$> jobs s)) as Hnew.
  { intros (j & Hj & Hin)%list_elem_of_fmap. destruct (Hk j Hin) as [r Hr]. cbn in Hj. congruence. }
  split; change (jobs (s <| remotes ::= _ |>)) with (jobs s); simp_get.
  - rewrite app_nil_r in Hids. apply NoDup_app. split_and!; [done| |apply NoDup_singleton].
    intros i Hi ->%list_elem_of_singleton. done.
  - intros j Hj. apply lookup_insert_is_Some'. right. by apply Hk.
  - intros i ->%list_elem_of_singleton. by rewrite lookup_insert_eq.
  - done.
  - intros i r. rewrite lookup_insert_Some, list_elem_of_singleton. intros [[<- _]|[_ Hr]]; [tauto|].
    destruct (Hst i r Hr) as [?|[[]%not_elem_of_nil|?]]; tauto.
Qed.

Lemma clear_run s :
  clear_enqueued_tasks s = Ret tt (s <| enqueued_tasks := [] |>
    <| remotes ::= end_jobs (enqueued_tasks s) |>).
Proof. unfold clear_enqueued_tasks. by rewrite run_gets, run_modify, drop_jobs_run. Qed.

Lemma clear_inv s : work_inv s →
  work_inv (s <| enqueued_tasks := [] |> <| remotes ::= end_jobs (enqueued_tasks s) |>).
Proof.
  intros Hs. apply end_jobs_inv. eapply loosen_inv; [exact Hs|done| |apply Hs].
  unfold jobs. simp_get. by rewrite !app_nil_r, fmap_app.
Qed.

Lemma force_shutdown_run s :
  force_shutdown_all s = Ret tt (s <| active_tasks := ∅ |> <| enqueued_tasks := [] |>
    <| enqueued_messages := ∅ |>
    <| remotes ::= end_jobs ((iter_jobs (active_tasks s)).*2 ++ enqueued_tasks s) |>).
Proof.
  unfold force_shutdown_all. rewrite run_gets, run_modify.
  assert (∀ (l : list (bytes * Job)) s', for_each l (λ e, drop_job e.2) s' =
    Ret tt (s' <| remotes ::= end_jobs l.*2 |>)) as Hl.
  { intros l s'. rewrite <- drop_jobs_run. revert s'. induction l as [|e l IH]; intros s'; [done|].
    cbn. cbv [mbind M_bind]. by rewrite drop_job_run, IH. }
  rewrite (run_call _ _ _ _ _ (Hl _ _)), (run_call _ _ _ _ _ (clear_run _)).
  cbv [modify]. destruct s; cbv [set]; cbn. f_equal. f_equal. unfold end_jobs.
  by rewrite foldl_app.
Qed.

Lemma push_task_final hash force h s :
  final (push_task cfg hash force h s) = Some (
    if force : bool then started (mkJob hash h) s
    else s <| enqueued_tasks ::= (λ l, l ++ [mkJob hash h]) |>
           <| to_handler ::= if negb (bool_decide (poll_method cfg = Manual)) && handler_open s
                             then (λ l, l ++ [hash]) else id |>).
Proof.
  unfold push_task. destruct force; [by rewrite start_job_run|].
  rewrite run_modify. destruct (negb _); [|by destruct s].
  rewrite run_gets. destruct s as [?????? []]; by cbv [ensure set mbind M_bind].
Qed.

Lemma deliver_message_final m hash s :
  final (deliver_message m hash s) = Some (
    match List.find (λ j, should_deliver j m hash)
            (enqueued_tasks s ++ (iter_jobs (active_tasks s)).*2) with
    | Some j => s <| remotes ::= alter (effect (remote_deliver m)) (id_of j) |>
    | None => s <| enqueued_messages ::= store_message m hash |>
    end).
Proof. unfold deliver_message. rewrite !run_gets. by destruct (List.find _ _). Qed.

Abbreviation work_ok s := (work_inv s ∧ stops_ok (remotes s)).

Lemma push_ok hash force h s t :
  remotes s !! remote_id h = None →
  final (push_task cfg hash force h (s <| remotes ::= insert (remote_id h) remote_new |>))
    = Some t → work_ok s → work_ok t.
Proof.
  rewrite push_task_final. intros Hn [= <-] [Hs Hok].
  assert (stops_ok (<[remote_id h := remote_new]> (remotes s))) as Hok'.
  { by apply map_Forall_insert_2. }
  pose proof (pushed_inv h s Hn Hs) as Hp. destruct force.
  { split; [by apply started_inv|by apply started_stops_ok]. }
  split; [|done]. eapply loosen_inv; [exact Hp|done| |apply Hp].
  unfold jobs, active_jobs. simp_get. by rewrite (assoc_L (++)), fmap_app, app_nil_r.
Qed.

Lemma work_step_ok s t : work_step s t → work_ok s → work_ok t.
Proof.
  destruct 1 as [hash force h s t Hn Ht|now s t Ht|m hash s t Ht|s t Ht|s t Ht|i r r' s Hr Hp|s];
    [by eapply push_ok|..]; intros [Hs Hok].
  - pose proof (wi_ids _ _ Hs) as Hnd. unfold jobs in Hnd.
    rewrite fmap_app, app_nil_r, NoDup_app in Hnd.
    rewrite poll_run in Ht by apply Hnd. injection Ht as <-.
    split; [by apply polled_inv|by apply polled_stops_ok].
  - rewrite deliver_message_final in Ht. injection Ht as <-.
    destruct (List.find _ _) as [j|]; [|by split; [apply (same_remotes_inv [] s)|]].
    split; [|apply alter_stops_ok; [apply (deliver_all_ok [m])|done]].
    eapply frame_inv; [exact Hs|done|done|..]; simp_get.
    + intros i. apply lookup_alter_is_Some.
    + intros i r r' Hr Hr'. apply lookup_alter_Some in Hr' as [(<- & r0 & ? & ->)|[_ ?]];
        [|congruence]. rewrite remote_deliver_stop. congruence.
  - rewrite clear_run in Ht. injection Ht as <-.
    split; [by apply clear_inv|by apply end_jobs_stops_ok].
  - rewrite force_shutdown_run in Ht. injection Ht as <-.
    split; [|by apply end_jobs_stops_ok]. apply end_jobs_inv.
    eapply loosen_inv; [exact Hs|done|..].
    + unfold jobs, active_jobs. simp_get. rewrite map_to_list_empty, app_nil_r. simpl.
      by rewrite iter_jobs_perm.
    + intros h j. simp_get. by rewrite lookup_empty.
  - destruct (protocol_step_stop _ _ Hp) as [Htx Hok'].
    split; [|apply map_Forall_insert_2; [by apply Hok', (Hok i)|done]].
    eapply frame_inv; [exact Hs|done|done|..]; simp_get.
    + intros k. rewrite lookup_insert_is_Some'. naive_solver.
    + intros k r0 r1 H0' [[<- <-]|[_ ?]]%lookup_insert_Some; congruence.
  - by split; [apply (same_remotes_inv [] s)|].
Qed.

(** Whatever the manager, the protocols and the network do, and in whatever order,
    a protocol that was handed to the manager is the one of a single job that is
    active or waits, or it was told to stop: its stop signal was sent, or it no longer
    listens.  An active job is found under its own hash. *)
Theorem protocols_owned t :
  rtc work_step work_empty t →
  NoDup (remote_id ∘ handle <$> jobs t) ∧
  (∀ h j, active_tasks t !! h = Some j → task_hash j = h) ∧
  (∀ i r, remotes t !! i = Some r →
     (∃ j, j ∈ jobs t ∧ remote_id (handle j) = i) ∨ told r).
Proof.
  intros Ht. assert (work_ok t) as [Hs Hok].
  { revert t Ht. apply rtc_ind_r; [split; [apply work_empty_inv|apply map_Forall_empty]|].
    intros s t _. apply work_step_ok. }
  split_and!; [by rewrite <- (app_nil_r (_ <$> _)); apply Hs|apply Hs|].
  intros i r Hr. destruct (wi_stopped _ _ Hs i r Hr) as [Hj|[[]%not_elem_of_nil|Hstop]].
  - left. apply list_elem_of_fmap in Hj as (j & -> & Hj). by exists j.
  - right. split; [done|by eapply Hok].
Qed.
End ownership.

(** ** Messages that arrive before their job *)

Section messages.
Context `{JobOrder, !JobOrderLaws} (cfg : WorkConfig).
Implicit Types (s t : WorkManager) (m : SignedDKGMessage).

Lemma job_exists_spec s h :
  (∀ k j, active_tasks s !! k = Some j → task_hash j = k) →
  job_exists s h = true ↔ ∃ j, j ∈ jobs s ∧ task_hash j = h.
Proof.
  intros Hkey. unfold job_exists, jobs, active_jobs.
  rewrite orb_true_iff, bool_decide_eq_true, existsb_exists. split.
  - intros [[j Hj]|(j & Hj & Hh%bool_decide_eq_true)].
    + exists j. split; [by apply (jobs_active h)|by apply Hkey].
    + exists j. rewrite elem_of_app. split; [right; by apply list_elem_of_In|done].
  - intros (j & [Hj|Hj]%elem_of_app & Hh).
    + left. apply list_elem_of_fmap in Hj as ([k j'] & -> & Hin%elem_of_map_to_list). cbn in *.
      rewrite <- Hh, (Hkey k j') by done. by exists j'.
    + right. exists j. by rewrite <- list_elem_of_In, bool_decide_eq_true.
Qed.

(** A message for a job that does not exist is delivered to no one. *)
Lemma no_recipient s m hash :
  (∀ k j, active_tasks s !! k = Some j → task_hash j = k) → job_exists s hash = false →
  deliver_message m hash s = Ret tt (s <| enqueued_messages ::= store_message m hash |>).
Proof.
  intros Hkey Hj. unfold deliver_message. rewrite !run_gets.
  destruct (List.find _ _) as [j|] eqn:Hf; [|done].
  apply List.find_some in Hf as [Hin Hd]. apply list_elem_of_In in Hin.
  assert (job_exists s hash = true); [|congruence].
  apply job_exists_spec; [done|]. exists j. split.
  - rewrite iter_jobs_perm, Permutation_app_comm in Hin. exact Hin.
  - unfold should_deliver in Hd. rewrite !andb_true_iff, bool_decide_eq_true in Hd. tauto.
Qed.

Lemma stored_store_message m hash qs h ss :
  stored (store_message m hash qs) h ss =
    stored qs h ss ++ (if decide (h = hash ∧ ss = msg_ssid (msg m)) then [m] else []).
Proof.
  unfold stored, store_message. destruct (decide (h = hash)) as [->|Hh].
  - rewrite lookup_insert_eq. cbn. destruct (decide (ss = msg_ssid (msg m))) as [->|Hs].
    + rewrite lookup_insert_eq, decide_True by done. by destruct (qs !! hash).
    + rewrite lookup_insert_ne, decide_False by naive_solver.
      rewrite app_nil_r. by destruct (qs !! hash).
  - rewrite lookup_insert_ne, decide_False by naive_solver. by rewrite app_nil_r.
Qed.

Lemma stored_take_queue hash ss qs h ss' :
  stored (take_queue hash ss qs) h ss' =
    if decide (h = hash ∧ ss' = ss) then [] else stored qs h ss'.
Proof.
  unfold stored, take_queue. destruct (qs !! hash) as [q|] eqn:Eq.
  - destruct (decide (h = hash)) as [->|Hh].
    + rewrite Eq. cbn. assert (default [] (delete ss q !! ss') =
        if decide (ss' = ss) then [] else default [] (q !! ss')) as E.
      { case_decide as Hd; [by rewrite Hd, lookup_delete_eq|by rewrite lookup_delete_ne]. }
      transitivity (default [] (delete ss q !! ss')).
      * clear E. case_decide as Hd;
          [by rewrite lookup_delete_eq, Hd, lookup_empty|by rewrite lookup_insert_eq].
      * rewrite E. repeat case_decide; naive_solver.
    + rewrite (decide_False (P := h = hash ∧ _)) by naive_solver.
      case_decide; [by rewrite lookup_delete_ne|by rewrite lookup_insert_ne].
  - case_decide as Hd; [|done]. destruct Hd as [-> ->]. by rewrite Eq.
Qed.

(** A series of messages for one attempt at a job that does not exist yet. *)
Lemma store_series ms hash ss s :
  (∀ k j, active_tasks s !! k = Some j → task_hash j = k) → job_exists s hash = false →
  Forall (λ m, msg_ssid (msg m) = ss) ms →
  ∃ qs, for_each ms (λ m, deliver_message m hash) s = Ret tt (s <| enqueued_messages := qs |>) ∧
    ∀ h ss', stored qs h ss' = stored (enqueued_messages s) h ss' ++
      (if decide (h = hash ∧ ss' = ss) then ms else []).
Proof.
  intros Hkey Hj. revert s Hkey Hj. induction ms as [|m ms IH]; intros s Hkey Hj Hms.
  { exists (enqueued_messages s). split; [by destruct s|]. intros h ss'.
    case_decide; by rewrite app_nil_r. }
  apply Forall_cons in Hms as [Hm Hms].
  destruct (IH (s <| enqueued_messages ::= store_message m hash |>)) as (qs & Hrun & Hqs); try done.
  exists qs. cbn [for_each]. split.
  - by rewrite (run_call _ _ _ _ _ (no_recipient s m hash Hkey Hj)), Hrun.
  - intros h ss'. rewrite Hqs. simp_get. rewrite stored_store_message, <- (assoc_L (++)), Hm.
    by case_decide.
Qed.

(** Messages that arrive before their job wait for it, in order; when the job starts
    it gets those it accepts, each in the channel of its kind, none of them stays
    behind and the messages of other jobs and attempts are where they were. *)
Theorem early_messages_delivered ms hash h s :
  (∀ k j, active_tasks s !! k = Some j → task_hash j = k) →
  job_exists s hash = false → remotes s !! remote_id h = None →
  stored (enqueued_messages s) hash (ssid h) = [] →
  Forall (λ m, msg_ssid (msg m) = ssid h) ms →
  ∃ s1 s2 r,
    for_each ms (λ m, deliver_message m hash) s = Ret tt s1 ∧
    push_task cfg hash true h (s1 <| remotes ::= insert (remote_id h) remote_new |>) = Ret tt s2 ∧
    remotes s2 !! remote_id h = Some r ∧ start_sent r = true ∧
    rx_keygen_signing r = filter (λ m, ¬ is_vote m) (acceptable_for (mkJob hash h) ms) ∧
    rx_voting r = filter is_vote (acceptable_for (mkJob hash h) ms) ∧
    job_exists s2 hash = true ∧
    (∀ h' ss', stored (enqueued_messages s2) h' ss' = stored (enqueued_messages s) h' ss').
Proof.
  intros Hkey Hj Hr Hst Hms. destruct (store_series ms hash (ssid h) s) as (qs & Hrun & Hqs); try done.
  set (s1 := s <| enqueued_messages := qs |> <| remotes ::= insert (remote_id h) remote_new |>).
  set (j := mkJob hash h). set (r0 := effect start remote_new).
  destruct (deliver_all_open (acceptable_for j ms) r0) as (Hk & Hv & _); [done..|].
  assert (active_tasks s !! hash = None) as Hn.
  { unfold job_exists in Hj. apply orb_false_iff in Hj as [Hj _].
    apply bool_decide_eq_false in Hj. by apply eq_None_not_Some. }
  assert (stored qs hash (ssid h) = ms) as Hq.
  { rewrite Hqs, Hst, decide_True by done. done. }
  assert (remotes s1 !! remote_id h = Some remote_new) as Hs1 by (apply lookup_insert_eq).
  assert (remote_of s1 h = remote_new) as Hro by (unfold remote_of; by rewrite Hs1).
  exists (s <| enqueued_messages := qs |>), (started j s1), (deliver_all (acceptable_for j ms) r0).
  split_and!; [done|by apply start_job_run|..].
  - unfold started. change (handle j) with h. rewrite Hro. simp_get.
    rewrite lookup_alter_eq, Hs1. change (active_tasks s1 !! task_hash j) with
      (active_tasks s !! hash). rewrite Hn. change (returns (start remote_new)) with true.
    cbv iota. change (stored (enqueued_messages s1) _ _) with (stored qs hash (ssid h)).
    by rewrite Hq.
  - assert (∀ l r, start_sent (deliver_all l r) = start_sent r) as ->; [|done].
    induction l as [|m l IH]; intros r; [done|]. simpl. rewrite IH. clear.
    unfold remote_deliver, effect. cbv [mbind M_bind gets]. destruct (is_active r); [|done].
    by destruct (payload (msg m)), r as [???? [] [] ???????].
  - done.
  - done.
  - unfold job_exists. rewrite started_active by done. change (task_hash j) with hash.
    by rewrite lookup_insert_eq.
  - intros h' ss'. unfold started. change (handle j) with h. rewrite Hro. simp_get.
    change (stored (take_queue hash (ssid h) qs) h' ss' = stored (enqueued_messages s) h' ss').
    rewrite stored_take_queue, Hqs. case_decide as Hd; [|by rewrite app_nil_r].
    destruct Hd as [-> ->]. done.
Qed.
End messages.
