(* ===== verification/Client.v ===== *)
(** * What a node reads: the chain, its keystore

    The runtime API at a finalized block as the gadget sees it, the queries of
    [DKGWorker] (src/dkg-gadget/src/worker.rs) that are answered from it, and the
    node's keystore (keystore.rs).  [Client] gives the answers of the runtime API at
    a block; a query that fails has the answer [None].  [Keystore] is the store of
    private keys behind [DKGKeystore]. *)

From S2P Require Import Prelude.
From S2P Require Import Frame.
From S2P Require Import Primitives.
From S2P Require Import GadgetTypes.

(** The logs are those of the DKG engine, in order. *)
Record Header := mkHeader {
  number : Z;
  digest : list ConsensusLog }.

Record RuntimeApi := mkRuntimeApi {
  at_dkg_pub_key : option (Z * bytes);
  at_next_dkg_pub_key : option (option (Z * bytes));
  at_best_authorities : option (list (Z * DKGId));
  at_next_best_authorities : option (list (Z * DKGId));
  at_keygen_threshold : option Z;
  at_next_keygen_threshold : option Z;
  at_signature_threshold : option Z;
  at_next_signature_threshold : option Z;
  at_authority_set : option AuthoritySet;
  at_queued_authority_set : option AuthoritySet;
  at_keygen_jailed : option (list DKGId → list DKGId);
  at_should_execute_new_keygen : option (bool * bool);
  at_unsigned_proposal_batches : option (list StoredUnsignedProposalBatch) }.

Class Client := runtime_api : Header → RuntimeApi.

(** ** Queries *)

Section queries.
Context `{Client}.
Implicit Types (h : Header).

Definition get_keygen_threshold h : Z := default 0 (at_keygen_threshold (runtime_api h)).

Definition get_next_keygen_threshold h : Z :=
  default 0 (at_next_keygen_threshold (runtime_api h)).

Definition get_signature_threshold h : Z := default 0 (at_signature_threshold (runtime_api h)).

Definition get_next_signature_threshold h : Z :=
  default 0 (at_next_signature_threshold (runtime_api h)).

Definition get_dkg_pub_key h : Z * bytes := default (0, []) (at_dkg_pub_key (runtime_api h)).

Definition dkg_pub_key_is_unset h : bool := bool_decide ((get_dkg_pub_key h).2 = []).

Definition get_next_dkg_pub_key h : option (Z * bytes) :=
  default None (at_next_dkg_pub_key (runtime_api h)).

Definition get_keygen_jailed h (set : list DKGId) : list DKGId :=
  default [] ((λ f, f set) <$> at_keygen_jailed (runtime_api h)).

Definition get_best_authorities h : list (Z * DKGId) :=
  default [] (at_best_authorities (runtime_api h)).

Definition get_next_best_authorities h : list (Z * DKGId) :=
  default [] (at_next_best_authorities (runtime_api h)).

(** The loop returns the index of the first entry of the key. *)
Definition index_of_authority (public : DKGId) (best : list (Z * DKGId)) : option Z :=
  (λ e, e.2.1) <$> list_find (λ e, e.2 = public) best.

Definition get_party_index (public : DKGId) h : option Z :=
  index_of_authority public (get_best_authorities h).

Definition get_next_party_index (public : DKGId) h : option Z :=
  index_of_authority public (get_next_best_authorities h).

Definition match_consensus_log (log : ConsensusLog) : option (AuthoritySet * AuthoritySet) :=
  match log with
  | AuthoritiesChange active queued => Some (active, queued)
  | _ => None
  end.

Definition find_authorities_change h : option (AuthoritySet * AuthoritySet) :=
  head (omap match_consensus_log (digest h)).

(** [validator_set_inner]. *)
Definition validator_set h : option (AuthoritySet * AuthoritySet) :=
  match find_authorities_change h with
  | Some sets => Some sets
  | None =>
      match at_authority_set (runtime_api h), at_queued_authority_set (runtime_api h) with
      | Some current, Some queued => Some (current, queued)
      | _, _ => None
      end
  end.

Definition should_execute_new_keygen h : AnticipatedKeygenExecutionStatus :=
  let '(execute, force_execute) :=
    default (false, false) (at_should_execute_new_keygen (runtime_api h)) in
  mkAnticipated execute force_execute.

Definition get_unsigned_proposal_batches h : option (list StoredUnsignedProposalBatch) :=
  at_unsigned_proposal_batches (runtime_api h).

(** [flat_map(|(i, p)| KeygenPartyId::try_from(i).map(|i| (i, p)))]. *)
Definition keygen_parties (best : list (Z * DKGId)) : list (KeygenPartyId * DKGId) :=
  omap (λ e, match keygen_party_id e.1 with
             | Ok i => Some (i, e.2)
             | _ => None
             end) best.
End queries.

(** ** The keystore *)

(** [public_keys] is [None] where the node has no keystore. *)
Class Keystore := {
  ecdsa_public_keys : option (list DKGId);
  has_keys : DKGId → bool;
  ecdsa_sign_prehashed : DKGId → bytes → option bytes }.

(** [itertools::unique]: the first occurrence stays. *)
Fixpoint unique_from (seen l : list DKGId) : list DKGId :=
  match l with
  | [] => []
  | x :: rest =>
      if decide (x ∈ seen) then unique_from seen rest else x :: unique_from (x :: seen) rest
  end.

Section keystore.
Context `{Keystore, Crypto}.

(** [authority_id] pops the last key. *)
Definition authority_id (keys : list DKGId) : option DKGId :=
  _ ← ecdsa_public_keys;
  last (unique_from [] (filter (λ k, has_keys k = true) keys)).

(** A node without a keystore or without a key panics. *)
Definition get_authority_public_key {S E} : M S E DKGId :=
  keys ← expect ecdsa_public_keys;
  expect (authority_id keys).

Definition keystore_sign (public : DKGId) (message : bytes) : option bytes :=
  _ ← ecdsa_public_keys;
  ecdsa_sign_prehashed public (keccak_256 message).

(** A signature has 65 bytes, and the key of the signer is recovered from it. *)
Class KeystoreLaws : Prop := {
  sign_length public hash sig :
    ecdsa_sign_prehashed public hash = Some sig → length sig = SIGNATURE_LENGTH;
  sign_recover public hash sig : ecdsa_sign_prehashed public hash = Some sig →
    ∃ k, secp256k1_ecdsa_recover sig hash = Some k ∧ drop 1 (dkg_bytes public) = take 32 k }.
End keystore.

(** ** Who signed a message *)

(** [verify_signature_against_authorities_inner] on the sets of a block. *)
Class MessageCodec := {
  encode_message : DKGMessage → bytes;
  encode_batch : StoredUnsignedProposalBatch → bytes }.

Section origin.
Context `{Client, Crypto, MessageCodec}.

(** [expect("AuthorityId encoding failed!")]: an authority is a 33-byte key. *)
Definition signer_keys {E} (l : list DKGId) : result E (list bytes) :=
  if forallb (λ x, bool_decide (is_Some (to_slice_33 (dkg_bytes x)))) l
  then Ok (dkg_bytes <$> l) else Panics.

Definition check_signers (xs : list DKGId) (encoded signature : bytes) : result DKGError bool :=
  keys ← signer_keys xs;
  Ok (verify_signer_from_set_ecdsa keys encoded signature).2.

Definition verify_signature_against_authorities_inner (m : SignedDKGMessage)
    (latest_header : option Header) : result DKGError DKGMessage :=
  let encoded := encode_message (msg m) in
  signature ← result_of (msg_signature m) EGenericError;
  let authorities :=
    header ← latest_header;
    sets ← validator_set header;
    Some (as_authorities sets.1, as_authorities sets.2) in
  authorities ← result_of authorities EGenericError;
  current ← check_signers authorities.1 encoded signature;
  if current : bool then Ok (msg m) else
  next ← check_signers authorities.2 encoded signature;
  if next : bool then Ok (msg m) else Err EGenericError.

Definition authenticate_msg_origin (is_main_round : bool) (authorities : list DKGId * list DKGId)
    (payload signature : bytes) : result DKGError DKGId :=
  maybe_signers ← signer_keys (if is_main_round then authorities.1 else authorities.2);
  let '(maybe_signer, success) := verify_signer_from_set_ecdsa maybe_signers payload signature in
  if negb success then Err EGenericError else
  signer ← result_of maybe_signer EGenericError;
  Ok (mkDKGId signer).
End origin.
