(* ===== verification/Node.v ===== *)
(** * The state of a node

    [DKGWorker] (src/dkg-gadget/src/worker.rs) with its signing manager, its key
    generation manager and the stores they share, how a node signs what it sends
    (gossip_messages/dkg_message.rs) and what it leaves in offchain storage for the
    workers of the pallets (storage/*.rs).  [outbox] are the messages given to the gossip engine, [errors]
    the channel of the error handler.  Handlers run one after the other.  The random
    submission delay is the parameter [SubmissionDelay]. *)

From S2P Require Import Prelude.
From S2P Require Import Frame.
From S2P Require Import Primitives.
From S2P Require Import Metadata.
From S2P Require Import Sessions.
From S2P Require Import GadgetTypes.
From S2P Require Import Remote.
From S2P Require Import WorkManager.
From S2P Require Import Client.

(** ** Signing manager *)

Record ProposedSigningSet := mkProposedSigningSet {
  ps_ssid : Z;
  locally_started_at : option Z;
  signing_set : list KeygenPartyId }.

#[export] Instance ProposedSigningSet_eta : Eta ProposedSigningSet := λ p,
  mkProposedSigningSet (ps_ssid p) (locally_started_at p) (signing_set p).

Record SigningSetHistoryTracker := mkTracker {
  ssids_attempted : gset Z;
  sets : list ProposedSigningSet }.

#[export] Instance SigningSetHistoryTracker_eta : Eta SigningSetHistoryTracker := λ t,
  mkTracker (ssids_attempted t) (sets t).

Definition tracker_default : SigningSetHistoryTracker := mkTracker ∅ [].

Record SigningManager := mkSigningManager {
  signing_work : WorkManager;
  lock : bool;
  ssid_history : gmap bytes SigningSetHistoryTracker }.

#[export] Instance SigningManager_eta : Eta SigningManager := λ s,
  mkSigningManager (signing_work s) (lock s) (ssid_history s).

(** ** Key generation manager *)

Inductive KeygenState :=
| Uninitialized
| RunningKeygen
| RunningGenesisKeygen
| KeygenCompleted (session_completed : Z)
| KeygenFailed (session_id : Z).

#[export] Instance KeygenState_eq_dec : EqDecision KeygenState.
Proof. solve_decision. Defined.

Record KeygenManager := mkKeygenManager {
  keygen_work : WorkManager;
  active_keygen_retry_id : Z;
  keygen_state : KeygenState;
  latest_executed_session_id : option Z;
  finished_count : Z }.

#[export] Instance KeygenManager_eta : Eta KeygenManager := λ k,
  mkKeygenManager (keygen_work k) (active_keygen_retry_id k) (keygen_state k)
    (latest_executed_session_id k) (finished_count k).

(** ** Protocols

    What the future of a job was built from. *)

Record SigningParams := mkSigningParams {
  sp_best_authorities : list (KeygenPartyId * DKGId);
  sp_party_i : KeygenPartyId;
  sp_session_id : Z;
  sp_threshold : Z;
  sp_unsigned_proposal_hash : bytes;
  sp_unsigned_proposal_batch : StoredUnsignedProposalBatch;
  sp_signing_set : list KeygenPartyId;
  sp_associated_block_id : Z;
  sp_ssid : Z;
  sp_local_key : option LocalKeyType }.

Record KeygenParams := mkKeygenParams {
  kp_best_authorities : list (KeygenPartyId * DKGId);
  kp_party_i : KeygenPartyId;
  kp_session_id : Z;
  kp_associated_block : Z;
  kp_threshold : Z;
  kp_stage : KeygenRound;
  kp_keygen_protocol_hash : bytes }.

Inductive Protocol :=
| SigningProtocol (p : SigningParams)
| KeygenProtocol (p : KeygenParams).

(** ** The worker *)

Record Offchain := mkOffchain {
  genesis_keys : OffchainKeys;
  next_keys : OffchainKeys;
  stored_reports : Stored AggregatedMisbehaviourReports;
  stored_proposals : Stored (list SignedProposalBatch) }.

#[export] Instance Offchain_eta : Eta Offchain := λ o,
  mkOffchain (genesis_keys o) (next_keys o) (stored_reports o) (stored_proposals o).

Abbreviation ReportKey := (MisbehaviourType * Z * DKGId)%type.

Record Node := mkNode {
  signing_manager : SigningManager;
  keygen_manager : KeygenManager;
  latest_header : option Header;
  best_authorities : list (Z * DKGId);
  next_best_authorities : list (Z * DKGId);
  current_validator_set : AuthoritySet;
  queued_validator_set : AuthoritySet;
  aggregated_public_keys : gmap Z AggregatedPublicKeys;
  aggregated_misbehaviour_reports : gmap ReportKey AggregatedMisbehaviourReports;
  offchain : option Offchain;
  outbox : list SignedDKGMessage;
  errors : list DKGError;
  (** The local keys in the database, by session. *)
  local_keys : gmap Z LocalKeyType;
  (** The next handle, and the protocols of those in use. *)
  next_handle : Z;
  protocols : gmap Z Protocol }.

#[export] Instance Node_eta : Eta Node := λ n,
  mkNode (signing_manager n) (keygen_manager n) (latest_header n) (best_authorities n)
    (next_best_authorities n) (current_validator_set n) (queued_validator_set n)
    (aggregated_public_keys n) (aggregated_misbehaviour_reports n) (offchain n) (outbox n)
    (errors n) (local_keys n) (next_handle n) (protocols n).

Abbreviation NM A := (M Node DKGError A).

(** [DKGWorker::new] on a node whose offchain storage is [o]. *)
Definition worker_new (o : option Offchain) : Node := {|
  signing_manager := mkSigningManager work_empty false ∅;
  keygen_manager := mkKeygenManager work_empty 0 Uninitialized None 0;
  latest_header := None;
  best_authorities := []; next_best_authorities := [];
  current_validator_set := mkAuthoritySet [] 0; queued_validator_set := mkAuthoritySet [] 0;
  aggregated_public_keys := ∅; aggregated_misbehaviour_reports := ∅;
  offchain := o; outbox := []; errors := []; local_keys := ∅; next_handle := 0; protocols := ∅ |}.

Definition get_latest_block_number (n : Node) : Z :=
  match latest_header n with Some h => number h | None => 0 end.

(** [fetch_local_keys]; session identifiers are u64. *)
Definition fetch_local_keys (n : Node) (current_session_id : Z)
    : option LocalKeyType * option LocalKeyType :=
  let next_session_id := wrap 64 (current_session_id + 1) in
  (local_keys n !! current_session_id, local_keys n !! next_session_id).

(** Operations of the two work managers. *)
Definition on_signing_work {A} (m : M WorkManager DKGError A) : NM A :=
  zoom (signing_work ∘ signing_manager)
    (λ w n, n <| signing_manager ::= set signing_work (λ _, w) |>) m.

Definition on_keygen_work {A} (m : M WorkManager DKGError A) : NM A :=
  zoom (keygen_work ∘ keygen_manager)
    (λ w n, n <| keygen_manager ::= set keygen_work (λ _, w) |>) m.

(** [generate_async_proto_params]: a new handle, known to the manager it is for. *)
Definition generate_async_proto_params (on_work : M WorkManager DKGError unit → NM unit)
    (best : list (KeygenPartyId * DKGId)) (session : Z) (stage : ProtoStageType)
    (associated_block attempt : Z) : NM Handle :=
  now ← gets get_latest_block_number;
  id ← gets next_handle;
  upd! next_handle ::= Z.succ;;
  on_work (upd! remotes ::= insert id remote_new);;
  mret {|
    remote_id := id; started_at := now; session_id := session;
    associated_block_id := associated_block; ssid := attempt; proto_stage_type := stage;
    index_to_authority_mapping := generate_authority_mapping best stage |}.

(** ** Sending *)

Section sending.
Context `{Keystore, Crypto, MessageCodec}.

Definition send_signed (public : DKGId) (m : DKGMessage) : NM unit :=
  match keystore_sign public (encode_message m) with
  | Some sig => upd! outbox ::= (λ l, l ++ [mkSignedDKGMessage m (Some sig)])
  | None => mret tt
  end.

(** [UnsignedMessages]; a vector is taken from its end. *)
Inductive UnsignedMessages :=
| Single (m : option DKGMessage)
| Multiple (ms : list DKGMessage).

Definition unsigned_messages (u : UnsignedMessages) : list DKGMessage :=
  match u with Single m => option_list m | Multiple ms => reverse ms end.

Definition sign_and_send_messages (u : UnsignedMessages) : NM unit :=
  public ← get_authority_public_key;
  for_each (unsigned_messages u) (send_signed public).

Definition sign_and_send_msg (m : DKGMessage) : NM unit := sign_and_send_messages (Single (Some m)).
End sending.

(** ** Offchain storage *)

Definition MAX_SUBMISSION_DELAY : Z := 3.
Definition STORAGE_SET_RETRY_NUM : Z := 5.
Definition MaxReporters : Z := 128.
Definition MaxReportSignatureLength : Z := 512.

(** The delay drawn at a block. *)
Class SubmissionDelay := submission_delay : Z → Z.

Class SubmissionDelayLaws `{SubmissionDelay} : Prop :=
  submission_delay_range b : 0 <= submission_delay b <= MAX_SUBMISSION_DELAY.

Section storage.
Context `{SubmissionDelay}.

(** [generate_delayed_submit_at]; block numbers are u32. *)
Definition generate_delayed_submit_at (start : Z) : option Z :=
  Some (wrap 32 (start + submission_delay start)).

Definition perform_storing_of_aggregated_public_keys (keys : AggregatedPublicKeys)
    (current_block_number : Z) (o : OffchainKeys) : OffchainKeys :=
  let o := o <| agg_keys := Present keys |> in
  match generate_delayed_submit_at current_block_number with
  | Some submit => o <| submit_at := Present submit |>
  | None => o
  end.

Definition store_aggregated_public_keys (is_genesis_round : bool) (session : Z)
    (current_block_number : Z) : NM unit :=
  o ← gets offchain;
  o ← ok_or o EGenericError;
  aggregated ← gets aggregated_public_keys;
  keys ← ok_or (aggregated !! session) ECriticalError;
  (if is_genesis_round
   then put! offchain := Some (o <| genesis_keys ::=
          perform_storing_of_aggregated_public_keys keys current_block_number |>)
   else put! offchain := Some (o <| next_keys ::=
          perform_storing_of_aggregated_public_keys keys current_block_number |>));;
  upd! aggregated_public_keys ::= filter (λ e, session < e.1).

Definition store_aggregated_misbehaviour_reports (reports : AggregatedMisbehaviourReports)
    : NM unit :=
  o ← gets offchain;
  o ← ok_or o EGenericError;
  put! offchain := Some (o <| stored_reports := Present reports |>).

(** The old value is read in the same step, so the first attempt to set succeeds. *)
Definition save_signed_proposals_in_storage (authority_public_key : DKGId)
    (signed_proposals : list SignedProposalBatch) : NM unit :=
  if bool_decide (signed_proposals = []) then mret tt else
  current ← gets current_validator_set;
  match find_index (as_authorities current) authority_public_key with
  | None => mret tt
  | Some _ =>
      header ← gets latest_header;
      match header with
      | None => mret tt
      | Some _ =>
          o ← gets offchain;
          match o with
          | None => mret tt
          | Some o =>
              put! offchain := Some (o <| stored_proposals := Present signed_proposals |>)
          end
      end
  end.
End storage.
