(* ===== verification/Reports.v ===== *)
(** * Reports and broadcasts

    Errors of the protocols and the misbehaviour reports that follow from them
    (worker.rs, gossip_messages/misbehaviour_report.rs), the broadcast of generated
    public keys (gossip_messages/public_key_gossip.rs) and the results of signing
    (async_protocols/blockchain_interface.rs), on the state of a node. *)

From S2P Require Import Prelude.
From S2P Require Import Frame.
From S2P Require Import Primitives.
From S2P Require Import Metadata.
From S2P Require Import Sessions.
From S2P Require Import GadgetTypes.
From S2P Require Import Remote.
From S2P Require Import WorkManager.
From S2P Require Import Client.
From S2P Require Import Node.

(** [DKGReport]. *)
Inductive DKGReport :=
| ReportKeygenMisbehaviour (offender : DKGId) (session_id : Z)
| ReportSignMisbehaviour (offender : DKGId) (session_id : Z).

(** [BatchKey], [VoteResult]. *)
Record BatchKey := mkBatchKey { bk_len : Z; bk_id : Z }.

#[export] Instance BatchKey_eq_dec : EqDecision BatchKey.
Proof. solve_decision. Defined.

#[export] Instance BatchKey_countable : Countable BatchKey.
Proof.
  apply (inj_countable' (λ k, (bk_len k, bk_id k)) (λ p, mkBatchKey p.1 p.2)). by intros [].
Defined.

Record VoteResult := mkVoteResult {
  vr_signature : bytes;
  vr_unsigned_proposal_batch : StoredUnsignedProposalBatch;
  vr_session_id : Z;
  vr_batch_key : BatchKey }.

Section reports.
Context `{Client, Keystore, Crypto, MessageCodec, SubmissionDelay}.

(** ** Misbehaviour *)

Definition new_reports (ty : MisbehaviourType) (session : Z) (who : DKGId)
    : AggregatedMisbehaviourReports := {|
  misbehaviour_type := ty; report_session_id := session; offender := who;
  reporters := []; report_signatures := [] |}.

(** Add a reporter and its signature; the bounds are those of the two vectors, and
    what was pushed before an error stays. *)
Definition push_report (key : ReportKey) (reporter : DKGId) (signature : bytes) : NM unit :=
  let '(ty, session, who) := key in
  let update f := upd! aggregated_misbehaviour_reports ::= partial_alter (λ o,
    Some (f (default (new_reports ty session who) o))) key in
  all ← gets aggregated_misbehaviour_reports;
  let r := default (new_reports ty session who) (all !! key) in
  rs ← ok_or (try_push MaxReporters (reporters r) reporter) EInputOutOfBounds;
  update (λ r, mkAggregatedMisbehaviourReports (misbehaviour_type r) (report_session_id r)
    (offender r) rs (report_signatures r));;
  sig ← ok_or (try_bound MaxReportSignatureLength signature) EInputOutOfBounds;
  ss ← ok_or (try_push MaxReporters (report_signatures r) sig) EInputOutOfBounds;
  update (λ r, mkAggregatedMisbehaviourReports (misbehaviour_type r) (report_session_id r)
    (offender r) (reporters r) ss).

(** [entry(key).or_insert_with(..)]. *)
Definition reports_entry (key : ReportKey) : NM AggregatedMisbehaviourReports :=
  let '(ty, session, who) := key in
  upd! aggregated_misbehaviour_reports ::= partial_alter (λ o,
    Some (default (new_reports ty session who) o)) key;;
  all ← gets aggregated_misbehaviour_reports;
  expect (all !! key).

Definition try_store_offchain (reports : AggregatedMisbehaviourReports) : NM bool :=
  header ← gets latest_header;
  header ← ok_or header ENoHeader;
  let threshold := get_signature_threshold header in
  let perform_store := threshold <? len (reporters reports) in
  when perform_store (store_aggregated_misbehaviour_reports reports);;
  mret perform_store.

Definition gossip_misbehaviour_report (report : MisbehaviourMessage) : NM unit :=
  if bool_decide (mb_misbehaviour_type report = MisbehaviourSign) then mret tt else
  public ← get_authority_public_key;
  let payload := misbehaviour_payload (mb_misbehaviour_type report) (mb_session_id report)
    (mb_offender report) in
  match keystore_sign public payload with
  | None => throw ECannotSign
  | Some signature =>
      send_signed public {|
        sender_id := public; recipient_id := None;
        payload := PMisbehaviourBroadcast (mkMisbehaviourMessage (mb_misbehaviour_type report)
          (mb_session_id report) (mb_offender report) signature);
        msg_session_id := mb_session_id report; msg_associated_block_id := 0; msg_ssid := 0 |};;
      let key := (mb_misbehaviour_type report, mb_session_id report, mb_offender report) in
      reports ← reports_entry key;
      if bool_decide (public ∈ reporters reports) then mret tt else
      push_report key public signature;;
      reports ← reports_entry key;
      stored ← try_store_offchain reports;
      when stored (
        upd! aggregated_misbehaviour_reports ::= delete key;;
        upd! aggregated_misbehaviour_reports ::= filter (λ e, mb_session_id report <= e.1.1.2))
  end.

Definition handle_misbehaviour_report (m : DKGMessage) : NM unit :=
  header ← gets latest_header;
  header ← ok_or header ENoHeader;
  sets ← ok_or (validator_set header) ENoAuthorityAccounts;
  match payload m with
  | PMisbehaviourBroadcast r =>
      if bool_decide (mb_misbehaviour_type r = MisbehaviourKeygen) then
        latest ← gets (latest_executed_session_id ∘ keygen_manager);
        let is_main_round := bool_decide (latest = Some (mb_session_id r)) in
        let signed_payload := misbehaviour_payload (mb_misbehaviour_type r) (mb_session_id r)
          (mb_offender r) in
        reporter ← lift_result id (authenticate_msg_origin is_main_round
          (as_authorities sets.1, as_authorities sets.2) signed_payload (mb_signature r));
        let key := (mb_misbehaviour_type r, mb_session_id r, mb_offender r) in
        reports ← reports_entry key;
        when (negb (bool_decide (reporter ∈ reporters reports)))
          (push_report key reporter (mb_signature r));;
        reports ← reports_entry key;
        try_store_offchain reports;;
        mret tt
      else mret tt
  | _ => mret tt
  end.

(** ** Errors *)

Definition handle_dkg_report (r : DKGReport) : NM unit :=
  let '(who, session, ty) := match r with
    | ReportKeygenMisbehaviour offender session_id => (offender, session_id, MisbehaviourKeygen)
    | ReportSignMisbehaviour offender session_id => (offender, session_id, MisbehaviourSign)
    end in
  ignore (gossip_misbehaviour_report (mkMisbehaviourMessage ty session who [])).

Definition handle_dkg_error (e : DKGError) : NM unit :=
  let '(offenders, session) := match e with
    | EKeygenMisbehaviour bad_actors session_id => (bad_actors, session_id)
    | EKeygenTimeout session_id bad_actors => (bad_actors, session_id)
    | ESignMisbehaviour bad_actors session_id => (bad_actors, session_id)
    | _ => ([], 0)
    end in
  for_each offenders (λ offender,
    match e with
    | EKeygenMisbehaviour _ _ => handle_dkg_report (ReportKeygenMisbehaviour offender session)
    | EKeygenTimeout _ _ => handle_dkg_report (ReportKeygenMisbehaviour offender session)
    | ESignMisbehaviour _ _ => handle_dkg_report (ReportSignMisbehaviour offender session)
    | _ => mret tt
    end).

(** ** Public keys *)

Definition gossip_public_key (m : PublicKeyMessage) : NM unit :=
  public ← get_authority_public_key;
  match keystore_sign public (pk_pub_key m) with
  | None => mret tt
  | Some signature =>
      send_signed public {|
        sender_id := public; recipient_id := None;
        payload := PPublicKeyBroadcast (mkPublicKeyMessage (pk_session_id m) (pk_pub_key m)
          signature);
        msg_session_id := pk_session_id m; msg_associated_block_id := 0; msg_ssid := 0 |};;
      upd! aggregated_public_keys ::= partial_alter (λ o,
        Some (default [] o ++ [(pk_pub_key m, signature)])) (pk_session_id m)
  end.

Definition handle_public_key_broadcast (m : DKGMessage) : NM unit :=
  header ← gets latest_header;
  header ← ok_or header ENoHeader;
  let current_block_number := number header in
  sets ← ok_or (validator_set header) ENoAuthorityAccounts;
  match payload m with
  | PPublicKeyBroadcast k =>
      let is_genesis_round := pk_session_id k =? 0 in
      latest ← gets (latest_executed_session_id ∘ keygen_manager);
      let is_main_round := bool_decide (latest = Some (pk_session_id k)) in
      lift_result id (authenticate_msg_origin is_main_round
        (as_authorities sets.1, as_authorities sets.2) (pk_pub_key k) (pk_signature k));;
      let key_and_sig := (pk_pub_key k, pk_signature k) in
      let threshold := get_next_signature_threshold header in
      upd! aggregated_public_keys ::= partial_alter (λ o,
        let l := default [] o in
        Some (if bool_decide (key_and_sig ∈ l) then l else l ++ [key_and_sig])) (pk_session_id k);;
      aggregated ← gets aggregated_public_keys;
      when (threshold <? len (default [] (aggregated !! pk_session_id k)))
        (store_aggregated_public_keys is_genesis_round (pk_session_id k) current_block_number)
  | _ => mret tt
  end.

(** ** Signatures *)

(** A signature has 65 bytes and fits its bound; so do the proposals of a batch. *)
Definition signed_batch_of (r : VoteResult) : SignedProposalBatch :=
  let b := vr_unsigned_proposal_batch r in {|
  sb_batch_id := ub_batch_id b;
  sb_proposals := (λ p, Signed (proposal_kind (up_proposal p)) (up_data p)
    (vr_signature r)) <$> ub_proposals b;
  sb_signature := vr_signature r |}.

(** [process_vote_result] with the votes that the engine of the protocol collected. *)
Definition process_vote_result (vote_results : gmap BatchKey (list SignedProposalBatch))
    (r : VoteResult) : NM (gmap BatchKey (list SignedProposalBatch)) :=
  let batch := default [] (vote_results !! vr_batch_key r) ++ [signed_batch_of r] in
  if len batch =? bk_len (vr_batch_key r) then
    public ← get_authority_public_key;
    save_signed_proposals_in_storage public batch;;
    mret (delete (vr_batch_key r) vote_results)
  else mret (<[vr_batch_key r := batch]> vote_results).
End reports.
