(* ===== verification/ReportsSpec.v ===== *)
(** * Theorems about reports and broadcasts

    Who a message is from, what a node collects and leaves in offchain storage, and
    that the pallet accepts what it finds there.  Two flaws are proved as well: a
    public key that the node generates itself is checked against the wrong set of
    authorities, and the signatures over a key are counted instead of the signers. *)

From S2P Require Import Prelude.
From S2P Require Import Frame.
From S2P Require Import Primitives.
From S2P Require Import Metadata.
From S2P Require Import Sessions.
From S2P Require Import GadgetTypes.
From S2P Require Import Remote.
From S2P Require Import WorkManager.
From S2P Require Import Client.
From S2P Require Import Node.
From S2P Require Import Reports.

(** ** Origin of a message *)

Section origin.
Context `{Client, Crypto, MessageCodec}.

(** The signature over the payload is by this authority. *)
Definition signed_by (who : DKGId) (payload sig : bytes) : Prop :=
  ∃ k, recover_ecdsa_pub_key payload sig = Some k ∧ drop 1 (dkg_bytes who) = take 32 k.

Lemma signer_keys_Ok {E} l keys :
  (signer_keys l : result E (list bytes)) = Ok keys → keys = dkg_bytes <$> l.
Proof. unfold signer_keys. destruct (forallb _ _); [|done]. by intros [= <-]. Qed.

Lemma authenticate_Ok main sets payload sig who :
  authenticate_msg_origin main sets payload sig = Ok who →
  who ∈ (if main : bool then sets.1 else sets.2) ∧ signed_by who payload sig.
Proof.
  unfold authenticate_msg_origin. intros Ha.
  destruct (signer_keys _) as [keys| |] eqn:Hk; try done. cbn in Ha.
  apply signer_keys_Ok in Hk as ->.
  destruct (verify_signer_from_set_ecdsa _ _ _) as [o b] eqn:Hv.
  apply verify_signer_cases in Hv as [Hb Ho]. destruct b; [|done]. cbn in Ha.
  destruct o as [x|]; [|done]. cbn in Ha. injection Ha as <-.
  destruct Ho as (_ & Hx & k & Hr & Hd).
  apply list_elem_of_fmap in Hx as ([y] & -> & Hin). split; [done|]. by exists k.
Qed.

Lemma check_signers_Ok xs encoded sig :
  check_signers xs encoded sig = Ok true → ∃ who, who ∈ xs ∧ signed_by who encoded sig.
Proof.
  unfold check_signers. destruct (signer_keys xs) as [keys| |] eqn:Hk; try done.
  apply signer_keys_Ok in Hk as ->. cbn.
  destruct (verify_signer_from_set_ecdsa _ _ _) as [o b] eqn:Hv. cbn. intros [= ->].
  apply verify_signer_cases in Hv as [Hb _].
  destruct (proj1 Hb eq_refl) as (k & x & Hr & Hx & Hd).
  apply list_elem_of_fmap in Hx as ([y] & -> & Hin). exists (mkDKGId y). split; [done|]. by exists k.
Qed.

Lemma check_signers_no_error xs encoded sig e : check_signers xs encoded sig ≠ Err e.
Proof. unfold check_signers, signer_keys. by destruct (forallb _ _). Qed.

(** C33: A message passes as it is, and only if it carries a signature over its encoding by
    an authority of the current or of the queued set at the latest block; every other
    message is refused with a generic error. *)
Theorem incoming_message_origin m latest :
  match verify_signature_against_authorities_inner m latest with
  | Ok d => d = msg m ∧ ∃ header sets sig who,
      latest = Some header ∧ validator_set header = Some sets ∧ msg_signature m = Some sig ∧
      (who ∈ as_authorities sets.1 ∨ who ∈ as_authorities sets.2) ∧
      signed_by who (encode_message (msg m)) sig
  | Err e => e = EGenericError
  | Panics => True
  end.
Proof.
  unfold verify_signature_against_authorities_inner.
  destruct (msg_signature m) as [sig|] eqn:Hsig; [|done].
  destruct latest as [header|]; [|done]. cbn.
  destruct (validator_set header) as [sets|] eqn:Hv; [|done]. cbn.
  destruct (check_signers (as_authorities sets.1) _ _) as [[]|e|] eqn:Hc; cbn; [| |..|done].
  - split; [done|]. apply check_signers_Ok in Hc as (who & Hw & Hs).
    exists header, sets, sig, who. tauto.
  - destruct (check_signers (as_authorities sets.2) _ _) as [[]|e|] eqn:Hc'; cbn; try done.
    + split; [done|]. apply check_signers_Ok in Hc' as (who & Hw & Hs).
      exists header, sets, sig, who. tauto.
    + by apply check_signers_no_error in Hc'.
  - by apply check_signers_no_error in Hc.
Qed.
End origin.

(** ** Misbehaviour reports *)

Section reports.
Context `{Client, Keystore, Crypto, !KeystoreLaws, MessageCodec, SubmissionDelay}.
Implicit Types (n : Node) (r : AggregatedMisbehaviourReports) (key : ReportKey).

Definition payload_of r : bytes :=
  misbehaviour_payload (misbehaviour_type r) (report_session_id r) (offender r).

(** Different reporters, each with its signature over the report. *)
Record report_ok r : Prop := {
  ro_distinct : NoDup (reporters r);
  ro_signed : Forall2 (λ who sig, signed_by who (payload_of r) sig)
    (reporters r) (report_signatures r) }.

Definition key_of r : ReportKey := (misbehaviour_type r, report_session_id r, offender r).

Definition reports_inv n : Prop :=
  (∀ key r, aggregated_misbehaviour_reports n !! key = Some r → key_of r = key ∧ report_ok r) ∧
  (∀ o r, offchain n = Some o → stored_reports o = Present r → report_ok r).

Lemma signed_length who payload sig : signed_by who payload sig → length sig = SIGNATURE_LENGTH.
Proof. intros (k & Hr & _). by eapply recover_length_signature. Qed.

Lemma keystore_sign_signed public payload sig :
  keystore_sign public payload = Some sig → signed_by public payload sig.
Proof.
  unfold keystore_sign. intros (_ & _ & Hs)%bind_Some.
  destruct (sign_recover _ _ _ Hs) as (k & Hk & Hd). exists k. split; [|done].
  unfold recover_ecdsa_pub_key. rewrite (sign_length _ _ _ Hs). done.
Qed.

Lemma new_reports_ok ty session who : report_ok (new_reports ty session who).
Proof. split; cbn; [apply NoDup_nil_2|constructor]. Qed.

(** The entry of a report; nothing else changes. *)
Lemma reports_entry_ok key n :
  reports_inv n →
  wp True (reports_entry key) n
    (λ r t, reports_inv t ∧ aggregated_misbehaviour_reports t !! key = Some r ∧
            key_of r = key ∧ report_ok r) (λ _ _, False).
Proof.
  intros [Ha Ho]. destruct key as [[ty session] who]. unfold reports_entry.
  set (key := (ty, session, who)). wp_step. wp_step. wp_step. wp_step.
  apply wp_expect; [|done]. intros r Hr. simp_get_in Hr. rewrite lookup_partial_alter_eq in Hr.
  injection Hr as Er.
  assert (key_of r = key ∧ report_ok r) as [Hk Hr].
  { rewrite <- Er. destruct (_ !! key) as [r'|] eqn:E; [by apply Ha|]. split; [done|].
    apply new_reports_ok. }
  split_and!; [split|simp_get; by rewrite lookup_partial_alter_eq, Er|done|done].
  - intros key' r' Hr'. simp_get_in Hr'. destruct (decide (key' = key)) as [->|Hne].
    + rewrite lookup_partial_alter_eq in Hr'. injection Hr' as <-. by rewrite Er.
    + rewrite lookup_partial_alter_ne in Hr' by done. by apply Ha.
  - apply Ho.
Qed.

(** A new reporter with its signature. *)
Definition add_report r (reporter : DKGId) (sig : bytes) : AggregatedMisbehaviourReports := {|
  misbehaviour_type := misbehaviour_type r; report_session_id := report_session_id r;
  offender := offender r; reporters := reporters r ++ [reporter];
  report_signatures := report_signatures r ++ [sig] |}.

Lemma push_report_run key reporter sig r n :
  aggregated_misbehaviour_reports n !! key = Some r →
  length (report_signatures r) = length (reporters r) → len sig <= MaxReportSignatureLength →
  push_report key reporter sig n =
    if len (reporters r) <? MaxReporters
    then Ret tt (n <| aggregated_misbehaviour_reports ::= insert key (add_report r reporter sig) |>)
    else Fail EInputOutOfBounds n.
Proof.
  intros Hr Hlen Hsig. destruct key as [[ty session] who]. unfold push_report. cbv zeta.
  rewrite run_gets, Hr. change (default ?x (Some r)) with r. rewrite run_ok_or.
  destruct (len (reporters r) <? MaxReporters) eqn:Hb;
    [|by unfold try_push; rewrite Hb].
  assert (∀ {A} (l : list A) x, length l = length (reporters r) →
    try_push MaxReporters l x = Some (l ++ [x])) as Hpush.
  { intros A l x Hl. unfold try_push. by rewrite Hl, Hb. }
  rewrite Hpush by done. rewrite run_modify. unfold try_bound.
  rewrite (proj2 (Z.leb_le _ _) Hsig), run_ok_or, Hpush, run_ok_or by done.
  cbv [modify]. f_equal. destruct n. cbv [set]. cbn -[partial_alter insert]. f_equal.
  cbn in Hr. apply map_eq. intros k. destruct (decide (k = (ty, session, who))) as [->|Hne].
  - by rewrite !lookup_partial_alter_eq, lookup_insert_eq, Hr.
  - by rewrite !lookup_partial_alter_ne, lookup_insert_ne.
Qed.

Lemma add_report_ok r reporter sig :
  report_ok r → reporter ∉ reporters r → signed_by reporter (payload_of r) sig →
  report_ok (add_report r reporter sig).
Proof.
  intros [Hnd Hs] Hnew Hsig. split; cbn.
  - apply NoDup_app. split_and!; [done| |apply NoDup_singleton].
    by intros x Hx ->%list_elem_of_singleton.
  - apply Forall2_app; [done|]. by constructor; [|constructor].
Qed.

Lemma push_report_ok key reporter sig r n :
  reports_inv n → aggregated_misbehaviour_reports n !! key = Some r →
  reporter ∉ reporters r → signed_by reporter (payload_of r) sig →
  wp True (push_report key reporter sig) n (λ _, reports_inv) (λ _, reports_inv).
Proof.
  intros [Ha Ho] Hr Hnew Hsig. destruct (Ha key r Hr) as [Hk Hok].
  unfold wp. rewrite (push_report_run key reporter sig r n Hr).
  - destruct (_ <? _); [|by split]. split; [|exact Ho]. intros key' r'. simp_get.
    rewrite lookup_insert_Some. intros [[<- <-]|[_ Hr']]; [|by apply Ha].
    split; [exact Hk|by apply add_report_ok].
  - symmetry. apply (Forall2_length _ _ _ (ro_signed _ Hok)).
  - rewrite (signed_length _ _ _ Hsig). unfold SIGNATURE_LENGTH, MaxReportSignatureLength. lia.
Qed.

Lemma try_store_ok r n : report_ok r → reports_inv n →
  wp True (try_store_offchain r) n (λ _, reports_inv) (λ _, reports_inv).
Proof.
  intros Hr Hn. unfold try_store_offchain, store_aggregated_misbehaviour_reports.
  repeat (wp_step; try done). destruct Hn as [Ha Ho]. split; [exact Ha|]. simp_get.
  intros o' r'. intros [= <-] [= <-]. done.
Qed.

(** Steps that leave the collected and the stored reports alone. *)
Lemma reports_frame (f : Node → Node) :
  (∀ n, aggregated_misbehaviour_reports (f n) = aggregated_misbehaviour_reports n ∧
        (stored_reports <$> offchain (f n)) = (stored_reports <$> offchain n)) →
  preserves reports_inv (modify f : NM unit).
Proof.
  intros Hf. apply preserves_modify. intros n [Ha Ho]. destruct (Hf n) as [E1 E2].
  split; [by rewrite E1|]. intros o r Hoff Hr.
  assert (stored_reports <$> offchain n = Some (Present r)) as Hn.
  { rewrite <- E2, Hoff. cbn. by rewrite Hr. }
  apply fmap_Some in Hn as (o' & Ho' & E). by eapply Ho.
Qed.

Lemma send_signed_reports public m : preserves reports_inv (send_signed public m).
Proof.
  unfold send_signed. destruct (keystore_sign _ _); [|apply preserves_ret]. by apply reports_frame.
Qed.

Lemma own_key_reports : preserves reports_inv (get_authority_public_key : NM DKGId).
Proof. unfold get_authority_public_key. solve_preserves. Qed.

(** The part that both ways of adding a report share. *)
Lemma add_reporter_ok key reporter sig n (k : AggregatedMisbehaviourReports → NM unit) :
  reports_inv n → (let '(ty, session, who) := key in
    signed_by reporter (misbehaviour_payload ty session who) sig) →
  (∀ r t, report_ok r → reports_inv t → wp True (k r) t (λ _, reports_inv) (λ _, reports_inv)) →
  wp True (r ← reports_entry key;
    when (negb (bool_decide (reporter ∈ reporters r))) (push_report key reporter sig);;
    r ← reports_entry key; k r) n (λ _, reports_inv) (λ _, reports_inv).
Proof.
  intros Hn Hsig Hk. apply wp_bind.
  eapply wp_mono; [by apply reports_entry_ok| |done].
  intros r t (Ht & Hr & Hkey & Hok). apply wp_bind.
  eapply (wp_mono _ _ _ (λ _, reports_inv) _ (λ _, reports_inv)); [|intros u t' Ht'|done].
  - apply wp_when; [|done]. intros Hnew%negb_true_iff%bool_decide_eq_false.
    eapply push_report_ok; [done|done|done|].
    destruct key as [[ty session] who]. unfold payload_of. injection Hkey as -> -> ->. done.
  - apply wp_bind. eapply wp_mono; [by apply reports_entry_ok| |done].
    intros r' t'' (Ht'' & _ & _ & Hok'). by apply Hk.
Qed.

Lemma handle_misbehaviour_report_ok m : preserves reports_inv (handle_misbehaviour_report m).
Proof.
  intros n Hn. unfold handle_misbehaviour_report.
  wp_step. wp_step. wp_step. wp_step; [|done]. wp_step. wp_step; [|done].
  destruct (payload m) as [| | | |r]; try by wp_step.
  case_bool_decide; [|by wp_step]. wp_step. wp_step. wp_step.
  apply wp_lift_result; [|done..]. intros who [_ Hs]%authenticate_Ok.
  apply (add_reporter_ok (_, _, _)); [done|done|]. intros r' t Hr' Ht. apply wp_bind.
  eapply wp_mono; [by apply try_store_ok| |done]. intros b t' Ht'. by wp_step.
Qed.

Lemma gossip_misbehaviour_report_ok m : preserves reports_inv (gossip_misbehaviour_report m).
Proof.
  intros n Hn. unfold gossip_misbehaviour_report. case_bool_decide; [by wp_step|].
  apply wp_bind. eapply wp_mono; [by apply own_key_reports| |done]. intros public n1 Hn1.
  destruct (keystore_sign public _) as [sig|] eqn:Hsig; [|by wp_step].
  apply keystore_sign_signed in Hsig. apply wp_bind.
  eapply wp_mono; [by apply send_signed_reports| |done]. intros u n2 Hn2.
  set (key := (_, _, _)). apply wp_bind.
  eapply wp_mono; [by apply (reports_entry_ok key)| |done]. intros r n3 (Hn3 & Hr & Hk & Hok).
  case_bool_decide as Hin; [by wp_step|]. apply wp_bind.
  eapply wp_mono; [eapply push_report_ok; [done|done|done|]| |done].
  { unfold payload_of. injection Hk as -> -> ->. done. }
  intros v n4 Hn4. apply wp_bind.
  eapply wp_mono; [by apply (reports_entry_ok key)| |done]. intros r' n5 (Hn5 & _ & _ & Hok').
  apply wp_bind. eapply wp_mono; [by apply try_store_ok| |done]. intros b n6 Hn6.
  apply wp_when; [|done]. intros _. wp_step. wp_step. wp_step.
  destruct Hn6 as [Ha Ho]. split; [|exact Ho]. intros key' r''. simp_get.
  intros [Hr'' _]%map_lookup_filter_Some. apply lookup_delete_Some in Hr'' as [_ Hr'']. by apply Ha.
Qed.

Lemma handle_dkg_error_ok e : preserves reports_inv (handle_dkg_error e).
Proof.
  unfold handle_dkg_error. destruct (match e with
    | EKeygenMisbehaviour _ _ => _ | _ => _ end) as [offenders session].
  apply preserves_for_each. intros offender. unfold handle_dkg_report, ignore.
  pose proof gossip_misbehaviour_report_ok. destruct e; solve_preserves.
Qed.
End reports.

(** ** The pallet accepts what a node stored *)

Section accepted.
Context `{Crypto}.
Implicit Types (r : AggregatedMisbehaviourReports) (set : list DKGId).

Lemma verifying_keys_elem x set :
  x ∈ set → length (dkg_bytes x) = 33%nat → dkg_bytes x ≠ replicate 33 0 →
  dkg_bytes x ∈ Dkg.verifying_keys set.
Proof.
  intros Hx Hl Hz. unfold Dkg.verifying_keys. apply list_elem_of_filter. split; [done|].
  apply list_elem_of_fmap. exists x. split; [|done]. unfold to_slice_33, ECDSA_KEY_LENGTH.
  by rewrite Hl.
Qed.

Lemma process_reports_all r set inx sigs :
  report_ok r → sigs = drop inx (report_signatures r) →
  (∀ x, x ∈ reporters r → dkg_bytes x ∈ Dkg.verifying_keys set) →
  Dkg.process_reports r set inx sigs (take inx (reporters r)) = Ok (reporters r).
Proof.
  intros [Hnd Hs] Hsigs Hin. revert inx Hsigs. induction sigs as [|sig sigs IH]; intros inx Hsigs.
  { cbn. rewrite take_ge; [done|]. rewrite (Forall2_length _ _ _ Hs).
    apply (f_equal length) in Hsigs. rewrite length_drop in Hsigs. cbn in Hsigs. lia. }
  assert (report_signatures r !! inx = Some sig) as Hsig.
  { rewrite <- (Nat.add_0_r inx), <- lookup_drop, <- Hsigs. done. }
  destruct (Forall2_lookup_r _ _ _ _ _ Hs Hsig) as (who & Hwho & k & Hk & Hd).
  cbn. destruct (verify_signer_from_set_ecdsa _ _ _) as [o b] eqn:Hv.
  apply verify_signer_cases in Hv as [Hb _].
  assert (b = true) as ->.
  { apply Hb. exists k, (dkg_bytes who). split_and!; [done| |done].
    by apply Hin, (list_elem_of_lookup_2 _ inx). }
  rewrite Hwho. rewrite decide_False.
  - rewrite <- take_S_r by done. apply IH. rewrite (drop_S _ sig inx) in Hsigs by done.
    by injection Hsigs.
  - intros Hold. apply elem_of_take in Hold as (k' & Hk' & Hlt).
    pose proof (NoDup_lookup _ _ _ _ Hnd Hwho Hk'). lia.
Qed.

(** The pallet counts every reporter of a report with distinct reporters and valid
    signatures, provided they are authorities of the set it verifies against; and it
    does not panic. *)
Lemma report_accepted r set :
  report_ok r → (∀ x, x ∈ reporters r → x ∈ set ∧ length (dkg_bytes x) = 33%nat ∧
    dkg_bytes x ≠ replicate 33 0) →
  Dkg.process_misbehaviour_reports r set = Ok (reporters r).
Proof.
  intros Hr Hin. apply (process_reports_all r set 0 (report_signatures r)); [done|done|].
  intros x Hx. destruct (Hin x Hx) as (H1 & H2 & H3). by apply verifying_keys_elem.
Qed.

(** Whatever set the pallet verifies against, it counts some of the reporters, among them
    those with a key in the set, and does not panic. *)
Lemma process_reports_count r set inx sigs acc :
  report_ok r → sigs = drop inx (report_signatures r) → acc `sublist_of` take inx (reporters r) →
  (∀ x, x ∈ take inx (reporters r) → dkg_bytes x ∈ Dkg.verifying_keys set → x ∈ acc) →
  ∃ vs, Dkg.process_reports r set inx sigs acc = Ok vs ∧ vs `sublist_of` reporters r ∧
    ∀ x, x ∈ reporters r → dkg_bytes x ∈ Dkg.verifying_keys set → x ∈ vs.
Proof.
  intros [Hnd Hs]. revert inx acc. induction sigs as [|sig sigs IH]; intros inx acc Hsigs Hsub Hacc.
  { exists acc. rewrite take_ge in Hsub, Hacc; [done|rewrite (Forall2_length _ _ _ Hs);
      apply (f_equal length) in Hsigs; rewrite length_drop in Hsigs; cbn in Hsigs; lia..]. }
  assert (report_signatures r !! inx = Some sig) as Hsig.
  { rewrite <- (Nat.add_0_r inx), <- lookup_drop, <- Hsigs. done. }
  destruct (Forall2_lookup_r _ _ _ _ _ Hs Hsig) as (who & Hwho & k & Hk & Hd).
  assert (sigs = drop (S inx) (report_signatures r)) as Hrest.
  { rewrite (drop_S _ sig inx) in Hsigs by done. by injection Hsigs. }
  assert (who ∉ acc) as Hnew.
  { intros Hold%(sublist_subseteq _ _ Hsub). apply elem_of_take in Hold as (k' & Hk' & Hlt).
    pose proof (NoDup_lookup _ _ _ _ Hnd Hwho Hk'). lia. }
  cbn. destruct (verify_signer_from_set_ecdsa _ _ _) as [o b] eqn:Hv.
  apply verify_signer_cases in Hv as [Hb _].
  pose proof (take_S_r (reporters r) inx who Hwho) as Ht.
  destruct b.
  - rewrite Hwho, decide_False by done. apply IH; [done|rewrite Ht; by apply sublist_app|].
    rewrite Ht. intros x [Hx|Hx]%elem_of_app Hin; apply elem_of_app; auto.
  - apply IH; [done|rewrite Ht; by apply sublist_inserts_r|]. rewrite Ht.
    intros x [Hx|Hx%list_elem_of_singleton]%elem_of_app Hin; [by apply Hacc|subst x].
    assert (false = true); [|done]. apply Hb. exists k, (dkg_bytes who). done.
Qed.
End accepted.

(** ** Public keys *)

Section keys.
Context `{Client, Keystore, Crypto, MessageCodec, SubmissionDelay}.
Implicit Types (n : Node) (k : PublicKeyMessage) (header : Header).

(** A key with its signature, once. *)
Definition collect (e : bytes * bytes) (l : AggregatedPublicKeys) : AggregatedPublicKeys :=
  if bool_decide (e ∈ l) then l else l ++ [e].

Definition own_session n k : bool :=
  bool_decide (latest_executed_session_id (keygen_manager n) = Some (pk_session_id k)).

Definition collected n k : AggregatedPublicKeys :=
  collect (pk_pub_key k, pk_signature k) (default [] (aggregated_public_keys n !! pk_session_id k)).

(** The keys that the worker of the pallet will submit. *)
Definition keys_for (genesis : bool) (o : Offchain) : OffchainKeys :=
  if genesis then genesis_keys o else next_keys o.

Lemma broadcast_run m k n header sets :
  payload m = PPublicKeyBroadcast k → latest_header n = Some header →
  validator_set header = Some sets →
  handle_public_key_broadcast m n =
    match authenticate_msg_origin (own_session n k)
      (as_authorities sets.1, as_authorities sets.2) (pk_pub_key k) (pk_signature k) with
    | Ok _ =>
        when (get_next_signature_threshold header <? len (collected n k))
          (store_aggregated_public_keys (pk_session_id k =? 0) (pk_session_id k) (number header))
          (n <| aggregated_public_keys ::= insert (pk_session_id k) (collected n k) |>)
    | Err e => Fail e n
    | Panics => Panic
    end.
Proof.
  intros Hm Hh Hv. unfold handle_public_key_broadcast.
  rewrite run_gets, Hh, run_ok_or, Hv, run_ok_or, Hm, run_gets, run_lift.
  unfold compose at 1. fold (own_session n k).
  destruct (authenticate_msg_origin _ _ _ _); [|done..]. rewrite run_modify, run_gets.
  assert (partial_alter (λ o : option AggregatedPublicKeys, Some (
      if bool_decide ((pk_pub_key k, pk_signature k) ∈ default [] o) then default [] o
      else default [] o ++ [(pk_pub_key k, pk_signature k)])) (pk_session_id k)
      (aggregated_public_keys n) =
    <[pk_session_id k := collected n k]> (aggregated_public_keys n)) as E.
  { apply map_eq. intros i. destruct (decide (i = pk_session_id k)) as [->|].
    - by rewrite lookup_partial_alter_eq, lookup_insert_eq.
    - by rewrite lookup_partial_alter_ne, lookup_insert_ne. }
  simp_get. rewrite E, lookup_insert_eq. change (default ?x (Some ?y)) with y.
  f_equal. destruct n. cbv [set]. cbn -[partial_alter insert] in *. by rewrite E.
Qed.

(** An authenticated broadcast adds its key and signature once.  As soon as there are
    more than the threshold, the collected signatures are left for the worker of the
    pallet, to be submitted within the delay, and the sessions up to this one are
    forgotten; until then they are kept. *)
Theorem public_key_broadcast_spec `{!SubmissionDelayLaws} m k n header sets who o :
  payload m = PPublicKeyBroadcast k → latest_header n = Some header →
  validator_set header = Some sets → number header < 2 ^ 32 - 3 → 0 <= number header →
  offchain n = Some o →
  authenticate_msg_origin (own_session n k) (as_authorities sets.1, as_authorities sets.2)
    (pk_pub_key k) (pk_signature k) = Ok who →
  ∃ n', handle_public_key_broadcast m n = Ret tt n' ∧
    if get_next_signature_threshold header <? len (collected n k) then
      ∃ o' at_, offchain n' = Some o' ∧
        keys_for (pk_session_id k =? 0) o' = mkOffchainKeys (Present (collected n k)) (Present at_) ∧
        number header <= at_ <= number header + MAX_SUBMISSION_DELAY ∧
        ∀ s, aggregated_public_keys n' !! s =
          if bool_decide (pk_session_id k < s) then aggregated_public_keys n !! s else None
    else offchain n' = offchain n ∧
      aggregated_public_keys n' =
        <[pk_session_id k := collected n k]> (aggregated_public_keys n).
Proof.
  intros Hm Hh Hv Hmax Hmin Ho Ha. rewrite (broadcast_run m k n header sets Hm Hh Hv), Ha.
  destruct (_ <? _) eqn:Hlt; cbn [when]; [|by eexists].
  set (n1 := n <| aggregated_public_keys ::= _ |>).
  assert (∀ s, filter (λ e, pk_session_id k < e.1) (aggregated_public_keys n1) !! s =
    if bool_decide (pk_session_id k < s) then aggregated_public_keys n !! s else None) as Hfil.
  { intros s. rewrite map_lookup_filter. unfold n1. simp_get.
    destruct (decide (pk_session_id k < s)) as [Hs|Hs].
    - rewrite bool_decide_true, lookup_insert_ne by lia.
      destruct (_ !! s); [|done]. cbn. by rewrite option_guard_True.
    - rewrite bool_decide_false by done. destruct (<[_ := _]> _ !! s); [|done]. cbn.
      by rewrite option_guard_False. }
  pose proof (submission_delay_range (number header)) as Hd.
  unfold store_aggregated_public_keys. change (offchain n1) with (offchain n).
  assert (aggregated_public_keys n1 !! pk_session_id k = Some (collected n k)) as Hk
    by apply lookup_insert_eq.
  rewrite run_gets. change (offchain n1) with (offchain n).
  rewrite Ho, run_ok_or, run_gets, Hk, run_ok_or.
  assert (wrap 32 (number header + submission_delay (number header)) =
    number header + submission_delay (number header)) as Hw.
  { apply wrap_small. unfold in_width, MAX_SUBMISSION_DELAY in *. lia. }
  destruct (pk_session_id k =? 0); rewrite run_modify; cbv [modify]; eexists;
    (split; [done|]); eexists _, (number header + submission_delay (number header));
    (split; [done|]); (split_and!; [|lia|lia|exact Hfil]);
    unfold perform_storing_of_aggregated_public_keys, generate_delayed_submit_at;
    by rewrite Hw.
Qed.

(** A node that has itself started the key generation of a session refuses a broadcast
    of its key unless a current authority signed it, although the key is generated by
    the authorities of the queued set. *)
Theorem own_session_key_refused m k n header sets :
  payload m = PPublicKeyBroadcast k → latest_header n = Some header →
  validator_set header = Some sets →
  latest_executed_session_id (keygen_manager n) = Some (pk_session_id k) →
  (∀ x, x ∈ as_authorities sets.1 → length (dkg_bytes x) = 33%nat) →
  (∀ x, x ∈ as_authorities sets.1 → ¬ signed_by x (pk_pub_key k) (pk_signature k)) →
  handle_public_key_broadcast m n = Fail EGenericError n.
Proof.
  intros Hm Hh Hv Hown Hlen Hno. rewrite (broadcast_run m k n header sets Hm Hh Hv).
  unfold own_session. rewrite bool_decide_true by done.
  unfold authenticate_msg_origin, signer_keys. cbn [fst snd].
  assert (forallb (λ x, bool_decide (is_Some (to_slice_33 (dkg_bytes x))))
    (as_authorities sets.1) = true) as ->.
  { apply forallb_forall. intros x Hx%list_elem_of_In. unfold to_slice_33, ECDSA_KEY_LENGTH.
    by rewrite (Hlen x Hx). }
  cbn. destruct (verify_signer_from_set_ecdsa _ _ _) as [o b] eqn:Hs.
  apply verify_signer_cases in Hs as [Hb _]. destruct b; [|done].
  destruct (proj1 Hb eq_refl) as (key & x & Hr & Hx & Hd).
  apply list_elem_of_fmap in Hx as (y & -> & Hy). destruct (Hno y Hy). by exists key.
Qed.

(** The signatures are counted, not the signers: with a threshold of one, two
    signatures over a key are enough, whoever made them. *)
Theorem two_signatures_suffice m1 m2 k1 k2 n header sets o who :
  payload m1 = PPublicKeyBroadcast k1 → payload m2 = PPublicKeyBroadcast k2 →
  pk_session_id k1 = pk_session_id k2 → pk_pub_key k1 = pk_pub_key k2 →
  pk_signature k1 ≠ pk_signature k2 → pk_session_id k1 ≠ 0 →
  latest_header n = Some header → validator_set header = Some sets →
  get_next_signature_threshold header = 1 → offchain n = Some o →
  aggregated_public_keys n !! pk_session_id k1 = None →
  (∀ k, k = k1 ∨ k = k2 → authenticate_msg_origin (own_session n k)
    (as_authorities sets.1, as_authorities sets.2) (pk_pub_key k) (pk_signature k) = Ok who) →
  ∃ n1 n2 o', handle_public_key_broadcast m1 n = Ret tt n1 ∧
    handle_public_key_broadcast m2 n1 = Ret tt n2 ∧ offchain n2 = Some o' ∧
    agg_keys (next_keys o') =
      Present [(pk_pub_key k1, pk_signature k1); (pk_pub_key k1, pk_signature k2)].
Proof.
  intros Hm1 Hm2 Hs Hp Hne H0' Hh Hv Ht Ho Hn Ha.
  assert (collected n k1 = [(pk_pub_key k1, pk_signature k1)]) as Hc1.
  { unfold collected. by rewrite Hn. }
  set (n1 := n <| aggregated_public_keys ::= insert (pk_session_id k1) (collected n k1) |>).
  assert (collected n1 k2 =
    [(pk_pub_key k1, pk_signature k1); (pk_pub_key k1, pk_signature k2)]) as Hc2.
  { unfold collected, n1. simp_get. rewrite Hs, lookup_insert_eq, Hc1. cbn. unfold collect.
    rewrite bool_decide_false, <- Hp; [done|]. rewrite list_elem_of_singleton. congruence. }
  assert (own_session n1 k2 = own_session n k2) as Eo by done.
  exists n1. eexists _, _. rewrite (broadcast_run m1 k1 n header sets Hm1 Hh Hv), Ha by tauto.
  rewrite Hc1, Ht. change (1 <? len [_]) with false. cbn [when].
  split; [by unfold n1; rewrite Hc1|]. rewrite (broadcast_run m2 k2 n1 header sets Hm2 Hh Hv), Eo, Ha by tauto.
  rewrite Hc2, Ht. change (1 <? len [_; _]) with true. cbn [when].
  unfold store_aggregated_public_keys. rewrite run_gets. simp_get. change (offchain n1) with (offchain n).
  rewrite Ho, run_ok_or, run_gets. simp_get. rewrite lookup_insert_eq, run_ok_or.
  rewrite <- Hs, (proj2 (Z.eqb_neq _ _) H0'), run_modify. cbv [modify].
  split; [reflexivity|]. split; reflexivity.
Qed.
End keys.

(** ** Signatures *)

Section votes.
Context `{Keystore, Crypto, SubmissionDelay, WebbProposals}.
Implicit Types (n : Node) (r : VoteResult).

(** What was signed is what the pallet verifies. *)
Lemma signed_batch_of_data r :
  signed_batch_data (signed_batch_of r) = unsigned_batch_data (vr_unsigned_proposal_batch r).
Proof.
  unfold signed_batch_data, unsigned_batch_data, signed_batch_of. cbn.
  destruct (ub_proposals _) as [|p [|q l]]; [done..|]. cbn. f_equal. f_equal. f_equal.
  rewrite <- list_fmap_compose. apply list_fmap_ext. done.
Qed.

Lemma process_vote_result_run r votes n public keys header o :
  ecdsa_public_keys = Some keys → authority_id keys = Some public →
  public ∈ as_authorities (current_validator_set n) → latest_header n = Some header →
  offchain n = Some o → bk_len (vr_batch_key r) = 1 → votes !! vr_batch_key r = None →
  process_vote_result votes r n = Ret votes (n <| offchain := Some
    (o <| stored_proposals := Present [signed_batch_of r] |>) |>).
Proof.
  intros Hks Hpub Hin Hh Ho Hlen Hv. unfold process_vote_result. rewrite Hv, Hlen. cbn [default app].
  change (len [signed_batch_of r] =? 1) with true. cbv iota.
  unfold get_authority_public_key. rewrite run_bind_bind, Hks, run_expect, Hpub, run_expect.
  unfold save_signed_proposals_in_storage.
  rewrite (bool_decide_false ([signed_batch_of r] = [])) by done.
  rewrite run_bind_bind, run_gets.
  destruct (find_index (as_authorities (current_validator_set n)) public) as [i|] eqn:Hi;
    [|by apply find_index_None in Hi].
  rewrite run_bind_bind, run_gets, Hh, run_bind_bind, run_gets, Ho, run_modify.
  cbv [mret M_ret]. by rewrite delete_id.
Qed.

(** The signature of a batch is left for the worker of the pallet, under the identifier
    of the batch and over the data that the pallet verifies.  Whatever was stored before
    is replaced, submitted or not. *)
Theorem vote_result_stored r votes n public keys header o :
  ecdsa_public_keys = Some keys → authority_id keys = Some public →
  public ∈ as_authorities (current_validator_set n) → latest_header n = Some header →
  offchain n = Some o → bk_len (vr_batch_key r) = 1 → votes !! vr_batch_key r = None →
  ∃ n' o' b, process_vote_result votes r n = Ret votes n' ∧ offchain n' = Some o' ∧
    stored_proposals o' = Present [b] ∧
    sb_batch_id b = ub_batch_id (vr_unsigned_proposal_batch r) ∧
    sb_signature b = vr_signature r ∧
    signed_batch_data b = unsigned_batch_data (vr_unsigned_proposal_batch r) ∧
    Forall (λ p, is_signed p = true) (sb_proposals b).
Proof.
  intros Hks Hpub Hin Hh Ho Hlen Hv. eexists _, _, (signed_batch_of r).
  split; [by eapply process_vote_result_run|]. split; [reflexivity|].
  split_and!; [done|done|done|apply signed_batch_of_data|].
    apply Forall_forall. by intros p (q & -> & _)%list_elem_of_fmap.
Qed.
End votes.
