(* ===== verification/SigningManager.v ===== *)
(** * The signing manager

    src/dkg-gadget/src/signing_manager/mod.rs: on every finalized block the manager
    chooses, for each unsigned batch that no job works on, the next signing set of
    the batch, and pushes a job if the node is a member.  Which sets there are is
    decided by [itertools] and [rand], the parameter [SigningSets]: the combinations
    of a size, and the choice of at most 256 of them with a generator seeded by the
    public key and the batch. *)

From S2P Require Import Prelude.
From S2P Require Import Frame.
From S2P Require Import Primitives.
From S2P Require Import GadgetTypes.
From S2P Require Import Remote.
From S2P Require Import WorkManager.
From S2P Require Import Client.
From S2P Require Import Node.
From S2P Require Import Reports.

Class SigningSets := {
  (** [Itertools::combinations]. *)
  combinations : nat → list Z → list (list Z);
  (** [IteratorRandom::choose_multiple] with a generator seeded by the first argument. *)
  choose_multiple : bytes → nat → list (list KeygenPartyId) → list (list KeygenPartyId) }.

(** The combinations are the sublists of the size, each once; as many elements as
    asked for are chosen, and all of them where there are no more. *)
Class SigningSetsLaws `{SigningSets} : Prop := {
  combinations_elem k l s : s ∈ combinations k l ↔ s `sublist_of` l ∧ length s = k;
  combinations_nodup k l : NoDup l → NoDup (combinations k l);
  choose_multiple_all seed n l : (length l <= n)%nat → choose_multiple seed n l ≡ₚ l }.

(** [Iterator::max]. *)
Definition maximum (l : list Z) : option Z :=
  foldr (λ x o, Some (match o with Some y => Z.max x y | None => x end)) None l.

Definition signing_config : WorkConfig :=
  mkWorkConfig SigningConstants.MAX_RUNNING_TASKS SigningConstants.MAX_ENQUEUED_TASKS
    (Interval 500).

Inductive SigningResult :=
| SigningSuccess (unsigned_proposal_hash : bytes)
| SigningFailure (unsigned_proposal_hash : bytes) (ssid : Z).

Module Signer.
Section manager.
Context `{JobOrder, Client, Keystore, Crypto, MessageCodec, SubmissionDelay, WebbProposals,
  SigningSets}.
Implicit Types (header : Header) (t : SigningSetHistoryTracker).

(** ** Signing sets *)

Definition MAX_SETS : nat := 256.

(** Positions are u16 and count from one. *)
Definition party_numbers (n : nat) : list Z :=
  (λ i, wrap 16 (wrap 16 (Z.of_nat i) + 1)) <$> seq 0 n.

Definition generate_signing_sets (dkg_pub_key unsigned_proposal_bytes : bytes)
    (best : list (KeygenPartyId * DKGId)) (threshold : Z) : list ProposedSigningSet :=
  let seed := keccak_256 (dkg_pub_key ++ unsigned_proposal_bytes) in
  let signing_sets : list (list KeygenPartyId) := choose_multiple seed MAX_SETS
    ((λ s : list Z, mkKeygenPartyId <$> s) <$>
      take MAX_SETS (combinations (Z.to_nat threshold + 1) (party_numbers (length best)))) in
  imap (λ ssid s, mkProposedSigningSet (wrap 16 (Z.of_nat ssid)) None s) signing_sets.

(** When an attempt with a set of the batch was last started here. *)
Definition latest_attempt t : option Z := maximum (omap locally_started_at (sets t)).

Definition still_waiting t (now : Z) : bool :=
  match latest_attempt t with
  | Some init_time => now <? init_time + SIGN_TIMEOUT
  | None => false
  end.

Definition next_ssid t : Z :=
  match maximum (elements (ssids_attempted t)) with
  | Some m => wrap 16 (m + 1)
  | None => 0
  end.

(** The next attempt: sets are generated for the first one, after the last one it
    starts over.  The tracker afterwards and the number of the attempt. *)
Definition next_attempt (signing_sets : list ProposedSigningSet) t
    : SigningSetHistoryTracker * Z :=
  let ssid := next_ssid t in
  let t := if ssid =? 0 then t <| sets := signing_sets |> else t in
  let '(t, ssid) :=
    if len (sets t) <=? ssid then (t <| ssids_attempted := ∅ |>, 0) else (t, ssid) in
  (t <| ssids_attempted ::= λ X, {[ ssid ]} ∪ X |>, ssid).

(** ** Protocols *)

(** [initialize_signing_protocol] and [setup_signing], which asserts the size of the set. *)
Definition initialize_signing_protocol (p : SigningParams) : NM Handle :=
  h ← generate_async_proto_params on_signing_work (sp_best_authorities p) (sp_session_id p)
    (Signing (sp_unsigned_proposal_hash p)) (sp_associated_block_id p) (sp_ssid p);
  assert_that (wrap 16 (sp_threshold p + 1) =? wrap 16 (len (sp_signing_set p)));;
  upd! protocols ::= insert (remote_id h) (SigningProtocol p);;
  mret h.

(** ** Operations *)

Definition keygen_lock : NM unit := upd! signing_manager ::= set lock (λ _, true).

Definition keygen_unlock : NM unit := upd! signing_manager ::= set lock (λ _, false).

Definition clear_enqueued_proposal_tasks : NM unit := on_signing_work Work.clear_enqueued_tasks.

Definition deliver_message (m : SignedDKGMessage) : NM unit :=
  message_task_hash ← expect (unsigned_proposal_hash (payload (msg m)));
  on_signing_work (Work.deliver_message m message_task_hash).

Definition set_tracker (hash : bytes) t : NM unit :=
  upd! signing_manager ::= set ssid_history (insert hash t).

Definition remove_tracker (hash : bytes) : NM unit :=
  upd! signing_manager ::= set ssid_history (delete hash).

Definition tracker_of (n : Node) (hash : bytes) : SigningSetHistoryTracker :=
  default tracker_default (ssid_history (signing_manager n) !! hash).

(** Oldest first; batches with a job are left out. *)
Definition get_unsigned_proposals header
    : NM (list StoredUnsignedProposalBatch * list StoredUnsignedProposalBatch) :=
  all ← ok_or (get_unsigned_proposal_batches header) EGenericError;
  let all := sort_by (λ a b, ub_timestamp a <=? ub_timestamp b) all in
  work ← gets (signing_work ∘ signing_manager);
  mret (filter (λ b, match unsigned_batch_hash b with
                     | Some h => Work.job_exists work h = false
                     | None => False
                     end) all, all).

(** What the loop over the batches shares. *)
Record Round := mkRound {
  round_header : Header;
  round_session_id : Z;
  round_dkg_pub_key : bytes;
  round_party_i : KeygenPartyId;
  round_best_authorities : list (KeygenPartyId * DKGId);
  round_threshold : Z;
  round_all : list StoredUnsignedProposalBatch }.

(** One batch; whether the loop goes on. *)
Definition process_batch (r : Round) (batch : StoredUnsignedProposalBatch) : NM bool :=
  let now := number (round_header r) in
  first ← expect (head (ub_proposals batch));
  work ← gets (signing_work ∘ signing_manager);
  if negb (Work.can_submit_more_tasks signing_config work) then mret false else
  let unsigned_proposal_bytes := encode_batch batch in
  hash ← expect (unsigned_batch_hash batch);
  if negb (existsb (λ p, bool_decide (unsigned_batch_hash p = Some hash)) (round_all r))
  then remove_tracker hash;; mret true else
  t ← gets (λ n, tracker_of n hash);
  set_tracker hash t;;
  if still_waiting t now then mret true else
  let '(t, ssid) := next_attempt (generate_signing_sets (round_dkg_pub_key r)
    unsigned_proposal_bytes (round_best_authorities r) (round_threshold r)) t in
  set_tracker hash t;;
  match sets t !! Z.to_nat ssid with
  | None => mret true
  | Some s =>
      set_tracker hash (t <| sets ::= alter (set locally_started_at (λ _, Some now))
        (Z.to_nat ssid) |>);;
      if negb (bool_decide (round_party_i r ∈ signing_set s)) then mret true else
      local_key ← gets (λ n, (fetch_local_keys n (round_session_id r)).1);
      result ← catch (initialize_signing_protocol {|
        sp_best_authorities := round_best_authorities r; sp_party_i := round_party_i r;
        sp_session_id := round_session_id r; sp_threshold := round_threshold r;
        sp_unsigned_proposal_hash := hash; sp_unsigned_proposal_batch := batch;
        sp_signing_set := signing_set s; sp_associated_block_id := now; sp_ssid := ssid;
        sp_local_key := local_key |});
      match result with
      | inl h =>
          let force_start := bool_decide (up_typed_chain_id first = ChainNone) in
          on_signing_work (Work.push_task signing_config hash force_start h);;
          mret true
      | inr err => handle_dkg_error err;; throw err
      end
  end.

Definition on_block_finalized header : NM unit :=
  locked ← gets (lock ∘ signing_manager);
  if locked : bool then mret tt else
  let '(session, dkg_pub_key) := get_dkg_pub_key header in
  public ← get_authority_public_key;
  match get_party_index public header with
  | None => mret tt
  | Some party_index =>
      party_i ← lift_result id (keygen_party_id party_index);
      proposals ← get_unsigned_proposals header;
      if bool_decide (proposals.1 = []) then mret tt else
      for_while proposals.1 (process_batch {|
        round_header := header; round_session_id := session;
        round_dkg_pub_key := dkg_pub_key; round_party_i := party_i;
        round_best_authorities := keygen_parties (get_best_authorities header);
        round_threshold := get_signature_threshold header; round_all := proposals.2 |})
  end.

Definition update_local_signing_set_state (u : SigningResult) : NM unit :=
  match u with
  | SigningSuccess hash => remove_tracker hash
  | SigningFailure hash ssid =>
      t ← gets (λ n, tracker_of n hash);
      set_tracker hash (t <| ssids_attempted ::= λ X, {[ ssid ]} ∪ X |>)
  end.

(** The future that is pushed with the handle, when the protocol has ended. *)
Definition signing_task_done (p : SigningParams) (res : result DKGError unit) : NM unit :=
  match res with
  | Ok _ => update_local_signing_set_state (SigningSuccess (sp_unsigned_proposal_hash p))
  | Err err =>
      update_local_signing_set_state (SigningFailure (sp_unsigned_proposal_hash p) (sp_ssid p));;
      upd! errors ::= (λ l, l ++ [err]);;
      throw err
  | Panics => panic
  end.

(** The outcome of [setup_signing] when the stop signal comes first. *)
Definition signing_stopped (h : Handle) (r : Remote) (signal : option ShutdownReason)
    : result DKGError unit :=
  match signal with
  | Some DropCode | None => Ok tt
  | Some Stalled => Err (ESignMisbehaviour
      (bad_actors_to_authorities (blamed_parties r) (index_to_authority_mapping h)) (session_id h))
  end.
End manager.
End Signer.
