(* ===== verification/SigningManagerSpec.v ===== *)
(** * Theorems about the signing manager

    The signing sets of a batch are sets of threshold + 1 parties, at most 256 and
    all different; the attempts at a batch go through all of them in turn; nodes
    that have seen the same attempts choose the same set, and exactly its members
    start a job.  Two flaws are proved as well: with many parties every set contains
    the first party, and a threshold that changes between two attempts at a batch
    makes the members of the stale set panic. *)

From S2P Require Import Prelude.
From S2P Require Import Frame.
From S2P Require Import Primitives.
From S2P Require Import GadgetTypes.
From S2P Require Import Remote.
From S2P Require Import WorkManager.
From S2P Require Import WorkManagerSpec.
From S2P Require Import Client.
From S2P Require Import Node.
From S2P Require Import Reports.
From S2P Require Import SigningManager.
Import Signer.

(** ** Signing sets *)

Section sets.
Context `{Crypto, SigningSets, !SigningSetsLaws}.

Lemma party_numbers_seqZ n : (n < 2 ^ 16)%nat → party_numbers n = seqZ 1 (Z.of_nat n).
Proof.
  intros Hn. unfold party_numbers, seqZ. rewrite Nat2Z.id.
  apply list_fmap_ext. intros i k [-> Hi]%lookup_seq.
  change (2 ^ 16)%nat with (Z.to_nat 65536) in Hn. rewrite wrap16_succ by lia. lia.
Qed.

Lemma party_numbers_spec n : (n < 2 ^ 16)%nat →
  NoDup (party_numbers n) ∧ ∀ i, i ∈ party_numbers n ↔ 1 <= i <= Z.of_nat n.
Proof.
  intros Hn. rewrite party_numbers_seqZ by done. split; [apply NoDup_seqZ|].
  intros i. rewrite elem_of_seqZ. lia.
Qed.

Lemma keygen_ids_inj (s s' : list Z) : mkKeygenPartyId <$> s = mkKeygenPartyId <$> s' → s = s'.
Proof.
  intros Hs. apply (f_equal (fmap keygen_id)) in Hs. rewrite <- !list_fmap_compose in Hs.
  by rewrite !list_fmap_id in Hs.
Qed.

(** The sets of [generate_signing_sets], as a permutation of the first combinations. *)
Lemma signing_sets_perm pk data best t :
  signing_set <$> generate_signing_sets pk data best t ≡ₚ
    (λ s : list Z, mkKeygenPartyId <$> s) <$>
      take MAX_SETS (combinations (Z.to_nat t + 1) (party_numbers (length best))).
Proof.
  unfold generate_signing_sets.
  assert (∀ (f : nat → Z) (l : list (list KeygenPartyId)),
    signing_set <$> imap (λ i s, mkProposedSigningSet (f i) None s) l = l) as E.
  { intros f l'. rewrite fmap_imap. cbn. clear. revert f.
    induction l' as [|s l' IH]; intros f; [done|]. rewrite imap_cons. cbn. f_equal.
    apply (IH (f ∘ S)). }
  rewrite (E (λ i, wrap 16 (Z.of_nat i))). apply choose_multiple_all. rewrite length_fmap, length_take. lia.
Qed.

(** At most 256 signing sets are generated; they are pairwise different, numbered by
    their position, not started, and each consists of threshold + 1 different parties
    among the best authorities, in ascending order.  Unless there are more than 256,
    every such set is among them. *)
Theorem generate_signing_sets_spec pk data best t :
  0 <= t → (length best < 2 ^ 16)%nat →
  let l := generate_signing_sets pk data best t in
  (length l <= 256)%nat ∧ NoDup (signing_set <$> l) ∧
  (∀ i p, l !! i = Some p → ps_ssid p = Z.of_nat i ∧ locally_started_at p = None) ∧
  (∀ p, p ∈ l → len (signing_set p) = t + 1 ∧ NoDup (signing_set p) ∧
     StronglySorted (λ i j, keygen_id i < keygen_id j) (signing_set p) ∧
     ∀ i, i ∈ signing_set p → 1 <= keygen_id i <= len best) ∧
  ((length l < 256)%nat → ∀ s, s `sublist_of` seqZ 1 (len best) → len s = t + 1 →
     (mkKeygenPartyId <$> s) ∈ (signing_set <$> l)).
Proof.
  intros Ht Hn l. destruct (party_numbers_spec _ Hn) as [Hnd Hin].
  pose proof (signing_sets_perm pk data best t) as Hp. fold l in Hp.
  set (cs := combinations (Z.to_nat t + 1) (party_numbers (length best))) in *.
  assert (length l = length (take MAX_SETS cs)) as Hlen.
  { apply Permutation_length in Hp. by rewrite !length_fmap in Hp. }
  rewrite length_take in Hlen. unfold MAX_SETS in *.
  split_and!.
  - lia.
  - rewrite Hp. apply (NoDup_fmap_2_strong _ (take 256 cs)).
    + intros x y _ _. apply keygen_ids_inj.
    + eapply sublist_NoDup, sublist_take. by apply combinations_nodup.
  - intros i p Hi. assert (i < length l)%nat as Hlt by (by eapply lookup_lt_Some).
    unfold l, generate_signing_sets in Hi. rewrite list_lookup_imap in Hi.
    apply fmap_Some in Hi as (s & _ & ->). cbn. split; [|done].
    rewrite wrap_small; [done|]. unfold in_width. lia.
  - intros p Hpl. apply (list_elem_of_fmap_2 signing_set) in Hpl. rewrite Hp in Hpl.
    apply list_elem_of_fmap in Hpl as (s & -> & Hs).
    assert (s ∈ cs) as [Hsub Hl]%combinations_elem.
    { eapply elem_of_submseteq; [exact Hs|]. apply sublist_submseteq, sublist_take. }
    rewrite length_fmap, Hl. split_and!.
    + lia.
    + apply (NoDup_fmap_2_strong _ s); [by intros ?? _ _ [=]|]. by eapply sublist_NoDup.
    + rewrite party_numbers_seqZ in Hsub by done. eapply (StronglySorted_fmap _ Z.lt); [done|].
      eapply StronglySorted_sublist; [done|apply seqZ_sorted].
    + intros i (j & -> & Hj)%list_elem_of_fmap. cbn. apply Hin.
      eapply elem_of_submseteq; [exact Hj|]. by apply sublist_submseteq.
  - intros Hlt s Hs Hlen'. rewrite Hp. apply list_elem_of_fmap_2.
    rewrite take_ge by lia. apply combinations_elem.
    rewrite party_numbers_seqZ by done. split; [done|lia].
Qed.

(** [Itertools::combinations] gives the combinations in the order of their elements. *)
Class CombinationsInOrder : Prop := combinations_in_order k x l :
  combinations (S k) (x :: l) = (cons x <$> combinations k l) ++ combinations (S k) l.

(** The first 256 combinations are taken before any choice is made.  So as soon as
    there are 256 sets with the first party, every signing set contains it, and no
    retry signs a batch while that party is offline. *)
Theorem first_party_in_every_set `{!CombinationsInOrder} pk data best t n p :
  0 <= t → length best = S n → (S n < 2 ^ 16)%nat →
  (256 <= length (combinations (Z.to_nat t) (seqZ 2 (Z.of_nat n))))%nat →
  p ∈ generate_signing_sets pk data best t → mkKeygenPartyId 1 ∈ signing_set p.
Proof.
  intros Ht Hb Hn Hc Hp. apply (list_elem_of_fmap_2 signing_set) in Hp.
  rewrite signing_sets_perm, Hb, party_numbers_seqZ, seqZ_cons in Hp by lia.
  replace (Z.pred (Z.of_nat (S n))) with (Z.of_nat n) in Hp by lia.
  rewrite Nat.add_1_r, combinations_in_order, take_app_le in Hp
    by (rewrite length_fmap; exact Hc).
  apply list_elem_of_fmap in Hp as (s & -> & Hs).
  assert (s ∈ cons 1 <$> combinations (Z.to_nat t) (seqZ 2 (Z.of_nat n)))
    as (s' & -> & _)%list_elem_of_fmap.
  { eapply elem_of_submseteq; [exact Hs|]. apply sublist_submseteq, sublist_take. }
  by left.
Qed.
End sets.

(** ** Attempts *)

Lemma maximum_Some l m : maximum l = Some m ↔ m ∈ l ∧ ∀ x, x ∈ l → x <= m.
Proof.
  revert m. induction l as [|x l IH]; intros m.
  { split; [done|]. by intros [?%not_elem_of_nil _]. }
  cbn. fold (maximum l). split.
  - intros [= <-]. destruct (maximum l) as [y|] eqn:Hy.
    + destruct (proj1 (IH y) eq_refl) as [Hin Hle]. split.
      * destruct (Z.max_spec x y) as [[_ ->]|[_ ->]]; [by right|by left].
      * intros z [->|Hz]%elem_of_cons; [lia|]. specialize (Hle z Hz). lia.
    + destruct l as [|y l]; [|by cbn in Hy]. split; [by left|].
      by intros z [->|?%not_elem_of_nil]%elem_of_cons.
  - intros [Hin Hle]. destruct (maximum l) as [y|] eqn:Hy.
    + destruct (proj1 (IH y) eq_refl) as [Hiny Hley]. f_equal.
      assert (y <= m) by (apply Hle; by right). assert (x <= m) by (apply Hle; by left).
      apply elem_of_cons in Hin as [->|Hin]; [lia|]. specialize (Hley m Hin). lia.
    + destruct l as [|y l]; [|by cbn in Hy].
      apply elem_of_cons in Hin as [->|?%not_elem_of_nil]; done.
Qed.

Section attempts.
Implicit Types (t : SigningSetHistoryTracker) (gens : list ProposedSigningSet).

(** An attempt, with the time of its start. *)
Definition attempt gens (now : Z) t : SigningSetHistoryTracker * Z :=
  let '(t', ssid) := next_attempt gens t in
  (t' <| sets ::= alter (set locally_started_at (λ _, Some now)) (Z.to_nat ssid) |>, ssid).

Fixpoint attempt_numbers gens (nows : list Z) t : list Z :=
  match nows with
  | [] => []
  | now :: rest =>
      let '(t', ssid) := attempt gens now t in ssid :: attempt_numbers gens rest t'
  end.

(** The tracker after attempt [r] of a cycle over [m] sets. *)
Definition after_attempt (m r : Z) t : Prop :=
  len (sets t) = m ∧ 0 <= r < m ∧ ∀ i, i ∈ ssids_attempted t ↔ 0 <= i <= r.

Lemma next_ssid_after m r t : m <= 256 → after_attempt m r t → next_ssid t = r + 1.
Proof.
  intros Hm (_ & Hr & Hi). unfold next_ssid.
  assert (maximum (elements (ssids_attempted t)) = Some r) as ->.
  { apply maximum_Some. rewrite elem_of_elements, Hi. split; [lia|].
    intros x. rewrite elem_of_elements, Hi. lia. }
  apply wrap_small. unfold in_width. lia.
Qed.

Lemma attempt_after gens now m r t :
  m <= 256 → after_attempt m r t →
  after_attempt m ((r + 1) mod m) (attempt gens now t).1 ∧ (attempt gens now t).2 = (r + 1) mod m.
Proof.
  intros Hm Ht. pose proof (next_ssid_after m r t Hm Ht) as Hn. destruct Ht as (Hl & Hr & Hi).
  unfold attempt, next_attempt. rewrite Hn.
  rewrite (proj2 (Z.eqb_neq (r + 1) 0)) by lia.
  destruct (Z.leb_spec (len (sets t)) (r + 1)).
  - assert (r + 1 = m) as -> by lia. rewrite Z.mod_same by lia. cbn [fst snd].
    split; [|done]. unfold after_attempt. simp_get. rewrite length_alter.
    split_and!; [lia..|]. intros i. rewrite elem_of_union, elem_of_singleton, elem_of_empty. lia.
  - rewrite Z.mod_small by lia. cbn [fst snd]. split; [|done].
    unfold after_attempt. simp_get. rewrite length_alter.
    split_and!; [lia..|]. intros i. rewrite elem_of_union, elem_of_singleton, Hi. lia.
Qed.

Lemma first_attempt gens now :
  1 <= len gens <= 256 →
  after_attempt (len gens) 0 (attempt gens now tracker_default).1 ∧
  (attempt gens now tracker_default).2 = 0.
Proof.
  intros Hm. unfold attempt, next_attempt. change (next_ssid tracker_default) with 0.
  cbn [Z.eqb]. simp_get. destruct (Z.leb_spec (len gens) 0); [lia|].
  cbn [fst snd]. split; [|done]. unfold after_attempt. simp_get. rewrite length_alter.
  split_and!; [lia..|]. intros i. change (ssids_attempted tracker_default) with (∅ : gset Z).
  rewrite elem_of_union, elem_of_singleton, elem_of_empty. lia.
Qed.

Lemma attempt_numbers_after gens nows m r t :
  m <= 256 → after_attempt m r t →
  attempt_numbers gens nows t = (λ k, k mod m) <$> seqZ (r + 1) (len nows).
Proof.
  intros Hm. revert r t. induction nows as [|now nows IH]; intros r t Ht; [done|].
  destruct (attempt_after gens now m r t Hm Ht) as [Ht' Hs]. cbn [attempt_numbers].
  destruct (attempt gens now t) as [t' ssid]. cbn in *. subst ssid.
  rewrite (IH _ _ Ht'), (seqZ_cons (r + 1)) by (cbn; lia). cbn. f_equal.
  replace (Z.pred (Z.of_nat (S (length nows)))) with (len nows) by lia.
  apply list_eq. intros i. rewrite !list_lookup_fmap.
  destruct (decide (i < length nows)%nat).
  - rewrite !lookup_seqZ_lt by lia. cbn. f_equal. destruct Ht as (_ & Hr & _).
    replace (Z.succ (r + 1) + Z.of_nat i) with ((r + 1) + (1 + Z.of_nat i)) by lia.
    replace ((r + 1) mod m + 1 + Z.of_nat i) with ((r + 1) mod m + (1 + Z.of_nat i)) by lia.
    by rewrite Zplus_mod_idemp_l.
  - by rewrite !lookup_seqZ_ge by lia.
Qed.

(** The attempts at a batch take its signing sets in turn: attempt number [k] uses set
    [k] modulo the number of sets, so every set has its turn before one is used again,
    and a batch is never without a set to try. *)
Theorem attempts_cycle gens nows :
  1 <= len gens <= 256 →
  attempt_numbers gens nows tracker_default = (λ k, k mod len gens) <$> seqZ 0 (len nows).
Proof.
  intros Hm. destruct nows as [|now nows]; [done|].
  destruct (first_attempt gens now Hm) as [Ht Hs]. cbn [attempt_numbers].
  destruct (attempt gens now tracker_default) as [t ssid]. cbn in *. subst ssid.
  rewrite (attempt_numbers_after _ _ (len gens) 0) by (done || lia).
  rewrite (seqZ_cons 0) by (cbn; lia). rewrite fmap_cons, Z.mod_0_l by lia. f_equal. f_equal.
  f_equal; lia.
Qed.
End attempts.

(** ** One batch *)

Section batch.
Context `{JobOrder, Client, Keystore, Crypto, MessageCodec, SubmissionDelay, WebbProposals,
  SigningSets}.
Implicit Types (n : Node) (r : Round) (batch : StoredUnsignedProposalBatch).

Abbreviation work_of n := (signing_work (signing_manager n)).

Lemma on_signing_work_Ret {A} (m : M WorkManager DKGError A) n a w :
  m (work_of n) = Ret a w →
  on_signing_work m n = Ret a (n <| signing_manager ::= set signing_work (λ _, w) |>).
Proof. unfold on_signing_work, zoom. simpl. by intros ->. Qed.

Definition gens_of r batch : list ProposedSigningSet :=
  generate_signing_sets (round_dkg_pub_key r) (encode_batch batch) (round_best_authorities r)
    (round_threshold r).

(** The batch is due for another attempt on this node. *)
Record due r batch n (hash : bytes) : Prop := {
  due_first : is_Some (head (ub_proposals batch));
  due_hash : unsigned_batch_hash batch = Some hash;
  due_place : Work.can_submit_more_tasks signing_config (work_of n) = true;
  due_open : batch ∈ round_all r;
  due_time : still_waiting (tracker_of n hash) (number (round_header r)) = false }.

Definition with_tracker (hash : bytes) (t : SigningSetHistoryTracker) n : Node :=
  n <| signing_manager ::= set ssid_history (insert hash t) |>.

Definition params_of r batch n hash ssid s : SigningParams := {|
  sp_best_authorities := round_best_authorities r; sp_party_i := round_party_i r;
  sp_session_id := round_session_id r; sp_threshold := round_threshold r;
  sp_unsigned_proposal_hash := hash; sp_unsigned_proposal_batch := batch;
  sp_signing_set := s; sp_associated_block_id := number (round_header r); sp_ssid := ssid;
  sp_local_key := (fetch_local_keys n (round_session_id r)).1 |}.

(** What a member of the signing set does. *)
Definition start_signing r batch hash (first : UnsignedProposal) (p : SigningParams) : NM bool :=
  result ← catch (initialize_signing_protocol p);
  match result with
  | inl h =>
      on_signing_work (Work.push_task signing_config hash
        (bool_decide (up_typed_chain_id first = ChainNone)) h);;
      mret true
  | inr err => handle_dkg_error err;; throw err
  end.

Lemma due_all r batch n hash : due r batch n hash →
  existsb (λ p, bool_decide (unsigned_batch_hash p = Some hash)) (round_all r) = true.
Proof.
  intros Hd. apply existsb_exists. exists batch. split.
  - apply list_elem_of_In, (due_open _ _ _ _ Hd).
  - apply bool_decide_eq_true, (due_hash _ _ _ _ Hd).
Qed.

Lemma process_batch_due r batch n hash first :
  due r batch n hash → head (ub_proposals batch) = Some first →
  process_batch r batch n =
    let '(t, ssid) := attempt (gens_of r batch) (number (round_header r)) (tracker_of n hash) in
    match sets t !! Z.to_nat ssid with
    | None => Ret true (with_tracker hash t n)
    | Some s =>
        if bool_decide (round_party_i r ∈ signing_set s)
        then start_signing r batch hash first (params_of r batch n hash ssid (signing_set s))
               (with_tracker hash t n)
        else Ret true (with_tracker hash t n)
    end.
Proof.
  intros Hd Hf. unfold process_batch. rewrite Hf, run_expect, run_gets.
  unfold compose at 1. rewrite (due_place _ _ _ _ Hd). cbn [negb].
  rewrite (due_hash _ _ _ _ Hd), run_expect, (due_all _ _ _ _ Hd). cbn [negb].
  rewrite run_gets. unfold set_tracker. rewrite run_modify, (due_time _ _ _ _ Hd).
  unfold attempt. fold (gens_of r batch).
  destruct (next_attempt (gens_of r batch) (tracker_of n hash)) as [t ssid] eqn:Et.
  rewrite run_modify. simp_get. rewrite list_lookup_alter_eq.
  destruct (sets t !! Z.to_nat ssid) as [s|] eqn:Es; cbn [fmap option_fmap option_map].
  - rewrite run_modify. cbn [signing_set set].
    assert (∀ (t1 t2 t3 : SigningSetHistoryTracker),
      with_tracker hash t3 (with_tracker hash t2 (with_tracker hash t1 n)) =
      with_tracker hash t3 n) as E.
    { intros t1 t2 t3. unfold with_tracker. destruct n as [[]]. cbv [set]. cbn.
      by rewrite !insert_insert_eq. }
    unfold with_tracker in *. rewrite E.
    destruct (bool_decide (round_party_i r ∈ signing_set s)) eqn:Em; cbn [negb].
    + simp_get. rewrite Em. by rewrite run_gets.
    + simp_get. by rewrite Em.
  - cbv [mret M_ret]. f_equal. unfold with_tracker. destruct n as [[]]. cbv [set]. cbn.
    rewrite !insert_insert_eq. f_equal. f_equal. f_equal.
    destruct t as [X l]. cbn in *. f_equal.
    apply list_eq. intros i. destruct (decide (Z.to_nat ssid = i)) as [<-|].
    + by rewrite list_lookup_alter_eq, Es.
    + by rewrite list_lookup_alter_ne.
Qed.

Lemma with_tracker_of hash t n : tracker_of (with_tracker hash t n) hash = t.
Proof. unfold tracker_of, with_tracker. simp_get. by rewrite lookup_insert_eq. Qed.

(** The handle of a signing protocol. *)
Definition signing_handle (p : SigningParams) n : Handle := {|
  remote_id := next_handle n; started_at := get_latest_block_number n;
  session_id := sp_session_id p; associated_block_id := sp_associated_block_id p;
  ssid := sp_ssid p; proto_stage_type := Signing (sp_unsigned_proposal_hash p);
  index_to_authority_mapping := generate_authority_mapping (sp_best_authorities p)
    (Signing (sp_unsigned_proposal_hash p)) |}.

(** A node with a new protocol whose job was pushed. *)
Definition with_signing (hash : bytes) (force : bool) (p : SigningParams) n : Node :=
  let h := signing_handle p n in
  let w := (work_of n) <| remotes ::= insert (next_handle n) remote_new |> in
  n <| next_handle ::= Z.succ |>
    <| protocols ::= insert (next_handle n) (SigningProtocol p) |>
    <| signing_manager ::= set signing_work (λ _,
         if force then started (mkJob hash h) w
         else w <| enqueued_tasks ::= (λ l, l ++ [mkJob hash h]) |>
                <| to_handler ::= (λ l, l ++ [hash]) |>) |>.

Lemma start_signing_run r batch hash first p n :
  handler_open (work_of n) = true →
  start_signing r batch hash first p n =
    if wrap 16 (sp_threshold p + 1) =? wrap 16 (len (sp_signing_set p))
    then Ret true (with_signing hash (bool_decide (up_typed_chain_id first = ChainNone)) p n)
    else Panic.
Proof.
  intros Ho. unfold start_signing, initialize_signing_protocol,
    generate_async_proto_params, catch.
  cbv [mbind M_bind gets modify mret M_ret on_signing_work zoom assert_that panic].
  destruct (_ =? _); [|done].
  unfold with_signing, Work.push_task. destruct n as [[w lk hist] ? ? ? ? ? ? ? ? ? ? ? ? ?].
  destruct (bool_decide _).
  - rewrite start_job_run. done.
  - cbn in Ho. cbv [set mbind M_bind gets modify mret M_ret ensure]. cbn. rewrite Ho. done.
Qed.

(** Nodes that have made the same attempts at a batch and see the same chain choose the
    same attempt: a node outside the signing set only records it, and a member starts
    exactly one protocol, for that set and that attempt. *)
Theorem process_batch_spec r batch n hash t ssid s :
  due r batch n hash → handler_open (work_of n) = true →
  attempt (gens_of r batch) (number (round_header r)) (tracker_of n hash) = (t, ssid) →
  sets t !! Z.to_nat ssid = Some s →
  wrap 16 (round_threshold r + 1) = wrap 16 (len (signing_set s)) →
  ∃ n', process_batch r batch n = Ret true n' ∧ tracker_of n' hash = t ∧
    if bool_decide (round_party_i r ∈ signing_set s) then
      protocols n' = <[next_handle n :=
        SigningProtocol (params_of r batch n hash ssid (signing_set s))]> (protocols n) ∧
      next_handle n' = Z.succ (next_handle n) ∧
      (Work.job_exists (work_of n) hash = false →
       jobs (work_of n') ≡ₚ
        mkJob hash (signing_handle (params_of r batch n hash ssid (signing_set s)) n)
          :: jobs (work_of n))
    else
      protocols n' = protocols n ∧ work_of n' = work_of n.
Proof.
  intros Hd Ho Ha Hs Hw. destruct (due_first _ _ _ _ Hd) as [first Hf].
  rewrite (process_batch_due r batch n hash first Hd Hf), Ha, Hs.
  case_bool_decide as Hm; [|by exists (with_tracker hash t n); rewrite with_tracker_of].
  rewrite start_signing_run by done. cbn [sp_threshold sp_signing_set params_of].
  rewrite (proj2 (Z.eqb_eq _ _) Hw).
  set (p := params_of _ _ _ _ _ _). set (f := bool_decide _).
  exists (with_signing hash f p (with_tracker hash t n)).
  split_and!; [done|apply with_tracker_of|done|done|]. intros Hj.
  unfold Work.job_exists in Hj. apply orb_false_iff in Hj as [Hj _].
  apply bool_decide_eq_false in Hj. rewrite <- eq_None_not_Some in Hj.
  change (jobs (work_of (with_signing hash f p (with_tracker hash t n)))) with
    (jobs (if f then started (mkJob hash (signing_handle p n))
                      ((work_of n) <| remotes ::= insert (next_handle n) remote_new |>)
           else (work_of n) <| remotes ::= insert (next_handle n) remote_new |>
                  <| enqueued_tasks ::= (λ l, l ++ [mkJob hash (signing_handle p n)]) |>
                  <| to_handler ::= (λ l, l ++ [hash]) |>)).
  destruct f; unfold jobs.
  - rewrite (active_jobs_insert hash (mkJob hash (signing_handle p n)) _ (active_tasks (work_of n)));
      [done| |done]. by rewrite started_active.
  - unfold active_jobs. simp_get. rewrite (assoc_L (++)). by rewrite <- Permutation_cons_append.
Qed.

(** ** All nodes *)

Definition as_party (i : Z) r : Round := {|
  round_header := round_header r; round_session_id := round_session_id r;
  round_dkg_pub_key := round_dkg_pub_key r; round_party_i := mkKeygenPartyId i;
  round_best_authorities := round_best_authorities r; round_threshold := round_threshold r;
  round_all := round_all r |}.

(** Whether a node has a job for the batch after it has looked at it. *)
Definition takes_part r batch (hash : bytes) n : bool :=
  match process_batch r batch n with
  | Ret _ n' => Work.job_exists (work_of n') hash
  | _ => false
  end.

Lemma with_signing_exists hash force p n : Work.job_exists (work_of n) hash = false →
  Work.job_exists (work_of (with_signing hash force p n)) hash = true.
Proof.
  intros Hj. unfold Work.job_exists in *. apply orb_false_iff in Hj as [Hj _].
  apply bool_decide_eq_false in Hj. rewrite <- eq_None_not_Some in Hj.
  unfold with_signing. simp_get. destruct force.
  - rewrite started_active by done. cbn [task_hash]. by rewrite lookup_insert_eq.
  - simp_get. rewrite existsb_app. cbn [existsb task_hash]. rewrite (bool_decide_true (hash = hash)) by done.
    by rewrite !orb_true_r.
Qed.

Lemma takes_part_iff r batch n hash t ssid s :
  due r batch n hash → handler_open (work_of n) = true →
  Work.job_exists (work_of n) hash = false →
  attempt (gens_of r batch) (number (round_header r)) (tracker_of n hash) = (t, ssid) →
  sets t !! Z.to_nat ssid = Some s →
  wrap 16 (round_threshold r + 1) = wrap 16 (len (signing_set s)) →
  takes_part r batch hash n = bool_decide (round_party_i r ∈ signing_set s).
Proof.
  intros Hd Ho Hj Ha Hs Hw. destruct (due_first _ _ _ _ Hd) as [first Hf].
  unfold takes_part. rewrite (process_batch_due r batch n hash first Hd Hf), Ha, Hs.
  case_bool_decide as Hm; [|done].
  rewrite start_signing_run by done. cbn [sp_threshold sp_signing_set params_of].
  rewrite (proj2 (Z.eqb_eq _ _) Hw). by apply with_signing_exists.
Qed.

(** A member of a set of another size panics at the assertion. *)
Lemma takes_part_not r batch n hash t ssid s :
  due r batch n hash → handler_open (work_of n) = true → Work.job_exists (work_of n) hash = false →
  attempt (gens_of r batch) (number (round_header r)) (tracker_of n hash) = (t, ssid) →
  sets t !! Z.to_nat ssid = Some s →
  wrap 16 (round_threshold r + 1) ≠ wrap 16 (len (signing_set s)) →
  takes_part r batch hash n = false.
Proof.
  intros Hd Ho Hj Ha Hs Hw. destruct (due_first _ _ _ _ Hd) as [first Hf].
  unfold takes_part. rewrite (process_batch_due r batch n hash first Hd Hf), Ha, Hs.
  case_bool_decide as Hm; [|done].
  rewrite start_signing_run by done. cbn [sp_threshold sp_signing_set params_of].
  by rewrite (proj2 (Z.eqb_neq _ _) Hw).
Qed.

(** C9: when all nodes see the same chain, have the batch due and have made the same
    attempts at it, and the set of the next attempt was made for these authorities and a
    threshold [th]: if [th] is still the threshold on the chain, the parties that start a
    job for the attempt are exactly the members of the set, threshold + 1 of them; if the
    threshold has changed since, nobody starts one. *)
Theorem signing_quorum `{!SigningSetsLaws} r batch hash (node : Z → Node) t0 t ssid s th :
  0 <= round_threshold r < 2 ^ 16 - 1 → 0 <= th < 2 ^ 16 - 1 →
  (length (round_best_authorities r) < 2 ^ 16)%nat →
  (∀ i, 1 <= i <= len (round_best_authorities r) →
     due (as_party i r) batch (node i) hash ∧ handler_open (work_of (node i)) = true ∧
     Work.job_exists (work_of (node i)) hash = false ∧ tracker_of (node i) hash = t0) →
  attempt (gens_of r batch) (number (round_header r)) t0 = (t, ssid) →
  sets t !! Z.to_nat ssid = Some s →
  signing_set s ∈ signing_set <$> generate_signing_sets (round_dkg_pub_key r) (encode_batch batch)
    (round_best_authorities r) th →
  let members := filter (λ i, takes_part (as_party i r) batch hash (node i) = true)
    (seqZ 1 (len (round_best_authorities r))) in
  if th =? round_threshold r
  then mkKeygenPartyId <$> members ≡ₚ signing_set s ∧ len members = round_threshold r + 1
  else members = [].
Proof.
  intros Ht Hth Hb Hnodes Ha Hs Hgen members.
  destruct (generate_signing_sets_spec (round_dkg_pub_key r) (encode_batch batch)
    (round_best_authorities r) th) as (_ & _ & _ & Hspec & _); [lia|done|].
  apply list_elem_of_fmap in Hgen as (g & Hg & Hin).
  destruct (Hspec g Hin) as (Hlen & Hnd & _ & Hrange). rewrite <- Hg in Hlen, Hnd, Hrange.
  destruct (Z.eqb_spec th (round_threshold r)) as [->|Hne].
  2: { apply elem_of_nil_inv. intros i [Htk Hi%elem_of_seqZ]%list_elem_of_filter.
    destruct (Hnodes i) as (Hd & Ho & Hj & Htr); [lia|].
    rewrite (takes_part_not (as_party i r) batch (node i) hash t ssid s Hd Ho Hj) in Htk; [done| |done|].
    - by rewrite Htr.
    - cbn. rewrite Hlen, !wrap_small by (unfold in_width; lia). lia. }
  assert (mkKeygenPartyId <$> members ≡ₚ signing_set s) as Hp.
  { apply NoDup_Permutation.
    - apply (NoDup_fmap_2_strong _ members); [by intros ?? _ _ [=]|].
      apply NoDup_filter, NoDup_seqZ.
    - done.
    - intros [i]. assert (1 <= i <= len (round_best_authorities r) →
        takes_part (as_party i r) batch hash (node i) =
        bool_decide (mkKeygenPartyId i ∈ signing_set s)) as Htp.
      { intros Hi. destruct (Hnodes i Hi) as (Hd & Ho & Hj & Htr).
        apply (takes_part_iff (as_party i r) batch (node i) hash t ssid s Hd Ho Hj); [|done|].
        - by rewrite Htr.
        - cbn. by rewrite Hlen. }
      unfold members. rewrite list_elem_of_fmap. split.
      + intros (k & [= ->] & [Htk Hk%elem_of_seqZ]%list_elem_of_filter).
        rewrite Htp in Htk by lia. by apply bool_decide_eq_true in Htk.
      + intros Hi. pose proof (Hrange _ Hi) as Hr. cbn in Hr. exists i. split; [done|].
        apply list_elem_of_filter. rewrite elem_of_seqZ, Htp by lia.
        split; [by apply bool_decide_eq_true|lia]. }
  split; [done|]. apply Permutation_length in Hp. rewrite length_fmap in Hp. lia.
Qed.

(** ** A failure after a success *)

(** A failure that is reported after the history of a batch was dropped leaves an attempt
    without sets.  Sets are generated only when there is no attempt, so no later attempt
    at the batch has a set, and the node never takes part in one again. *)
Lemma late_failure_stops_attempts gens nows t :
  sets t = [] → 0 < next_ssid t → Forall (λ k, k = 0) (attempt_numbers gens nows t) ∧
  ∀ now t' ssid, attempt gens now t = (t', ssid) → sets t' = [] ∧ 0 < next_ssid t'.
Proof.
  assert (∀ t now t' ssid, sets t = [] → 0 < next_ssid t → attempt gens now t = (t', ssid) →
    ssid = 0 ∧ sets t' = [] ∧ next_ssid t' = 1) as Hstep.
  { clear t. intros t now t' ssid Hs Hn. unfold attempt, next_attempt.
    rewrite (proj2 (Z.eqb_neq _ _)), Hs by lia. rewrite (proj2 (Z.leb_le (len (@nil ProposedSigningSet)) _)) by (cbn; lia).
    intros [= <- <-]. split; [done|]. simp_get. rewrite Hs. split; [done|]. by vm_compute. }
  intros Hs Hn. split.
  - revert t Hs Hn. induction nows as [|now nows IH]; intros t Hs Hn; [constructor|]. cbn.
    destruct (attempt gens now t) as [t' ssid] eqn:E. destruct (Hstep _ _ _ _ Hs Hn E) as (-> & Hs' & Hn').
    constructor; [done|]. apply IH; [done|lia].
  - intros now t' ssid E. destruct (Hstep _ _ _ _ Hs Hn E) as (_ & ? & ?). split; [done|lia].
Qed.

(** ** A threshold that changes *)

Lemma second_attempt gens gens' now now' :
  2 <= len gens <= 256 →
  let t := (attempt gens now tracker_default).1 in
  ∃ t' s s', attempt gens' now' t = (t', 1) ∧ gens !! 1%nat = Some s ∧
    sets t' !! 1%nat = Some s' ∧ signing_set s' = signing_set s.
Proof.
  intros Hm t. destruct (first_attempt gens now) as [Ht _]; [lia|]. fold t in Ht.
  pose proof (next_ssid_after _ _ _ (proj2 Hm) Ht) as Hn. change (0 + 1) with 1 in Hn.
  assert (sets t = alter (set locally_started_at (λ _, Some now)) 0%nat gens) as Hsets.
  { unfold t, attempt, next_attempt. change (next_ssid tracker_default) with 0. cbn [Z.eqb].
    simp_get. destruct (Z.leb_spec (len gens) 0); [lia|]. done. }
  assert (len (sets t) = len gens) as Hl by (rewrite Hsets; by rewrite length_alter).
  destruct (lookup_lt_is_Some_2 gens 1) as [s Hs]; [lia|].
  unfold attempt, next_attempt. rewrite Hn. change (1 =? 0) with false. cbv iota.
  destruct (Z.leb_spec (len (sets t)) 1); [lia|].
  eexists _, s, (s <| locally_started_at := Some now' |>). split; [reflexivity|]. split; [exact Hs|]. split; [|done]. simp_get.
  change (Z.to_nat 1) with 1%nat. rewrite list_lookup_alter_eq, Hsets.
  rewrite list_lookup_alter_ne by done. by rewrite Hs.
Qed.

(** The signing sets of a batch are made for the threshold of its first attempt and
    kept for the attempts after it.  If the threshold on the chain has changed when
    the second attempt is due, the size of the set is not the one that is asserted,
    and every node of the set panics. *)
Theorem threshold_change_panics `{!SigningSetsLaws} r1 r2 batch n hash s :
  0 <= round_threshold r1 < 2 ^ 16 - 1 → 0 <= round_threshold r2 < 2 ^ 16 - 1 →
  round_threshold r1 ≠ round_threshold r2 →
  (length (round_best_authorities r1) < 2 ^ 16)%nat →
  gens_of r1 batch !! 1%nat = Some s →
  tracker_of n hash = (attempt (gens_of r1 batch) (number (round_header r1)) tracker_default).1 →
  due r2 batch n hash → handler_open (work_of n) = true → round_party_i r2 ∈ signing_set s →
  process_batch r2 batch n = Panic.
Proof.
  intros Ht1 Ht2 Hne Hb Hs Htr Hd Ho Hm.
  destruct (generate_signing_sets_spec (round_dkg_pub_key r1) (encode_batch batch)
    (round_best_authorities r1) (round_threshold r1)) as (Hmax & _ & _ & Hspec & _); [lia|done|].
  fold (gens_of r1 batch) in Hmax, Hspec.
  pose proof (lookup_lt_Some _ _ _ Hs) as Hlt.
  destruct (Hspec s) as [Hlen _]; [by eapply list_elem_of_lookup_2|].
  destruct (second_attempt (gens_of r1 batch) (gens_of r2 batch) (number (round_header r1))
    (number (round_header r2))) as (t' & s0 & s' & Ha & Hs0 & Hs' & Hset); [lia|].
  destruct (due_first _ _ _ _ Hd) as [first Hf].
  rewrite (process_batch_due r2 batch n hash first Hd Hf), Htr, Ha.
  change (Z.to_nat 1) with 1%nat. rewrite Hs'. assert (s0 = s) as -> by congruence.
  rewrite Hset, bool_decide_true by done. rewrite start_signing_run by done.
  cbn [sp_threshold sp_signing_set params_of]. rewrite Hlen.
  rewrite !wrap_small by (unfold in_width; lia).
  by rewrite (proj2 (Z.eqb_neq _ _)) by lia.
Qed.
End batch.
