(* ===== verification/KeygenManager.v ===== *)
(** * The key generation manager

    src/dkg-gadget/src/keygen_manager/mod.rs: on every finalized block the manager
    decides whether a key generation for the current or the next session is due, and
    runs at most one at a time.  While one runs, the signing manager is locked. *)

From S2P Require Import Prelude.
From S2P Require Import Frame.
From S2P Require Import Primitives.
From S2P Require Import GadgetTypes.
From S2P Require Import Remote.
From S2P Require Import WorkManager.
From S2P Require Import Client.
From S2P Require Import Node.
From S2P Require Import Reports.
From S2P Require Import SigningManager.

Definition keygen_config : WorkConfig :=
  mkWorkConfig KeygenConstants.MAX_RUNNING_TASKS KeygenConstants.MAX_ENQUEUED_TASKS Manual.

(** [get_keygen_protocol_hash]. *)
Definition get_keygen_protocol_hash `{Crypto} (session retry : Z) : bytes :=
  keccak_256 (be_encode 8 session ++ be_encode 8 retry).

Module Keygen.
Section manager.
Context `{JobOrder, Client, Keystore, Crypto, MessageCodec, SubmissionDelay}.
Implicit Types (header : Header) (status : AnticipatedKeygenExecutionStatus).

Definition deliver_message (m : SignedDKGMessage) : NM unit :=
  message_task_hash ← expect (keygen_protocol_hash (payload (msg m)));
  on_keygen_work (Work.deliver_message m message_task_hash).

Definition session_id_of_active_keygen (n : Node) (now : Z) : option JobMetadata :=
  last (Work.get_active_sessions_metadata (keygen_work (keygen_manager n)) now).

Definition set_state (state : KeygenState) : NM unit :=
  upd! keygen_manager ::= set keygen_state (λ _, state).

(** [work_manager.poll()], at the latest block. *)
Definition poll : NM unit :=
  now ← gets get_latest_block_number;
  on_keygen_work (Work.poll keygen_config now).

Definition push_task (h : Handle) : NM unit :=
  retry ← gets (active_keygen_retry_id ∘ keygen_manager);
  let task_hash := get_keygen_protocol_hash (session_id h) retry in
  on_keygen_work (Work.push_task keygen_config task_hash false h);;
  poll.

(** [initialize_keygen_protocol] and [setup_keygen]. *)
Definition initialize_keygen_protocol (p : KeygenParams) : NM (option Handle) :=
  result ← catch (generate_async_proto_params on_keygen_work (kp_best_authorities p)
    (kp_session_id p)
    (match kp_stage p with Genesis => KeygenGenesis | Next => KeygenStandard end)
    (kp_associated_block p) 0);
  match result with
  | inl h =>
      upd! protocols ::= insert (remote_id h) (KeygenProtocol p);;
      mret (Some h)
  | inr err => handle_dkg_error err;; mret None
  end.

(** The part of [maybe_start_keygen_for_stage] that starts the protocol. *)
Definition start_keygen (stage : KeygenRound) header status (party_i : KeygenPartyId)
    (session : Z) : NM unit :=
  let threshold := match stage with
    | Genesis => get_signature_threshold header
    | Next => get_next_signature_threshold header
    end in
  let best := keygen_parties (match stage with
    | Genesis => get_best_authorities header
    | Next => get_next_best_authorities header
    end) in
  get_authority_public_key;;
  retry ← gets (active_keygen_retry_id ∘ keygen_manager);
  let hash := get_keygen_protocol_hash session retry in
  when (force_execute status) Signer.clear_enqueued_proposal_tasks;;
  handle ← initialize_keygen_protocol {|
    kp_best_authorities := best; kp_party_i := party_i; kp_session_id := session;
    kp_associated_block := number header; kp_threshold := threshold; kp_stage := stage;
    kp_keygen_protocol_hash := hash |};
  match handle with
  | None => mret tt
  | Some h =>
      when (force_execute status) (on_keygen_work Work.force_shutdown_all);;
      Signer.keygen_lock;;
      pushed ← catch (push_task h);
      match pushed with
      | inr err => handle_dkg_error err
      | inl _ =>
          set_state (match stage with Genesis => RunningGenesisKeygen | Next => RunningKeygen end);;
          upd! keygen_manager ::= set latest_executed_session_id (λ _, Some session)
      end
  end.

Definition maybe_start_keygen_for_stage (stage : KeygenRound) header status : NM unit :=
  match validator_set header with
  | None => mret tt
  | Some (active, queued) =>
      let session := as_id (match stage with Genesis => active | Next => queued end) in
      let refused := match stage with
        | Next =>
            (negb (execute status) && negb (force_execute status)) ||
            (bool_decide (is_Some (get_next_dkg_pub_key header)) && negb (force_execute status))
        | Genesis => negb (dkg_pub_key_is_unset header)
        end in
      if refused then mret tt else
      public ← get_authority_public_key;
      let party_idx := match stage with
        | Genesis => get_party_index public header
        | Next => get_next_party_index public header
        end in
      match party_idx with
      | None => mret tt
      | Some party_index =>
          match keygen_party_id party_index with
          | Ok party_i => start_keygen stage header status party_i session
          | _ => mret tt
          end
      end
  end.

(** Whether the block is dealt with. *)
Definition pre_checks (session : Z) (state : KeygenState) header
    (current_protocol : option JobMetadata) status : NM bool :=
  if force_execute status then
    finished ← gets (finished_count ∘ keygen_manager);
    let stage := if (session =? GENESIS_AUTHORITY_SET_ID) && (finished =? 0)
                 then Genesis else Next in
    maybe_start_keygen_for_stage stage header status;;
    mret true
  else if (session =? GENESIS_AUTHORITY_SET_ID) && bool_decide (state = KeygenFailed 0) &&
    dkg_pub_key_is_unset header
  then
    maybe_start_keygen_for_stage Genesis header status;;
    mret true
  else
    match current_protocol with
    | Some c => mret (md_is_active c && negb (md_is_stalled c))
    | None => mret false
    end.

Definition genesis_checks (state : KeygenState) header status : NM unit :=
  match state with
  | Uninitialized => maybe_start_keygen_for_stage Genesis header status
  | RunningGenesisKeygen | RunningKeygen => mret tt
  | KeygenCompleted 0 => maybe_start_keygen_for_stage Next header status
  | KeygenFailed 1 => maybe_start_keygen_for_stage Next header status
  | _ => mret tt
  end.

Definition next_checks (state : KeygenState) header status : NM unit :=
  match state with
  | RunningGenesisKeygen | RunningKeygen => mret tt
  | Uninitialized =>
      match get_next_dkg_pub_key header with
      | None => maybe_start_keygen_for_stage Next header status
      | Some _ => mret tt
      end
  | KeygenCompleted _ | KeygenFailed _ => maybe_start_keygen_for_stage Next header status
  end.

Definition on_block_finalized header : NM unit :=
  match validator_set header with
  | None => mret tt
  | Some (active, _) =>
      poll;;
      let now_n := number header in
      let session := as_id active in
      current_protocol ← gets (λ n, session_id_of_active_keygen n now_n);
      state ← gets (keygen_state ∘ keygen_manager);
      let status := should_execute_new_keygen header in
      dealt_with ← pre_checks session state header current_protocol status;
      if dealt_with : bool then mret tt
      else if session =? GENESIS_AUTHORITY_SET_ID then genesis_checks state header status
      else next_checks state header status
  end.

(** The future that is pushed with the handle, when the protocol has ended. *)
Definition keygen_task_done (p : KeygenParams) (res : result DKGError unit) : NM unit :=
  match res with
  | Ok _ =>
      set_state (KeygenCompleted (kp_session_id p));;
      upd! keygen_manager ::= set finished_count (λ c, wrap 64 (c + 1));;
      Signer.keygen_unlock
  | Err err =>
      set_state (KeygenFailed (kp_session_id p));;
      Signer.keygen_unlock;;
      upd! errors ::= (λ l, l ++ [err]);;
      throw err
  | Panics => panic
  end.

(** The outcome of [setup_keygen] when the stop signal comes first. *)
Definition keygen_stopped (h : Handle) (r : Remote) (signal : option ShutdownReason)
    : result DKGError unit :=
  match signal with
  | Some DropCode | None => Ok tt
  | Some Stalled => Err (EKeygenTimeout (session_id h)
      (bad_actors_to_authorities (blamed_parties r) (index_to_authority_mapping h)))
  end.
End manager.
End Keygen.
