(* ===== verification/Worker.v ===== *)
(** * The worker of a node

    The handlers of [DKGWorker] (src/dkg-gadget/src/worker.rs): finalized blocks,
    messages from the gossip engine and errors of the protocols, and [node_step], the
    steps a node can take: a handler runs, a manager polls, a protocol advances or
    ends. *)

From S2P Require Import Prelude.
From S2P Require Import Frame.
From S2P Require Import Primitives.
From S2P Require Import GadgetTypes.
From S2P Require Import Remote.
From S2P Require Import WorkManager.
From S2P Require Import WorkManagerSpec.
From S2P Require Import Client.
From S2P Require Import Node.
From S2P Require Import Reports.
From S2P Require Import SigningManager.
From S2P Require Import KeygenManager.

(** [sync_service.is_major_syncing()] when the block is handled, where there is a
    sync service. *)
Class SyncService := is_major_syncing : Header → option bool.

Section worker.
Context `{JobOrder, Client, Keystore, Crypto, MessageCodec, SubmissionDelay, WebbProposals,
  SigningSets, SyncService}.
Implicit Types (header : Header) (n : Node).

(** ** Finalized blocks *)

Definition maybe_enact_genesis_authorities header : NM unit :=
  match validator_set header with
  | Some (active, _) =>
      when (as_id active =? GENESIS_AUTHORITY_SET_ID) (
        put! current_validator_set := active;;
        put! best_authorities := get_best_authorities header;;
        put! next_best_authorities := get_next_best_authorities header)
  | None => mret tt
  end.

Definition maybe_rotate_local_session header : NM unit :=
  match validator_set header with
  | Some (active, queued) =>
      let set_id := (get_dkg_pub_key header).1 in
      queued_authority_set_id ← gets (as_id ∘ queued_validator_set);
      if negb (set_id =? queued_authority_set_id) then mret tt else
      put! current_validator_set := active;;
      put! queued_validator_set := queued;;
      next ← gets next_best_authorities;
      put! best_authorities := next;;
      put! next_best_authorities := get_next_best_authorities header
  | None => mret tt
  end.

Definition process_block_notification header : NM unit :=
  latest ← gets latest_header;
  if (match latest with Some l => number header <=? number l | None => false end)
  then mret tt else
  put! latest_header := Some header;;
  if default false (is_major_syncing header) then mret tt else
  if dkg_pub_key_is_unset header then
    maybe_enact_genesis_authorities header;;
    Keygen.on_block_finalized header
  else
    maybe_rotate_local_session header;;
    Keygen.on_block_finalized header;;
    ignore (Signer.on_block_finalized header).

(** [initialization]: the first block with authorities. *)
Definition initialization header : NM bool :=
  match validator_set header with
  | Some (active, queued) =>
      put! best_authorities := get_best_authorities header;;
      put! current_validator_set := active;;
      put! queued_validator_set := queued;;
      process_block_notification header;;
      mret true
  | None => mret false
  end.

(** ** Messages *)

Definition process_incoming_dkg_message (m : SignedDKGMessage) : NM unit :=
  latest ← gets latest_header;
  match payload (msg m) with
  | PKeygen _ => Keygen.deliver_message m
  | POffline _ | PVote _ => Signer.deliver_message m
  | PPublicKeyBroadcast _ =>
      match verify_signature_against_authorities_inner m latest with
      | Ok dkg_msg => ignore (handle_public_key_broadcast dkg_msg)
      | Err _ => mret tt
      | Panics => panic
      end
  | PMisbehaviourBroadcast _ =>
      match verify_signature_against_authorities_inner m latest with
      | Ok dkg_msg => ignore (handle_misbehaviour_report dkg_msg)
      | Err _ => mret tt
      | Panics => panic
      end
  end.

(** [spawn_error_handling_task]: one round of its loop. *)
Definition handle_next_error : NM unit :=
  es ← gets errors;
  match es with
  | [] => mret tt
  | e :: rest => put! errors := rest;; handle_dkg_error e
  end.

(** ** Steps *)

Inductive node_step : Node → Node → Prop :=
| step_initialization header n t : final (initialization header n) = Some t → node_step n t
| step_finality header n t : final (process_block_notification header n) = Some t → node_step n t
| step_message m n t : final (process_incoming_dkg_message m n) = Some t → node_step n t
| step_error n t : final (handle_next_error n) = Some t → node_step n t
| step_signing_poll n t :
    final (on_signing_work (Work.poll signing_config (get_latest_block_number n)) n) = Some t →
    node_step n t
| step_signing_protocol i r r' n :
    remotes (signing_work (signing_manager n)) !! i = Some r → protocol_step r r' →
    node_step n (n <| signing_manager ::= set signing_work (set remotes (insert i r')) |>)
| step_keygen_protocol i r r' n :
    remotes (keygen_work (keygen_manager n)) !! i = Some r → protocol_step r r' →
    node_step n (n <| keygen_manager ::= set keygen_work (set remotes (insert i r')) |>)
| step_signing_done i p res n t :
    protocols n !! i = Some (SigningProtocol p) → res ≠ Panics →
    final (Signer.signing_task_done p res (n <| protocols ::= delete i |>)) = Some t →
    node_step n t
| step_keygen_done i p res n t :
    protocols n !! i = Some (KeygenProtocol p) → res ≠ Panics →
    final (Keygen.keygen_task_done p res (n <| protocols ::= delete i |>)) = Some t →
    node_step n t
| step_public_key m n t : final (gossip_public_key m n) = Some t → node_step n t
| step_send m n t : final (sign_and_send_msg m n) = Some t → node_step n t
| step_local_key session k n : node_step n (n <| local_keys ::= insert session k |>)
| step_vote_result votes r n t : final (process_vote_result votes r n) = Some t → node_step n t.

Definition node_reachable n : Prop := ∃ o, rtc node_step (worker_new o) n.
End worker.
