(* ===== verification/WorkerSpec.v ===== *)
(** * Theorems about the worker of a node

    The invariant of every reachable node: each of its protocols belongs to a job of
    one of the two managers or was told to stop, a handle is known to one manager
    only, at most one key generation is active, and the histories of signing
    attempts are well formed. *)

From S2P Require Import Prelude.
From S2P Require Import Frame.
From S2P Require Import Primitives.
From S2P Require Import GadgetTypes.
From S2P Require Import Remote.
From S2P Require Import WorkManager.
From S2P Require Import WorkManagerSpec.
From S2P Require Import Client.
From S2P Require Import Node.
From S2P Require Import Reports.
From S2P Require Import SigningManager.
From S2P Require Import SigningManagerSpec.
From S2P Require Import KeygenManager.
From S2P Require Import Worker.

(** ** A work manager in order *)

(** The manager knows the handles [D], of which [X] are loose. *)
Record managed (X : list Z) (D : gset Z) (w : WorkManager) : Prop := {
  mg_inv : work_inv_upto X w;
  mg_stops : map_Forall (λ _ : Z, stop_ok) (remotes w);
  mg_dom i : remotes w !! i = None ↔ i ∉ D }.

Section managed.
Context `{JobOrder, !JobOrderLaws} (cfg : WorkConfig).
Implicit Types (w : WorkManager) (X : list Z) (D : gset Z) (i k : Z).

Lemma managed_empty : managed [] ∅ work_empty.
Proof.
  split; [apply work_empty_inv|apply map_Forall_empty|]. intros i.
  split; [set_solver|]. intros _. apply lookup_empty.
Qed.

Lemma managed_new D k w : k ∉ D →
  managed [] D w → managed [k] ({[ k ]} ∪ D) (w <| remotes ::= insert k remote_new |>).
Proof.
  intros Hk [Hi Hs Hd]. apply Hd in Hk. split.
  - apply (pushed_inv (mkHandle k 0 0 0 0 KeygenGenesis ∅) w); done.
  - simp_get. by apply map_Forall_insert_2.
  - intros i. simp_get. rewrite lookup_insert_None, Hd. set_solver.
Qed.

Lemma started_None j w i : remotes (started j w) !! i = None ↔ remotes w !! i = None.
Proof. unfold started. simp_get. apply lookup_alter_None. Qed.

Lemma end_jobs_None js (m : gmap Z Remote) i : end_jobs js m !! i = None ↔ m !! i = None.
Proof. rewrite end_jobs_lookup. apply fmap_None. Qed.

Lemma sweep_None w0 now l w i :
  remotes (sweep w0 now l w) !! i = None ↔ remotes w !! i = None.
Proof.
  revert w. induction l as [|e l IH]; intros w; [done|]. rewrite sweep_cons, IH.
  unfold sweep. simp_get. cbn. destruct (keeps w0 now e.2); [done|]. apply lookup_alter_None.
Qed.

Lemma polled_None now w i : remotes (polled cfg now w) !! i = None ↔ remotes w !! i = None.
Proof.
  unfold polled. simp_get. rewrite <- (sweep_None w now (iter_jobs (active_tasks w)) w).
  set (s1 := sweep w now _ w). generalize (take (max_tasks cfg - size (active_tasks s1))
    (enqueued_tasks w)). generalize s1. clear s1.
  intros w' js. revert w'. induction js as [|j js IH]; intros w'; [done|]. cbn [foldl]. by rewrite IH, started_None.
Qed.

Lemma managed_push D hash force h w t :
  managed [remote_id h] D w → final (Work.push_task cfg hash force h w) = Some t → managed [] D t.
Proof.
  rewrite push_task_final. intros [Hi Hs Hf] [= <-]. destruct force.
  { split; [by apply started_inv|by apply started_stops_ok|].
    intros i. by rewrite started_None. }
  split; [|done|done]. eapply loosen_inv; [exact Hi|done| |apply Hi].
  unfold jobs, active_jobs. simp_get. by rewrite (assoc_L (++)), fmap_app, app_nil_r.
Qed.

Lemma managed_poll D now w t :
  managed [] D w → final (Work.poll cfg now w) = Some t → managed [] D t.
Proof.
  intros [Hi Hs Hf] Ht. pose proof (wi_ids _ _ Hi) as Hnd. unfold jobs in Hnd.
  rewrite fmap_app, app_nil_r, NoDup_app in Hnd.
  rewrite poll_run in Ht by apply Hnd. injection Ht as <-.
  split; [by apply polled_inv|by apply polled_stops_ok|]. intros i. by rewrite polled_None.
Qed.

Lemma managed_deliver D m hash w t :
  managed [] D w → final (Work.deliver_message m hash w) = Some t → managed [] D t.
Proof.
  intros [Hi Hs Hf] Ht.
  destruct (work_step_ok cfg w t (step_deliver cfg m hash w t Ht) (conj Hi Hs)) as [Hi' Hs'].
  split; [done..|]. intros i. rewrite deliver_message_final in Ht. injection Ht as <-.
  destruct (List.find _ _); [|done]. simp_get. by rewrite lookup_alter_None.
Qed.

Lemma managed_clear D w t :
  managed [] D w → final (Work.clear_enqueued_tasks w) = Some t → managed [] D t.
Proof.
  rewrite clear_run. intros [Hi Hs Hf] [= <-].
  split; [by apply clear_inv|by apply end_jobs_stops_ok|]. intros i.
  simp_get. by rewrite end_jobs_None.
Qed.

Lemma managed_shutdown X D w t :
  managed X D w → final (Work.force_shutdown_all w) = Some t → managed X D t.
Proof.
  rewrite force_shutdown_run. intros [Hi Hs Hf] [= <-].
  split; [|by apply end_jobs_stops_ok|intros i; simp_get; by rewrite end_jobs_None].
  apply end_jobs_inv. eapply loosen_inv; [exact Hi|done|..].
  - unfold jobs, active_jobs. simp_get. rewrite map_to_list_empty. by rewrite iter_jobs_perm.
  - intros h j. simp_get. by rewrite lookup_empty.
Qed.

Lemma managed_protocol X D w i r r' :
  remotes w !! i = Some r → protocol_step r r' → managed X D w →
  managed X D (w <| remotes ::= insert i r' |>).
Proof.
  intros Hr Hp [Hi Hs Hf]. destruct (protocol_step_stop _ _ Hp) as [Htx Hok'].
  split.
  - eapply frame_inv; [exact Hi|done|done|..]; simp_get.
    + intros j. rewrite lookup_insert_is_Some'. naive_solver.
    + intros j r0 r1 H0' [[<- <-]|[_ ?]]%lookup_insert_Some; congruence.
  - simp_get. apply map_Forall_insert_2; [by apply Hok', (Hs i)|done].
  - intros j. simp_get. rewrite lookup_insert_None, Hf. split; [tauto|]. intros Hj.
    split; [done|]. intros ->. apply Hf in Hj. congruence.
Qed.

(** ** How many jobs are active *)

Lemma started_size j w :
  (size (active_tasks (started j w)) <= S (size (active_tasks w)))%nat.
Proof.
  destruct (active_tasks w !! task_hash j) eqn:Ej.
  - unfold started. simp_get. rewrite Ej. cbn. lia.
  - rewrite started_active, map_size_insert, Ej by done. done.
Qed.

Lemma started_all_size js w :
  (size (active_tasks (foldl (λ w j, started j w) w js)) <= length js + size (active_tasks w))%nat.
Proof.
  revert w. induction js as [|j js IH]; intros w; [done|]. cbn [foldl length].
  etrans; [apply IH|]. pose proof (started_size j w). lia.
Qed.

(** A poll does not exceed the number of places. *)
Lemma polled_size now w :
  (size (active_tasks (polled cfg now w)) <= max (max_tasks cfg) (size (active_tasks w)))%nat.
Proof.
  unfold polled. simp_get. etrans; [apply started_all_size|]. rewrite length_take.
  rewrite sweep_active. pose proof (map_size_filter (λ e, keeps w now e.2 = true) (active_tasks w)).
  lia.
Qed.
End managed.

(** ** The invariant of a node *)

(** At most 256 sets, numbered by their position, and attempts with numbers below 256.  The
    attempts need not be at the sets: a failure that is reported after a success makes a
    new tracker with an attempt and without sets. *)
Record tracker_wf (t : SigningSetHistoryTracker) : Prop := {
  tw_sets : (length (sets t) <= 256)%nat;
  tw_attempted i : i ∈ ssids_attempted t → 0 <= i < 256;
  tw_numbered k p : sets t !! k = Some p → ps_ssid p = Z.of_nat k }.

Definition protocol_wf (p : Protocol) : Prop :=
  match p with
  | SigningProtocol p => 0 <= sp_ssid p < 256
  | KeygenProtocol _ => True
  end.

Definition managers_inv (X Y : list Z) (s : SigningManager) (k : KeygenManager) (next : Z) : Prop :=
  ∃ D E : gset Z, managed X D (signing_work s) ∧ managed Y E (keygen_work k) ∧
    D ## E ∧ ∀ i, i ∈ D ∪ E → i < next.

(** [X] and [Y] are the handles that were created and not pushed yet. *)
Definition node_inv_upto (X Y : list Z) (n : Node) : Prop :=
  managers_inv X Y (signing_manager n) (keygen_manager n) (next_handle n) ∧
  (size (active_tasks (keygen_work (keygen_manager n))) <= 1)%nat ∧
  map_Forall (λ _ : bytes, tracker_wf) (ssid_history (signing_manager n)) ∧
  map_Forall (λ _ : Z, protocol_wf) (protocols n).

Abbreviation node_inv := (node_inv_upto [] []).

Section invariant.
Context `{JobOrder, !JobOrderLaws, Client, Keystore, Crypto, MessageCodec, SubmissionDelay,
  WebbProposals, SigningSets, !SigningSetsLaws, SyncService}.
Implicit Types (n : Node) (header : Header).

Lemma worker_new_inv o : node_inv (worker_new o).
Proof.
  split_and!; [|cbn; rewrite map_size_empty; lia|apply map_Forall_empty..].
  exists ∅, ∅. split_and!; [apply managed_empty..|set_solver|set_solver].
Qed.

(** Updates of the other fields. *)
Lemma preserves_frame X Y (f : Node → Node) :
  (∀ n, signing_manager (f n) = signing_manager n ∧ keygen_manager (f n) = keygen_manager n ∧
        next_handle (f n) = next_handle n ∧ protocols (f n) = protocols n) →
  preserves (node_inv_upto X Y) (modify f : NM unit).
Proof.
  intros Hf. apply preserves_modify. intros n. unfold node_inv_upto.
  destruct (Hf n) as (-> & -> & -> & ->). done.
Qed.

Hint Extern 3 (preserves (node_inv_upto _ _) (modify _)) => apply preserves_frame; done : preserves.

Lemma get_authority_public_key_keeps : preserves node_inv (get_authority_public_key : NM DKGId).
Proof. unfold get_authority_public_key. solve_preserves. Qed.

Lemma ignore_keeps (m : NM unit) : preserves node_inv m → preserves node_inv (ignore m).
Proof. intros Hm. unfold ignore. solve_preserves. Qed.

Hint Resolve get_authority_public_key_keeps ignore_keeps : preserves.

Lemma send_signed_keeps public m : preserves node_inv (send_signed public m).
Proof. unfold send_signed. solve_preserves. Qed.

Hint Resolve send_signed_keeps : preserves.

Lemma sign_and_send_msg_keeps m : preserves node_inv (sign_and_send_msg m).
Proof. unfold sign_and_send_msg, sign_and_send_messages. solve_preserves. Qed.

Lemma reports_entry_keeps key : preserves node_inv (reports_entry key).
Proof. unfold reports_entry. destruct key as [[ty session] who]. solve_preserves. Qed.

Lemma push_report_keeps key reporter sig : preserves node_inv (push_report key reporter sig).
Proof. unfold push_report. destruct key as [[ty session] who]. solve_preserves. Qed.

Lemma try_store_offchain_keeps r : preserves node_inv (try_store_offchain r).
Proof. unfold try_store_offchain, store_aggregated_misbehaviour_reports. solve_preserves. Qed.

Hint Resolve reports_entry_keeps push_report_keeps try_store_offchain_keeps : preserves.

Lemma gossip_misbehaviour_report_keeps r : preserves node_inv (gossip_misbehaviour_report r).
Proof. unfold gossip_misbehaviour_report. solve_preserves. Qed.

Hint Resolve gossip_misbehaviour_report_keeps : preserves.

Lemma handle_dkg_error_keeps e : preserves node_inv (handle_dkg_error e).
Proof.
  unfold handle_dkg_error. destruct (match e with
    | EKeygenMisbehaviour _ _ => _ | _ => _ end) as [offenders session].
  apply preserves_for_each. intros offender. unfold handle_dkg_report.
  destruct e; solve_preserves.
Qed.

Lemma handle_misbehaviour_report_keeps m : preserves node_inv (handle_misbehaviour_report m).
Proof. unfold handle_misbehaviour_report. solve_preserves. Qed.

Lemma store_aggregated_public_keys_keeps g session b :
  preserves node_inv (store_aggregated_public_keys g session b).
Proof. unfold store_aggregated_public_keys. solve_preserves. Qed.

Hint Resolve handle_dkg_error_keeps handle_misbehaviour_report_keeps
  store_aggregated_public_keys_keeps : preserves.

Lemma handle_public_key_broadcast_keeps m : preserves node_inv (handle_public_key_broadcast m).
Proof. unfold handle_public_key_broadcast. solve_preserves. Qed.

Lemma gossip_public_key_keeps m : preserves node_inv (gossip_public_key m).
Proof. unfold gossip_public_key. solve_preserves. Qed.

Lemma process_vote_result_keeps votes r : preserves node_inv (process_vote_result votes r).
Proof. unfold process_vote_result, save_signed_proposals_in_storage. solve_preserves. Qed.

Hint Resolve handle_public_key_broadcast_keeps gossip_public_key_keeps
  process_vote_result_keeps sign_and_send_msg_keeps : preserves.

(** *** Operations of the managers *)

Lemma on_signing_work_keeps {A} X X' Y (m : M WorkManager DKGError A) n :
  (∀ D w t, managed X D w → final (m w) = Some t → managed X' D t) →
  node_inv_upto X Y n →
  wp True (on_signing_work m) n (λ _, node_inv_upto X' Y) (λ _, node_inv_upto X' Y).
Proof.
  intros Hm ((D & E & HD & HE & Hdis & Hlt) & Hrest). unfold wp, on_signing_work, zoom.
  cbn.
  destruct (m (signing_work (signing_manager n))) as [a w|e w|] eqn:Em; [..|done];
    (split; [exists D, E; split_and!; [|done..]; eapply Hm; [exact HD|by rewrite Em]|exact Hrest]).
Qed.

Lemma on_keygen_work_keeps {A} X Y Y' (m : M WorkManager DKGError A) n :
  (∀ D w t, managed Y D w → final (m w) = Some t → managed Y' D t ∧
     (size (active_tasks t) <= max 1 (size (active_tasks w)))%nat) →
  node_inv_upto X Y n →
  wp True (on_keygen_work m) n (λ _, node_inv_upto X Y') (λ _, node_inv_upto X Y').
Proof.
  intros Hm ((D & E & HD & HE & Hdis & Hlt) & Hsize & Hrest).
  unfold wp, on_keygen_work, zoom. cbn.
  destruct (m (keygen_work (keygen_manager n))) as [a w|e w|] eqn:Em; [..|done];
    (destruct (Hm E (keygen_work (keygen_manager n)) w HE) as [HE' Hs]; [by rewrite Em|];
     split_and!; [exists D, E; by split_and!|simp_get; lia|apply Hrest..]).
Qed.

(** A new handle is below the next one. *)
Lemma new_signing_handle_keeps best session stage block ss n :
  node_inv n →
  wp True (generate_async_proto_params on_signing_work best session stage block ss) n
    (λ h, node_inv_upto [remote_id h] []) (λ _ _, False).
Proof.
  intros ((D & E & HD & HE & Hdis & Hlt) & Hrest).
  unfold wp, generate_async_proto_params. cbn. split; [|exact Hrest].
  exists ({[ next_handle n ]} ∪ D), E.
  assert (next_handle n ∉ D ∪ E) as Hn by (intros Hin%Hlt; lia).
  split_and!; [apply managed_new; [set_solver|done]|done|set_solver|].
  simp_get. intros i Hi. destruct (decide (i = next_handle n)) as [->|]; [lia|].
  assert (i < next_handle n) by (apply Hlt; set_solver). lia.
Qed.

Lemma new_keygen_handle_keeps best session stage block ss n :
  node_inv n →
  wp True (generate_async_proto_params on_keygen_work best session stage block ss) n
    (λ h, node_inv_upto [] [remote_id h]) (λ _ _, False).
Proof.
  intros ((D & E & HD & HE & Hdis & Hlt) & Hrest).
  unfold wp, generate_async_proto_params. cbn. split; [|exact Hrest].
  exists D, ({[ next_handle n ]} ∪ E).
  assert (next_handle n ∉ D ∪ E) as Hn by (intros Hin%Hlt; lia).
  split_and!; [done|apply managed_new; [set_solver|done]|set_solver|].
  simp_get. intros i Hi. destruct (decide (i = next_handle n)) as [->|]; [lia|].
  assert (i < next_handle n) by (apply Hlt; set_solver). lia.
Qed.

(** *** The signing manager *)

Lemma generate_signing_sets_wf pk data best t :
  let l := Signer.generate_signing_sets pk data best t in
  (length l <= 256)%nat ∧ ∀ k p, l !! k = Some p → ps_ssid p = Z.of_nat k.
Proof.
  intros l. assert (length l <= 256)%nat as Hl.
  { pose proof (Permutation_length (signing_sets_perm pk data best t)) as Hp. fold l in Hp.
    rewrite !length_fmap, length_take in Hp. unfold Signer.MAX_SETS in Hp. lia. }
  split; [done|]. intros k p Hk. assert (k < length l)%nat by (by eapply lookup_lt_Some).
  unfold l, Signer.generate_signing_sets in Hk. rewrite list_lookup_imap in Hk.
  apply fmap_Some in Hk as (s & _ & ->). apply wrap_small. unfold in_width. lia.
Qed.

Lemma next_attempt_wf gens t :
  (length gens <= 256)%nat → (∀ k p, gens !! k = Some p → ps_ssid p = Z.of_nat k) →
  tracker_wf t →
  tracker_wf (Signer.next_attempt gens t).1 ∧ 0 <= (Signer.next_attempt gens t).2 < 256.
Proof.
  intros Hg Hgn Ht. unfold Signer.next_attempt.
  assert (0 <= Signer.next_ssid t) as Hge.
  { unfold Signer.next_ssid. destruct (maximum _); [|done]. apply wrap_in_width. lia. }
  set (t1 := if Signer.next_ssid t =? 0 then t <| sets := gens |> else t).
  assert (tracker_wf t1) as [Hs Ha Hn].
  { unfold t1. destruct (_ =? _); [|done]. by split; [|apply Ht|]. }
  destruct (Z.leb_spec (len (sets t1)) (Signer.next_ssid t)); cbn [fst snd].
  - split; [|lia]. split; simp_get; [done| |done]. intros i.
    rewrite elem_of_union, elem_of_singleton, elem_of_empty. lia.
  - split; [|lia]. split; simp_get; [done| |done]. intros i.
    rewrite elem_of_union, elem_of_singleton. intros [->|?]; [lia|by apply Ha].
Qed.

(** The next attempt is at the set with its number, if there are sets at all. *)
Lemma next_attempt_at_set gens t :
  (length gens <= 256)%nat → (∀ k p, gens !! k = Some p → ps_ssid p = Z.of_nat k) →
  tracker_wf t →
  let '(t', ssid) := Signer.next_attempt gens t in
  sets t' = [] ∨ ∃ p, sets t' !! Z.to_nat ssid = Some p ∧ ps_ssid p = ssid.
Proof.
  intros Hg Hgn Ht. destruct (next_attempt_wf gens t Hg Hgn Ht) as [Hwf Hb].
  destruct (Signer.next_attempt gens t) as [t' ssid] eqn:E. cbn in Hwf, Hb.
  assert (sets t' = [] ∨ ssid < len (sets t')) as [|Hlt]; [|by left|].
  { unfold Signer.next_attempt in E. destruct (Z.leb_spec (len (sets
      (if Signer.next_ssid t =? 0 then t <| sets := gens |> else t))) (Signer.next_ssid t));
      injection E as <- <-; simp_get; [|by right].
    destruct (sets _); [by left|right; rewrite length_cons; lia]. }
  right. destruct (lookup_lt_is_Some_2 (sets t') (Z.to_nat ssid)) as [p Hp]; [lia|].
  exists p. split; [done|]. rewrite (tw_numbered _ Hwf _ _ Hp). lia.
Qed.

Lemma tracker_of_wf n hash : node_inv n → tracker_wf (Signer.tracker_of n hash).
Proof.
  intros (_ & _ & Ht & _). unfold Signer.tracker_of.
  destruct (ssid_history _ !! hash) as [t|] eqn:E; [by eapply Ht|].
  split; cbn; [lia|set_solver|done].
Qed.

Lemma set_tracker_keeps hash t n : tracker_wf t → node_inv n → node_inv (with_tracker hash t n).
Proof.
  intros Ht (Hm & Hs & Hw & Hp). split_and!; [done|done| |done].
  by apply map_Forall_insert_2.
Qed.

Lemma remove_tracker_keeps hash : preserves node_inv (Signer.remove_tracker hash).
Proof.
  apply preserves_modify. intros n (Hm & Hs & Hw & Hp). split_and!; [done|done| |done].
  by apply map_Forall_delete.
Qed.

Lemma signing_push_keeps hash force h n :
  node_inv_upto [remote_id h] [] n →
  wp True (on_signing_work (Work.push_task signing_config hash force h)) n
    (λ _, node_inv) (λ _, node_inv).
Proof. intros Hn. eapply on_signing_work_keeps; [|exact Hn]. intros D w t. apply managed_push. Qed.

Lemma start_signing_keeps r batch hash first p n :
  0 <= sp_ssid p < 256 → node_inv n →
  wp True (start_signing r batch hash first p) n (λ _, node_inv) (λ _, node_inv).
Proof.
  intros Hp Hn. unfold start_signing, Signer.initialize_signing_protocol.
  apply wp_bind, wp_catch, wp_bind.
  eapply wp_mono; [by apply new_signing_handle_keeps| |done].
  intros h n1 (Hm & Hs & Hw & Hpr). wp_step. wp_step; [|done]. wp_step. wp_step. wp_step.
  apply wp_bind.
  eapply wp_mono; [apply signing_push_keeps| |done].
  - split_and!; [done|done|done|]. by apply map_Forall_insert_2.
  - intros u n2 Hn2. by wp_step.
Qed.

Lemma process_batch_keeps r batch : preserves node_inv (Signer.process_batch r batch).
Proof.
  intros n Hn. unfold Signer.process_batch, Signer.set_tracker. cbv zeta.
  wp_step. wp_step; [|done]. wp_step. wp_step. wp_step; [by wp_step|].
  wp_step. wp_step; [|done]. wp_step; [wp_step; eapply wp_mono; [by apply remove_tracker_keeps|..]; done|].
  wp_step. wp_step. set (t0 := Signer.tracker_of n _).
  assert (tracker_wf t0) as H0' by (by apply tracker_of_wf).
  wp_step. wp_step. set (n1 := n <| signing_manager ::= _ |>).
  assert (node_inv n1) as Hn1 by (by apply set_tracker_keeps).
  wp_step; [by wp_step|].
  set (gens := Signer.generate_signing_sets _ _ _ _).
  destruct (generate_signing_sets_wf (Signer.round_dkg_pub_key r) (encode_batch batch)
    (Signer.round_best_authorities r) (Signer.round_threshold r)) as [Hg Hgn].
  pose proof (next_attempt_wf gens t0 Hg Hgn H0') as [Ht Hs].
  destruct (Signer.next_attempt gens t0) as [t ssid]. cbn [fst snd] in Ht, Hs.
  wp_step. wp_step. set (n2 := n1 <| signing_manager ::= _ |>).
  assert (node_inv n2) as Hn2 by (by apply set_tracker_keeps).
  destruct (sets t !! Z.to_nat ssid) as [s|] eqn:Es; [|by wp_step].
  wp_step. wp_step. set (n3 := n2 <| signing_manager ::= _ |>).
  assert (node_inv n3) as Hn3.
  { apply set_tracker_keeps; [|done]. destruct Ht as [Hl Ha Hk]. split; simp_get.
    - by rewrite length_alter.
    - done.
    - intros k p. destruct (decide (Z.to_nat ssid = k)) as [<-|].
      + rewrite list_lookup_alter_eq. intros (p' & Hp' & ->)%fmap_Some. simp_get. by apply Hk.
      + rewrite list_lookup_alter_ne by done. apply Hk. }
  wp_step; [by wp_step|]. wp_step. wp_step.
  by apply (start_signing_keeps r batch).
Qed.

Hint Resolve process_batch_keeps : preserves.

Lemma signing_on_block_finalized_keeps header :
  preserves node_inv (Signer.on_block_finalized header).
Proof. unfold Signer.on_block_finalized, Signer.get_unsigned_proposals. solve_preserves. Qed.

Lemma keygen_lock_keeps X Y : preserves (node_inv_upto X Y) Signer.keygen_lock.
Proof. by apply preserves_modify. Qed.

Lemma keygen_unlock_keeps X Y : preserves (node_inv_upto X Y) Signer.keygen_unlock.
Proof. by apply preserves_modify. Qed.

Lemma signing_work_keeps {A} (m : M WorkManager DKGError A) :
  (∀ D w t, managed [] D w → final (m w) = Some t → managed [] D t) →
  preserves node_inv (on_signing_work m).
Proof. intros Hm n Hn. by eapply on_signing_work_keeps. Qed.

Lemma clear_enqueued_proposal_tasks_keeps :
  preserves node_inv Signer.clear_enqueued_proposal_tasks.
Proof. apply signing_work_keeps. apply managed_clear. Qed.

Lemma signing_deliver_keeps m : preserves node_inv (Signer.deliver_message m).
Proof.
  unfold Signer.deliver_message. apply preserves_bind; [apply preserves_expect|]. intros hash.
  apply signing_work_keeps. intros D w t. apply (managed_deliver signing_config).
Qed.

Lemma signing_task_done_keeps p res :
  0 <= sp_ssid p < 256 → preserves node_inv (Signer.signing_task_done p res).
Proof.
  intros Hp. unfold Signer.signing_task_done, Signer.update_local_signing_set_state.
  destruct res as [[]|err|]; [apply remove_tracker_keeps| |apply preserves_panic].
  intros n Hn. wp_step. wp_step. wp_step. apply wp_modify. wp_step. wp_step. wp_step.
  apply set_tracker_keeps; [|done].
  destruct (tracker_of_wf n (sp_unsigned_proposal_hash p) Hn) as [Hs Ha Hk].
  split; simp_get; [done| |done]. intros i. rewrite elem_of_union, elem_of_singleton.
  intros [->|?]; [done|by apply Ha].
Qed.

Hint Resolve signing_on_block_finalized_keeps keygen_lock_keeps keygen_unlock_keeps
  clear_enqueued_proposal_tasks_keeps signing_deliver_keeps : preserves.

(** *** The key generation manager *)

Lemma keygen_work_keeps {A} X Y (m : M WorkManager DKGError A) :
  (∀ D w t, managed Y D w → final (m w) = Some t → managed Y D t ∧
     (size (active_tasks t) <= max 1 (size (active_tasks w)))%nat) →
  preserves (node_inv_upto X Y) (on_keygen_work m).
Proof. intros Hm n Hn. by eapply on_keygen_work_keeps. Qed.

Lemma keygen_poll_keeps : preserves node_inv Keygen.poll.
Proof.
  unfold Keygen.poll. apply preserves_bind; [apply preserves_gets|]. intros now.
  apply keygen_work_keeps. intros D w t Hw Ht. split; [by eapply managed_poll|].
  pose proof (wi_ids _ _ (mg_inv _ _ _ Hw)) as Hnd. unfold jobs in Hnd.
  rewrite fmap_app, app_nil_r, NoDup_app in Hnd.
  rewrite poll_run in Ht by apply Hnd. injection Ht as <-. apply (polled_size keygen_config).
Qed.

Lemma keygen_deliver_keeps m : preserves node_inv (Keygen.deliver_message m).
Proof.
  unfold Keygen.deliver_message. apply preserves_bind; [apply preserves_expect|]. intros hash.
  apply keygen_work_keeps. intros D w t Hw Ht. split; [by eapply (managed_deliver keygen_config)|].
  rewrite deliver_message_final in Ht. injection Ht as <-.
  destruct (List.find _ _); simp_get; lia.
Qed.

Lemma keygen_push_keeps h n : node_inv_upto [] [remote_id h] n →
  wp True (Keygen.push_task h) n (λ _, node_inv) (λ _, node_inv).
Proof.
  intros Hn. unfold Keygen.push_task. wp_step. wp_step. apply wp_bind.
  eapply wp_mono; [eapply (on_keygen_work_keeps [] _ []); [|exact Hn]| |done].
  - intros D w t Hw Ht. split; [by eapply managed_push|].
    rewrite push_task_final in Ht. injection Ht as <-. simp_get. lia.
  - intros [] n1 Hn1. by apply keygen_poll_keeps.
Qed.

Lemma set_state_keeps X Y st : preserves (node_inv_upto X Y) (Keygen.set_state st).
Proof. by apply preserves_modify. Qed.

Lemma force_shutdown_keeps X Y n : node_inv_upto X Y n →
  wp True (on_keygen_work Work.force_shutdown_all) n (λ _, node_inv_upto X Y) (λ _ _, False).
Proof.
  intros Hn. assert (wp True (on_keygen_work Work.force_shutdown_all) n
    (λ _, node_inv_upto X Y) (λ _, node_inv_upto X Y)) as Hw.
  { eapply on_keygen_work_keeps; [|exact Hn]. intros D w t Hw Ht.
    split; [by eapply managed_shutdown|].
    rewrite force_shutdown_run in Ht. injection Ht as <-. simp_get. rewrite map_size_empty. lia. }
  unfold wp, on_keygen_work, zoom in *. by rewrite force_shutdown_run in *.
Qed.

Hint Resolve keygen_poll_keeps keygen_deliver_keeps set_state_keeps : preserves.

Lemma initialize_keygen_protocol_keeps p n : node_inv n →
  wp True (Keygen.initialize_keygen_protocol p) n
    (λ o, match o with Some h => node_inv_upto [] [remote_id h] | None => node_inv end)
    (λ _, node_inv).
Proof.
  intros Hn. unfold Keygen.initialize_keygen_protocol. apply wp_bind, wp_catch.
  eapply wp_mono; [by apply new_keygen_handle_keeps| |by intros ? ? []].
  intros h n1 (Hm & Hs & Hw & Hp). wp_step. wp_step. wp_step.
  split_and!; [done|done|done|]. by apply map_Forall_insert_2.
Qed.

Lemma start_keygen_keeps stage header status party_i session :
  preserves node_inv (Keygen.start_keygen stage header status party_i session).
Proof.
  unfold Keygen.start_keygen. cbv zeta.
  apply preserves_bind; [apply get_authority_public_key_keeps|intros _].
  apply preserves_bind; [apply preserves_gets|intros retry].
  apply preserves_bind; [solve_preserves|intros _].
  intros n Hn. apply wp_bind.
  eapply wp_mono; [by apply initialize_keygen_protocol_keeps| |done].
  intros [h|] n1 Hn1; [|by wp_step]. apply wp_bind.
  eapply (wp_mono _ _ _ (λ _, node_inv_upto [] [remote_id h]) _ (λ _ _, False)); [| |done].
  { apply wp_when; intros _; [by apply force_shutdown_keeps|done]. }
  intros u n2 Hn2. wp_step. unfold Signer.keygen_lock. wp_step. apply wp_bind, wp_catch.
  eapply wp_mono; [apply keygen_push_keeps; exact Hn2| |].
  - intros v n3 Hn3. revert n3 Hn3. apply (preserves_bind node_inv); [apply set_state_keeps|].
    intros _. by apply preserves_modify.
  - intros e n3 Hn3. by apply handle_dkg_error_keeps.
Qed.

Hint Resolve start_keygen_keeps : preserves.

Lemma maybe_start_keygen_keeps stage header status :
  preserves node_inv (Keygen.maybe_start_keygen_for_stage stage header status).
Proof. unfold Keygen.maybe_start_keygen_for_stage. solve_preserves. Qed.

Hint Resolve maybe_start_keygen_keeps : preserves.

Lemma keygen_on_block_finalized_keeps header :
  preserves node_inv (Keygen.on_block_finalized header).
Proof.
  unfold Keygen.on_block_finalized, Keygen.pre_checks, Keygen.genesis_checks, Keygen.next_checks.
  destruct (validator_set header) as [[active queued]|]; [|solve_preserves].
  apply preserves_bind; [solve_preserves|intros _]. cbv zeta.
  apply preserves_bind; [solve_preserves|intros current].
  apply preserves_bind; [solve_preserves|intros state].
  apply preserves_bind; [solve_preserves|intros []]; [solve_preserves|].
  destruct (_ =? _); destruct state; solve_preserves.
Qed.

Lemma keygen_task_done_keeps p res : preserves node_inv (Keygen.keygen_task_done p res).
Proof.
  unfold Keygen.keygen_task_done. destruct res as [[]|err|]; [| |apply preserves_panic].
  - apply preserves_bind; [solve_preserves|intros _].
    apply preserves_bind; [by apply preserves_modify|intros _]. solve_preserves.
  - solve_preserves.
Qed.

Hint Resolve keygen_on_block_finalized_keeps : preserves.

(** *** Handlers and steps *)

Lemma process_block_notification_keeps header :
  preserves node_inv (process_block_notification header).
Proof.
  unfold process_block_notification, maybe_enact_genesis_authorities, maybe_rotate_local_session.
  solve_preserves.
Qed.

Hint Resolve process_block_notification_keeps : preserves.

Lemma initialization_keeps header : preserves node_inv (initialization header).
Proof. unfold initialization. solve_preserves. Qed.

Lemma process_incoming_keeps m : preserves node_inv (process_incoming_dkg_message m).
Proof. unfold process_incoming_dkg_message. solve_preserves. Qed.

Lemma handle_next_error_keeps : preserves node_inv handle_next_error.
Proof. unfold handle_next_error. solve_preserves. Qed.

Lemma node_step_keeps n t : node_step n t → node_inv n → node_inv t.
Proof.
  destruct 1 as [header n t Ht|header n t Ht|m n t Ht|n t Ht|n t Ht|i r r' n Hr Hp|i r r' n Hr Hp
    |i p res n t Hi _ Ht|i p res n t Hi _ Ht|m n t Ht|m n t Ht|session k n|votes r n t Ht];
    intros Hn.
  - by eapply preserves_final; [apply initialization_keeps|..].
  - by eapply preserves_final; [apply process_block_notification_keeps|..].
  - by eapply preserves_final; [apply process_incoming_keeps|..].
  - by eapply preserves_final; [apply handle_next_error_keeps|..].
  - eapply preserves_final; [|exact Hn|exact Ht]. apply signing_work_keeps.
    intros D w t'. apply managed_poll.
  - destruct Hn as ((D & E & HD & HE & Hdis & Hlt) & Hrest). split; [|exact Hrest].
    exists D, E. split_and!; [by eapply managed_protocol|done..].
  - destruct Hn as ((D & E & HD & HE & Hdis & Hlt) & Hrest). split; [|exact Hrest].
    exists D, E. split_and!; [done|by eapply managed_protocol|done..].
  - assert (0 <= sp_ssid p < 256) as Hp by (by apply (proj2 (proj2 (proj2 Hn)) i _ Hi)).
    eapply preserves_final; [by apply signing_task_done_keeps| |exact Ht].
    destruct Hn as (Hm & Hs & Hw & Hpr). split_and!; [done..|]. by apply map_Forall_delete.
  - eapply preserves_final; [by apply keygen_task_done_keeps| |exact Ht].
    destruct Hn as (Hm & Hs & Hw & Hpr). split_and!; [done..|]. by apply map_Forall_delete.
  - by eapply preserves_final; [apply gossip_public_key_keeps|..].
  - by eapply preserves_final; [apply sign_and_send_msg_keeps|..].
  - exact Hn.
  - by eapply preserves_final; [apply process_vote_result_keeps|..].
Qed.

Lemma node_reachable_inv n : node_reachable n → node_inv n.
Proof.
  intros [o Hn]. revert n Hn. apply rtc_ind_r; [apply worker_new_inv|].
  intros n t _. apply node_step_keeps.
Qed.

(** C8: whatever a node does and is told, in whatever order: every protocol it ever created
    belongs to a job of the manager it was created for, or was told to stop; no handle
    is known to both managers; no two jobs share a handle; and at most one key
    generation is active. *)
Theorem node_protocols_owned n :
  node_reachable n →
  let sw := signing_work (signing_manager n) in
  let kw := keygen_work (keygen_manager n) in
  (∀ i r, remotes sw !! i = Some r → (∃ j, j ∈ jobs sw ∧ remote_id (handle j) = i) ∨ told r) ∧
  (∀ i r, remotes kw !! i = Some r → (∃ j, j ∈ jobs kw ∧ remote_id (handle j) = i) ∨ told r) ∧
  remotes sw ##ₘ remotes kw ∧
  NoDup (remote_id ∘ handle <$> jobs sw ++ jobs kw) ∧
  (size (active_tasks kw) <= 1)%nat.
Proof.
  intros ((D & E & HD & HE & Hdis & _) & Hsize & _)%node_reachable_inv sw kw.
  assert (∀ X w, managed [] X w → ∀ i r, remotes w !! i = Some r →
    (∃ j, j ∈ jobs w ∧ remote_id (handle j) = i) ∨ told r) as Hown.
  { intros X w [Hi Hs _] i r Hr.
    destruct (wi_stopped _ _ Hi i r Hr) as [Hj|[[]%not_elem_of_nil|Hstop]].
    - left. apply list_elem_of_fmap in Hj as (j & -> & Hj). by exists j.
    - right. split; [done|by eapply Hs]. }
  assert (∀ X w i, managed [] X w → i ∈ (remote_id ∘ handle <$> jobs w) → i ∈ X) as Hin.
  { intros X w i [Hi _ Hd] (j & -> & Hj)%list_elem_of_fmap.
    destruct (wi_known _ _ Hi j Hj) as [r Hr]. destruct (decide (remote_id (handle j) ∈ X)) as [|Hn]; [done|].
    apply Hd in Hn. congruence. }
  split_and!; [by eapply Hown..| | |done].
  - apply map_disjoint_spec. intros i r r' Hr Hr'. unfold sw, kw in Hr, Hr'.
    apply (Hdis i); apply dec_stable; intros Hn;
      [apply (mg_dom _ _ _ HD) in Hn|apply (mg_dom _ _ _ HE) in Hn]; congruence.
  - rewrite fmap_app. apply NoDup_app.
    pose proof (wi_ids _ _ (mg_inv _ _ _ HD)) as H1'. pose proof (wi_ids _ _ (mg_inv _ _ _ HE)) as H2'.
    rewrite app_nil_r in H1', H2'. split_and!; [done| |done].
    intros i Hi Hi'. eapply (Hdis i); by eapply Hin.
Qed.

(** C34: the histories of signing attempts of a reachable node are well formed: at most 256
    sets per batch, numbered by their position, and attempts with numbers below 256, so
    that the number after the last attempt fits its u16 and never wraps.  Whatever sets
    are generated next, the attempt that follows is at the set with its number, or there
    are no sets to attempt. *)
Theorem signing_histories_wf n hash t pk data best th :
  node_reachable n → ssid_history (signing_manager n) !! hash = Some t →
  tracker_wf t ∧ 0 <= Signer.next_ssid t <= 256 ∧
  let '(t', ssid) := Signer.next_attempt (Signer.generate_signing_sets pk data best th) t in
  tracker_wf t' ∧ 0 <= ssid < 256 ∧
  (sets t' = [] ∨ ∃ p, sets t' !! Z.to_nat ssid = Some p ∧ ps_ssid p = ssid).
Proof.
  intros (_ & _ & Ht & _)%node_reachable_inv Hh. specialize (Ht hash t Hh). split; [done|].
  destruct (generate_signing_sets_wf pk data best th) as [Hg Hgn]. split.
  - unfold Signer.next_ssid. destruct (maximum _) as [m|] eqn:Hm; [|lia].
    apply maximum_Some in Hm as [Hm%elem_of_elements _]. pose proof (tw_attempted _ Ht m Hm).
    rewrite wrap_small; [lia|]. unfold in_width. lia.
  - pose proof (next_attempt_wf _ t Hg Hgn Ht) as Hwf. pose proof (next_attempt_at_set _ t Hg Hgn Ht) as Hset.
    destruct (Signer.next_attempt _ t). by destruct Hwf.
Qed.
End invariant.
