(* ===== verification/KeygenManagerSpec.v ===== *)
(** * Theorems about the key generation manager

    A key generation starts when it is due and only then, with signing locked while
    it runs; and what goes wrong when one is forced while another runs. *)

From S2P Require Import Prelude.
From S2P Require Import Frame.
From S2P Require Import Primitives.
From S2P Require Import GadgetTypes.
From S2P Require Import Remote.
From S2P Require Import WorkManager.
From S2P Require Import WorkManagerSpec.
From S2P Require Import Client.
From S2P Require Import Node.
From S2P Require Import Reports.
From S2P Require Import SigningManager.
From S2P Require Import KeygenManager.
From S2P Require Import Worker.
From S2P Require Import WorkerSpec.

(** ** An idle work manager *)

Section idle.
Context `{JobOrder, !JobOrderLaws}.
Implicit Types (w : WorkManager) (h : Handle).

Lemma iter_jobs_empty : iter_jobs ∅ = [].
Proof. apply Permutation_nil_r. rewrite iter_jobs_perm. by rewrite map_to_list_empty. Qed.

(** What is known of a job that was pushed to an idle manager. *)
Record running w hash h : Prop := {
  run_active : active_tasks w = {[ hash := mkJob hash h ]};
  run_waiting : enqueued_tasks w = [];
  run_remote : ∃ r, remotes w !! remote_id h = Some r ∧ start_sent r = true ∧ stop_tx r = true }.

Lemma started_remote j w r :
  active_tasks w !! task_hash j = None → remotes w !! remote_id (handle j) = Some remote_new →
  remotes (started j w) !! remote_id (handle j) = Some r →
  start_sent r = true ∧ stop_tx r = true.
Proof.
  intros Ha Hr. unfold started. simp_get. rewrite lookup_alter_eq, Hr, Ha. cbn -[deliver_all effect].
  intros [= <-]. set (ms := acceptable_for _ _).
  assert (∀ l x, start_sent (deliver_all l x) = start_sent x ∧ stop_tx (deliver_all l x) = stop_tx x)
    as Hd.
  { induction l as [|m l IH]; intros x; [done|]. cbn [deliver_all foldl].
    destruct (IH (effect (remote_deliver m) x)) as [E1 E2]. unfold deliver_all in E1, E2.
    rewrite E1, E2, remote_deliver_stop. split; [|done].
    unfold remote_deliver, effect. cbv [mbind M_bind gets]. destruct (is_active x); [|done].
    by destruct (payload (msg m)), x as [???? [] [] ???????]. }
  by destruct (Hd ms (effect start remote_new)) as [-> ->].
Qed.

(** The job is started at once. *)
Lemma push_poll_idle w hash h now :
  active_tasks w = ∅ → enqueued_tasks w = [] → remotes w !! remote_id h = Some remote_new →
  ∃ w1 w2, Work.push_task keygen_config hash false h w = Ret tt w1 ∧
    Work.poll keygen_config now w1 = Ret tt w2 ∧ running w2 hash h ∧
    ∀ i, i ≠ remote_id h → remotes w2 !! i = remotes w !! i.
Proof.
  intros Ha He Hr. set (w1 := w <| enqueued_tasks ::= (λ l, l ++ [mkJob hash h]) |>).
  assert (active_tasks w1 = ∅) as Ha1 by done.
  exists w1, (polled keygen_config now w1). split; [done|]. split.
  { apply poll_run. unfold active_jobs. rewrite Ha1, map_to_list_empty. apply NoDup_nil_2. }
  assert (sweep w1 now (iter_jobs (active_tasks w1)) w1 = w1) as Hsw.
  { rewrite Ha1, iter_jobs_empty. by destruct w1. }
  assert (take (max_tasks keygen_config - size (active_tasks w1)) (enqueued_tasks w1) =
    [mkJob hash h]) as Ht.
  { rewrite Ha1, map_size_empty. unfold w1. simp_get. by rewrite He. }
  set (w2 := polled keygen_config now w1).
  assert (active_tasks w2 = active_tasks (started (mkJob hash h) w1)) as Ea.
  { unfold w2, polled. simp_get. rewrite Hsw, Ht. done. }
  assert (remotes w2 = remotes (started (mkJob hash h) w1)) as Er.
  { unfold w2, polled. simp_get. rewrite Hsw, Ht. done. }
  split; [|intros i Hi; rewrite Er; unfold started; simp_get; by rewrite lookup_alter_ne].
  assert (active_tasks w1 !! hash = None) as Hn by (by rewrite Ha1).
  split.
  - rewrite Ea, started_active by done. by rewrite Ha1, insert_empty.
  - unfold w2, polled. simp_get. rewrite Hsw, Ha1, map_size_empty. unfold w1. simp_get. by rewrite He.
  - rewrite Er. destruct (remotes (started (mkJob hash h) w1) !! remote_id h) as [r|] eqn:E.
    + exists r. split; [done|]. by eapply (started_remote (mkJob hash h) w1).
    + apply started_None in E. unfold w1 in E. simp_get_in E. congruence.
Qed.
End idle.

(** ** Starting *)

Section keygen.
Context `{JobOrder, !JobOrderLaws, Client, Keystore, Crypto, MessageCodec, SubmissionDelay,
  WebbProposals, SigningSets, !SigningSetsLaws}.
Implicit Types (n : Node) (header : Header) (stage : KeygenRound).

Abbreviation kwork n := (keygen_work (keygen_manager n)).

(** The key under which the node signs. *)
Definition own_key : option DKGId := ecdsa_public_keys ≫= authority_id.

Lemma get_authority_public_key_cases n :
  (get_authority_public_key : NM DKGId) n =
    match own_key with Some public => Ret public n | None => Panic end.
Proof.
  unfold own_key, get_authority_public_key, mbind, M_bind, expect, option_bind.
  destruct ecdsa_public_keys as [keys|]; [|done]. cbn. by destruct (authority_id keys).
Qed.

Lemma get_authority_public_key_run public n : own_key = Some public →
  (get_authority_public_key : NM DKGId) n = Ret public n.
Proof. rewrite get_authority_public_key_cases. by intros ->. Qed.


Definition stage_params stage header party_i session n : KeygenParams := {|
  kp_best_authorities := keygen_parties (match stage with
    | Genesis => get_best_authorities header | Next => get_next_best_authorities header end);
  kp_party_i := party_i; kp_session_id := session; kp_associated_block := number header;
  kp_threshold := match stage with
    | Genesis => get_signature_threshold header | Next => get_next_signature_threshold header end;
  kp_stage := stage;
  kp_keygen_protocol_hash := get_keygen_protocol_hash session
    (active_keygen_retry_id (keygen_manager n)) |}.

(** The state in which the manager runs a key generation. *)
Record keygen_running stage session (p : KeygenParams) n : Prop := {
  kr_state : keygen_state (keygen_manager n) =
    match stage with Genesis => RunningGenesisKeygen | Next => RunningKeygen end;
  kr_lock : lock (signing_manager n) = true;
  kr_latest : latest_executed_session_id (keygen_manager n) = Some session;
  kr_job : ∃ h, running (kwork n) (kp_keygen_protocol_hash p) h ∧ session_id h = session ∧
    protocols n !! remote_id h = Some (KeygenProtocol p) }.

Definition keygen_handle (p : KeygenParams) n : Handle :=
  let stage := match kp_stage p with Genesis => KeygenGenesis | Next => KeygenStandard end in {|
  remote_id := next_handle n; started_at := get_latest_block_number n;
  session_id := kp_session_id p; associated_block_id := kp_associated_block p; ssid := 0;
  proto_stage_type := stage;
  index_to_authority_mapping := generate_authority_mapping (kp_best_authorities p) stage |}.

Lemma initialize_keygen_run p n :
  Keygen.initialize_keygen_protocol p n = Ret (Some (keygen_handle p n))
    (n <| next_handle ::= Z.succ |>
       <| keygen_manager ::= set keygen_work (set remotes (insert (next_handle n) remote_new)) |>
       <| protocols ::= insert (next_handle n) (KeygenProtocol p) |>).
Proof. by destruct n as [? []]. Qed.

(** Nothing but the work of the two managers changes. *)
Record same_but_work n n' : Prop := {
  sb_keygen : keygen_manager n' =
    (keygen_manager n) <| keygen_work := kwork n' |>;
  sb_lock : lock (signing_manager n') = lock (signing_manager n);
  sb_header : latest_header n' = latest_header n;
  sb_next : next_handle n' = next_handle n;
  sb_protocols : protocols n' = protocols n }.

Lemma clear_proposals_run (b : bool) n :
  ∃ n', when b Signer.clear_enqueued_proposal_tasks n = Ret tt n' ∧
    same_but_work n n' ∧ kwork n' = kwork n.
Proof.
  destruct b; cbn [when]; [|exists n; by destruct n as [? []]].
  unfold Signer.clear_enqueued_proposal_tasks, on_signing_work, zoom. rewrite clear_run.
  eexists. split; [done|]. by destruct n as [? []].
Qed.

(** After the forced shutdown the manager is idle; the new handle is left alone. *)
Lemma shutdown_idle (b : bool) n i :
  remotes (kwork n) !! i = Some remote_new →
  (∀ j, j ∈ jobs (kwork n) → remote_id (handle j) ≠ i) →
  (b = true ∨ active_tasks (kwork n) = ∅ ∧ enqueued_tasks (kwork n) = []) →
  ∃ n', when b (on_keygen_work Work.force_shutdown_all) n = Ret tt n' ∧ same_but_work n n' ∧
    active_tasks (kwork n') = ∅ ∧ enqueued_tasks (kwork n') = [] ∧
    remotes (kwork n') !! i = Some remote_new ∧
    (b = true → ∀ j r, j ∈ jobs (kwork n) → remotes (kwork n) !! remote_id (handle j) = Some r →
       remotes (kwork n') !! remote_id (handle j) = Some (ended r)).
Proof.
  intros Hi Hj Hb. destruct b; cbn [when].
  - unfold on_keygen_work, zoom. change ((keygen_work ∘ keygen_manager) n) with (kwork n).
    rewrite force_shutdown_run. eexists. split; [done|].
    assert (∀ k, k ∈ (remote_id ∘ handle <$> (iter_jobs (active_tasks (kwork n))).*2 ++
      enqueued_tasks (kwork n)) ↔ ∃ j, j ∈ jobs (kwork n) ∧ k = remote_id (handle j)) as Hin.
    { intros k. rewrite iter_jobs_perm, list_elem_of_fmap. unfold jobs, active_jobs. naive_solver. }
    split; [by destruct n as [? []]|]. simp_get. split_and!; [done|done| |].
    + rewrite end_jobs_lookup, Hi, decide_False; [done|]. intros (j & Hjj & ->)%Hin. by apply (Hj j).
    + intros _ j r Hjj Hr. rewrite end_jobs_lookup, Hr.
      rewrite decide_True; [done|]. apply Hin. by exists j.
  - destruct Hb as [|[Ha He]]; [done|]. exists n. split_and!; try done. by destruct n as [? []].
Qed.

Lemma old_handle n j : node_inv n → j ∈ jobs (kwork n) → remote_id (handle j) < next_handle n.
Proof.
  intros ((D & E & HD & HE & Hdis & Hlt) & _) Hj.
  apply Hlt, elem_of_union. right. apply dec_stable. intros Hn.
  apply (mg_dom _ _ _ HE) in Hn. destruct (wi_known _ _ (mg_inv _ _ _ HE) j Hj) as [r Hr].
  congruence.
Qed.

Lemma keygen_push_idle n h :
  active_tasks (kwork n) = ∅ → enqueued_tasks (kwork n) = [] →
  remotes (kwork n) !! remote_id h = Some remote_new →
  ∃ n', Keygen.push_task h n = Ret tt n' ∧ same_but_work n n' ∧
    running (kwork n') (get_keygen_protocol_hash (session_id h)
      (active_keygen_retry_id (keygen_manager n))) h ∧
    ∀ i, i ≠ remote_id h → remotes (kwork n') !! i = remotes (kwork n) !! i.
Proof.
  intros Ha He Hr. set (hash := get_keygen_protocol_hash _ _).
  destruct (push_poll_idle (kwork n) hash h (get_latest_block_number n) Ha He Hr)
    as (w1 & w2 & Hpush & Hpoll & Hrun & Hother).
  exists (n <| keygen_manager ::= set keygen_work (λ _, w2) |>).
  unfold Keygen.push_task, Keygen.poll. rewrite run_gets. fold hash.
  assert (∀ m (w : WorkManager) n0, m (kwork n0) = Ret tt w → on_keygen_work m n0 =
    Ret tt (n0 <| keygen_manager ::= set keygen_work (λ _, w) |>)) as Hzoom.
  { intros m w n0 Hm. unfold on_keygen_work, zoom. cbn. by rewrite Hm. }
  rewrite (run_call _ _ _ _ _ (Hzoom _ _ _ Hpush)), run_gets.
  split_and!; [|by destruct n as [? []]|done|done].
  rewrite (Hzoom _ w2); [by destruct n as [? []]|]. exact Hpoll.
Qed.

(** Where the manager is idle, or the key generation is forced, a node with a key
    starts it at once, and signing is locked. *)
Lemma start_keygen_spec stage header status party_i session n public :
  node_inv n → own_key = Some public →
  (force_execute status = true ∨ active_tasks (kwork n) = ∅ ∧ enqueued_tasks (kwork n) = []) →
  ∃ n', Keygen.start_keygen stage header status party_i session n = Ret tt n' ∧
    keygen_running stage session (stage_params stage header party_i session n) n' ∧
    protocols n' = <[next_handle n :=
      KeygenProtocol (stage_params stage header party_i session n)]> (protocols n) ∧
    finished_count (keygen_manager n') = finished_count (keygen_manager n) ∧
    (force_execute status = true → ∀ j r, j ∈ jobs (kwork n) →
       remotes (kwork n) !! remote_id (handle j) = Some r →
       remotes (kwork n') !! remote_id (handle j) = Some (ended r)).
Proof.
  intros Hn Hown Hidle. pose proof (λ j, old_handle n j Hn) as Hold.
  unfold Keygen.start_keygen. cbv zeta.
  rewrite (run_call _ _ _ _ _ (get_authority_public_key_run public n Hown)), run_gets.
  destruct (clear_proposals_run (force_execute status) n) as (n0 & Hrun0 & Hs0 & Hk0).
  rewrite (run_call _ _ _ _ _ Hrun0).
  rewrite (run_call _ _ _ _ _ (initialize_keygen_run _ n0)).
  set (p := stage_params stage header party_i session n).
  set (n1 := n0 <| next_handle ::= _ |> <| keygen_manager ::= _ |> <| protocols ::= _ |>).
  assert (next_handle n0 = next_handle n) as Hnext by apply Hs0.
  assert (jobs (kwork n1) = jobs (kwork n)) as Hjobs.
  { unfold n1. simp_get. by rewrite Hk0. }
  assert (remotes (kwork n1) = <[next_handle n := remote_new]> (remotes (kwork n))) as Hrem.
  { unfold n1. simp_get. by rewrite Hk0, Hnext. }
  destruct (shutdown_idle (force_execute status) n1 (next_handle n))
    as (n2 & Hrun2 & Hs2 & Ha2 & He2 & Hr2 & Hend).
  { by rewrite Hrem, lookup_insert_eq. }
  { rewrite Hjobs. intros j Hj. pose proof (Hold j Hj). lia. }
  { destruct Hidle as [?|[??]]; [by left|right]. unfold n1. simp_get. by rewrite Hk0. }
  rewrite (run_call _ _ _ _ _ Hrun2). unfold Signer.keygen_lock. rewrite run_modify.
  set (n3 := n2 <| signing_manager ::= _ |>). change (kwork n2) with (kwork n3) in *.
  assert (active_keygen_retry_id (keygen_manager n3) =
    active_keygen_retry_id (keygen_manager n)) as Hretry.
  { unfold n3. simp_get. rewrite (sb_keygen _ _ Hs2). unfold n1. simp_get.
    by rewrite (sb_keygen _ _ Hs0). }
  match goal with |- context [keygen_handle ?q n0] => change q with p end.
  set (h := keygen_handle p n0).
  assert (remote_id h = next_handle n) as Hid by apply Hs0.
  destruct (keygen_push_idle n3 h) as (n4 & Hrun4 & Hs4 & Hjob & Hother);
    [done|done|by rewrite Hid|].
  rewrite Hretry in Hjob.
  unfold catch. cbv [mbind M_bind]. rewrite Hrun4. cbv [Keygen.set_state modify].
  eexists. split; [done|].
  assert (protocols n4 = <[next_handle n := KeygenProtocol p]> (protocols n)) as Hprot.
  { rewrite (sb_protocols _ _ Hs4). unfold n3. simp_get. rewrite (sb_protocols _ _ Hs2).
    unfold n1. simp_get. by rewrite (sb_protocols _ _ Hs0), Hnext. }
  split_and!.
  - split; simp_get; [done| |done|].
    + by rewrite (sb_lock _ _ Hs4).
    + exists h. split_and!; [exact Hjob|done|]. rewrite Hprot, Hid. apply lookup_insert_eq.
  - simp_get. exact Hprot.
  - simp_get. rewrite (sb_keygen _ _ Hs4). unfold n3. simp_get. rewrite (sb_keygen _ _ Hs2).
    unfold n1. simp_get. by rewrite (sb_keygen _ _ Hs0).
  - intros Hf j r Hj Hr. simp_get. assert (remote_id (handle j) ≠ remote_id h) as Hne.
    { pose proof (Hold j Hj). rewrite Hid. lia. }
    rewrite Hother by done. apply Hend; [done|by rewrite Hjobs|].
    rewrite Hrem, lookup_insert_ne; [done|]. by rewrite <- Hid.
Qed.

(** ** Blocks *)




Definition stage_party stage public header : option Z :=
  match stage with
  | Genesis => get_party_index public header
  | Next => get_next_party_index public header
  end.



(** ** Only when due *)

(** What justifies a key generation. *)
Definition keygen_cause header : Prop :=
  ∃ stage public i, own_key = Some public ∧ stage_party stage public header = Some i ∧ i ≠ 0 ∧
    match stage with
    | Genesis => dkg_pub_key_is_unset header = true
    | Next => force_execute (should_execute_new_keygen header) = true ∨
        execute (should_execute_new_keygen header) = true ∧ get_next_dkg_pub_key header = None
    end.

Section cause.
Context (header : Header) (n0 : Node).

(** No handle was created since [n0], unless there was a cause. *)
Definition quiet n : Prop := next_handle n = next_handle n0 ∨ keygen_cause header.

Lemma keygen_work_quiet {A} (m : M WorkManager DKGError A) : preserves quiet (on_keygen_work m).
Proof.
  intros n Hn. unfold wp, on_keygen_work, zoom. by destruct (m _).
Qed.

Lemma caused {A} (m : NM A) : keygen_cause header → preserves quiet m.
Proof. intros Hc n _. unfold wp. destruct (m n); [by right..|done]. Qed.

Lemma maybe_start_quiet stage :
  preserves quiet (Keygen.maybe_start_keygen_for_stage stage header (should_execute_new_keygen header)).
Proof.
  unfold Keygen.maybe_start_keygen_for_stage. destruct (validator_set header) as [[active queued]|];
    [|solve_preserves]. cbv zeta. set (status := should_execute_new_keygen header).
  destruct (match stage with Genesis => _ | Next => _ end) eqn:Href; [solve_preserves|].
  intros n Hn. apply wp_bind. unfold wp at 1. rewrite get_authority_public_key_cases.
  destruct own_key as [public|] eqn:Hk; [|done].
  assert (∀ i, stage_party stage public header = Some i → i ≠ 0 → keygen_cause header) as Hc.
  { intros i Hi Hi0. exists stage, public, i. split_and!; [done..|]. fold status.
    destruct stage; [by apply negb_false_iff in Href|].
    apply orb_false_iff in Href as [H1' H2'].
    destruct (force_execute status); [by left|right]. rewrite andb_true_r in H1', H2'.
    apply negb_false_iff in H1'. apply bool_decide_eq_false in H2'.
    by rewrite eq_None_not_Some. }
  destruct stage; cbn [stage_party] in *;
    [destruct (get_party_index public header) as [i|] eqn:Hi
    |destruct (get_next_party_index public header) as [i|] eqn:Hi]; try by wp_step.
  all: unfold keygen_party_id; destruct (Z.eqb_spec i 0); [by wp_step|].
  all: apply caused; [by eapply Hc|done].
Qed.
End cause.

(** C16: A block makes a node start a key generation only if the node is among the
    authorities of the stage, and there is no key on the chain yet, or the next key is
    missing and it is time for it, or the chain forces one. *)
Theorem no_keygen_without_cause header n n' :
  final (Keygen.on_block_finalized header n) = Some n' → next_handle n' ≠ next_handle n →
  keygen_cause header.
Proof.
  intros Hf Hne. assert (preserves (quiet header n) (Keygen.on_block_finalized header)) as Hq.
  { unfold Keygen.on_block_finalized, Keygen.pre_checks, Keygen.genesis_checks,
      Keygen.next_checks, Keygen.poll.
    pose proof (maybe_start_quiet header n) as Hstart.
    destruct (validator_set header) as [[active queued]|]; [|solve_preserves].
    pose proof (@keygen_work_quiet header n) as Hwork.
    apply preserves_bind; [apply preserves_bind; [solve_preserves|intros; apply Hwork]|intros _].
    cbv zeta. apply preserves_bind; [solve_preserves|intros current].
    apply preserves_bind; [solve_preserves|intros state].
    apply preserves_bind; [|intros []; [solve_preserves|]].
    - destruct (force_execute _); [|destruct (_ && _)]; [..|solve_preserves];
        repeat (apply preserves_bind; [solve_preserves|intros ?]); try apply preserves_ret;
        apply preserves_bind; auto with preserves.
    - destruct (_ =? _); destruct state; repeat case_match; solve_preserves. }
  destruct (preserves_final _ _ n n' Hq (or_introl eq_refl) Hf) as [?|?]; done.
Qed.

(** ** Forced key generations *)

Lemma ended_sent r : stop_tx r = true → stop_rx_open r = true → stop_sent (ended r) = Some DropCode.
Proof.
  intros Ht Ho. unfold ended.
  destruct (remote_drop_ends (effect (shutdown DropCode) r)) as (_ & _ & Hs & _).
  rewrite Hs; rewrite shutdown_effect, Ht, Ho; done.
Qed.

(** A forced key generation drops the one that runs.  The dropped one then ends
    without an error, so the manager takes it for completed: it reports a key for its
    session, counts it, and unlocks signing, while the forced one is running. *)
Theorem forced_keygen_unlocks stage header status party_i session n public j r p :
  node_inv n → own_key = Some public → force_execute status = true →
  j ∈ jobs (kwork n) → remotes (kwork n) !! remote_id (handle j) = Some r →
  stop_tx r = true → stop_rx_open r = true →
  protocols n !! remote_id (handle j) = Some (KeygenProtocol p) →
  ∃ n1 r1 n2,
    Keygen.start_keygen stage header status party_i session n = Ret tt n1 ∧
    keygen_running stage session (stage_params stage header party_i session n) n1 ∧
    protocols n1 !! remote_id (handle j) = Some (KeygenProtocol p) ∧
    remotes (kwork n1) !! remote_id (handle j) = Some r1 ∧ stop_sent r1 = Some DropCode ∧
    Keygen.keygen_task_done p (Keygen.keygen_stopped (handle j) r1 (stop_sent r1)) n1 = Ret tt n2 ∧
    keygen_state (keygen_manager n2) = KeygenCompleted (kp_session_id p) ∧
    finished_count (keygen_manager n2) = wrap 64 (finished_count (keygen_manager n) + 1) ∧
    lock (signing_manager n2) = false ∧ kwork n2 = kwork n1.
Proof.
  intros Hn Hown Hf Hj Hr Ht Ho Hp.
  destruct (start_keygen_spec stage header status party_i session n public Hn Hown (or_introl Hf))
    as (n1 & Hrun & Hk & Hprot & Hfin & Hend).
  specialize (Hend Hf j r Hj Hr). pose proof (ended_sent r Ht Ho) as Hsent.
  exists n1, (ended r). eexists. split_and!; [done|done| |done|done|by rewrite Hsent|done| |done|done].
  - rewrite Hprot, lookup_insert_ne; [done|]. pose proof (old_handle n j Hn Hj). lia.
  - rewrite <- Hfin. by destruct n1 as [? []].
Qed.
End keygen.
