(* ===== verification/WorkerReports.v ===== *)
(** * The reports of a reachable node

    Whatever a node is sent, the misbehaviour reports it collects and leaves in
    offchain storage have distinct reporters and a valid signature of each, and the
    pallet counts all of them. *)

From S2P Require Import Prelude.
From S2P Require Import Frame.
From S2P Require Import Primitives.
From S2P Require Import Metadata.
From S2P Require Import Sessions.
From S2P Require Import GadgetTypes.
From S2P Require Import Remote.
From S2P Require Import WorkManager.
From S2P Require Import WorkManagerSpec.
From S2P Require Import Client.
From S2P Require Import Node.
From S2P Require Import Reports.
From S2P Require Import ReportsSpec.
From S2P Require Import SigningManager.
From S2P Require Import KeygenManager.
From S2P Require Import Worker.

Section reports.
Context `{JobOrder, Client, Keystore, Crypto, !KeystoreLaws, MessageCodec, SubmissionDelay,
  WebbProposals, SigningSets, SyncService}.
Implicit Types (n : Node) (header : Header).

Hint Extern 3 (preserves reports_inv (modify _)) => apply reports_frame; done : preserves.

Lemma signing_work_reports {A} (m : M WorkManager DKGError A) :
  preserves reports_inv (on_signing_work m).
Proof. intros n Hn. unfold wp, on_signing_work, zoom. by destruct (m _). Qed.

Lemma keygen_work_reports {A} (m : M WorkManager DKGError A) :
  preserves reports_inv (on_keygen_work m).
Proof. intros n Hn. unfold wp, on_keygen_work, zoom. by destruct (m _). Qed.

Lemma new_handle_reports on_work best session stage block ss :
  (∀ m, preserves reports_inv (on_work m)) →
  preserves reports_inv (generate_async_proto_params on_work best session stage block ss).
Proof. intros Hw. unfold generate_async_proto_params. solve_preserves. Qed.

Hint Resolve signing_work_reports keygen_work_reports new_handle_reports own_key_reports
  send_signed_reports handle_misbehaviour_report_ok gossip_misbehaviour_report_ok
  handle_dkg_error_ok : preserves.

(** Writing the other items of offchain storage. *)
Lemma put_offchain_reports (f : Offchain → Offchain) o n :
  (∀ o, stored_reports (f o) = stored_reports o) → reports_inv n → offchain n = Some o →
  reports_inv (n <| offchain := Some (f o) |>).
Proof.
  intros Hf [Ha Ho] Hoff. split; [exact Ha|]. intros o' r [= <-] Hr. rewrite Hf in Hr. by eapply Ho.
Qed.

Lemma store_public_keys_reports g session b :
  preserves reports_inv (store_aggregated_public_keys g session b).
Proof.
  intros n Hn. unfold store_aggregated_public_keys. wp_step. wp_step. wp_step. wp_step; [|done].
  wp_step. wp_step. wp_step. wp_step; [|done]. wp_step.
  destruct g; wp_step; wp_step; by apply put_offchain_reports.
Qed.

Lemma vote_result_reports votes r : preserves reports_inv (process_vote_result votes r).
Proof.
  unfold process_vote_result, save_signed_proposals_in_storage. cbv zeta.
  destruct (_ =? _); [|solve_preserves]. apply preserves_bind; [solve_preserves|intros public].
  apply preserves_bind; [|solve_preserves]. case_bool_decide; [solve_preserves|].
  apply preserves_bind; [solve_preserves|intros current].
  destruct (find_index _ _); [|solve_preserves].
  apply preserves_bind; [solve_preserves|intros [header|]]; [|solve_preserves].
  apply preserves_bind_gets. intros s Hs. destruct (offchain s) as [o|] eqn:Ho; [|by wp_step].
  wp_step. by apply put_offchain_reports.
Qed.

Hint Resolve store_public_keys_reports : preserves.

Lemma process_batch_reports r batch : preserves reports_inv (Signer.process_batch r batch).
Proof.
  unfold Signer.process_batch, Signer.set_tracker, Signer.remove_tracker,
    Signer.initialize_signing_protocol. cbv zeta.
  repeat (apply preserves_bind; [solve_preserves|intros ?]).
  destruct (negb _); [solve_preserves|].
  repeat (apply preserves_bind; [solve_preserves|intros ?]).
  destruct (negb _); [solve_preserves|].
  repeat (apply preserves_bind; [solve_preserves|intros ?]).
  destruct (Signer.still_waiting _ _); [solve_preserves|].
  destruct (Signer.next_attempt _ _) as [t ssid]. solve_preserves.
Qed.

Hint Resolve process_batch_reports : preserves.

Lemma signing_block_reports header : preserves reports_inv (Signer.on_block_finalized header).
Proof.
  unfold Signer.on_block_finalized, Signer.get_unsigned_proposals. solve_preserves.
Qed.

Lemma start_keygen_reports stage header status party_i session :
  preserves reports_inv (Keygen.start_keygen stage header status party_i session).
Proof.
  unfold Keygen.start_keygen, Signer.clear_enqueued_proposal_tasks, Keygen.push_task, Keygen.poll,
    Keygen.initialize_keygen_protocol, Signer.keygen_lock, Keygen.set_state.
  solve_preserves.
Qed.

Hint Resolve signing_block_reports start_keygen_reports : preserves.

Lemma maybe_start_reports stage header status :
  preserves reports_inv (Keygen.maybe_start_keygen_for_stage stage header status).
Proof. unfold Keygen.maybe_start_keygen_for_stage. solve_preserves. Qed.

Hint Resolve maybe_start_reports : preserves.

Lemma keygen_block_reports header : preserves reports_inv (Keygen.on_block_finalized header).
Proof.
  unfold Keygen.on_block_finalized, Keygen.pre_checks, Keygen.genesis_checks, Keygen.next_checks,
    Keygen.poll.
  destruct (validator_set header) as [[active queued]|]; [|solve_preserves].
  apply preserves_bind; [solve_preserves|intros _]. cbv zeta.
  apply preserves_bind; [solve_preserves|intros current].
  apply preserves_bind; [solve_preserves|intros state].
  apply preserves_bind; [solve_preserves|intros []]; [solve_preserves|].
  destruct (_ =? _); destruct state; solve_preserves.
Qed.

Hint Resolve keygen_block_reports : preserves.

Lemma block_reports header : preserves reports_inv (process_block_notification header).
Proof.
  unfold process_block_notification, maybe_enact_genesis_authorities, maybe_rotate_local_session,
    ignore. solve_preserves.
Qed.

Lemma message_reports m : preserves reports_inv (process_incoming_dkg_message m).
Proof.
  unfold process_incoming_dkg_message, handle_public_key_broadcast, Keygen.deliver_message,
    Signer.deliver_message, ignore. solve_preserves.
Qed.

Lemma node_step_reports n t : node_step n t → reports_inv n → reports_inv t.
Proof.
  assert (∀ A (m : NM A) n t, preserves reports_inv m → final (m n) = Some t → reports_inv n →
    reports_inv t) as Hgo by (intros A m n' t' Hm Ht Hn; by eapply preserves_final).
  destruct 1 as [header n t Ht|header n t Ht|m n t Ht|n t Ht|n t Ht|i r r' n Hr Hp|i r r' n Hr Hp
    |i p res n t Hi _ Ht|i p res n t Hi _ Ht|m n t Ht|m n t Ht|session k n|votes r n t Ht];
    intros Hn; try exact Hn.
  - eapply Hgo; [|exact Ht|exact Hn]. pose proof block_reports. unfold initialization. solve_preserves.
  - by eapply Hgo; [apply block_reports|..].
  - by eapply Hgo; [apply message_reports|..].
  - eapply Hgo; [|exact Ht|exact Hn]. unfold handle_next_error. solve_preserves.
  - by eapply Hgo; [apply signing_work_reports|..].
  - eapply Hgo; [|exact Ht|exact Hn]. unfold Signer.signing_task_done,
      Signer.update_local_signing_set_state, Signer.remove_tracker, Signer.set_tracker.
    destruct res; solve_preserves.
  - eapply Hgo; [|exact Ht|exact Hn]. unfold Keygen.keygen_task_done, Keygen.set_state,
      Signer.keygen_unlock. destruct res; solve_preserves.
  - eapply Hgo; [|exact Ht|exact Hn]. unfold gossip_public_key. solve_preserves.
  - eapply Hgo; [|exact Ht|exact Hn]. unfold sign_and_send_msg, sign_and_send_messages.
    solve_preserves.
  - by eapply Hgo; [apply vote_result_reports|..].
Qed.

(** C17: in every reachable state of a node whose offchain storage held no report at the
    start, the report in offchain storage has distinct reporters, and the pallet's own
    verification, against whatever set, accepts it without a panic and counts only
    reporters it names, each once, among them every one that is an authority of the set
    (with a key that is not the default one).  If all are, it counts exactly them. *)
Theorem stored_reports_accepted o n o' r set :
  (∀ x, o = Some x → stored_reports x = Missing) → rtc node_step (worker_new o) n →
  offchain n = Some o' → stored_reports o' = Present r →
  let verifies x := x ∈ set ∧ length (dkg_bytes x) = 33%nat ∧ dkg_bytes x ≠ replicate 33 0 in
  NoDup (reporters r) ∧
  ∃ vs, Dkg.process_misbehaviour_reports r set = Ok vs ∧ vs `sublist_of` reporters r ∧
    (∀ x, x ∈ reporters r → verifies x → x ∈ vs) ∧
    ((∀ x, x ∈ reporters r → verifies x) → vs = reporters r).
Proof.
  intros Ho Hn Hoff Hr verifies. assert (reports_inv n) as [_ Hinv].
  { clear Hoff. revert n Hn. apply rtc_ind_r.
    - split; [by intros key r'|]. intros x r' Hx. cbn in Hx. by rewrite (Ho x Hx).
    - intros n t _. apply node_step_reports. }
  specialize (Hinv o' r Hoff Hr). split; [apply Hinv|].
  destruct (process_reports_count r set 0 (report_signatures r) []) as (vs & Hvs & Hsub & Hall);
    [done|done|done|by intros x []%not_elem_of_nil|].
  exists vs. split_and!; [done|done|intros x Hx (? & ? & ?); by apply Hall, verifying_keys_elem|].
  intros Hset. pose proof (report_accepted r set Hinv Hset) as Hacc.
  unfold Dkg.process_misbehaviour_reports in Hacc. congruence.
Qed.
End reports.
