(* ===== verification/AsyncProtocol.v ===== *)
(** * The tasks around a protocol

    src/dkg-gadget/src/async_protocols: what surrounds the state machines of
    multi-party-ecdsa.  [transform] decides which gossiped messages a protocol takes
    (incoming.rs); [inbound] and [send_outgoing] are one round of the two tasks that
    connect a state machine with the network (mod.rs); [handle_incoming] and
    [proceed] are those of [StateMachineWrapper] (state_machine_wrapper.rs), and
    [after_run] the loop around its runtime.

    The state machines, their runtime (round-based) and the formats of their messages
    (serde_json, bincode) are parameters. *)

From S2P Require Import Prelude.
From S2P Require Import Frame.
From S2P Require Import Primitives.
From S2P Require Import GadgetTypes.
From S2P Require Import Remote.
From S2P Require Import WorkManager.
From S2P Require Import Client.
From S2P Require Import Node.

(** ** Parameters *)

(** [round_based::Msg]. *)
Record Msg (B : Type) := mkMsg {
  rb_sender : Z;
  rb_receiver : option Z;
  rb_body : B }.
Arguments mkMsg {B} _ _ _.
Arguments rb_sender {B} _.
Arguments rb_receiver {B} _.
Arguments rb_body {B} _.

(** [round_based::StateMachine] and [RoundBlame], as far as they are called. *)
Class StateMachine (SM B E : Type) := {
  sm_handle_incoming : Msg B → M SM E unit;
  sm_proceed : M SM E unit;
  sm_current_round : SM → Z;
  sm_round_blame : SM → Z * list Z;
  (** The messages in its queue, and the machine when they are taken. *)
  sm_message_queue : SM → list (Msg B);
  sm_drained : SM → SM;
  is_critical : E → bool }.

(** The two formats of messages, and the round a message belongs to. *)
Class Wire (B : Type) := {
  to_vec : Msg B → option bytes;
  from_slice : bytes → option (Msg B);
  bincode : Msg B → option bytes;
  round_id : B → Z }.

(** What is parsed is what was serialized, and bincode keeps messages apart. *)
Class WireLaws (B : Type) `{Wire B} : Prop := {
  from_to_vec m bs : to_vec m = Some bs → from_slice bs = Some m;
  bincode_inj m m' bs : bincode m = Some bs → bincode m' = Some bs → m = m' }.

(** ** Protocol types *)

Section types.
Context {Completed : Type}.

(** [ProtocolType]; the hash of a key generation identifies it. *)
Inductive ProtocolType :=
| TKeygen (ty : KeygenRound) (i : KeygenPartyId) (t n associated_block_id : Z)
    (keygen_protocol_hash : bytes)
| TOffline (unsigned_proposal_batch : StoredUnsignedProposalBatch) (i : OfflinePartyId)
    (s_l : list KeygenPartyId) (local_key : bytes) (associated_block_id : Z)
| TVoting (offline_stage : Completed) (unsigned_proposal_batch : StoredUnsignedProposalBatch)
    (i : OfflinePartyId) (associated_block_id : Z).

Definition get_associated_block_id (ty : ProtocolType) : Z :=
  match ty with
  | TKeygen _ _ _ _ b _ => b
  | TOffline _ _ _ _ b => b
  | TVoting _ _ _ b => b
  end.

Definition get_i (ty : ProtocolType) : Z :=
  match ty with
  | TKeygen _ i _ _ _ _ => keygen_id i
  | TOffline _ i _ _ _ => offline_id i
  | TVoting _ _ i _ => offline_id i
  end.

Definition get_unsigned_proposal (ty : ProtocolType) : option StoredUnsignedProposalBatch :=
  match ty with
  | TOffline b _ _ _ _ => Some b
  | TVoting _ b _ _ => Some b
  | TKeygen _ _ _ _ _ _ => None
  end.

Definition get_unsigned_proposal_hash `{WebbProposals, Crypto} (ty : ProtocolType)
    : option bytes := get_unsigned_proposal ty ≫= unsigned_batch_hash.

Definition get_keygen_hash (ty : ProtocolType) : option bytes :=
  match ty with TKeygen _ _ _ _ _ h => Some h | _ => None end.

(** The patterns of the match in [transform]: is the payload one of this stage? *)
Definition same_stage (ty : ProtocolType) (p : NetworkMsgPayload) : bool :=
  match ty, p with
  | TKeygen _ _ _ _ _ _, PKeygen _ => true
  | TOffline _ _ _ _ _, POffline _ => true
  | TVoting _ _ _ _, PVote _ => true
  | _, _ => false
  end.
End types.
Arguments ProtocolType : clear implicits.

(** [AsyncProtocolParameters], without the clones of what belongs to the node. *)
Record AsyncProtocolParameters := mkAsyncProtocolParameters {
  ap_best_authorities : list (KeygenPartyId * DKGId);
  ap_authority_public_key : DKGId;
  ap_party_i : KeygenPartyId;
  ap_associated_block_id : Z;
  ap_handle : Handle;
  ap_session_id : Z;
  ap_local_key : option LocalKeyType }.

(** The remote behind a handle, in the manager the handle was made for. *)
Definition work_of (h : Handle) (n : Node) : WorkManager :=
  match proto_stage_type h with
  | Signing _ => signing_work (signing_manager n)
  | _ => keygen_work (keygen_manager n)
  end.

Definition remote_at (h : Handle) (n : Node) : Remote := remote_of (work_of h n) h.

(** The condition under which both tasks of a protocol leave their loops. *)
Definition over (h : Handle) (n : Node) : bool :=
  is_completed (remote_at h n) || is_terminated (remote_at h n).

(** ** Incoming messages *)

Section incoming.
Context {Completed : Type} `{Client, Crypto, MessageCodec}.
Implicit Types (ty : ProtocolType Completed).

(** [SignedDKGMessage::transform]: the message for the state machine, if it is for it.
    The sender is the one that the payload names. *)
Definition transform (latest : option Header) ty (this_session_id : Z) (m : SignedDKGMessage)
    : result DKGError (option (Msg DKGMessage)) :=
  if same_stage ty (payload (msg m)) then
    match async_proto_only_get_sender_id (payload (msg m)) with
    | None => Panics
    | Some sender =>
        if negb (sender =? get_i ty) then
          if msg_session_id (msg m) =? this_session_id then
            if associated_block_id_acceptable (get_associated_block_id ty)
                 (msg_associated_block_id (msg m))
            then
              body ← verify_signature_against_authorities_inner m latest;
              Ok (Some (mkMsg sender None body))
            else Ok None
          else Ok None
        else Ok None
    end
  else Ok None.

(** The stream of [IncomingAsyncProtocolWrapper] on the messages that arrive, each with
    the header that is the latest when it is looked at: messages that are not for the
    protocol and messages that do not verify are skipped. *)
Fixpoint incoming_stream ty (this_session_id : Z)
    (arrivals : list (option Header * SignedDKGMessage)) : result DKGError (list (Msg DKGMessage)) :=
  match arrivals with
  | [] => Ok []
  | (latest, m) :: rest =>
      match transform latest ty this_session_id m with
      | Ok (Some u) => us ← incoming_stream ty this_session_id rest; Ok (u :: us)
      | Ok None | Err _ => incoming_stream ty this_session_id rest
      | Panics => Panics
      end
  end.
End incoming.

(** ** From the network to the state machine *)

Section handlers.
Context {Completed B : Type} `{Wire B, WebbProposals, Crypto}.
Implicit Types (ty : ProtocolType Completed).

(** Is the message meant for another party? *)
Definition for_other (ty : ProtocolType Completed) (m : Msg B) : bool :=
  match rb_receiver m with Some recv => negb (recv =? get_i ty) | None => false end.

(** [handle_unsigned_message] of the two state machines: the message that is sent to
    the runtime.  It never returns an error. *)
Definition keygen_handle_unsigned_message ty (m : Msg DKGMessage)
    : result DKGError (option (Msg B)) :=
  match payload (rb_body m) with
  | PKeygen k =>
      match from_slice (km_keygen_msg k) with
      | None => Ok None
      | Some message => if for_other ty message then Ok None else Ok (Some message)
      end
  | _ => Ok None
  end.

Definition offline_handle_unsigned_message ty (m : Msg DKGMessage)
    : result DKGError (option (Msg B)) :=
  match payload (rb_body m) with
  | POffline o =>
      match from_slice (om_offline_msg o) with
      | None => Ok None
      | Some message =>
          if for_other ty message then Ok None else
          match get_unsigned_proposal_hash ty with
          | None => Panics
          | Some hash =>
              if negb (bool_decide (hash = om_key o)) then Ok None else Ok (Some message)
          end
      end
  | _ => Ok None
  end.

Definition handle_unsigned_message ty (m : Msg DKGMessage) : result DKGError (option (Msg B)) :=
  match ty with
  | TKeygen _ _ _ _ _ _ => keygen_handle_unsigned_message ty m
  | _ => offline_handle_unsigned_message ty m
  end.
End handlers.

(** ** The two tasks of a running state machine *)

Section tasks.
Context {Completed B : Type} `{Wire B, WebbProposals, Client, Keystore, Crypto, MessageCodec}.
Implicit Types (ty : ProtocolType Completed) (p : AsyncProtocolParameters).

(** [generate_inbound_signed_message_receiver_fn], one message: what the runtime is
    sent, and whether the task goes on. *)
Definition inbound p ty (m : SignedDKGMessage) : NM (option (Msg B) * bool) :=
  latest ← gets latest_header;
  match transform latest ty (ap_session_id p) m with
  | Ok None | Err _ => mret (None, true)
  | Panics => panic
  | Ok (Some u) =>
      out ← lift_result id (handle_unsigned_message ty u);
      ended ← gets (over (ap_handle p));
      mret (out, negb ended)
  end.

(** The receiver is taken for a party of the key generation, whatever the stage. *)
Definition recipient_of (best : list (KeygenPartyId * DKGId)) (receiver : option Z)
    : result DKGError (option DKGId) :=
  match receiver with
  | None => Ok None
  | Some party_i =>
      match keygen_party_id party_i with
      | Ok id => Ok ((λ e, e.2.2) <$> list_find (λ e, e.1 = id) best)
      | _ => Panics
      end
  end.

Definition outgoing_payload ty (party_id : Z) (serialized_body : bytes)
    : result DKGError NetworkMsgPayload :=
  match ty with
  | TKeygen _ _ _ _ _ hash => Ok (PKeygen (mkDKGKeygenMessage party_id serialized_body hash))
  | TOffline batch _ _ _ _ =>
      match unsigned_batch_hash batch with
      | Some hash => Ok (POffline (mkDKGOfflineMessage hash party_id serialized_body hash))
      | None => Panics
      end
  | TVoting _ _ _ _ => Panics
  end.

(** [generate_outgoing_to_wire_fn], one message; whether the task goes on. *)
Definition send_outgoing p ty (m : Msg B) : NM bool :=
  match to_vec m with
  | None => mret true
  | Some serialized_body =>
      recipient ← lift_result id (recipient_of (ap_best_authorities p) (rb_receiver m));
      payload ← lift_result id (outgoing_payload ty (rb_sender m) serialized_body);
      sign_and_send_msg {|
        sender_id := ap_authority_public_key p; recipient_id := recipient; payload := payload;
        msg_session_id := ap_session_id p; msg_associated_block_id := ap_associated_block_id p;
        msg_ssid := ssid (ap_handle p) |};;
      ended ← gets (over (ap_handle p));
      mret (negb ended)
  end.
End tasks.

(** ** The wrapper of a state machine *)

(** [StateMachineWrapper]; [current_round_blame] is the cell it shares with the handle. *)
Record StateMachineWrapper (SM : Type) := mkWrapper {
  inner_sm : SM;
  current_round_blame : Z * list Z;
  received_messages : gset bytes }.
Arguments mkWrapper {SM} _ _ _.
Arguments inner_sm {SM} _.
Arguments current_round_blame {SM} _.
Arguments received_messages {SM} _.

#[export] Instance StateMachineWrapper_eta SM : Eta (StateMachineWrapper SM) := λ w,
  mkWrapper (inner_sm w) (current_round_blame w) (received_messages w).

Section wrapper.
Context {SM B E : Type} `{StateMachine SM B E, Wire B}.
Abbreviation WrM A := (M (StateMachineWrapper SM) E A).

Definition wrapper_new (sm : SM) : StateMachineWrapper SM := mkWrapper sm (0, []) ∅.

Definition on_sm {A} (m : M SM E A) : WrM A :=
  zoom inner_sm (λ sm w, w <| inner_sm := sm |>) m.

Definition round_blame : WrM (Z * list Z) :=
  blame ← gets (sm_round_blame ∘ inner_sm);
  put! current_round_blame := blame;;
  mret blame.

(** A message of an earlier round or one that was received before is not passed on. *)
Definition handle_incoming (m : Msg B) : WrM unit :=
  current ← gets (sm_current_round ∘ inner_sm);
  if round_id (rb_body m) <? current then mret tt else
  msg_serde ← expect (bincode m);
  seen ← gets (λ w, bool_decide (msg_serde ∈ received_messages w));
  upd! received_messages ::= union {[ msg_serde ]};;
  if seen : bool then mret tt else
  result ← catch (on_sm (sm_handle_incoming m));
  round_blame;;
  match result with inl _ => mret tt | inr err => throw err end.

(** The log prints the blame, which publishes it, before and after. *)
Definition proceed : WrM unit :=
  round_blame;;
  result ← catch (on_sm sm_proceed);
  round_blame;;
  match result with inl _ => mret tt | inr err => throw err end.
End wrapper.

(** ** The loop around the runtime *)

(** The results of [AsyncProtocol::run], with the errors of round-based. *)
Inductive RunResult (E Out : Type) :=
| RunOk (v : Out)
| RunRecv (e : E)
| RunProceed (e : E)
| RunHandleIncoming (e : E)
| RunHandleIncomingTimeout (e : E)
| RunFinish (e : E)
| RunSend
| RunProceedPanicked
| RunInternalError
| RunExhausted
| RunRecvEof
| RunBadStateMachine.
Arguments RunOk {E Out} _.
Arguments RunRecv {E Out} _.
Arguments RunProceed {E Out} _.
Arguments RunHandleIncoming {E Out} _.
Arguments RunHandleIncomingTimeout {E Out} _.
Arguments RunFinish {E Out} _.
Arguments RunSend {E Out}.
Arguments RunProceedPanicked {E Out}.
Arguments RunInternalError {E Out}.
Arguments RunExhausted {E Out}.
Arguments RunRecvEof {E Out}.
Arguments RunBadStateMachine {E Out}.

Section runs.
Context {SM B E Out : Type} `{StateMachine SM B E}.

(** What the loop of [new_inner] makes of a result: [None] runs the protocol again. *)
Definition after_run (r : RunResult E Out) : option (result DKGError Out) :=
  match r with
  | RunOk v => Some (Ok v)
  | RunRecv e | RunProceed e | RunHandleIncoming e | RunHandleIncomingTimeout e | RunFinish e =>
      if is_critical e then Some (Err EGenericError) else None
  | RunSend | RunProceedPanicked | RunInternalError | RunExhausted | RunRecvEof
  | RunBadStateMachine => Some (Err EGenericError)
  end.

Fixpoint run_loop (rs : list (RunResult E Out)) : option (result DKGError Out) :=
  match rs with
  | [] => None
  | r :: rest => match after_run r with Some res => Some res | None => run_loop rest end
  end.
End runs.
