(* ===== verification/AsyncProtocolSpec.v ===== *)
(** * Theorems about the tasks around a protocol

    Which messages reach a state machine, that a message sent by one party reaches the
    state machine of another as it was, that copies have no effect, and how a run can
    end.  Two departures are proved: the recipient of a message of the offline stage is
    looked up under the wrong kind of identifier, and an error of a state machine that
    names its offenders leads to no report. *)

From S2P Require Import Prelude.
From S2P Require Import Frame.
From S2P Require Import Primitives.
From S2P Require Import GadgetTypes.
From S2P Require Import Remote.
From S2P Require Import WorkManager.
From S2P Require Import Client.
From S2P Require Import Node.
From S2P Require Import Reports.
From S2P Require Import ReportsSpec.
From S2P Require Import AsyncProtocol.

(** ** Incoming messages *)

Section incoming.
Context {Completed : Type} `{Client, Crypto, MessageCodec}.
Implicit Types (ty : ProtocolType Completed) (m : SignedDKGMessage).

(** The message is for this protocol, from another party that calls itself [i]. *)
Record for_protocol ty (session : Z) m (i : Z) : Prop := {
  fp_stage : same_stage ty (payload (msg m)) = true;
  fp_sender : async_proto_only_get_sender_id (payload (msg m)) = Some i;
  fp_other : i ≠ get_i ty;
  fp_session : msg_session_id (msg m) = session;
  fp_block : associated_block_id_acceptable (get_associated_block_id ty)
    (msg_associated_block_id (msg m)) = true }.

Lemma same_stage_sender ty q :
  same_stage ty q = true → is_Some (async_proto_only_get_sender_id q).
Proof. destruct ty, q; cbn; naive_solver. Qed.

Lemma transform_for latest ty session m i :
  for_protocol ty session m i →
  transform latest ty session m =
    (body ← verify_signature_against_authorities_inner m latest; Ok (Some (mkMsg i None body))).
Proof.
  intros [Hs Hi Ho Hm Hb]. unfold transform. rewrite Hs, Hi, Hm, Z.eqb_refl, Hb.
  by destruct (Z.eqb_spec i (get_i ty)).
Qed.

Lemma transform_not_for latest ty session m :
  (∀ i, ¬ for_protocol ty session m i) → transform latest ty session m = Ok None.
Proof.
  intros Hno. unfold transform. destruct (same_stage ty (payload (msg m))) eqn:Hs; [|done].
  destruct (async_proto_only_get_sender_id _) as [i|] eqn:Hi;
    [|by destruct (same_stage_sender _ _ Hs) as [? ?]; simplify_eq].
  destruct (Z.eqb_spec i (get_i ty)); [done|]. cbn.
  destruct (Z.eqb_spec (msg_session_id (msg m)) session); [|done].
  destruct (associated_block_id_acceptable _ _) eqn:Hb; [|done].
  destruct (Hno i). by split.
Qed.

Lemma for_protocol_dec ty session m : (∃ i, for_protocol ty session m i) ∨
  (∀ i, ¬ for_protocol ty session m i).
Proof.
  destruct (same_stage ty (payload (msg m))) eqn:Hs; [|right; intros i []; congruence].
  destruct (same_stage_sender _ _ Hs) as [i Hi].
  destruct (decide (i = get_i ty)); [right; intros j []; congruence|].
  destruct (decide (msg_session_id (msg m) = session)); [|right; intros j []; congruence].
  destruct (associated_block_id_acceptable (get_associated_block_id ty)
    (msg_associated_block_id (msg m))) eqn:Hb; [|right; intros j []; congruence].
  left. exists i. by split.
Qed.

(** What a state machine or the voting stage gets to see is a message of its own stage
    and session, from about its block and from another party, that is signed by an
    authority of the current or queued set; every other message is skipped. *)
Theorem transform_spec latest ty session m u :
  transform latest ty session m = Ok (Some u) ↔
  for_protocol ty session m (rb_sender u) ∧ rb_receiver u = None ∧
  verify_signature_against_authorities_inner m latest = Ok (rb_body u).
Proof.
  destruct (for_protocol_dec ty session m) as [[i Hi]|Hno].
  - rewrite (transform_for _ _ _ _ i Hi). split.
    + intros (body & Hv & [= <-])%result_bind_Ok. done.
    + destruct u as [j r body]. cbn. intros (Hj & -> & ->). cbn.
      pose proof (fp_sender _ _ _ _ Hi). pose proof (fp_sender _ _ _ _ Hj). congruence.
  - rewrite transform_not_for by done. naive_solver.
Qed.

(** An error of [transform] is the one of the verification, and it does not panic
    where the keys of the authorities are well formed. *)
Lemma check_signers_run xs encoded sig :
  (∀ x, x ∈ xs → length (dkg_bytes x) = 33%nat) →
  ∃ b, check_signers xs encoded sig = Ok b ∧
    (b = true ↔ ∃ who, who ∈ xs ∧ signed_by who encoded sig).
Proof.
  intros Hlen. unfold check_signers, signer_keys.
  assert (forallb (λ x, bool_decide (is_Some (to_slice_33 (dkg_bytes x)))) xs = true) as ->.
  { apply forallb_forall. intros x Hx%list_elem_of_In. unfold to_slice_33, ECDSA_KEY_LENGTH.
    by rewrite (Hlen x Hx). }
  cbn. destruct (verify_signer_from_set_ecdsa _ _ _) as [o b] eqn:Hv. exists b.
  split; [done|]. apply verify_signer_cases in Hv as [-> _]. split.
  - intros (k & x & Hr & Hx & Hd). apply list_elem_of_fmap in Hx as ([y] & -> & Hin).
    exists (mkDKGId y). split; [done|]. by exists k.
  - intros (who & Hin & k & Hr & Hd). exists k, (dkg_bytes who). split_and!; [done| |done].
    by apply list_elem_of_fmap_2.
Qed.

Lemma verify_accepts m header sets sig who :
  validator_set header = Some sets → msg_signature m = Some sig →
  (∀ x, x ∈ as_authorities sets.1 ∨ x ∈ as_authorities sets.2 → length (dkg_bytes x) = 33%nat) →
  who ∈ as_authorities sets.1 ∨ who ∈ as_authorities sets.2 →
  signed_by who (encode_message (msg m)) sig →
  verify_signature_against_authorities_inner m (Some header) = Ok (msg m).
Proof.
  intros Hv Hs Hlen Hin Hsig. unfold verify_signature_against_authorities_inner.
  rewrite Hs. cbn. rewrite Hv. cbn.
  destruct (check_signers_run (as_authorities sets.1) (encode_message (msg m)) sig)
    as (b & -> & Hb); [auto|]. cbn. destruct b; [done|].
  destruct (check_signers_run (as_authorities sets.2) (encode_message (msg m)) sig)
    as (b' & -> & Hb'); [auto|]. cbn. destruct b'; [done|].
  destruct Hin as [Hin|Hin]; [discriminate (proj2 Hb)|discriminate (proj2 Hb')]; eauto.
Qed.

(** The stream keeps the order of the messages and drops those that do not pass. *)
Lemma incoming_stream_spec ty session arrivals :
  (∀ latest m, (latest, m) ∈ arrivals → transform latest ty session m ≠ Panics) →
  incoming_stream ty session arrivals = Ok (omap (λ a,
    match transform a.1 ty session a.2 with Ok u => u | _ => None end) arrivals).
Proof.
  induction arrivals as [|[latest m] rest IH]; intros Hp; [done|]. cbn.
  rewrite IH by (intros l' m' Hin; apply Hp; by right).
  assert (transform latest ty session m ≠ Panics) as Hm by (apply Hp; by left).
  by destruct (transform latest ty session m) as [[u|]| |].
Qed.
End incoming.

(** ** From one state machine to another *)

Section roundtrip.
Context {Completed B : Type} `{Wire B, !WireLaws B, WebbProposals, Client, Keystore, Crypto,
  !KeystoreLaws, MessageCodec}.
Implicit Types (ty : ProtocolType Completed) (p : AsyncProtocolParameters) (n : Node).

(** Two parties of the same key generation or of the same offline stage. *)
Definition same_run ty ty' : Prop :=
  match ty, ty' with
  | TKeygen _ _ _ _ _ h, TKeygen _ _ _ _ _ h' => h = h'
  | TOffline b _ _ _ _, TOffline b' _ _ _ _ => b = b'
  | _, _ => False
  end.

(** What [send_outgoing] puts on the wire. *)
Definition wire_message p (recipient : option DKGId) (q : NetworkMsgPayload) : DKGMessage := {|
  sender_id := ap_authority_public_key p; recipient_id := recipient; payload := q;
  msg_session_id := ap_session_id p; msg_associated_block_id := ap_associated_block_id p;
  msg_ssid := ssid (ap_handle p) |}.

Lemma sign_and_send_msg_run (n : Node) public d sig :
  get_authority_public_key n = (Ret public n : outcome Node DKGError DKGId) →
  keystore_sign public (encode_message d) = Some sig →
  sign_and_send_msg d n = Ret tt (n <| outbox ::= (λ l, l ++ [mkSignedDKGMessage d (Some sig)]) |>).
Proof.
  intros Hk Hs. unfold sign_and_send_msg, sign_and_send_messages.
  rewrite (run_call _ _ _ _ _ Hk). cbn. unfold send_signed. by rewrite Hs.
Qed.

Lemma recipient_of_Ok best r : r ≠ Some 0 → ∃ a, recipient_of best r = Ok a.
Proof.
  intros Hr. destruct r as [i|]; cbn; [|eauto]. unfold keygen_party_id.
  destruct (Z.eqb_spec i 0); [congruence|]. eauto.
Qed.

(** The payload of a sent message names the sender and carries the serialized message,
    and is unpacked by the other parties of the run. *)
Lemma outgoing_payload_received ty ty' m bs d :
  same_run ty ty' → to_vec m = Some bs → in_width 16 (rb_sender m) →
  rb_receiver m = None ∨ rb_receiver m = Some (get_i ty') →
  ∃ q, outgoing_payload ty (rb_sender m) bs = Ok q ∧ same_stage ty' q = true ∧
    async_proto_only_get_sender_id q = Some (rb_sender m) ∧
    (payload (rb_body d) = q → handle_unsigned_message ty' d = Ok (Some m)).
Proof.
  intros Hrun Hm Hw Hr.
  assert (for_other ty' m = false) as Ho.
  { unfold for_other. destruct Hr as [-> | ->]; [done|]. by rewrite Z.eqb_refl. }
  destruct ty as [| |], ty' as [| |]; try done; cbn in Hrun; subst; eexists;
    (split; [reflexivity|]); (split; [done|]); cbn; rewrite ?wrap_small by done;
    (split; [done|]); intros Hd.
  - unfold keygen_handle_unsigned_message. rewrite Hd. cbn.
    by rewrite (from_to_vec _ _ Hm), Ho.
  - unfold offline_handle_unsigned_message. rewrite Hd. cbn.
    rewrite (from_to_vec _ _ Hm), Ho. by rewrite bool_decide_true by done.
Qed.

(** C29: A message of a state machine that is sent by one party reaches the state machine of
    every other party of the run it is meant for exactly as it was: the sender signs and
    gossips one message, and whoever takes it from its queue while the sender is among
    the authorities passes the original on. *)
Theorem protocol_message_roundtrip p ty p' ty' m n n' header sets public :
  same_run ty ty' → ap_session_id p = ap_session_id p' →
  associated_block_id_acceptable (get_associated_block_id ty') (ap_associated_block_id p) = true →
  in_width 16 (rb_sender m) → rb_sender m ≠ get_i ty' → get_i ty' ≠ 0 →
  rb_receiver m = None ∨ rb_receiver m = Some (get_i ty') → is_Some (to_vec m) →
  get_authority_public_key n = (Ret public n : outcome Node DKGError DKGId) →
  (∀ data, is_Some (keystore_sign public data)) →
  latest_header n' = Some header → validator_set header = Some sets →
  (∀ x, x ∈ as_authorities sets.1 ∨ x ∈ as_authorities sets.2 → length (dkg_bytes x) = 33%nat) →
  public ∈ as_authorities sets.1 ∨ public ∈ as_authorities sets.2 →
  ∃ d, send_outgoing p ty m n = Ret (negb (over (ap_handle p) n)) (n <| outbox ::= (λ l, l ++ [d]) |>) ∧
    inbound p' ty' d n' = Ret (Some m, negb (over (ap_handle p') n')) n'.
Proof.
  intros Hrun Hsess Hblk Hw Hi Hnz Hr [bs Hbs] Hk Hsign Hh Hv Hlen Hin.
  destruct (recipient_of_Ok (ap_best_authorities p) (rb_receiver m)) as [a Ha];
    [destruct Hr; congruence|].
  destruct (outgoing_payload_received ty ty' m bs (mkMsg (rb_sender m) None (wire_message p a
    (default (PVote (mkDKGVoteMessage 0 [] [] [])) (match outgoing_payload ty (rb_sender m) bs with
       Ok q => Some q | _ => None end)))) Hrun Hbs Hw Hr) as (q & Hq & Hst & Hsd & Hun).
  rewrite Hq in Hun. cbn in Hun. specialize (Hun eq_refl).
  destruct (Hsign (encode_message (wire_message p a q))) as [sig Hsig].
  exists (mkSignedDKGMessage (wire_message p a q) (Some sig)). split.
  - unfold send_outgoing. rewrite Hbs, run_lift, Ha, run_lift, Hq.
    by rewrite (run_call _ _ _ _ _ (sign_and_send_msg_run n public _ sig Hk Hsig)).
  - unfold inbound. rewrite run_gets, Hh.
    rewrite (transform_for _ _ _ _ (rb_sender m)) by by split.
    rewrite (verify_accepts _ header sets sig public); [|done..|by apply keystore_sign_signed].
    cbn. rewrite Hun. done.
Qed.

(** What the recipient field of a message of the offline stage says: the receiver is a
    member of the signing set and is taken for a party of the key generation, so with
    the signing set {2, 3} what is meant for party 3 is addressed to authority 2.  Its
    recipient is only a hint for the gossip engine, the parties look at the receiver. *)
Lemma offline_recipient_misses a1 a2 a3 :
  let best := [(mkKeygenPartyId 1, a1); (mkKeygenPartyId 2, a2); (mkKeygenPartyId 3, a3)] in
  let s_l := [mkKeygenPartyId 2; mkKeygenPartyId 3] in
  try_to_keygen_party_id (mkOfflinePartyId 2) s_l = Ok (mkKeygenPartyId 3) ∧
  recipient_of best (Some 2) = Ok (Some a2).
Proof. split; reflexivity. Qed.
End roundtrip.

(** ** The wrapper *)

Section wrapper.
Context {SM B E : Type} `{StateMachine SM B E, Wire B}.
Implicit Types (w : StateMachineWrapper SM) (m : Msg B).

(** What the runtime calls, in any order, whether it succeeds or not. *)
Inductive wrapper_step w : StateMachineWrapper SM → Prop :=
| wrapper_handle m w' : final (handle_incoming m w) = Some w' → wrapper_step w w'
| wrapper_proceed w' : final (proceed w) = Some w' → wrapper_step w w'.

Lemma on_sm_received {A} (m : M SM E A) (X : gset bytes) :
  preserves (λ w, X ⊆ received_messages w) (on_sm m).
Proof. intros w Hw. unfold wp, on_sm, zoom. by destruct (m (inner_sm w)). Qed.

Lemma round_blame_received (X : gset bytes) :
  preserves (λ w, X ⊆ received_messages w) (round_blame : M _ E _).
Proof. intros w Hw. done. Qed.

Hint Resolve on_sm_received round_blame_received : preserves.

Lemma handle_incoming_received (X : gset bytes) m :
  preserves (λ w, X ⊆ received_messages w) (handle_incoming m).
Proof.
  unfold handle_incoming. repeat (apply preserves_bind; [solve_preserves|intros ?]).
  destruct (_ <? _); [solve_preserves|]. apply preserves_bind; [solve_preserves|intros bs].
  apply preserves_bind; [solve_preserves|intros seen].
  apply preserves_bind; [|intros _; solve_preserves].
  apply preserves_modify. intros w Hw. simp_get. set_solver.
Qed.

Lemma wrapper_step_received X w w' :
  wrapper_step w w' → X ⊆ received_messages w → X ⊆ received_messages w'.
Proof.
  intros [m t Ht|t Ht] HX.
  - exact (preserves_final _ _ _ _ (handle_incoming_received X m) HX Ht).
  - assert (preserves (λ w, X ⊆ received_messages w) (proceed : M (StateMachineWrapper SM) E unit))
      as Hp by (unfold proceed; solve_preserves).
    exact (preserves_final _ _ _ _ Hp HX Ht).
Qed.

(** A copy of a message that was received has no effect at all, whatever happened in
    between: the state machine handles no message twice. *)
Theorem duplicate_has_no_effect m bs w w' :
  bincode m = Some bs → bs ∈ received_messages w → rtc wrapper_step w w' →
  handle_incoming m w' = Ret tt w'.
Proof.
  intros Hm Hin Hrun.
  assert ({[ bs ]} ⊆ received_messages w') as Hin'.
  { revert Hin. induction Hrun as [|w w1 w' Hs _ IH]; intros Hin; [set_solver|].
    apply IH. pose proof (wrapper_step_received {[ bs ]} _ _ Hs). set_solver. }
  unfold handle_incoming. rewrite run_gets. destruct (_ <? _); [done|].
  rewrite run_expect, Hm, run_gets, run_modify. rewrite bool_decide_true by set_solver.
  destruct w' as [sm blame X]. cbn in *. cbv [mret M_ret]. do 2 f_equal.
  cbv [set StateMachineWrapper_eta]. cbn. f_equal. set_solver.
Qed.

(** A message of the current or a later round that was not received before is handled
    by the state machine, recorded, and the blame of the new state is published. *)
Lemma handle_incoming_fresh m bs w :
  bincode m = Some bs → sm_current_round (inner_sm w) <= round_id (rb_body m) →
  bs ∉ received_messages w →
  handle_incoming m w =
    let w' sm := w <| received_messages ::= union {[ bs ]} |> <| inner_sm := sm |>
                   <| current_round_blame := sm_round_blame sm |> in
    match sm_handle_incoming m (inner_sm w) with
    | Ret _ sm => Ret tt (w' sm)
    | Fail e sm => Fail e (w' sm)
    | Panic => Panic
    end.
Proof.
  intros Hm Hr Hin. unfold handle_incoming. rewrite run_gets.
  destruct (Z.ltb_spec (round_id (rb_body m)) ((sm_current_round ∘ inner_sm) w));
    [cbn in *; lia|].
  rewrite run_expect, Hm, run_gets, run_modify, bool_decide_false by done.
  destruct w as [sm blame X]. cbv [on_sm zoom catch mbind M_bind set]. cbn.
  by destruct (sm_handle_incoming m sm).
Qed.
End wrapper.

(** ** Runs *)

Section runs.
Context {SM B E Out : Type} `{StateMachine SM B E}.

(** Errors that can be told apart as critical and are not. *)
Definition recoverable (r : RunResult E Out) : bool :=
  match r with
  | RunRecv e | RunProceed e | RunHandleIncoming e | RunHandleIncomingTimeout e | RunFinish e =>
      negb (is_critical e)
  | _ => false
  end.

(** The protocol is run again after recoverable errors only, and ends with the first
    other result: its value, or a generic error. *)
Theorem run_loop_spec (rs : list (RunResult E Out)) :
  match run_loop rs with
  | None => Forall (λ r, recoverable r = true) rs
  | Some res => ∃ pre r rest, rs = pre ++ r :: rest ∧
      Forall (λ r, recoverable r = true) pre ∧ recoverable r = false ∧
      res = match r with RunOk v => Ok v | _ => Err EGenericError end
  end.
Proof.
  induction rs as [|r rs IH]; [by constructor|]. cbn.
  assert (after_run r = if recoverable r then None else
    Some (match r with RunOk v => Ok v | _ => Err EGenericError end)) as ->.
  { destruct r; cbn; try done; by destruct (is_critical _). }
  destruct (recoverable r) eqn:Hr; [|by exists [], r, rs].
  destruct (run_loop rs) as [res|]; [|by constructor].
  destruct IH as (pre & r' & rest & -> & Hpre & Hr' & ->).
  exists (r :: pre), r', rest. split_and!; [done|by constructor|done..].
Qed.
End runs.

(** So a state machine that stops because of parties it can name does not lead to a
    report: whatever the critical error says, the protocol ends with a generic error,
    and the handler of errors reports nobody. *)
Theorem critical_error_blames_nobody `{Client, Keystore, Crypto, MessageCodec, SubmissionDelay}
    {SM B E Out : Type} `{StateMachine SM B E} (rs : list (RunResult E Out)) err (n : Node) :
  run_loop rs = Some (Err err) → handle_dkg_error err n = Ret tt n.
Proof.
  intros Hrs. pose proof (run_loop_spec rs) as Hspec. rewrite Hrs in Hspec.
  destruct Hspec as (_ & r & _ & _ & _ & _ & Hres). destruct r; by simplify_eq.
Qed.
