(* ===== verification/VotingStage.v ===== *)
(** * Signing and key generation protocols

    src/dkg-gadget/src/async_protocols/ecdsa: what becomes of a finished offline stage
    (sign/handler.rs, sign/state_machine.rs), of a finished key generation
    (keygen/state_machine.rs), of the errors of the library, and the conversion of a
    signature to the form the chain expects (src/dkg-primitives/src/utils.rs).

    [MultiPartyEcdsa] is the library's side of voting: partial signatures, how they are
    completed, and verification. *)

From S2P Require Import Prelude.
From S2P Require Import Frame.
From S2P Require Import Primitives.
From S2P Require Import GadgetTypes.
From S2P Require Import Remote.
From S2P Require Import WorkManager.
From S2P Require Import Client.
From S2P Require Import Node.
From S2P Require Import Reports.
From S2P Require Import AsyncProtocol.

(** ** Parameters *)

(** The errors of the library that are told apart; those of some rounds name parties. *)
Inductive SignProceedError :=
| Round1 (bad_actors : list Z)
| Round2Stage4 (bad_actors : list Z)
| Round3 (bad_actors : list Z)
| Round5 (bad_actors : list Z)
| Round6VerifyProof (bad_actors : list Z)
| SignRoundOther.

Inductive SignError :=
| LocalSigning (e : SignProceedError)
| CompleteSigning (e : SignProceedError)
| SignErrorOther.

Inductive KeygenProceedError :=
| Round2VerifyCommitments (bad_actors : list Z)
| Round3VerifyVssConstruct (bad_actors : list Z)
| Round4VerifyDLogProof (bad_actors : list Z)
| KeygenRoundOther.

Inductive KeygenError :=
| ProceedRound (e : KeygenProceedError)
| KeygenErrorOther.

(** [SignatureRecid]: the two numbers of a signature and its recovery id. *)
Record SignatureRecid := mkSignatureRecid {
  sig_r : Z;
  sig_s : Z;
  sig_recid : Z }.

Class MultiPartyEcdsa := {
  CompletedOfflineStage : Type;
  SignManual : Type;
  PartialSignature : Type;
  (** The public key of the parties, compressed. *)
  offline_public_key : CompletedOfflineStage → bytes;
  sign_manual_new : Z → CompletedOfflineStage → result SignError (SignManual * PartialSignature);
  sign_complete : SignManual → list PartialSignature → result SignError SignatureRecid;
  ecdsa_verify : SignatureRecid → bytes → Z → bool;
  (** serde_json. *)
  partial_to_vec : PartialSignature → option bytes;
  partial_from_slice : bytes → option PartialSignature;
  (** [BigInt::to_bytes] of a number that is not negative. *)
  bigint_to_bytes : Z → bytes;
  (** The public key of a local key, compressed. *)
  local_key_public : bytes → bytes }.

(** Numbers and their bytes; and a completed signature that verifies is one that the
    public key is recovered from, with its recovery id, as Ethereum does it. *)
Class MultiPartyEcdsaLaws `{MultiPartyEcdsa, Crypto} : Prop := {
  bigint_bytes z : 0 <= z → be_decode (bigint_to_bytes z) = z;
  bigint_bytes_byte z : Forall is_byte (bigint_to_bytes z);
  bigint_bytes_short z : in_width 256 z → (length (bigint_to_bytes z) <= 32)%nat;
  offline_key_length stage : length (offline_public_key stage) = 33%nat;
  complete_range signing partials sig : sign_complete signing partials = Ok sig →
    in_width 256 (sig_r sig) ∧ in_width 256 (sig_s sig) ∧ 0 <= sig_recid sig < 4;
  complete_recovers data stage signing partial partials sig :
    sign_manual_new (be_decode (keccak_256 data)) stage = Ok (signing, partial) →
    sign_complete signing partials = Ok sig →
    ecdsa_verify sig (offline_public_key stage) (be_decode (keccak_256 data)) = true →
    ∃ k, secp256k1_ecdsa_recover
           (be_encode 32 (sig_r sig) ++ be_encode 32 (sig_s sig) ++ [sig_recid sig + 27])
           (keccak_256 data)
         = Some k ∧ take 32 k = drop 1 (offline_public_key stage) }.

(** [BlockchainInterface::store_public_key]: whether the database of the node takes a
    local key. *)
Class LocalKeyDb := store_public_key : LocalKeyType → Z → result DKGError unit.

(** ** Signatures *)

Section signature.
Context `{MultiPartyEcdsa}.

(** [32 - v.len()] zeros; a longer vector would make the subtraction wrap and the loop
    exhaust the memory. *)
Definition pad_32 (v : bytes) : result DKGError bytes :=
  if (length v <=? 32)%nat then Ok (replicate (32 - length v) 0 ++ v) else Panics.

Definition convert_signature (sig : SignatureRecid) : result DKGError (option bytes) :=
  let r := bigint_to_bytes (sig_r sig) in
  let s := bigint_to_bytes (sig_s sig) in
  let v := wrap 8 (sig_recid sig + 27) in
  r ← pad_32 r;
  s ← pad_32 s;
  let sig_vec := r ++ s ++ [v] in
  Ok (if (length sig_vec =? 65)%nat then Some sig_vec else None).
End signature.

(** ** Errors *)

(** [convert_mpc_sign_error_to_dkg_error_signing]. *)
Definition sign_proceed_bad_actors (e : SignProceedError) : list Z :=
  match e with
  | Round1 l | Round2Stage4 l | Round3 l | Round5 l | Round6VerifyProof l => l
  | SignRoundOther => []
  end.

Definition convert_mpc_sign_error (session : Z) (mapping : gmap Z DKGId) (e : SignError)
    : DKGError :=
  match e with
  | LocalSigning e | CompleteSigning e =>
      ESignMisbehaviour (bad_actors_to_authorities (sign_proceed_bad_actors e) mapping) session
  | SignErrorOther => ESignMisbehaviour [] session
  end.

(** [map_keygen_error_to_dkg_error_keygen]. *)
Definition map_keygen_error (session : Z) (mapping : gmap Z DKGId) (e : KeygenError) : DKGError :=
  match e with
  | ProceedRound (Round2VerifyCommitments l)
  | ProceedRound (Round3VerifyVssConstruct l)
  | ProceedRound (Round4VerifyDLogProof l) =>
      EKeygenMisbehaviour (bad_actors_to_authorities l mapping) session
  | _ => EKeygenMisbehaviour [] session
  end.

(** ** Voting *)

Section voting.
Context `{MultiPartyEcdsa, LocalKeyDb, WebbProposals, Client, Keystore, Crypto, MessageCodec,
  SubmissionDelay}.
Abbreviation Ty := (ProtocolType CompletedOfflineStage).

(** What the voting stage is called with. *)
Record Ballot := mkBallot {
  bl_params : AsyncProtocolParameters;
  bl_offline_stage : CompletedOfflineStage;
  bl_batch : StoredUnsignedProposalBatch;
  bl_offline_i : OfflinePartyId;
  bl_threshold : Z;
  bl_batch_key : BatchKey }.
Implicit Types (b : Ballot).

Definition voting_type b : Ty :=
  TVoting (bl_offline_stage b) (bl_batch b) (bl_offline_i b)
    (ap_associated_block_id (bl_params b)).

Definition sign_error b : SignError → DKGError :=
  convert_mpc_sign_error (ap_session_id (bl_params b))
    (index_to_authority_mapping (ap_handle (bl_params b))).

(** The first part of [new_voting]: make the partial signature and broadcast it. *)
Definition begin_voting b : NM SignManual :=
  hash ← expect (unsigned_batch_hash (bl_batch b));
  '(signing, partial) ← lift_result (sign_error b)
    (sign_manual_new (be_decode hash) (bl_offline_stage b));
  partial_sig_bytes ← ok_or (partial_to_vec partial) EGenericError;
  sign_and_send_msg {|
    sender_id := ap_authority_public_key (bl_params b); recipient_id := None;
    payload := PVote (mkDKGVoteMessage (offline_id (bl_offline_i b)) hash partial_sig_bytes hash);
    msg_session_id := ap_session_id (bl_params b);
    msg_associated_block_id := ap_associated_block_id (bl_params b);
    msg_ssid := ssid (ap_handle (bl_params b)) |};;
  mret signing.

(** The senders that were heard and the partial signatures, in the order they came. *)
Record Votes := mkVotes {
  received_sigs : gset Z;
  sigs : list PartialSignature }.

Definition no_votes : Votes := mkVotes ∅ [].

(** One round of the loop: [None] where it continues without a new signature. *)
Definition on_vote b (v : Votes) (m : Msg DKGMessage) : result DKGError (option Votes) :=
  match payload (rb_body m) with
  | PVote vote =>
      if bool_decide (Some (vm_round_key vote) = unsigned_batch_hash (bl_batch b)) then
        if bool_decide (rb_sender m ∈ received_sigs v) then Ok None else
        partial ← result_of (partial_from_slice (vm_partial_signature vote)) EGenericError;
        Ok (Some (mkVotes ({[ rb_sender m ]} ∪ received_sigs v) (sigs v ++ [partial])))
      else Ok None
  | _ => Ok None
  end.

(** The loop on the messages that arrive, until there are enough signatures or the
    channel is closed. *)
Fixpoint collect_votes b (v : Votes) (arrivals : list (option Header * SignedDKGMessage))
    : result DKGError Votes :=
  match arrivals with
  | [] => Ok v
  | (latest, m) :: rest =>
      match transform latest (voting_type b) (ap_session_id (bl_params b)) m with
      | Ok (Some u) =>
          v' ← on_vote b v u;
          match v' with
          | None => collect_votes b v rest
          | Some v' =>
              if len (sigs v') =? bl_threshold b then Ok v' else collect_votes b v' rest
          end
      | Ok None | Err _ => collect_votes b v rest
      | Panics => Panics
      end
  end.

(** The last part: the signature is completed, verified, converted and processed. *)
Definition finish_voting b (signing : SignManual) (v : Votes) : NM unit :=
  hash ← expect (unsigned_batch_hash (bl_batch b));
  ensure (len (sigs v) =? bl_threshold b) EVote;;
  signature ← lift_result (sign_error b) (sign_complete signing (sigs v));
  ensure (ecdsa_verify signature (offline_public_key (bl_offline_stage b)) (be_decode hash)) EVote;;
  signature ← lift_result id (convert_signature signature);
  signature ← ok_or signature ECriticalError;
  process_vote_result ∅ (mkVoteResult signature (bl_batch b) (ap_session_id (bl_params b))
    (bl_batch_key b));;
  mret tt.

Definition new_voting b (arrivals : list (option Header * SignedDKGMessage)) : NM unit :=
  signing ← begin_voting b;
  v ← lift_result id (collect_votes b no_votes arrivals);
  finish_voting b signing v.

(** [get_next_batch_key] of fresh parameters. *)
Definition next_batch_key : BatchKey := mkBatchKey 1 0.

(** [StateMachineHandler::on_finish] of [Keygen]: the key is stored before it is gossiped. *)
Definition keygen_on_finish (p : AsyncProtocolParameters) (local_key : bytes) : NM bytes :=
  lift_result id (store_public_key (ECDSA local_key) (ap_session_id p));;
  upd! local_keys ::= insert (ap_session_id p) (ECDSA local_key);;
  gossip_public_key (mkPublicKeyMessage (ap_session_id p) (local_key_public local_key) []);;
  mret local_key.
End voting.
