(* ===== verification/VotingStageSpec.v ===== *)
(** * Theorems about voting

    The loop that collects partial signatures agrees with a reference definition on
    lists; a signature has the layout the chain expects; and a batch whose voting
    succeeds is one that the pallet takes from the node's offchain storage. *)

From S2P Require Import Prelude.
From S2P Require Import Frame.
From S2P Require Import Primitives.
From S2P Require Import Traits.
From S2P Require Import ProposalHandler.
From S2P Require Import ProposalHandlerSpec.
From S2P Require Import Metadata.
From S2P Require Import Sessions.
From S2P Require Import GadgetTypes.
From S2P Require Import Remote.
From S2P Require Import WorkManager.
From S2P Require Import Client.
From S2P Require Import Node.
From S2P Require Import Reports.
From S2P Require Import ReportsSpec.
From S2P Require Import AsyncProtocol.
From S2P Require Import AsyncProtocolSpec.
From S2P Require Import VotingStage.

(** ** The layout of a signature *)

Section signature.
Context `{MultiPartyEcdsa, Crypto, !MultiPartyEcdsaLaws}.

Lemma pad_32_bytes z : in_width 256 z → pad_32 (bigint_to_bytes z) = Ok (be_encode 32 z).
Proof.
  intros Hz. pose proof (bigint_bytes_short z Hz) as Hl. unfold pad_32.
  destruct (Nat.leb_spec (length (bigint_to_bytes z)) 32); [|lia]. f_equal.
  set (bs := replicate _ 0 ++ _).
  assert (length bs = 32%nat) as Hbs.
  { unfold bs. rewrite length_app, length_replicate. lia. }
  rewrite <- (be_encode_decode bs), Hbs.
  - f_equal. unfold bs. rewrite be_decode_zeros. apply bigint_bytes. unfold in_width in Hz. lia.
  - apply Forall_app. split; [apply Forall_replicate; done|apply bigint_bytes_byte].
Qed.

(** The two numbers in 32 bytes each and the recovery id plus 27: nothing is lost, and
    neither the padding nor the length check goes wrong. *)
Theorem convert_signature_layout signing partials sig :
  sign_complete signing partials = Ok sig →
  convert_signature sig = Ok (Some (be_encode 32 (sig_r sig) ++ be_encode 32 (sig_s sig)
    ++ [sig_recid sig + 27])).
Proof.
  intros (Hr & Hs & Hv)%complete_range. unfold convert_signature.
  rewrite !pad_32_bytes by done. cbn [mbind result_bind].
  rewrite wrap_small by (unfold in_width; lia).
  by rewrite !length_app, !be_encode_length.
Qed.
End signature.

(** ** Collecting votes *)

(** The first entry of every key, without those in [seen]. *)
Fixpoint firsts {A} (seen : gset Z) (l : list (Z * A)) : list (Z * A) :=
  match l with
  | [] => []
  | (i, x) :: rest =>
      if decide (i ∈ seen) then firsts seen rest else (i, x) :: firsts ({[ i ]} ∪ seen) rest
  end.

Lemma firsts_spec {A} seen (l : list (Z * A)) :
  NoDup (firsts seen l).*1 ∧ firsts seen l ⊆ l ∧ ∀ i, i ∈ seen → i ∉ (firsts seen l).*1.
Proof.
  revert seen. induction l as [|[i x] l IH]; intros seen; cbn.
  { split_and!; [constructor|done|intros i _ Hi; by apply not_elem_of_nil in Hi]. }
  case_decide as Hi; [destruct (IH seen) as (Hnd & Hsub & Hno); split_and!; set_solver|].
  destruct (IH ({[ i ]} ∪ seen)) as (Hnd & Hsub & Hno). cbn. split_and!.
  - apply NoDup_cons. split; [apply Hno; set_solver|done].
  - set_solver.
  - intros j Hj Hin. apply elem_of_cons in Hin as [->|Hin]; [done|].
    apply (Hno j); [set_solver|done].
Qed.

Section collecting.
Context `{MultiPartyEcdsa, LocalKeyDb, WebbProposals, Client, Keystore, Crypto, MessageCodec,
  SubmissionDelay}.
Implicit Types (b : Ballot) (v : Votes).

(** An arrival that is a vote for the batch: from whom, and its signature if it parses. *)
Definition vote_of b (a : option Header * SignedDKGMessage) : option (Z * option PartialSignature) :=
  match transform a.1 (voting_type b) (ap_session_id (bl_params b)) a.2 with
  | Ok (Some u) =>
      match payload (rb_body u) with
      | PVote vote =>
          if bool_decide (Some (vm_round_key vote) = unsigned_batch_hash (bl_batch b))
          then Some (rb_sender u, partial_from_slice (vm_partial_signature vote)) else None
      | _ => None
      end
  | _ => None
  end.

(** The votes that count: the first [k] parties to be heard of, each by its first vote. *)
Definition counted b (k : nat) (seen : gset Z) (arrivals : list (option Header * SignedDKGMessage))
    : list (Z * option PartialSignature) :=
  take k (firsts seen (omap (vote_of b) arrivals)).

Lemma on_vote_run b v a u :
  transform a.1 (voting_type b) (ap_session_id (bl_params b)) a.2 = Ok (Some u) →
  on_vote b v u =
    match vote_of b a with
    | None => Ok None
    | Some (i, o) =>
        if decide (i ∈ received_sigs v) then Ok None else
        match o with
        | None => Err EGenericError
        | Some partial => Ok (Some (mkVotes ({[ i ]} ∪ received_sigs v) (sigs v ++ [partial])))
        end
    end.
Proof.
  intros Ha. unfold vote_of, on_vote. rewrite Ha. destruct (payload (rb_body u)); try done.
  case_bool_decide; [|done]. rewrite bool_decide_decide.
  destruct (decide (rb_sender u ∈ received_sigs v)); [done|].
  by destruct (partial_from_slice _).
Qed.

Lemma counted_cons b k seen a rest :
  counted b k seen (a :: rest) =
    match vote_of b a with
    | None => counted b k seen rest
    | Some (i, o) => if decide (i ∈ seen) then counted b k seen rest else
        match k with O => [] | S k => (i, o) :: counted b k ({[ i ]} ∪ seen) rest end
    end.
Proof.
  unfold counted. cbn. destruct (vote_of b a) as [[i o]|]; [|done]. cbn.
  destruct (decide (i ∈ seen)); [done|]. by destruct k.
Qed.

Lemma collect_votes_from b v arrivals k :
  (length (sigs v) + S k)%nat = Z.to_nat (bl_threshold b) →
  collect_votes b v arrivals ≠ Panics →
  collect_votes b v arrivals =
    let voters := counted b (S k) (received_sigs v) arrivals in
    match mapM snd voters with
    | Some ps => Ok (mkVotes (list_to_set voters.*1 ∪ received_sigs v) (sigs v ++ ps))
    | None => Err EGenericError
    end.
Proof.
  revert v k. induction arrivals as [|[latest m] rest IH]; intros v k Hk Hp.
  { cbn. rewrite (left_id_L ∅ (∪)), app_nil_r. by destruct v. }
  cbv zeta. rewrite counted_cons. cbn [collect_votes] in *.
  destruct (transform latest _ _ m) as [[u|]|e|] eqn:Ht; [| | |done].
  2-3: unfold vote_of; cbn [fst snd]; rewrite Ht; exact (IH v k Hk Hp).
  rewrite (on_vote_run b v (latest, m) u Ht) in *. cbn [mbind result_bind] in *.
  destruct (vote_of b (latest, m)) as [[i o]|]; [|exact (IH v k Hk Hp)].
  destruct (decide (i ∈ received_sigs v)); [exact (IH v k Hk Hp)|].
  destruct o as [partial|]; [|done]. cbn in Hp |- *.
  assert (length (sigs v ++ [partial]) = S (length (sigs v))) as Hl
    by (rewrite length_app; cbn; lia).
  destruct (Z.eqb_spec (len (sigs v ++ [partial])) (bl_threshold b)) as [Hlen|Hlen].
  - assert (k = 0%nat) as -> by lia. cbn. do 2 f_equal. set_solver.
  - destruct k as [|k]; [lia|]. rewrite (IH _ k) by (cbn; done || lia). cbn [received_sigs sigs].
    destruct (mapM snd _) as [ps|]; [|done]. cbn. do 2 f_equal; [set_solver|].
    by rewrite <- (assoc_L (++)).
Qed.

(** No verification of an arrival panics (the keys of the authorities are well formed). *)
Definition verifiable b (arrivals : list (option Header * SignedDKGMessage)) : Prop :=
  ∀ latest m, (latest, m) ∈ arrivals →
    transform latest (voting_type b) (ap_session_id (bl_params b)) m ≠ Panics.

Lemma collect_votes_no_panic b v arrivals :
  verifiable b arrivals → collect_votes b v arrivals ≠ Panics.
Proof.
  revert v. induction arrivals as [|[latest m] rest IH]; intros v Hv; [done|]. cbn.
  assert (∀ v', collect_votes b v' rest ≠ Panics) as IH'.
  { intros v'. apply IH. intros l' m' Hin. apply Hv. by right. }
  destruct (transform latest _ _ m) as [[u|]|e|] eqn:Ht; [|apply IH'..|].
  - rewrite (on_vote_run b v (latest, m) u Ht). cbn [mbind result_bind].
    destruct (vote_of b (latest, m)) as [[i o]|]; [|apply IH'].
    case_decide; [apply IH'|]. destruct o; [|done]. cbn. destruct (_ =? _); [done|apply IH'].
  - by destruct (Hv latest m); [left|].
Qed.

(** C28: the loop of the voting stage counts the first vote of each of the first parties it
    hears of, as many as the threshold, in the order they arrive, and fails exactly if
    one of these does not parse; later votes, votes for other batches, messages of other
    stages, sessions or blocks and messages that do not verify are as if they had not
    come. *)
Theorem collect_votes_reference b arrivals :
  1 <= bl_threshold b → verifiable b arrivals →
  collect_votes b no_votes arrivals =
    let voters := counted b (Z.to_nat (bl_threshold b)) ∅ arrivals in
    match mapM snd voters with
    | Some ps => Ok (mkVotes (list_to_set voters.*1) ps)
    | None => Err EGenericError
    end.
Proof.
  intros Ht Hv. rewrite (collect_votes_from b no_votes arrivals (Z.to_nat (bl_threshold b) - 1)).
  - cbv zeta. replace (S (Z.to_nat (bl_threshold b) - 1)) with (Z.to_nat (bl_threshold b)) by lia.
    cbn [received_sigs sigs no_votes]. destruct (mapM snd _); [|done].
    by rewrite (right_id_L ∅ (∪)).
  - cbn. lia.
  - by apply collect_votes_no_panic.
Qed.

(** Whom the votes that were collected come from. *)
Lemma collected_voters b arrivals v :
  1 <= bl_threshold b → collect_votes b no_votes arrivals = Ok v →
  ∃ voters : list (Z * PartialSignature),
    sigs v = voters.*2 ∧ NoDup voters.*1 ∧ len voters <= bl_threshold b ∧
    ∀ i ps, (i, ps) ∈ voters → i ≠ offline_id (bl_offline_i b) ∧
      ∃ a, a ∈ arrivals ∧ vote_of b a = Some (i, Some ps).
Proof.
  intros Ht Hv. pose proof (collect_votes_from b no_votes arrivals (Z.to_nat (bl_threshold b) - 1))
    as Hc. rewrite Hv in Hc. cbv zeta in Hc. cbn [received_sigs sigs no_votes length] in Hc.
  specialize (Hc ltac:(lia) ltac:(done)).
  replace (S (Z.to_nat (bl_threshold b) - 1)) with (Z.to_nat (bl_threshold b)) in Hc by lia.
  destruct (mapM snd _) as [ps|] eqn:Hps; [|done]. injection Hc as ->. cbn.
  apply mapM_Some in Hps.
  destruct (firsts_spec ∅ (omap (vote_of b) arrivals)) as (Hnd & Hsub & _).
  pose proof (Forall2_length _ _ _ Hps) as Hl.
  exists (zip (counted b (Z.to_nat (bl_threshold b)) ∅ arrivals).*1 ps).
  rewrite snd_zip, fst_zip by (rewrite length_fmap; lia). split_and!; [done|..].
  - unfold counted. rewrite fmap_take. by eapply sublist_NoDup, sublist_take.
  - rewrite length_zip, length_fmap. rewrite <- Hl. unfold counted. rewrite length_take. lia.
  - intros i p [k Hk]%list_elem_of_lookup. apply lookup_zip_Some in Hk as [Hi Hp].
    rewrite list_lookup_fmap in Hi. apply fmap_Some in Hi as ([j o] & Hj & ->).
    destruct (Forall2_lookup_l _ _ _ _ _ Hps Hj) as (p' & Hp' & Ho). simplify_eq/=.
    assert ((j, Some p) ∈ omap (vote_of b) arrivals) as Hin.
    { apply Hsub. apply list_elem_of_lookup_2 in Hj. by eapply elem_of_take in Hj as (? & ?%list_elem_of_lookup_2 & _). }
    apply list_elem_of_omap in Hin as (a & Ha & Hvote). split; [|by exists a].
    unfold vote_of in Hvote. destruct (transform _ _ _ _) as [[u|]| |] eqn:Htr; try done.
    apply transform_spec in Htr as ([_ _ Hne _ _] & _ & _).
    destruct (payload (rb_body u)); try done. case_bool_decide; by simplify_eq.
Qed.
End collecting.

Section voting.
Context `{MultiPartyEcdsa, LocalKeyDb, WebbProposals, Client, Keystore, Crypto, MessageCodec,
  SubmissionDelay}.
Implicit Types (b : Ballot) (v : Votes) (n : Node).

(** Enough votes end the loop: once as many parties as the threshold asks for have sent
    a vote for the batch, in whatever order and among whatever else, the loop is over
    and has exactly the threshold of partial signatures. *)
Theorem voting_completes b arrivals :
  1 <= bl_threshold b → verifiable b arrivals →
  bl_threshold b <= len (firsts ∅ (omap (vote_of b) arrivals)) →
  Forall (λ e, is_Some e.2) (omap (vote_of b) arrivals) →
  ∃ v, collect_votes b no_votes arrivals = Ok v ∧ len (sigs v) = bl_threshold b ∧
    Z.of_nat (size (received_sigs v)) = bl_threshold b.
Proof.
  intros Ht Hv Hn Hp. rewrite collect_votes_from with (k := (Z.to_nat (bl_threshold b) - 1)%nat);
    [|cbn; lia|by apply collect_votes_no_panic].
  replace (S (Z.to_nat (bl_threshold b) - 1)) with (Z.to_nat (bl_threshold b)) by lia.
  destruct (firsts_spec ∅ (omap (vote_of b) arrivals)) as (Hnd & Hsub & _).
  cbv zeta. cbn [received_sigs sigs no_votes]. set (voters := counted _ _ _ _).
  assert (length voters = Z.to_nat (bl_threshold b)) as Hlen.
  { unfold voters, counted. rewrite length_take. lia. }
  assert (Forall (λ e, is_Some e.2) voters) as Hvs.
  { apply Forall_take, Forall_forall. intros e He. rewrite Forall_forall in Hp. by apply Hp, Hsub. }
  destruct (mapM snd voters) as [ps|] eqn:Hps.
  - apply mapM_Some, Forall2_length in Hps as Hl. eexists. split; [done|]. cbn. split; [lia|].
    rewrite (right_id_L ∅ (∪)), size_list_to_set, length_fmap; [lia|].
    unfold voters, counted. rewrite fmap_take. by eapply sublist_NoDup, sublist_take.
  - exfalso. apply eq_None_not_Some in Hps. apply Hps. clear -Hvs.
    induction Hvs as [|[i o] l [p Hp] _ IH]; cbn in *; [eauto|]. subst o.
    destruct IH as [ps ->]. cbn. eauto.
Qed.

(** The votes, the completed signature and the result of a voting stage that succeeded. *)
Lemma finish_voting_Ret b signing v n n' :
  finish_voting b signing v n = Ret tt n' →
  ∃ hash sig bytes votes, unsigned_batch_hash (bl_batch b) = Some hash ∧
    len (sigs v) = bl_threshold b ∧ sign_complete signing (sigs v) = Ok sig ∧
    ecdsa_verify sig (offline_public_key (bl_offline_stage b)) (be_decode hash) = true ∧
    convert_signature sig = Ok (Some bytes) ∧
    process_vote_result ∅ (mkVoteResult bytes (bl_batch b) (ap_session_id (bl_params b))
      (bl_batch_key b)) n = Ret votes n'.
Proof.
  unfold finish_voting. intros Hf. minv Hf.
  apply Z.eqb_eq in Hf1. do 4 eexists. by split_and!.
Qed.

Lemma begin_voting_Ret b n signing n1 :
  begin_voting b n = Ret signing n1 →
  ∃ hash partial, unsigned_batch_hash (bl_batch b) = Some hash ∧
    sign_manual_new (be_decode hash) (bl_offline_stage b) = Ok (signing, partial).
Proof.
  unfold begin_voting. intros (hash & ? & [Hh ->]%expect_Ret & Hb)%bind_Ret.
  apply bind_Ret in Hb as ([signing' partial] & ? & [Hs ->]%lift_result_Ret & Hb).
  minv Hb. by exists hash, partial.
Qed.

(** The sequence of a voting stage that succeeds. *)
Lemma new_voting_Ret b arrivals n n' :
  new_voting b arrivals n = Ret tt n' →
  ∃ signing v n1, begin_voting b n = Ret signing n1 ∧
    collect_votes b no_votes arrivals = Ok v ∧ finish_voting b signing v n1 = Ret tt n'.
Proof.
  unfold new_voting. intros (signing & n1 & Hb & Hn)%bind_Ret.
  apply bind_Ret in Hn as (v & n2 & [Hv ->]%lift_result_Ret & Hf). by exists signing, v, n1.
Qed.

(** Sending changes the outbox only. *)
Lemma begin_voting_frame {A} (f : Node → A) b n signing n1 :
  (∀ n l, f (n <| outbox := l |>) = f n) → begin_voting b n = Ret signing n1 → f n1 = f n.
Proof.
  intros Hf Hb.
  assert (preserves (λ m, f m = f n) (begin_voting b)) as Hp.
  { unfold begin_voting, sign_and_send_msg, sign_and_send_messages, send_signed.
    assert (∀ g : list SignedDKGMessage → list SignedDKGMessage,
      preserves (λ m, f m = f n) (upd! outbox ::= g : NM unit)) as Ho.
    { intros g. apply preserves_modify. intros m <-. apply (Hf m). }
    unfold get_authority_public_key. solve_preserves. }
  exact (wp_Ret _ _ _ _ _ _ _ (Hp n eq_refl) Hb).
Qed.

Context `{!MultiPartyEcdsaLaws}.

(** A signature that a voting stage completed is over the data that the pallet verifies
    and by the key of the parties. *)
Lemma finished_batch_signed b hash signing partial v sig bytes :
  unsigned_batch_hash (bl_batch b) = Some hash →
  sign_manual_new (be_decode hash) (bl_offline_stage b) = Ok (signing, partial) →
  sign_complete signing (sigs v) = Ok sig →
  ecdsa_verify sig (offline_public_key (bl_offline_stage b)) (be_decode hash) = true →
  convert_signature sig = Ok (Some bytes) →
  let r := mkVoteResult bytes (bl_batch b) (ap_session_id (bl_params b)) (bl_batch_key b) in
  ensure_signed_by_dkg (offline_public_key (bl_offline_stage b)) bytes
    (signed_batch_data (signed_batch_of r)) = Ok tt ∧
  validate_ecdsa_signature (signed_batch_data (signed_batch_of r)) bytes = true.
Proof.
  intros Hh Hs Hc Hv Hb. cbv zeta. rewrite signed_batch_of_data. cbn [vr_unsigned_proposal_batch].
  unfold unsigned_batch_hash in Hh. injection Hh as Hh.
  assert (bytes = be_encode 32 (sig_r sig) ++ be_encode 32 (sig_s sig) ++ [sig_recid sig + 27])
    as -> by (pose proof (convert_signature_layout _ _ _ Hc); congruence).
  rewrite <- Hh in Hs, Hv.
  destruct (complete_recovers _ _ _ _ _ _ Hs Hc Hv) as (k & Hk & Hd).
  assert (length (be_encode 32 (sig_r sig) ++ be_encode 32 (sig_s sig) ++ [sig_recid sig + 27])
    = SIGNATURE_LENGTH) as Hlen by by rewrite !length_app, !be_encode_length.
  split.
  - apply ensure_signed_by_dkg_spec. exists k. unfold recover_ecdsa_pub_key.
    rewrite Hlen, Nat.eqb_refl. by split_and!; [|apply offline_key_length|].
  - unfold validate_ecdsa_signature. rewrite Hlen, Nat.eqb_refl, Hk. done.
Qed.
End voting.

(** ** From the voting stage to the chain *)

Section chain.
Context `{MultiPartyEcdsa, LocalKeyDb, WebbProposals, Client, Keystore, Crypto, MessageCodec,
  SubmissionDelay, !MultiPartyEcdsaLaws}.
Context `{HandlerConfig, IterOrder, !IterLaws, Weights} {W F : Type}.
Context `{System W, GetDKGPublicKey W, DKGAuthorities W, OnSignedProposal W F,
          ReportOffences W F}.
Implicit Types (b : Ballot) (n : Node) (s : Handler) (w : W).

(** A proposal is identified by its kind and its bytes, signed or not. *)
Lemma decode_signed p sig :
  decode_proposal_identifier (Signed (proposal_kind p) (proposal_data p) sig) =
  decode_proposal_identifier p.
Proof. reflexivity. Qed.

Lemma submit_voted_batch b hash signing partial v sig bytes first id s w w' :
  let sb := signed_batch_of (mkVoteResult bytes (bl_batch b) (ap_session_id (bl_params b))
    (bl_batch_key b)) in
  unsigned_batch_hash (bl_batch b) = Some hash →
  sign_manual_new (be_decode hash) (bl_offline_stage b) = Ok (signing, partial) →
  sign_complete signing (sigs v) = Ok sig →
  ecdsa_verify sig (offline_public_key (bl_offline_stage b)) (be_decode hash) = true →
  convert_signature sig = Ok (Some bytes) →
  handler_inv s → dkg_key w = offline_public_key (bl_offline_stage b) →
  head (ub_proposals (bl_batch b)) = Some first →
  decode_proposal_identifier (up_proposal first) = Ok id →
  is_Some (UnsignedProposalQueue s !! (typed_chain_id id, ub_batch_id (bl_batch b))) →
  notify (F := F) (sb_proposals sb) w = Ret tt w' →
  (Batches.submit_one sb : M (Handler * W) (DispatchError HandlerError F) unit) (s, w) =
    Ret tt (sign_batch (typed_chain_id id, ub_batch_id (bl_batch b)) sb s, w').
Proof.
  intros sb Hh Hs Hc Hv Hb Hi Hkey Hfirst Hid Hq Hn.
  destruct (finished_batch_signed b hash signing partial v sig bytes Hh Hs Hc Hv Hb) as [He Hva].
  fold sb in He, Hva. unfold Batches.submit_one, observes. rewrite run_gets. cbn [snd]. rewrite Hkey.
  change (sb_signature sb) with bytes. rewrite He. rewrite handle_signed_run by done.
  assert (sign_checks sb s = Ok (typed_chain_id id, ub_batch_id (bl_batch b))) as ->.
  { assert (head (sb_proposals sb) = Some (Signed (proposal_kind (up_proposal first))
      (proposal_data (up_proposal first)) bytes)) as Hhd.
    { unfold sb, signed_batch_of. cbn. by destruct (ub_proposals (bl_batch b)); simplify_eq/=. }
    unfold sign_checks. rewrite Hhd. cbn [result_of mbind result_bind].
    rewrite decode_signed, Hid. cbn [result_map_err mbind result_bind].
    change (sb_batch_id sb) with (ub_batch_id (bl_batch b)).
    change (sb_signature sb) with bytes. rewrite bool_decide_true by done. by rewrite Hva. }
  by rewrite Hn.
Qed.

Lemma sign_batch_signed k sb s :
  SignedProposals (sign_batch k sb s) !! k = Some sb ∧
  UnsignedProposalQueue (sign_batch k sb s) !! k = None.
Proof.
  unfold sign_batch. simp_get. rewrite lookup_insert_eq. split; [done|]. unfold drop_stale.
  destruct (existsb _ _); [|apply lookup_delete_eq].
  rewrite map_lookup_filter_None. left. apply lookup_delete_eq.
Qed.

(** C10: from votes to the chain: a voting stage that succeeds has counted the votes of
    exactly as many other parties as the threshold, each once and each in an
    authenticated message, and leaves a signed batch in the offchain storage of a node
    that is an authority; the pallet accepts this batch, as long as the parties' key is
    the key on chain and the batch is still queued: it ends among the signed batches. *)
Theorem voted_batch_signed_on_chain b arrivals n n' :
  1 <= bl_threshold b → bl_batch_key b = next_batch_key → new_voting b arrivals n = Ret tt n' →
  ∃ (sb : SignedProposalBatch) (voters : list (Z * PartialSignature)),
    (len voters = bl_threshold b ∧ NoDup voters.*1 ∧
     ∀ i ps, (i, ps) ∈ voters → i ≠ offline_id (bl_offline_i b) ∧
       ∃ a, a ∈ arrivals ∧ vote_of b a = Some (i, Some ps)) ∧
    (∀ keys public header o, ecdsa_public_keys = Some keys → authority_id keys = Some public →
       public ∈ as_authorities (current_validator_set n) → latest_header n = Some header →
       offchain n = Some o → ∃ o', offchain n' = Some o' ∧ stored_proposals o' = Present [sb]) ∧
    ∀ s w w' first id, handler_inv s → dkg_key w = offline_public_key (bl_offline_stage b) →
      head (ub_proposals (bl_batch b)) = Some first →
      decode_proposal_identifier (up_proposal first) = Ok id →
      is_Some (UnsignedProposalQueue s !! (typed_chain_id id, ub_batch_id (bl_batch b))) →
      notify (F := F) (sb_proposals sb) w = Ret tt w' →
      ∃ s', (Batches.submit_one sb : M (Handler * W) (DispatchError HandlerError F) unit) (s, w) =
          Ret tt (s', w') ∧
        SignedProposals s' !! (typed_chain_id id, ub_batch_id (bl_batch b)) = Some sb ∧
        UnsignedProposalQueue s' !! (typed_chain_id id, ub_batch_id (bl_batch b)) = None.
Proof.
  intros Ht Hbk Hn. apply new_voting_Ret in Hn as (signing & v & n1 & Hbegin & Hv & Hf).
  destruct (begin_voting_Ret _ _ _ _ Hbegin) as (hash & partial & Hh & Hs).
  apply finish_voting_Ret in Hf as (hash' & sig & bytes & votes & Hh' & Hlen & Hc & Hver & Hb & Hp).
  assert (hash' = hash) as -> by congruence.
  destruct (collected_voters b arrivals v Ht Hv) as (voters & Hsigs & Hnd & _ & Hvoters).
  exists (signed_batch_of (mkVoteResult bytes (bl_batch b) (ap_session_id (bl_params b))
    (bl_batch_key b))), voters. split; [|split].
  - split; [|done]. by rewrite <- Hlen, Hsigs, length_fmap.
  - intros keys public header o Hks Hpub Hin Hhd Ho.
    rewrite <- (begin_voting_frame current_validator_set b n signing n1) in Hin by done.
    rewrite <- (begin_voting_frame latest_header b n signing n1) in Hhd by done.
    rewrite <- (begin_voting_frame offchain b n signing n1) in Ho by done.
    rewrite (process_vote_result_run _ _ _ public keys header o) in Hp
      by (done || by cbn; rewrite Hbk).
    injection Hp as _ <-. by eexists.
  - intros s w w' first id Hi Hkey Hfirst Hid Hq Hno. eexists. split; [|apply sign_batch_signed].
    by eapply submit_voted_batch.
Qed.
End chain.
