(* ===== verification/ProtocolTask.v ===== *)
(** * The tasks of a node

    The futures that [setup_signing] and [setup_keygen] build
    (src/dkg-gadget/src/async_protocols/ecdsa/sign/handler.rs, keygen/handler.rs), as
    step relations on the node and the state of the task: a task waits for its start
    signal, runs a state machine between the inbound and the outbound task, votes, and
    concludes, or is stopped at any point.  The runtime of the state machine
    (round-based) may call it in any order and may end with any result.

    The theorems show that the steps of a task are steps that the model of a node allows
    a protocol to make, so that all that is proved of reachable nodes holds while tasks
    run, and what is known of a signing task in any interleaving. *)

From S2P Require Import Prelude.
From S2P Require Import Frame.
From S2P Require Import Primitives.
From S2P Require Import GadgetTypes.
From S2P Require Import Remote.
From S2P Require Import WorkManager.
From S2P Require Import WorkManagerSpec.
From S2P Require Import Client.
From S2P Require Import Node.
From S2P Require Import Reports.
From S2P Require Import SigningManager.
From S2P Require Import KeygenManager.
From S2P Require Import Worker.
From S2P Require Import AsyncProtocol.
From S2P Require Import AsyncProtocolSpec.
From S2P Require Import VotingStage.
From S2P Require Import VotingStageSpec.

(** The constructors of the two state machines. *)
Class OfflineStageNew (SM : Type) := offline_stage_new : Z → list Z → bytes → option SM.
Class KeygenNew (SM : Type) := keygen_new : Z → Z → Z → result KeygenError SM.

(** ** The remote of a task *)

Definition set_remote (h : Handle) (r : Remote) (n : Node) : Node :=
  match proto_stage_type h with
  | Signing _ =>
      n <| signing_manager ::= set signing_work (set remotes (insert (remote_id h) r)) |>
  | _ => n <| keygen_manager ::= set keygen_work (set remotes (insert (remote_id h) r)) |>
  end.

Definition on_remote (h : Handle) (f : Remote → Remote) (n : Node) : Node :=
  set_remote h (f (remote_at h n)) n.

(** ** A running state machine *)

Record Running (SM B : Type) := mkRunning {
  wrapper : StateMachineWrapper SM;
  to_async_proto : list (Msg B);
  outgoing_rx : list (Msg B);
  inbound_on : bool;
  outbound_on : bool }.
Arguments mkRunning {SM B} _ _ _ _ _.
Arguments wrapper {SM B} _.
Arguments to_async_proto {SM B} _.
Arguments outgoing_rx {SM B} _.
Arguments inbound_on {SM B} _.
Arguments outbound_on {SM B} _.

#[export] Instance Running_eta SM B : Eta (Running SM B) := λ t,
  mkRunning (wrapper t) (to_async_proto t) (outgoing_rx t) (inbound_on t) (outbound_on t).

Section running.
Context {Completed SM B E : Type} `{StateMachine SM B E, Wire B, WebbProposals, Client, Keystore,
  Crypto, MessageCodec}.
Implicit Types (t : Running SM B) (n : Node) (w : StateMachineWrapper SM).

(** [new_inner]: the channels are empty and both tasks are spawned. *)
Definition new_inner (sm : SM) : Running SM B := mkRunning (wrapper_new sm) [] [] true true.

(** The blame goes to the cell of the handle. *)
Definition publish (h : Handle) w (n : Node) : Node :=
  on_remote h (set blamed_parties (λ _, (current_round_blame w).2)) n.

Inductive running_step (p : AsyncProtocolParameters) (ty : ProtocolType Completed) n t
    : Node → Running SM B → Prop :=
| run_inbound m ms out go :
    inbound_on t = true → rx_keygen_signing (remote_at (ap_handle p) n) = m :: ms →
    inbound p ty m n = Ret (out, go) n →
    running_step p ty n t (on_remote (ap_handle p) (set rx_keygen_signing (λ _, ms)) n)
      (t <| to_async_proto ::= (λ q, q ++ option_list out) |> <| inbound_on := go |>)
| run_handle m ms w :
    to_async_proto t = m :: ms → final (handle_incoming m (wrapper t)) = Some w →
    running_step p ty n t (publish (ap_handle p) w n)
      (t <| wrapper := w |> <| to_async_proto := ms |>)
| run_proceed w :
    final (proceed (wrapper t)) = Some w →
    running_step p ty n t (publish (ap_handle p) w n) (t <| wrapper := w |>)
| run_drain :
    running_step p ty n t n (t <| outgoing_rx ::= (λ q, q ++ sm_message_queue (inner_sm (wrapper t))) |>
      <| wrapper ::= set inner_sm sm_drained |>)
| run_outbound m ms go n' :
    outbound_on t = true → outgoing_rx t = m :: ms → send_outgoing p ty m n = Ret go n' →
    running_step p ty n t n' (t <| outgoing_rx := ms |> <| outbound_on := go |>).
End running.

(** ** Signing *)

Section signing.
Context `{MultiPartyEcdsa, LocalKeyDb, WebbProposals, Client, Keystore, Crypto, MessageCodec,
  SubmissionDelay}.
Context {SM B E : Type} `{StateMachine SM B E, Wire B, OfflineStageNew SM}.
Implicit Types (n : Node).

(** The arguments of [setup_signing]. *)
Record SigningSetup := mkSigningSetup {
  ss_params : AsyncProtocolParameters;
  ss_threshold : Z;
  ss_batch : StoredUnsignedProposalBatch;
  ss_s_l : list KeygenPartyId }.
Implicit Types (u : SigningSetup).

Inductive SigningTask :=
| SigningWaiting
| SigningOffline (t : Running SM B) (offline_i : OfflinePartyId)
| SigningVoting (b : Ballot) (signing : SignManual) (v : Votes)
| SigningConcluded (res : result DKGError unit).

(** [if let Some(LocalKeyType::ECDSA(local_key)) = maybe_local_key]. *)
Definition ecdsa_key (maybe_local_key : option LocalKeyType) : option bytes :=
  match maybe_local_key with Some (ECDSA local_key) => Some local_key | _ => None end.

Definition ss_handle u : Handle := ap_handle (ss_params u).

(** The [then] after the protocol: whatever the result is, the status is set. *)
Definition conclude_signing u (m : NM unit) : NM SigningTask :=
  res ← catch m;
  modify (on_remote (ss_handle u) (set_status Complete));;
  mret (SigningConcluded (match res with inl _ => Ok tt | inr e => Err e end)).

(** [new_offline]: the state machine of the offline stage. *)
Definition new_offline u (offline_i : OfflinePartyId) (local_key : bytes)
    : result DKGError (Running SM B) :=
  sm ← result_of (offline_stage_new (offline_id offline_i) (keygen_id <$> ss_s_l u) local_key)
    ECriticalError;
  Ok (new_inner sm).

(** After the start signal. *)
Definition start_signing u (local_key : bytes) : NM SigningTask :=
  modify (on_remote (ss_handle u) (set_status OfflineAndVoting));;
  match try_from_keygen_party_id (ap_party_i (ss_params u)) (ss_s_l u) with
  | Ok offline_i =>
      match new_offline u offline_i local_key with
      | Ok t => mret (SigningOffline t offline_i)
      | Err e => conclude_signing u (throw e)
      | Panics => panic
      end
  | _ => conclude_signing u (throw EGenericError)
  end.

Definition offline_type u (offline_i : OfflinePartyId) : ProtocolType CompletedOfflineStage :=
  TOffline (ss_batch u) offline_i (ss_s_l u) (default [] (ecdsa_key (ap_local_key (ss_params u))))
    (ap_associated_block_id (ss_params u)).

(** [on_finish] of the offline stage calls the voting stage with this. *)
Definition ballot_of u (offline_i : OfflinePartyId) (stage : CompletedOfflineStage) : Ballot :=
  mkBallot (ss_params u) stage (ss_batch u) offline_i (ss_threshold u) next_batch_key.

(** When the loop around the state machine has its result. *)
Definition offline_done u (offline_i : OfflinePartyId) (res : result DKGError CompletedOfflineStage)
    : NM SigningTask :=
  match res with
  | Ok stage =>
      let b := ballot_of u offline_i stage in
      begun ← catch (begin_voting b);
      match begun with
      | inl signing => mret (SigningVoting b signing no_votes)
      | inr e => conclude_signing u (throw e)
      end
  | Err e => conclude_signing u (throw e)
  | Panics => panic
  end.

(** One message of the voting channel. *)
Definition voting_receive u b (signing : SignManual) (v : Votes) (m : SignedDKGMessage)
    : NM SigningTask :=
  latest ← gets latest_header;
  match transform latest (voting_type b) (ap_session_id (bl_params b)) m with
  | Ok (Some x) =>
      match on_vote b v x with
      | Ok (Some v') =>
          if len (sigs v') =? bl_threshold b
          then conclude_signing u (finish_voting b signing v')
          else mret (SigningVoting b signing v')
      | Ok None => mret (SigningVoting b signing v)
      | Err e => conclude_signing u (throw e)
      | Panics => panic
      end
  | Ok None | Err _ => mret (SigningVoting b signing v)
  | Panics => panic
  end.

Inductive signing_step u n : SigningTask → Node → SigningTask → Prop :=
| signing_no_key task n' :
    ecdsa_key (ap_local_key (ss_params u)) = None →
    conclude_signing u (throw EGenericError) n = Ret task n' →
    signing_step u n SigningWaiting n' task
| signing_start local_key task n' :
    ecdsa_key (ap_local_key (ss_params u)) = Some local_key →
    start_sent (remote_at (ss_handle u) n) = true →
    start_signing u local_key (on_remote (ss_handle u) (set start_rx_open (λ _, false)) n)
      = Ret task n' →
    signing_step u n SigningWaiting n' task
| signing_run t i n' t' :
    running_step (ss_params u) (offline_type u i) n t n' t' →
    signing_step u n (SigningOffline t i) n' (SigningOffline t' i)
| signing_run_done (r : RunResult E CompletedOfflineStage) res t i task n' :
    after_run r = Some res → offline_done u i res n = Ret task n' →
    signing_step u n (SigningOffline t i) n' task
| signing_vote b signing v m ms task n' :
    rx_voting (remote_at (ss_handle u) n) = m :: ms →
    voting_receive u b signing v m (on_remote (ss_handle u) (set rx_voting (λ _, ms)) n)
      = Ret task n' →
    signing_step u n (SigningVoting b signing v) n' task
| signing_stop task reason :
    stop_sent (remote_at (ss_handle u) n) = Some reason →
    signing_step u n task n (SigningConcluded
      (Signer.signing_stopped (ss_handle u) (remote_at (ss_handle u) n) (Some reason))).
End signing.

(** ** Key generation *)

Section keygen.
Context `{MultiPartyEcdsa, LocalKeyDb, WebbProposals, Client, Keystore, Crypto, MessageCodec,
  SubmissionDelay}.
Context {SM B E : Type} `{StateMachine SM B E, Wire B, KeygenNew SM}.
Implicit Types (n : Node).

(** The arguments of [setup_keygen]. *)
Record KeygenSetup := mkKeygenSetup {
  ks_params : AsyncProtocolParameters;
  ks_threshold : Z;
  ks_status : KeygenRound;
  ks_keygen_protocol_hash : bytes }.
Implicit Types (u : KeygenSetup).

Inductive KeygenTask :=
| KeygenWaiting
| KeygenRunning (t : Running SM B)
| KeygenConcluded (res : result DKGError unit).

Definition ks_handle u : Handle := ap_handle (ks_params u).

Definition ks_n u : Z := wrap 16 (len (ap_best_authorities (ks_params u))).

Definition keygen_type u : ProtocolType CompletedOfflineStage :=
  TKeygen (ks_status u) (ap_party_i (ks_params u)) (ks_threshold u) (ks_n u)
    (ap_associated_block_id (ks_params u)) (ks_keygen_protocol_hash u).

(** The status is set only where there is a result; a failed key generation times out. *)
Definition conclude_keygen u (m : NM unit) : NM KeygenTask :=
  res ← catch m;
  match res with
  | inl _ =>
      modify (on_remote (ks_handle u) (set_status Complete));;
      mret (KeygenConcluded (Ok tt))
  | inr e => mret (KeygenConcluded (Err e))
  end.

(** After the start signal, with [new_keygen]. *)
Definition start_keygen_task u : NM KeygenTask :=
  modify (on_remote (ks_handle u) (set_status StKeygen));;
  match keygen_new (keygen_id (ap_party_i (ks_params u))) (ks_threshold u) (ks_n u) with
  | Ok sm => mret (KeygenRunning (new_inner sm))
  | Err e => conclude_keygen u (throw (map_keygen_error (ap_session_id (ks_params u))
      (index_to_authority_mapping (ks_handle u)) e))
  | Panics => panic
  end.

Definition keygen_done u (res : result DKGError bytes) : NM KeygenTask :=
  match res with
  | Ok local_key => conclude_keygen u (keygen_on_finish (ks_params u) local_key;; mret tt)
  | Err e => conclude_keygen u (throw e)
  | Panics => panic
  end.

Inductive keygen_step u n : KeygenTask → Node → KeygenTask → Prop :=
| keygen_start task n' :
    start_sent (remote_at (ks_handle u) n) = true →
    start_keygen_task u (on_remote (ks_handle u) (set start_rx_open (λ _, false)) n) = Ret task n' →
    keygen_step u n KeygenWaiting n' task
| keygen_run t n' t' :
    running_step (ks_params u) (keygen_type u) n t n' t' →
    keygen_step u n (KeygenRunning t) n' (KeygenRunning t')
| keygen_run_done (r : RunResult E bytes) res t task n' :
    after_run r = Some res → keygen_done u res n = Ret task n' →
    keygen_step u n (KeygenRunning t) n' task
| keygen_stop task reason :
    stop_sent (remote_at (ks_handle u) n) = Some reason →
    keygen_step u n task n (KeygenConcluded
      (Keygen.keygen_stopped (ks_handle u) (remote_at (ks_handle u) n) (Some reason))).
End keygen.
Arguments SigningTask {_} _ _.
Arguments KeygenTask : clear implicits.
