(* ===== verification/ProtocolTaskSpec.v ===== *)
(** * Theorems about the tasks of a node

    Every step of a signing or key generation task is made of steps that a node can take
    in the model of Worker.v, so nodes with any number of tasks, in any interleaving,
    stay among its reachable nodes; and the invariant of a signing task. *)

From S2P Require Import Prelude.
From S2P Require Import Frame.
From S2P Require Import Primitives.
From S2P Require Import GadgetTypes.
From S2P Require Import Remote.
From S2P Require Import WorkManager.
From S2P Require Import WorkManagerSpec.
From S2P Require Import Client.
From S2P Require Import Node.
From S2P Require Import Reports.
From S2P Require Import SigningManager.
From S2P Require Import KeygenManager.
From S2P Require Import Worker.
From S2P Require Import AsyncProtocol.
From S2P Require Import AsyncProtocolSpec.
From S2P Require Import VotingStage.
From S2P Require Import VotingStageSpec.
From S2P Require Import ProtocolTask.

Section refinement.
Context `{JobOrder, Client, Keystore, Crypto, MessageCodec, SubmissionDelay, WebbProposals,
  SigningSets, SyncService}.
Implicit Types (n t : Node) (h : Handle).

(** The handle of a task is known to its manager. *)
Definition live h n : Prop := is_Some (remotes (work_of h n) !! remote_id h).

(** Where a task can have brought the node. *)
Definition reached h n t : Prop := rtc node_step n t ∧ live h t.

Lemma reached_refl h n : live h n → reached h n n.
Proof. by split. Qed.

Lemma set_remote_live h r n : live h (set_remote h r n).
Proof.
  unfold live, work_of, set_remote. destruct (proto_stage_type h); simp_get;
    rewrite lookup_insert_eq; eauto.
Qed.

Lemma on_remote_step h f n :
  live h n → protocol_step (remote_at h n) (f (remote_at h n)) → node_step n (on_remote h f n).
Proof.
  unfold live, on_remote, set_remote, remote_at, remote_of, work_of. intros [r Hr].
  destruct (proto_stage_type h); rewrite Hr; cbn; intros Hp;
    [by apply (step_keygen_protocol (remote_id h) r)..|
     by apply (step_signing_protocol (remote_id h) r)].
Qed.

Lemma on_remote_reached h f n t :
  protocol_step (remote_at h t) (f (remote_at h t)) → reached h n t → reached h n (on_remote h f t).
Proof.
  intros Hp [Hr Hl]. split; [|apply set_remote_live].
  eapply rtc_r; [exact Hr|]. by apply on_remote_step.
Qed.

Lemma set_status_reached h st n :
  preserves (reached h n) (modify (on_remote h (set_status st)) : NM unit).
Proof. apply preserves_modify. intros t. apply on_remote_reached. constructor. Qed.

(** Effects that do not touch the managers. *)
Lemma effect_reached {A} (m : NM A) h n :
  (∀ s t, final (m s) = Some t → node_step s t) →
  (∀ X, preserves (λ t, (signing_manager t, keygen_manager t) = X) m) →
  preserves (reached h n) m.
Proof.
  intros Hm Hf t [Hr Hl]. pose proof (Hf _ t eq_refl) as Hp. pose proof (Hm t) as Hs.
  assert (∀ t', (signing_manager t', keygen_manager t') = (signing_manager t, keygen_manager t) →
    node_step t t' → reached h n t') as Hgoal.
  { intros t' [= Es Ek] Ht'. split; [by eapply rtc_r|]. unfold live, work_of in *. by rewrite Es, Ek. }
  unfold wp in *. destruct (m t); [apply Hgoal; eauto..|done].
Qed.

Lemma keep_managers (f : Node → Node) X :
  (∀ n, signing_manager (f n) = signing_manager n ∧ keygen_manager (f n) = keygen_manager n) →
  preserves (λ t, (signing_manager t, keygen_manager t) = X) (modify f : NM unit).
Proof. intros Hf. apply preserves_modify. intros n <-. by destruct (Hf n) as [-> ->]. Qed.

Hint Extern 3 (preserves (λ t, (signing_manager t, keygen_manager t) = _) (modify _)) =>
  apply keep_managers; done : preserves.

Lemma sign_and_send_msg_reached h n d : preserves (reached h n) (sign_and_send_msg d).
Proof.
  apply effect_reached; [intros s t; apply step_send|]. intros X.
  unfold sign_and_send_msg, sign_and_send_messages, send_signed, get_authority_public_key.
  solve_preserves.
Qed.

Lemma gossip_public_key_reached h n m : preserves (reached h n) (gossip_public_key m).
Proof.
  apply effect_reached; [intros s t; apply step_public_key|]. intros X.
  unfold gossip_public_key, send_signed, get_authority_public_key. solve_preserves.
Qed.

Lemma process_vote_result_reached h n votes r :
  preserves (reached h n) (process_vote_result votes r).
Proof.
  apply effect_reached; [intros s t; apply step_vote_result|]. intros X.
  unfold process_vote_result, save_signed_proposals_in_storage, get_authority_public_key.
  solve_preserves.
Qed.

Lemma local_key_reached h n session k :
  preserves (reached h n) (upd! local_keys ::= insert session k : NM unit).
Proof.
  apply effect_reached; [|intros X; by apply keep_managers].
  intros s t [= <-]. apply step_local_key.
Qed.

Hint Resolve set_status_reached sign_and_send_msg_reached gossip_public_key_reached
  process_vote_result_reached local_key_reached : preserves.

(** *** Running state machines *)

Section running.
Context {Completed SM B E : Type} `{StateMachine SM B E, Wire B}.

Lemma send_outgoing_reached h n p (ty : ProtocolType Completed) (m : Msg B) :
  preserves (reached h n) (send_outgoing p ty m).
Proof. unfold send_outgoing. solve_preserves. Qed.

Lemma running_step_reached p (ty : ProtocolType Completed) n (r r' : Running SM B) n' :
  live (ap_handle p) n → running_step p ty n r n' r' → reached (ap_handle p) n n'.
Proof.
  intros Hl [m ms out go Hon Hq Hi|m ms w Hq Hw|w Hw| |m ms go n1 Hon Hq Hs].
  - apply on_remote_reached; [by eapply proto_message|by apply reached_refl].
  - apply on_remote_reached; [constructor|by apply reached_refl].
  - apply on_remote_reached; [constructor|by apply reached_refl].
  - by apply reached_refl.
  - exact (wp_Ret _ _ _ _ _ _ _ (send_outgoing_reached _ n p ty m n (reached_refl _ _ Hl)) Hs).
Qed.
End running.

(** *** Signing and key generation *)

Context `{MultiPartyEcdsa, LocalKeyDb}.

Section signing.
Context {SM B E : Type} `{StateMachine SM B E, Wire B, OfflineStageNew SM}.

Lemma conclude_signing_reached u n (m : NM unit) :
  preserves (reached (ss_handle u) n) m →
  preserves (reached (ss_handle u) n) (conclude_signing u m : NM (SigningTask SM B)).
Proof. intros Hm. unfold conclude_signing. solve_preserves. Qed.

Lemma begin_voting_reached h n b : preserves (reached h n) (begin_voting b).
Proof. unfold begin_voting. solve_preserves. Qed.

Lemma finish_voting_reached h n b signing v : preserves (reached h n) (finish_voting b signing v).
Proof. unfold finish_voting. solve_preserves. Qed.

Hint Resolve conclude_signing_reached begin_voting_reached finish_voting_reached : preserves.

Lemma start_signing_reached u n k :
  preserves (reached (ss_handle u) n) (start_signing u k : NM (SigningTask SM B)).
Proof. unfold start_signing. solve_preserves. Qed.

Lemma offline_done_reached u n i res :
  preserves (reached (ss_handle u) n) (offline_done u i res : NM (SigningTask SM B)).
Proof. unfold offline_done. solve_preserves. Qed.

Lemma voting_receive_reached u n b signing v m :
  preserves (reached (ss_handle u) n) (voting_receive u b signing v m : NM (SigningTask SM B)).
Proof. unfold voting_receive. solve_preserves. Qed.

Lemma signing_step_reached u n (task task' : SigningTask SM B) n' :
  live (ss_handle u) n → signing_step u n task n' task' → reached (ss_handle u) n n'.
Proof.
  intros Hl Hs. pose proof (reached_refl _ _ Hl) as Hn.
  destruct Hs as [task n' Hk Hr|k task n' Hk Hst Hr|r i n' r' Hr|r res r0 i task n' Hres Hr
    |b signing v m ms task n' Hq Hr|task reason Hstop]; [..|done].
  - refine (wp_Ret _ _ _ _ _ _ _ (conclude_signing_reached u n _ _ n Hn) Hr). solve_preserves.
  - refine (wp_Ret _ _ _ _ _ _ _ (start_signing_reached u n k _ _) Hr).
    apply on_remote_reached; [by constructor|done].
  - by eapply running_step_reached.
  - exact (wp_Ret _ _ _ _ _ _ _ (offline_done_reached u n i res n Hn) Hr).
  - refine (wp_Ret _ _ _ _ _ _ _ (voting_receive_reached u n b signing v m _ _) Hr).
    apply on_remote_reached; [by eapply proto_vote|done].
Qed.
End signing.

Section keygen.
Context {SM B E : Type} `{StateMachine SM B E, Wire B, KeygenNew SM}.

Lemma conclude_keygen_reached u n (m : NM unit) :
  preserves (reached (ks_handle u) n) m →
  preserves (reached (ks_handle u) n) (conclude_keygen u m : NM (KeygenTask SM B)).
Proof. intros Hm. unfold conclude_keygen. solve_preserves. Qed.

Lemma keygen_on_finish_reached h n p k : preserves (reached h n) (keygen_on_finish p k).
Proof. unfold keygen_on_finish. solve_preserves. Qed.

Hint Resolve conclude_keygen_reached keygen_on_finish_reached : preserves.

Lemma keygen_step_reached u n (task task' : KeygenTask SM B) n' :
  live (ks_handle u) n → keygen_step u n task n' task' → reached (ks_handle u) n n'.
Proof.
  intros Hl Hs. pose proof (reached_refl _ _ Hl) as Hn.
  destruct Hs as [task n' Hst Hr|r n' r' Hr|r res r0 task n' Hres Hr|task reason Hstop]; [..|done].
  - assert (preserves (reached (ks_handle u) n) (start_keygen_task u : NM (KeygenTask SM B))) as Hp
      by (unfold start_keygen_task; solve_preserves).
    refine (wp_Ret _ _ _ _ _ _ _ (Hp _ _) Hr). apply on_remote_reached; [by constructor|done].
  - by eapply running_step_reached.
  - assert (preserves (reached (ks_handle u) n) (keygen_done u res : NM (KeygenTask SM B))) as Hp
      by (unfold keygen_done; solve_preserves).
    exact (wp_Ret _ _ _ _ _ _ _ (Hp n Hn) Hr).
Qed.
End keygen.

(** ** Nodes with tasks *)

Context {SM B E SM' B' E' : Type} `{StateMachine SM B E, Wire B, OfflineStageNew SM,
  StateMachine SM' B' E', Wire B', KeygenNew SM'}.

(** A node takes a step of its own, or one of its tasks does, in whatever state it is. *)
Inductive node_or_task_step n : Node → Prop :=
| own_step n' : node_step n n' → node_or_task_step n n'
| signing_task_step u (task task' : SigningTask SM B) n' :
    live (ss_handle u) n → signing_step u n task n' task' → node_or_task_step n n'
| keygen_task_step u (task task' : KeygenTask SM' B') n' :
    live (ks_handle u) n → keygen_step u n task n' task' → node_or_task_step n n'.

Lemma node_or_task_steps n n' : rtc node_or_task_step n n' → rtc node_step n n'.
Proof.
  induction 1 as [|n n1 n' Hs _ IH]; [done|]. trans n1; [|done].
  destruct Hs as [n1 Hs|u task task' n1 Hl Hs|u task task' n1 Hl Hs];
    [by apply rtc_once|by eapply signing_step_reached|by eapply keygen_step_reached].
Qed.

Lemma node_step_reachable n n' : rtc node_step n n' → node_reachable n → node_reachable n'.
Proof. intros Hr [o Ho]. exists o. by trans n. Qed.

(** C11: signing and key generation tasks refine the protocols of the model of a node: with
    any number of tasks that run, vote, send, store and conclude in any interleaving
    with the handlers of the worker, a node only gets where it can get by its own steps,
    so every invariant of reachable nodes holds while tasks run. *)
Theorem protocol_tasks_refine n n' :
  rtc node_or_task_step n n' → node_reachable n → rtc node_step n n' ∧ node_reachable n'.
Proof. eauto using node_or_task_steps, node_step_reachable. Qed.

(** ** The invariant of a signing task *)

(** While a task votes, it does so for its batch and with the partial signature of its
    offline stage; it has as many signatures as parties it heard, is not one of them, and
    still needs some. *)
Definition task_ok u (task : SigningTask SM B) : Prop :=
  match task with
  | SigningVoting b signing v =>
      b = ballot_of u (bl_offline_i b) (bl_offline_stage b) ∧
      (∃ hash partial, unsigned_batch_hash (ss_batch u) = Some hash ∧
         sign_manual_new (be_decode hash) (bl_offline_stage b) = Ok (signing, partial)) ∧
      size (received_sigs v) = length (sigs v) ∧ len (sigs v) < ss_threshold u ∧
      offline_id (bl_offline_i b) ∉ received_sigs v
  | _ => True
  end.

Inductive system_step u : Node * SigningTask SM B → Node * SigningTask SM B → Prop :=
| system_node n n' task : node_or_task_step n n' → system_step u (n, task) (n', task)
| system_task n n' task task' :
    live (ss_handle u) n → signing_step u n task n' task' → system_step u (n, task) (n', task').

Lemma conclude_signing_ok u (m : NM unit) n task n' :
  conclude_signing u m n = Ret task n' → task_ok u task.
Proof. unfold conclude_signing. intros (r & n1 & _ & Hr)%bind_Ret. by minv Hr. Qed.

Lemma offline_done_ok u i res n task n' :
  1 <= ss_threshold u → offline_done u i res n = Ret task n' → task_ok u task.
Proof.
  intros Ht. unfold offline_done. destruct res as [stage|e|]; [|apply conclude_signing_ok|done].
  intros ([signing|e] & n1 & Hb%catch_Ret & Hr)%bind_Ret; [|by eapply conclude_signing_ok].
  apply ret_Ret in Hr as [-> ->]. cbn. split_and!; [done| |done|lia|set_solver].
  by apply begin_voting_Ret in Hb.
Qed.

Lemma on_vote_ok b v x v' :
  on_vote b v x = Ok (Some v') →
  (rb_sender x ∉ received_sigs v) ∧ received_sigs v' = ({[ rb_sender x ]} ∪ received_sigs v) ∧
  length (sigs v') = S (length (sigs v)).
Proof.
  unfold on_vote. destruct (payload (rb_body x)); try done. case_bool_decide; [|done].
  case_bool_decide; [done|]. intros (partial & _ & [= <-])%result_bind_Ok.
  cbn. rewrite length_app. cbn. split_and!; [done..|lia].
Qed.

Lemma voting_receive_ok u b signing v m n task n' :
  task_ok u (SigningVoting b signing v) →
  voting_receive u b signing v m n = Ret task n' → task_ok u task.
Proof.
  intros Hok. unfold voting_receive. rewrite run_gets.
  destruct (transform _ _ _ m) as [[x|]|e|] eqn:Htr; [|by intros [-> _]%ret_Ret..|done].
  destruct (on_vote b v x) as [[v'|]|e|] eqn:Hv;
    [|by intros [-> _]%ret_Ret|apply conclude_signing_ok|done].
  destruct (Z.eqb_spec (len (sigs v')) (bl_threshold b)); [apply conclude_signing_ok|].
  intros [-> _]%ret_Ret. destruct Hok as (Hb & Hs & Hsize & Hlen & Hown).
  apply on_vote_ok in Hv as (Hnew & Hrec & Hl).
  apply transform_spec in Htr as ([_ _ Hother _ _] & _ & _).
  assert (bl_threshold b = ss_threshold u) as Hth by (rewrite Hb; done).
  cbn. split_and!; [done|done| |lia|].
  - rewrite Hrec, size_union, size_singleton by set_solver. lia.
  - rewrite Hrec. cbn in Hother. set_solver.
Qed.

Lemma signing_step_ok u n task n' task' :
  1 <= ss_threshold u → signing_step u n task n' task' → task_ok u task → task_ok u task'.
Proof.
  intros Ht [task1 n1 Hk Hr|k task1 n1 Hk Hst Hr|r i n1 r' Hr|r res r0 i task1 n1 Hres Hr
    |b signing v m ms task1 n1 Hq Hr|task1 reason Hstop] Hok; [..|done].
  - by eapply conclude_signing_ok.
  - unfold start_signing in Hr. rewrite run_modify in Hr.
    destruct (try_from_keygen_party_id _ _); [|by eapply conclude_signing_ok..].
    destruct (new_offline _ _ _); [by apply ret_Ret in Hr as [-> _]|by eapply conclude_signing_ok|done].
  - done.
  - by eapply offline_done_ok.
  - by eapply voting_receive_ok.
Qed.

(** C12: in every interleaving of a signing task with its node and with other tasks, the node
    stays reachable and the task keeps its invariant: it votes only for the batch it was
    set up for, counts every party once and itself never, and concludes as soon as it
    has as many partial signatures as the threshold. *)
Theorem signing_task_inv u n n' task :
  1 <= ss_threshold u → node_reachable n →
  rtc (system_step u) (n, SigningWaiting) (n', task) → node_reachable n' ∧ task_ok u task.
Proof.
  intros Ht Hn Hr. change n' with (n', task).1. change task with (n', task).2 at 2.
  assert (task_ok u ((n, SigningWaiting : SigningTask SM B)).2) as Hok by done.
  change n with (n, SigningWaiting : SigningTask SM B).1 in Hn.
  induction Hr as [|p q r Hs _ IH]; [done|].
  destruct Hs as [m m' t Hs|m m' t t' Hl Hs]; apply IH; cbn in *; try done.
  - eapply node_step_reachable; [|done]. by apply node_or_task_steps, rtc_once.
  - eapply node_step_reachable; [|done]. by eapply signing_step_reached.
  - by eapply signing_step_ok.
Qed.
End refinement.
