(* ===== verification/LocalKeys.v ===== *)
(** * The database of local keys

    [DKGDbBackend] (src/dkg-gadget/src/db/mod.rs) and its three implementations: in memory
    (mem.rs), in the offchain storage, encrypted with a secret of the keystore
    (offchain_storage.rs, with [encrypt_data] and [decrypt_data] of
    src/dkg-primitives/src/utils.rs and the sr25519 part of keystore.rs), and in SQLite
    (sql_storage.rs), the one that [start_dkg_gadget] uses (lib.rs).

    What the gadget relies on is that a database behaves like a map from sessions to keys
    when it is read the way [fetch_local_keys] reads it ([DbRefines]); the first two
    implementations do, and a client of the interface cannot tell them from the map.  The
    third refuses every key. *)

From Stdlib Require Import Ascii.
From S2P Require Import Prelude.
From S2P Require Import Frame.
From S2P Require Import Primitives.
From S2P Require Import GadgetTypes.
From S2P Require Import Client.
From S2P Require Import Node.
From S2P Require Import AsyncProtocol.
From S2P Require Import VotingStage.

(** ** The interface *)

Class DKGDbBackend (D : Type) := {
  get_local_key : Z → M D DKGError (option LocalKeyType);
  store_local_key : Z → LocalKeyType → M D DKGError unit }.

Section interface.
Context {D : Type} `{DKGDbBackend D}.

(** [get_local_key(..).ok().flatten()]. *)
Definition fetch (session : Z) : M D DKGError (option LocalKeyType) :=
  res ← catch (get_local_key session);
  mret (match res with inl key => key | inr _ => None end).

(** [DKGWorker::fetch_local_keys]. *)
Definition db_fetch_local_keys (current_session_id : Z)
    : M D DKGError (option LocalKeyType * option LocalKeyType) :=
  let next_session_id := wrap 64 (current_session_id + 1) in
  active_local_key ← fetch current_session_id;
  next_local_key ← fetch next_session_id;
  mret (active_local_key, next_local_key).

(** A database holds a map: reading gives its entries, a store adds one if the database
    takes the key, and otherwise fails and changes nothing. *)
Class DbRefines (accepts : LocalKeyType → bool) (holds : D → gmap Z LocalKeyType → Prop) : Prop := {
  fetch_refines d keys session : in_width 64 session → holds d keys →
    fetch session d = Ret (keys !! session) d;
  store_refines d keys session key : in_width 64 session → holds d keys →
    if accepts key
    then ∃ d', store_local_key session key d = Ret tt d' ∧ holds d' (<[session := key]> keys)
    else ∃ e d', store_local_key session key d = Fail e d' ∧ holds d' keys }.

(** What a client does with a database. *)
Inductive DbOp :=
| DbStore (session : Z) (key : LocalKeyType)
| DbFetch (session : Z).

Definition op_session (op : DbOp) : Z := match op with DbStore s _ | DbFetch s => s end.

(** What it sees: whether a store returns, or the keys of a session and the next one. *)
Inductive DbAnswer :=
| Stored (ok : bool)
| Fetched (keys : option LocalKeyType * option LocalKeyType).

Definition db_op (op : DbOp) : M D DKGError DbAnswer :=
  match op with
  | DbStore session key =>
      res ← catch (store_local_key session key);
      mret (Stored (match res with inl _ => true | inr _ => false end))
  | DbFetch session => keys ← db_fetch_local_keys session; mret (Fetched keys)
  end.

Fixpoint db_ops (ops : list DbOp) : M D DKGError (list DbAnswer) :=
  match ops with
  | [] => mret []
  | op :: ops => answer ← db_op op; answers ← db_ops ops; mret (answer :: answers)
  end.
End interface.

(** The same client on a map that takes some keys: what it sees, and the map afterwards. *)
Fixpoint map_ops (accepts : LocalKeyType → bool) (keys : gmap Z LocalKeyType) (ops : list DbOp)
    : list DbAnswer * gmap Z LocalKeyType :=
  match ops with
  | [] => ([], keys)
  | DbStore session key :: ops =>
      let keys := if accepts key then <[session := key]> keys else keys in
      let '(answers, keys) := map_ops accepts keys ops in (Stored (accepts key) :: answers, keys)
  | DbFetch session :: ops =>
      let '(answers, keys') := map_ops accepts keys ops in
      (Fetched (keys !! session, keys !! wrap 64 (session + 1)) :: answers, keys')
  end.

(** ** In memory *)

Module Mem.
(** A mutex is poisoned when a thread panics while it holds the lock. *)
Record DKGInMemoryDb := mkDKGInMemoryDb {
  poisoned : bool;
  local_keys : gmap Z LocalKeyType }.

#[global] Instance DKGInMemoryDb_eta : Eta DKGInMemoryDb := λ d,
  mkDKGInMemoryDb (poisoned d) (local_keys d).

Definition new : DKGInMemoryDb := mkDKGInMemoryDb false ∅.

Definition lock : M DKGInMemoryDb DKGError unit :=
  bad ← gets poisoned;
  ensure (negb bad) ECriticalError.

#[global] Instance mem_db : DKGDbBackend DKGInMemoryDb := {|
  get_local_key session_id :=
    lock;;
    keys ← gets local_keys;
    mret (keys !! session_id);
  store_local_key session_id local_key :=
    lock;;
    upd! local_keys ::= insert session_id local_key |}.

(** The keys in memory are the map, while nobody panicked. *)
Definition holds (d : DKGInMemoryDb) (keys : gmap Z LocalKeyType) : Prop :=
  poisoned d = false ∧ local_keys d = keys.

#[global] Instance mem_refines : DbRefines (λ _, true) holds.
Proof.
  split.
  - intros [p keys] keys' s _ [Hp Hk]. cbn in Hp, Hk. by subst.
  - intros [p keys] keys' s k _ [Hp Hk]. cbn in Hp, Hk. subst. by eexists.
Qed.
End Mem.

(** ** Encryption *)

(** XChaCha20-Poly1305 with a key and a nonce. *)
Class Aead := {
  aead_encrypt : bytes → bytes → bytes → option bytes;
  aead_decrypt : bytes → bytes → bytes → option bytes }.

Class AeadLaws `{Aead} : Prop :=
  aead_roundtrip key nonce data encrypted :
    aead_encrypt key nonce data = Some encrypted → aead_decrypt key nonce encrypted = Some data.

(** It adds a key stream to the data, and appends a tag. *)
Class AeadStream `{Aead} : Prop :=
  aead_stream key nonce : ∃ stream : nat → Z, ∀ data encrypted,
    aead_encrypt key nonce data = Some encrypted →
    ∃ tag, encrypted = imap (λ i b, Z.lxor b (stream i)) data ++ tag.

(** serde_json on local keys. *)
Class LocalKeyJson := {
  key_to_vec : LocalKeyType → option bytes;
  key_from_slice : bytes → option LocalKeyType }.

Class LocalKeyJsonLaws `{LocalKeyJson} : Prop :=
  key_from_to key bs : key_to_vec key = Some bs → key_from_slice bs = Some key.

Section encryption.
Context `{Aead}.

(** [&secret_key_bytes[32..][..24]]. *)
Definition cipher_key (secret_key_bytes : bytes) : bytes := take 32 secret_key_bytes.
Definition cipher_nonce (secret_key_bytes : bytes) : bytes := slice 32 56 secret_key_bytes.

Definition encrypt_data (data secret_key_bytes : bytes) : option bytes :=
  if negb (len secret_key_bytes =? 64) then None else
  aead_encrypt (cipher_key secret_key_bytes) (cipher_nonce secret_key_bytes) data.

Definition decrypt_data (data secret_key_bytes : bytes) : option bytes :=
  if negb (len secret_key_bytes =? 64) then None else
  aead_decrypt (cipher_key secret_key_bytes) (cipher_nonce secret_key_bytes) data.

(** Decryption undoes encryption with the same secret. *)
Theorem decrypt_encrypt `{!AeadLaws} data secret encrypted :
  encrypt_data data secret = Some encrypted → decrypt_data encrypted secret = Some data.
Proof.
  unfold encrypt_data, decrypt_data. destruct (negb _); [done|]. apply aead_roundtrip.
Qed.
End encryption.

(** ** In the offchain storage *)

Lemma le_encode_reverse n z : le_encode n z = reverse (be_encode n z).
Proof.
  revert z. induction n as [|n IH]; intros z; [done|].
  cbn [le_encode be_encode]. by rewrite IH, reverse_app.
Qed.

Module Offchain.
Definition STORAGE_PREFIX : bytes := ascii_bytes "dkg".

(** [keys::LocalKey], encoded. *)
Definition LocalKey (session_id : Z) : bytes :=
  ascii_bytes "dkg" ++ ascii_bytes "local_key" ++ le_encode 8 session_id.

(** The sr25519 keys of the node: those of the keystore with the type ACCOUNT, in its
    order, and the pairs of the local keystore, whose lookup can fail. *)
Record SrKeystore := mkSrKeystore {
  account_keys : option (list bytes);
  has_account_key : bytes → bool;
  key_pair : option (bytes → result unit (option bytes)) }.

Record DKGOffchainStorageDb := mkDKGOffchainStorageDb {
  offchain_storage : option (gmap (bytes * bytes) bytes);
  key_store : SrKeystore }.

#[global] Instance DKGOffchainStorageDb_eta : Eta DKGOffchainStorageDb := λ d,
  mkDKGOffchainStorageDb (offchain_storage d) (key_store d).

Definition sr25519_public_keys (ks : SrKeystore) : option (list bytes) := account_keys ks.

Definition sr25519_public_key (ks : SrKeystore) (keys : list bytes) : option bytes :=
  _ ← account_keys ks;
  head (filter (λ k, has_account_key ks k = true) keys).

Abbreviation OM A := (M DKGOffchainStorageDb DKGError A).

(** [Public::try_from] takes 32 bytes. *)
Definition secret_key : OM bytes :=
  ks ← gets key_store;
  public_key ← ok_or (sr25519_public_key ks (default [] (sr25519_public_keys ks))) ECriticalError;
  local_keystore ← ok_or (key_pair ks) ECriticalError;
  ensure (len public_key =? 32) ECriticalError;;
  pair ← lift_result (λ _, ECriticalError) (local_keystore public_key);
  ok_or pair ECriticalError.

Definition store (key value : bytes) : OM unit :=
  storage ← gets offchain_storage;
  storage ← ok_or storage ECriticalError;
  put! offchain_storage := Some (<[(STORAGE_PREFIX, key) := value]> storage).

Definition load (key : bytes) : OM (option bytes) :=
  storage ← gets offchain_storage;
  storage ← ok_or storage ECriticalError;
  mret (storage !! (STORAGE_PREFIX, key)).

Section offchain.
Context `{Aead, LocalKeyJson}.

Definition encrypt_and_store (key value : bytes) : OM unit :=
  secret_key ← secret_key;
  encrypted_data ← ok_or (encrypt_data value secret_key) ECriticalError;
  store key encrypted_data.

Definition load_and_decrypt (key : bytes) : OM (option bytes) :=
  secret_key ← secret_key;
  maybe_encrypted_data ← load key;
  match maybe_encrypted_data with
  | Some encrypted_data =>
      decrypted_data ← ok_or (decrypt_data encrypted_data secret_key) ECriticalError;
      mret (Some decrypted_data)
  | None => mret None
  end.

#[global] Instance offchain_db : DKGDbBackend DKGOffchainStorageDb := {|
  get_local_key session_id :=
    maybe_decrypted_bytes ← load_and_decrypt (LocalKey session_id);
    match maybe_decrypted_bytes with
    | Some decrypted_bytes =>
        local_key ← ok_or (key_from_slice decrypted_bytes) ECriticalError;
        mret (Some local_key)
    | None => mret None
    end;
  store_local_key session_id local_key :=
    value ← ok_or (key_to_vec local_key) ECriticalError;
    encrypt_and_store (LocalKey session_id) value |}.

(** A key is in the storage in its serialized, encrypted form. *)
Definition stored_as (secret : bytes) (key : LocalKeyType) (entry : bytes) : Prop :=
  ∃ value, key_to_vec key = Some value ∧ encrypt_data value secret = Some entry.

(** The storage holds the keys of a map, encrypted with the secret of the keystore. *)
Definition holds (secret : bytes) (d : DKGOffchainStorageDb) (keys : gmap Z LocalKeyType) : Prop :=
  ∃ storage, offchain_storage d = Some storage ∧ secret_key d = Ret secret d ∧
    ∀ session, in_width 64 session →
      match keys !! session with
      | Some key => ∃ entry, storage !! (STORAGE_PREFIX, LocalKey session) = Some entry ∧
          stored_as secret key entry
      | None => storage !! (STORAGE_PREFIX, LocalKey session) = None
      end.

(** The secret is read from the keystore alone. *)
Lemma secret_key_any d d' secret :
  key_store d' = key_store d → secret_key d = Ret secret d → secret_key d' = Ret secret d'.
Proof.
  unfold secret_key. intros Hks. rewrite !run_gets, Hks, !run_ok_or.
  destruct (sr25519_public_key _ _) as [public|]; [|done].
  rewrite !run_ok_or. destruct (key_pair _) as [pairs|]; [|done].
  rewrite !run_ensure. destruct (_ =? _); [|done]. rewrite !run_lift.
  destruct (pairs public) as [[pair|]| |]; try done. cbn. by intros [= ->].
Qed.

Lemma LocalKey_inj s s' : in_width 64 s → in_width 64 s' → LocalKey s = LocalKey s' → s = s'.
Proof.
  intros Hs Hs' Heq. unfold LocalKey in Heq. apply app_inv_head, app_inv_head in Heq.
  rewrite !le_encode_reverse in Heq. apply (inj reverse) in Heq. exact (be_encode_inj 8 s s' Hs Hs' Heq).
Qed.

Lemma load_run d storage key :
  offchain_storage d = Some storage → load key d = Ret (storage !! (STORAGE_PREFIX, key)) d.
Proof. intros Hs. unfold load. by rewrite run_gets, Hs. Qed.

Lemma store_run d storage key value :
  offchain_storage d = Some storage →
  store key value d = Ret tt (d <| offchain_storage :=
    Some (<[(STORAGE_PREFIX, key) := value]> storage) |>).
Proof. intros Hs. unfold store. by rewrite run_gets, Hs. Qed.

Lemma load_and_decrypt_run d storage secret key :
  offchain_storage d = Some storage → secret_key d = Ret secret d →
  load_and_decrypt key d =
    match storage !! (STORAGE_PREFIX, key) with
    | Some entry =>
        match decrypt_data entry secret with
        | Some value => Ret (Some value) d
        | None => Fail ECriticalError d
        end
    | None => Ret None d
    end.
Proof.
  intros Hst Hsec. unfold load_and_decrypt.
  rewrite (run_call _ _ _ _ _ Hsec), (run_call _ _ _ _ _ (load_run d storage key Hst)).
  destruct (storage !! _) as [entry|]; [|done]. rewrite run_ok_or. by destruct (decrypt_data _ _).
Qed.

(** The keys that it takes: those that can be serialized and encrypted. *)
Definition accepts (secret : bytes) (key : LocalKeyType) : bool :=
  bool_decide (is_Some (value ← key_to_vec key; encrypt_data value secret)).

#[global] Instance offchain_refines `{!AeadLaws, !LocalKeyJsonLaws} secret :
  DbRefines (accepts secret) (holds secret).
Proof.
  split.
  - intros d keys s Hw (storage & Hst & Hsec & Hkeys). specialize (Hkeys s Hw).
    assert (get_local_key s d = Ret (keys !! s) d) as Hget.
    { cbn. pose proof (load_and_decrypt_run d storage secret (LocalKey s) Hst Hsec) as Hl.
      destruct (keys !! s) as [key|]; [|rewrite Hkeys in Hl; by rewrite (run_call _ _ _ _ _ Hl)].
      destruct Hkeys as (entry & Hentry & value & Hv & He). apply decrypt_encrypt in He.
      rewrite Hentry, He in Hl. rewrite (run_call _ _ _ _ _ Hl), run_ok_or.
      by rewrite (key_from_to key value Hv). }
    unfold fetch, catch, mbind, M_bind. by rewrite Hget.
  - intros d keys s key Hw (storage & Hst & Hsec & Hkeys). cbn. rewrite run_ok_or. unfold accepts.
    assert (holds secret d keys) as Hd by by exists storage.
    destruct (key_to_vec key) as [value|] eqn:Hv; cbn [mbind option_bind]; [|by eexists _, d].
    unfold encrypt_and_store. rewrite (run_call _ _ _ _ _ Hsec), run_ok_or.
    destruct (encrypt_data value secret) as [entry|] eqn:He; cbn; [|by eexists _, d].
    rewrite (store_run d storage) by done. eexists. split; [reflexivity|]. eexists. split; [done|]. split.
    { by apply (secret_key_any d). }
    intros s' Hw'. destruct (decide (s = s')) as [<-|Hne].
    + rewrite lookup_insert_eq. exists entry. rewrite lookup_insert_eq. split; [done|]. by exists value.
    + rewrite lookup_insert_ne by done. specialize (Hkeys s' Hw').
      assert ((STORAGE_PREFIX, LocalKey s) ≠ (STORAGE_PREFIX, LocalKey s')) as Hk.
      { intros Heq%(f_equal snd). by apply Hne, LocalKey_inj. }
      by rewrite lookup_insert_ne.
Qed.

(** A store, on every branch: it succeeds where the key is serialized and the secret of
    the keystore, of 64 bytes, encrypts it; nothing is written otherwise. *)
Theorem offchain_store_spec d storage secret session key :
  offchain_storage d = Some storage → secret_key d = Ret secret d →
  store_local_key session key d =
    match value ← key_to_vec key; encrypt_data value secret with
    | Some entry => Ret tt (d <| offchain_storage :=
        Some (<[(STORAGE_PREFIX, LocalKey session) := entry]> storage) |>)
    | None => Fail ECriticalError d
    end.
Proof.
  intros Hst Hsec. cbn. rewrite run_ok_or. destruct (key_to_vec key) as [value|]; [|done]. cbn.
  unfold encrypt_and_store. rewrite (run_call _ _ _ _ _ Hsec), run_ok_or.
  destruct (encrypt_data value secret); [|done]. by apply store_run.
Qed.

(** All keys are encrypted with one key stream, so two entries show where the two
    serialized keys differ. *)
Theorem stored_entries_leak `{!AeadStream} secret k1 k2 v1 v2 e1 e2 :
  key_to_vec k1 = Some v1 → key_to_vec k2 = Some v2 →
  stored_as secret k1 e1 → stored_as secret k2 e2 →
  ∀ i b1 b2, v1 !! i = Some b1 → v2 !! i = Some b2 →
  ∃ c1 c2, e1 !! i = Some c1 ∧ e2 !! i = Some c2 ∧ Z.lxor c1 c2 = Z.lxor b1 b2.
Proof.
  intros Hv1 Hv2 (w1 & Hw1 & He1) (w2 & Hw2 & He2) i b1 b2 Hb1 Hb2. simplify_eq.
  unfold encrypt_data in He1, He2. destruct (negb _); [done|].
  destruct (aead_stream (cipher_key secret) (cipher_nonce secret)) as [stream Hs].
  destruct (Hs _ _ He1) as [t1 ->]. destruct (Hs _ _ He2) as [t2 ->].
  exists (Z.lxor b1 (stream i)), (Z.lxor b2 (stream i)).
  split_and!; [apply lookup_app_l_Some; rewrite list_lookup_imap, ?Hb1, ?Hb2; done..|].
  rewrite (Z.lxor_comm b2), Z.lxor_assoc, <- (Z.lxor_assoc (stream i)).
  by rewrite Z.lxor_nilpotent, Z.lxor_0_l.
Qed.
End offchain.
End Offchain.

(** ** Clients of the interface *)

Section client.
Context {D : Type} (accepts : LocalKeyType → bool) (holds : D → gmap Z LocalKeyType → Prop).
Context `{DbRefines D accepts holds}.

Lemma db_fetch_run d keys session :
  in_width 64 session → holds d keys →
  db_fetch_local_keys session d = Ret (keys !! session, keys !! wrap 64 (session + 1)) d.
Proof.
  intros Hw Hd. unfold db_fetch_local_keys.
  rewrite (run_call _ _ _ _ _ (fetch_refines d keys session Hw Hd)).
  rewrite (run_call _ _ _ _ _ (fetch_refines d keys (wrap 64 (session + 1)) ltac:(by apply wrap_in_width) Hd)).
  done.
Qed.

(** A client of a database sees what it would see of the map. *)
Lemma db_ops_refine d keys ops :
  holds d keys → Forall (λ op, in_width 64 (op_session op)) ops →
  ∃ d', db_ops ops d = Ret (map_ops accepts keys ops).1 d' ∧ holds d' (map_ops accepts keys ops).2.
Proof.
  intros Hd Hops. revert d keys Hd.
  induction Hops as [|op ops Hop _ IH]; intros d keys Hd; [by exists d|].
  destruct op as [session key|session]; cbn [op_session] in Hop; cbn [db_ops map_ops].
  - pose proof (store_refines d keys session key Hop Hd) as Hs. destruct (accepts key).
    + destruct Hs as (d1 & E & Hs). destruct (IH d1 _ Hs) as (d' & Hr & Hd').
      exists d'. destruct (map_ops accepts _ ops) as [answers keys']. cbn in *. split; [|done].
      unfold catch, mbind, M_bind. rewrite E. cbn. unfold mbind, M_bind in Hr. by rewrite Hr.
    + destruct Hs as (e & d1 & E & Hs). destruct (IH d1 _ Hs) as (d' & Hr & Hd').
      exists d'. destruct (map_ops accepts _ ops) as [answers keys']. cbn in *. split; [|done].
      unfold catch, mbind, M_bind. rewrite E. cbn. unfold mbind, M_bind in Hr. by rewrite Hr.
  - destruct (IH d keys Hd) as (d' & Hr & Hd'). exists d'.
    destruct (map_ops accepts keys ops) as [answers keys']. cbn [fst snd] in *. split; [|done].
    cbn [db_op]. rewrite run_bind_bind, (run_call _ _ _ _ _ (db_fetch_run d keys session Hop Hd)).
    by rewrite run_ret, (run_call _ _ _ _ _ Hr).
Qed.
End client.

(** C32: no client can tell the database in memory, or the one in the offchain storage, from
    a map: whatever keys it stores and fetches, in whatever order, every answer is the one
    that the map gives, and at the end the database holds the map.  The one in memory
    starts empty and takes every key.  The one in the offchain storage, in a node whose
    keystore has the secret and whose storage has no local keys yet, takes exactly the
    keys that can be serialized and encrypted with the secret, and keeps every key it took
    in its encrypted form. *)
Theorem local_key_databases `{AeadLaws, LocalKeyJsonLaws} ops :
  Forall (λ op, in_width 64 (op_session op)) ops →
  (∃ d, db_ops ops Mem.new = Ret (map_ops (λ _, true) ∅ ops).1 d ∧
     Mem.poisoned d = false ∧ Mem.local_keys d = (map_ops (λ _, true) ∅ ops).2) ∧
  (∀ d storage secret, Offchain.offchain_storage d = Some storage →
     Offchain.secret_key d = Ret secret d →
     (∀ session, in_width 64 session →
        storage !! (Offchain.STORAGE_PREFIX, Offchain.LocalKey session) = None) →
     ∃ d', db_ops ops d = Ret (map_ops (Offchain.accepts secret) ∅ ops).1 d' ∧
       Offchain.holds secret d' (map_ops (Offchain.accepts secret) ∅ ops).2).
Proof.
  intros Hops. split.
  - by apply (db_ops_refine (λ _, true) Mem.holds Mem.new ∅ ops).
  - intros d storage secret Hst Hsec Hnone.
    apply (db_ops_refine (Offchain.accepts secret) (Offchain.holds secret)); [|done].
    exists storage. split_and!; [done..|]. intros session Hw. rewrite lookup_empty. by apply Hnone.
Qed.

(** [store_public_key] of a node with a database. *)
Definition db_store_public_key {D} `{DKGDbBackend D} (d : D) : LocalKeyDb := λ key session_id,
  match store_local_key session_id key d with
  | Ret _ _ => Ok tt
  | Fail e _ => Err e
  | Panic => Panics
  end.

(** ** In SQLite *)

Module Sql.
Inductive SqlValue := SqlInt (z : Z) | SqlText (s : bytes).

(** Statements with their bound values, on a connection; [None] is an error. *)
Class Sqlite := {
  Conn : Type;
  sql_begin : Conn → option Conn;
  sql_commit : Conn → option Conn;
  sql_execute : Conn → string → list SqlValue → option Conn;
  (** The first column of a row, where there is one. *)
  sql_fetch_optional : Conn → string → list SqlValue → option (option bytes) }.

(** A comma before a closing parenthesis. *)
Fixpoint dangling_comma (after_comma : bool) (s : string) : bool :=
  match s with
  | String a s =>
      if bool_decide (a = ","%char) then dangling_comma true s
      else if bool_decide (a = ")"%char) then after_comma || dangling_comma false s
      else if strings.Ascii.is_space a then dangling_comma after_comma s
      else dangling_comma false s
  | EmptyString => false
  end.

(** A statement with quotes of one of the kinds of SQL, or with comments. *)
Fixpoint quoted (s : string) : bool :=
  match s with
  | String a s => bool_decide (a ∈ ["'"; "034"; "`"; "["; "-"; "/"]%char) || quoted s
  | EmptyString => false
  end.

Definition insert_statement (table : string) (columns values : list string) : string :=
  ("INSERT INTO " +:+ table +:+ "(" +:+ String.concat ", " columns +:+ ") VALUES (" +:+
   String.concat ", " values +:+ ")")%string.

(** A name or a placeholder. *)
Definition word_char (a : ascii) : bool :=
  let n := Z.of_N (N_of_ascii a) in
  ((48 <=? n) && (n <=? 57)) || ((65 <=? n) && (n <=? 90)) || ((97 <=? n) && (n <=? 122)) ||
  (n =? 95) || (n =? 63).

Definition word (s : string) : bool :=
  negb (bool_decide (s = EmptyString)) && forallb word_char (String.list_ascii_of_string s).

(** SQLite refuses a list that ends with a comma, and an insertion with more or fewer
    values than columns. *)
Class SqliteLaws `{Sqlite} : Prop := {
  sql_list_syntax c s args : quoted s = false → dangling_comma false s = true →
    sql_execute c s args = None;
  sql_insert_arity c table columns values args :
    forallb word (table :: columns ++ values) = true → length columns ≠ length values →
    sql_execute c (insert_statement table columns values) args = None }.

Section sql.
Context `{Sqlite, LocalKeyJson}.

Record SqlBackend := mkSqlBackend {
  pool : Conn;
  num_ops_timeout : Z }.

Definition create_database_if_not_exists : string :=
  "BEGIN;
			CREATE TABLE IF NOT EXISTS dkg_keys (
				id INTEGER PRIMARY KEY,
				session_id INTEGER NOT NULL,
				local_key BLOB NOT NULL,
			);
			COMMIT;".

Definition create_indexes_if_not_exist : string :=
  "BEGIN;
			CREATE INDEX IF NOT EXISTS session_id_index ON dkg_keys (
				session_id
			);
			COMMIT;".

(** With the connection that the options of the configuration give. *)
Definition new_inner (connect : option Conn) (timeout : option Z) : result unit SqlBackend :=
  any_pool ← result_of connect tt;
  any_pool ← result_of (sql_execute any_pool create_database_if_not_exists []) tt;
  any_pool ← result_of (sql_execute any_pool create_indexes_if_not_exist []) tt;
  Ok (mkSqlBackend any_pool (Z.min (default 0 timeout) (2 ^ 31 - 1))).

(** [as i64] of a u64. *)
Definition as_i64 (z : Z) : Z := if z <? 2 ^ 63 then z else z - 2 ^ 64.

Definition select_key : string := "SELECT local_key FROM dkg_keys WHERE session_id = ?".
Definition insert_key : string := "INSERT INTO dkg_keys(session_id, local_key) VALUES (?)".

(** A transaction that is not committed leaves the pool as it was. *)
#[global] Instance sql_db : DKGDbBackend SqlBackend := {|
  get_local_key session_id :=
    c ← gets pool;
    match sql_fetch_optional c select_key [SqlInt (as_i64 session_id)] with
    | Some (Some local_key_json) =>
        local_key ← expect (key_from_slice local_key_json);
        mret (Some local_key)
    | _ => throw ELocalKeyNotFound
    end;
  store_local_key session_id local_key :=
    c ← gets pool;
    tx ← ok_or (sql_begin c) EStoringLocalKeyFailed;
    json ← expect (key_to_vec local_key);
    tx ← ok_or (sql_execute tx insert_key [SqlInt (as_i64 session_id); SqlText json])
      EStoringLocalKeyFailed;
    tx ← ok_or (sql_commit tx) EStoringLocalKeyFailed;
    modify (λ d, mkSqlBackend tx (num_ops_timeout d)) |}.

(** The table is never created: its definition ends with a comma. *)
Theorem sql_new_fails `{!SqliteLaws} connect timeout : new_inner connect timeout = Err tt.
Proof.
  unfold new_inner. destruct connect as [c|]; [|done]. cbn.
  by rewrite (sql_list_syntax c create_database_if_not_exists []).
Qed.

(** A database that is there refuses every key: the statement has two columns and one
    value. *)
Theorem sql_refuses_every_key `{!SqliteLaws} d session key :
  is_Some (key_to_vec key) → store_local_key session key d = Fail EStoringLocalKeyFailed d.
Proof.
  intros [json Hj]. cbn [store_local_key sql_db]. rewrite run_gets, run_ok_or.
  destruct (sql_begin (pool d)) as [tx|]; [|done]. rewrite Hj. cbn [expect]. rewrite run_ret, run_ok_or.
  pose proof (sql_insert_arity tx "dkg_keys" ["session_id"; "local_key"] ["?"]
    [SqlInt (as_i64 session); SqlText json] eq_refl) as Ha.
  change (insert_statement "dkg_keys" ["session_id"; "local_key"] ["?"]) with insert_key in Ha.
  by rewrite Ha.
Qed.

(** So a key generation that ends with a local key fails, stores nothing and does not
    announce its public key. *)
Theorem sql_keygen_fails `{!SqliteLaws, MultiPartyEcdsa, Client, Keystore, Crypto, MessageCodec}
    d p local_key n :
  is_Some (key_to_vec (ECDSA local_key)) →
  keygen_on_finish (H0 := db_store_public_key d) p local_key n = Fail EStoringLocalKeyFailed n.
Proof.
  intros Hk. unfold keygen_on_finish, store_public_key, db_store_public_key.
  by rewrite (sql_refuses_every_key d _ _ Hk).
Qed.
End sql.
End Sql.
