(* ===== verification/Frost.v ===== *)
(** * The FROST variant of the protocols

    Weighted-threshold FROST (src/dkg-gadget/src/dkg_modules/wt_frost.rs and
    async_protocols/frost): the parameters of a key generation and the key identifiers of
    its parties, the rounds in which parties collect each other's shares, nonces and
    signature shares, the network a protocol talks to, the two protocols, and
    [DKGModules] (dkg_modules/mod.rs), which finds the module for a request.

    The library wsts is a parameter, [Wsts]; its scalars, commitments, nonces and shares
    are serialized.  A protocol waits for messages: it is given those that
    [NetInterface::next_message] returns to it from its start on, and its result is
    [None] while it waits for more of them. *)

From S2P Require Import Prelude.
From S2P Require Import Frame.
From S2P Require Import Primitives.
From S2P Require Import GadgetTypes.
From S2P Require Import Remote.
From S2P Require Import WorkManager.
From S2P Require Import Client.
From S2P Require Import Node.
From S2P Require Import Reports.
From S2P Require Import SigningManager.
From S2P Require Import KeygenManager.
From S2P Require Import VotingStage.

(** ** Parameters *)

(** [Rng] is all the randomness of a run. *)
Class Wsts := {
  Party : Type;
  Rng : Type;
  Aggregator : Type;
  party_new : Z → list Z → Z → Z → Z → Rng → Party;
  party_id : Party → Z;
  key_ids : Party → list Z;
  get_shares : Party → list (Z * bytes);
  get_poly_commitment : Party → Rng → bytes;
  compute_secret : Party → gmap Z (gmap Z bytes) → list bytes → option Party;
  gen_nonce : Party → Rng → bytes * Party;
  party_sign : Party → bytes → list Z → list Z → list bytes → bytes;
  party_save : Party → bytes;
  party_load : bytes → Party;
  num_keys : bytes → Z;
  aggregator_new : Z → Z → list bytes → option Aggregator;
  aggregator_sign : Aggregator → bytes → list bytes → list bytes → list Z → option bytes }.

(** A new party keeps its identifiers and has a share for every key identifier; the nonce
    that a party draws leaves its identifiers as they are. *)
Class WstsLaws `{Wsts} : Prop := {
  party_new_id i ids n k t rng : party_id (party_new i ids n k t rng) = i;
  party_new_key_ids i ids n k t rng : key_ids (party_new i ids n k t rng) = ids;
  party_new_shares i ids n k t rng :
    (get_shares (party_new i ids n k t rng)).*1 = seqZ 0 k;
  gen_nonce_id p rng : party_id (gen_nonce p rng).2 = party_id p;
  gen_nonce_key_ids p rng : key_ids (gen_nonce p rng).2 = key_ids p }.

(** ** Key identifiers *)

(** The text of the first error speaks of a remainder; the operator is [&]. *)
Definition validate_parameters (n k t : Z) : result DKGError unit :=
  if negb (Z.land k n =? 0) then Err EGenericError else
  if k =? 0 then Err EGenericError else
  if n <=? t then Err EGenericError else Ok tt.

Definition create_signer_key_ids (signer_id keys_per_signer : Z) : list Z :=
  (λ i, wrap 32 (wrap 32 (keys_per_signer * signer_id) + i)) <$> seqZ 0 keys_per_signer.

Fixpoint key_id_groups (count : nat) (ids_per_party start : Z) : list (list Z) :=
  match count with
  | O => []
  | S count =>
      let stop := wrap 32 (start + ids_per_party) in
      seqZ start (stop - start) :: key_id_groups count ids_per_party stop
  end.

(** A division by zero panics. *)
Definition generate_party_key_ids (n k : Z) : result DKGError (list (list Z)) :=
  if n =? 0 then Panics else Ok (key_id_groups (Z.to_nat n) (k / n) 0).

(** ** Messages *)

Inductive FrostMessage :=
| DKGShares (party_id : Z) (shares : gmap Z bytes) (key_ids : list Z) (poly_commitment : bytes)
| Sign (party_id : Z) (key_ids : list Z) (nonce : bytes)
| SignFinal (party_id : Z) (signature_share : bytes).

#[export] Instance FrostMessage_eq_dec : EqDecision FrostMessage.
Proof. solve_decision. Defined.

(** bincode, serde_json, SHA-256 and SCALE. *)
Class FrostCodec := {
  frost_to_vec : FrostMessage → option bytes;
  frost_from_slice : bytes → option FrostMessage;
  sha2_256 : bytes → bytes;
  polys_to_vec : list bytes → option bytes;
  encode_proposals : list UnsignedProposal → bytes;
  (** [FrostSignature::from], then [encode]. *)
  encode_frost_signature : bytes → bytes }.

Class FrostCodecLaws `{FrostCodec} : Prop :=
  frost_from_to m bs : frost_to_vec m = Some bs → frost_from_slice bs = Some m.

(** What a call of [next_message] returns; [None] is the end of the channel. *)
Abbreviation Incoming := (result DKGError (option FrostMessage)).

(** ** Collecting *)

(** The end of a loop that collects messages: enough of them and the messages that are
    left, a wait for more, the end of the channel, a panic. *)
Inductive Gathered (R : Type) :=
| Enough (r : R) (rest : list Incoming)
| Pending
| Died
| Crashed.
Arguments Enough {R} _ _.
Arguments Pending {R}.
Arguments Died {R}.
Arguments Crashed {R}.

(** [while !enough { match net.next_message().await { .. } }]. *)
Fixpoint collect {R} (enough : R → bool) (accept : R → FrostMessage → R) (r : R)
    (inbox : list Incoming) : Gathered R :=
  if enough r then Enough r inbox else
  match inbox with
  | [] => Pending
  | Ok (Some m) :: rest => collect enough accept (accept r m) rest
  | Err _ :: rest => collect enough accept r rest
  | Ok None :: _ => Died
  | Panics :: _ => Crashed
  end.

(** [into_iter().sorted_by(|a, b| a.0.cmp(&b.0))]; the keys of a map are distinct, so the
    order in which it is iterated does not matter. *)
Definition sorted_entries {A} (m : gmap Z A) : list (Z * A) :=
  sort_by (λ a b, a.1 <=? b.1) (map_to_list m).

Definition len_usize {A} (m : gmap Z A) : Z := Z.of_nat (size m).

(** ** Key generation *)

Record DkgReceived := mkDkgReceived {
  received_shares : gmap Z (gmap Z bytes);
  received_key_ids : gmap Z (list Z);
  received_poly_commitments : gmap Z bytes }.

Definition dkg_insert (r : DkgReceived) (i : Z) (shares : gmap Z bytes) (ids : list Z)
    (poly : bytes) : DkgReceived :=
  mkDkgReceived (<[i := shares]> (received_shares r)) (<[i := ids]> (received_key_ids r))
    (<[i := poly]> (received_poly_commitments r)).

Definition dkg_accept (own : Z) (r : DkgReceived) (m : FrostMessage) : DkgReceived :=
  match m with
  | DKGShares i shares ids poly => if i =? own then r else dkg_insert r i shares ids poly
  | _ => r
  end.

(** [shares[&key_id]] of every party; a share that is missing panics. *)
Definition key_shares (received : gmap Z (gmap Z bytes)) (key_id : Z) : option (gmap Z bytes) :=
  if bool_decide (map_Forall (λ _ shares, is_Some (shares !! key_id)) received)
  then Some (omap (λ shares, shares !! key_id) received) else None.

Definition party_shares (ids : list Z) (received : gmap Z (gmap Z bytes))
    : option (gmap Z (gmap Z bytes)) :=
  l ← mapM (λ id, pair id <$> key_shares received id) ids;
  Some (list_to_map l).

Section rounds.
Context `{Wsts} {N : Type} (send : FrostMessage → M N DKGError unit).
Implicit Types (signer : Party).

Definition own_shares signer : gmap Z bytes := list_to_map (reverse (get_shares signer)).

Definition dkg_message signer (rng : Rng) : FrostMessage :=
  DKGShares (party_id signer) (own_shares signer) (key_ids signer) (get_poly_commitment signer rng).

Definition dkg_begin signer (rng : Rng) : DkgReceived :=
  dkg_insert (mkDkgReceived ∅ ∅ ∅) (party_id signer) (own_shares signer) (key_ids signer)
    (get_poly_commitment signer rng).

(** After the loop. *)
Definition dkg_finish signer (r : DkgReceived) : M N DKGError (Party * list bytes) :=
  party_shares ← expect (party_shares (key_ids signer) (received_shares r));
  let polys := (sorted_entries (received_poly_commitments r)).*2 in
  signer ← ok_or (compute_secret signer party_shares polys) EGenericError;
  mret (signer, polys).

Definition run_dkg signer (rng : Rng) (n_signers : Z) (inbox : list Incoming)
    : M N DKGError (option (Party * list bytes)) :=
  send (dkg_message signer rng);;
  match collect (λ r, negb (len_usize (received_shares r) <? n_signers))
          (dkg_accept (party_id signer)) (dkg_begin signer rng) inbox with
  | Enough r _ => res ← dkg_finish signer r; mret (Some res)
  | Pending => mret None
  | Died => throw EGenericError
  | Crashed => panic
  end.

(** ** Signing *)

Record SignReceived := mkSignReceived {
  party_key_ids : gmap Z (list Z);
  party_nonces : gmap Z bytes }.

Definition nonce_accept (own : Z) (r : SignReceived) (m : FrostMessage) : SignReceived :=
  match m with
  | Sign i ids nonce =>
      if own =? i then r else
      mkSignReceived (<[i := ids]> (party_key_ids r)) (<[i := nonce]> (party_nonces r))
  | _ => r
  end.

Definition share_accept (own : Z) (shares : gmap Z bytes) (m : FrostMessage) : gmap Z bytes :=
  match m with
  | SignFinal i share => if own =? i then shares else <[i := share]> shares
  | _ => shares
  end.

(** What the parties sign with, in the order of their identifiers. *)
Record SigningInput := mkSigningInput {
  si_party_ids : list Z;
  si_key_ids : list Z;
  si_nonces : list bytes }.

Definition signing_input (r : SignReceived) : SigningInput := {|
  si_party_ids := (sorted_entries (party_key_ids r)).*1;
  si_key_ids := concat (sorted_entries (party_key_ids r)).*2;
  si_nonces := (sorted_entries (party_nonces r)).*2 |}.

Definition sign_with signer (msg : bytes) (i : SigningInput) : bytes :=
  party_sign signer msg (si_party_ids i) (si_key_ids i) (si_nonces i).

Definition aggregate (num_keys threshold : Z) (public_key : list bytes) (msg : bytes)
    (i : SigningInput) (shares : gmap Z bytes) : M N DKGError bytes :=
  sig_agg ← ok_or (aggregator_new num_keys threshold public_key) EGenericError;
  ok_or (aggregator_sign sig_agg msg (si_nonces i) (sorted_entries shares).*2 (si_key_ids i))
    EGenericError.

Definition run_signing signer (rng : Rng) (msg : bytes) (num_keys threshold : Z)
    (public_key : list bytes) (inbox : list Incoming) : M N DKGError (option bytes) :=
  let '(nonce, signer) := gen_nonce signer rng in
  let own := party_id signer in
  send (Sign own (key_ids signer) nonce);;
  match collect (λ r, negb (len_usize (party_nonces r) <? threshold)) (nonce_accept own)
          (mkSignReceived {[ own := key_ids signer ]} {[ own := nonce ]}) inbox with
  | Enough r inbox =>
      let input := signing_input r in
      let signature_share := sign_with signer msg input in
      send (SignFinal own signature_share);;
      match collect (λ shares, negb (len_usize shares <? threshold)) (share_accept own)
              {[ own := signature_share ]} inbox with
      | Enough shares _ =>
          signature ← aggregate num_keys threshold public_key msg input shares;
          mret (Some signature)
      | Pending => mret None
      | Died => throw EGenericError
      | Crashed => panic
      end
  | Pending => mret None
  | Died => throw EGenericError
  | Crashed => panic
  end.
End rounds.

(** ** The network *)

Record FrostNetworkWrapper := mkFrostNetworkWrapper {
  fn_remote : Handle;
  fn_authority_id : DKGId;
  fn_proto_hash : bytes }.

Section network.
Context `{FrostCodec, Client, Keystore, Crypto, MessageCodec}.
Implicit Types (w : FrostNetworkWrapper).

Definition frost_payload w (frost_msg : bytes) : NetworkMsgPayload :=
  match proto_stage_type (fn_remote w) with
  | Signing _ => POffline (mkDKGOfflineMessage [] 0 frost_msg (fn_proto_hash w))
  | _ => PKeygen (mkDKGKeygenMessage 0 frost_msg (fn_proto_hash w))
  end.

Definition frost_wire_message w (frost_msg : bytes) : DKGMessage := {|
  sender_id := fn_authority_id w; recipient_id := None; payload := frost_payload w frost_msg;
  msg_session_id := session_id (fn_remote w);
  msg_associated_block_id := associated_block_id (fn_remote w);
  msg_ssid := ssid (fn_remote w) |}.

Definition send_message w (m : FrostMessage) : NM unit :=
  frost_msg ← ok_or (frost_to_vec m) EGenericError;
  sign_and_send_msg (frost_wire_message w frost_msg).

(** One call: the messages that are taken from the channel, each with the header that is
    the latest when it is taken, until there is a result.  [None] waits for more. *)
Fixpoint next_message (received : gset bytes) (queue : list (option Header * SignedDKGMessage))
    : option (Incoming * gset bytes * list (option Header * SignedDKGMessage)) :=
  match queue with
  | [] => None
  | (latest, m) :: rest =>
      match verify_signature_against_authorities_inner m latest with
      | Ok message =>
          let message_bin := payload_bytes (payload message) in
          let message_hash := sha2_256 message_bin in
          if bool_decide (message_hash ∈ received) then next_message received rest else
          Some (match frost_from_slice message_bin with
                | Some deserialized => Ok (Some deserialized)
                | None => Err EGenericError
                end, {[ message_hash ]} ∪ received, rest)
      | Err _ => next_message received rest
      | Panics => Some (Panics, received, rest)
      end
  end.

(** The results of the calls on a queue, one after the other. *)
Fixpoint next_messages (calls : nat) (received : gset bytes)
    (queue : list (option Header * SignedDKGMessage)) : list Incoming :=
  match calls with
  | O => []
  | S calls =>
      match next_message received queue with
      | Some (incoming, received, rest) => incoming :: next_messages calls received rest
      | None => []
      end
  end.

Definition inbox_of (queue : list (option Header * SignedDKGMessage)) : list Incoming :=
  next_messages (length queue) ∅ queue.
End network.

(** ** The protocols *)

Section protocols.
Context `{Wsts, FrostCodec, LocalKeyDb, Client, Keystore, Crypto, MessageCodec, SubmissionDelay}.

(** The arguments of [frost::keygen::protocol]. *)
Record FrostKeygen := mkFrostKeygen {
  fk_n : Z;
  fk_party_id : Z;
  fk_k : Z;
  fk_t : Z;
  fk_network : FrostNetworkWrapper;
  fk_session_id : Z }.

Definition frost_keygen_party (u : FrostKeygen) (rng : Rng) : NM Party :=
  lift_result id (validate_parameters (fk_n u) (fk_k u) (fk_t u));;
  key_ids ← lift_result id (generate_party_key_ids (fk_n u) (fk_k u));
  our_key_ids ← ok_or (key_ids !! Z.to_nat (fk_party_id u)) EStartKeygen;
  mret (party_new (fk_party_id u) our_key_ids (fk_n u) (fk_k u) (fk_t u) rng).

Definition frost_keygen_done (u : FrostKeygen) (party : Party) (public_key : list bytes)
    : NM unit :=
  public_key_bytes ← ok_or (polys_to_vec public_key) EGenericError;
  let key := FROST public_key (party_save party) in
  lift_result id (store_public_key key (fk_session_id u));;
  upd! local_keys ::= insert (fk_session_id u) key;;
  gossip_public_key (mkPublicKeyMessage (fk_session_id u) public_key_bytes []).

Definition frost_keygen_protocol (u : FrostKeygen) (rng : Rng) (inbox : list Incoming)
    : NM (option unit) :=
  party ← frost_keygen_party u rng;
  res ← run_dkg (send_message (fk_network u)) party rng (fk_n u) inbox;
  match res with
  | Some (party, public_key) => frost_keygen_done u party public_key;; mret (Some tt)
  | None => mret None
  end.

(** The arguments of [frost::sign::protocol]. *)
Record FrostSigning := mkFrostSigning {
  fs_t : Z;
  fs_session_id : Z;
  fs_batch_key : BatchKey;
  fs_network : FrostNetworkWrapper;
  fs_public_key : list bytes;
  fs_state : bytes;
  fs_batch : StoredUnsignedProposalBatch }.

Definition frost_signing_protocol (u : FrostSigning) (rng : Rng) (inbox : list Incoming)
    : NM (option unit) :=
  signature ← run_signing (send_message (fs_network u)) (party_load (fs_state u)) rng
    (encode_proposals (ub_proposals (fs_batch u))) (num_keys (fs_state u)) (fs_t u)
    (fs_public_key u) inbox;
  match signature with
  | Some signature =>
      process_vote_result ∅ (mkVoteResult (encode_frost_signature signature) (fs_batch u)
        (fs_session_id u) (fs_batch_key u));;
      mret (Some tt)
  | None => mret None
  end.

(** ** The modules *)

(** [KeygenProtocolSetupParameters::WTFrost]. *)
Record FrostKeygenParams := mkFrostKeygenParams {
  fkp_authority_id : DKGId;
  fkp_best_authorities : list (KeygenPartyId * DKGId);
  fkp_authority_public_key : DKGId;
  fkp_keygen_protocol_hash : bytes;
  fkp_threshold : Z;
  fkp_session_id : Z;
  fkp_associated_block : Z;
  fkp_stage : ProtoStageType }.

(** [SigningProtocolSetupParameters::WTFrost]. *)
Record FrostSigningParams := mkFrostSigningParams {
  fsp_authority_id : DKGId;
  fsp_unsigned_proposal_hash : bytes;
  fsp_batch : StoredUnsignedProposalBatch;
  fsp_threshold : Z;
  fsp_session_id : Z;
  fsp_batch_key : BatchKey;
  fsp_associated_block : Z;
  fsp_stage : ProtoStageType;
  fsp_ssid : Z }.

Inductive KeygenProtocolSetupParameters :=
| KeygenMpEcdsa (p : KeygenParams)
| KeygenWTFrost (p : FrostKeygenParams).

Inductive SigningProtocolSetupParameters :=
| SigningMpEcdsa (p : SigningParams)
| SigningWTFrost (p : FrostSigningParams).

(** A handle without a table of authorities. *)
Definition frost_remote (on_work : M WorkManager DKGError unit → NM unit) (now session block attempt : Z)
    (stage : ProtoStageType) : NM Handle :=
  id ← gets next_handle;
  upd! next_handle ::= Z.succ;;
  on_work (upd! remotes ::= insert id remote_new);;
  mret {|
    remote_id := id; started_at := now; session_id := session; associated_block_id := block;
    ssid := attempt; proto_stage_type := stage; index_to_authority_mapping := ∅ |}.

(** Every party is given as many keys as there are parties. *)
Definition frost_initialize_keygen (p : FrostKeygenParams) : NM (Handle * FrostKeygen) :=
  let n := wrap 32 (len (fkp_best_authorities p)) in
  index ← expect (find_index (fkp_best_authorities p).*2 (fkp_authority_public_key p));
  h ← frost_remote on_keygen_work (fkp_associated_block p) (fkp_session_id p)
    (fkp_associated_block p) 0 (fkp_stage p);
  mret (h, {|
    fk_n := n; fk_party_id := wrap 32 (Z.of_nat index); fk_k := n; fk_t := fkp_threshold p;
    fk_network := mkFrostNetworkWrapper h (fkp_authority_id p) (fkp_keygen_protocol_hash p);
    fk_session_id := fkp_session_id p |}).

Definition frost_initialize_signing (p : FrostSigningParams) : NM (Handle * FrostSigning) :=
  key ← gets (λ n, local_keys n !! fsp_session_id p);
  key ← ok_or key EGenericError;
  match key with
  | FROST public_key state =>
      at_ ← gets get_latest_block_number;
      h ← frost_remote on_signing_work at_ (fsp_session_id p) (fsp_associated_block p) (fsp_ssid p)
        (fsp_stage p);
      mret (h, {|
        fs_t := fsp_threshold p; fs_session_id := fsp_session_id p;
        fs_batch_key := fsp_batch_key p;
        fs_network := mkFrostNetworkWrapper h (fsp_authority_id p) (fsp_unsigned_proposal_hash p);
        fs_public_key := public_key; fs_state := state; fs_batch := fsp_batch p |})
  | ECDSA _ => throw EGenericError
  end.
End protocols.

(** [dyn DKG]. *)
Inductive DKG := MpEcdsaDKG | WTFrostDKG.

Definition can_handle_keygen_request (d : DKG) (p : KeygenProtocolSetupParameters) : bool :=
  match d, p with
  | MpEcdsaDKG, KeygenMpEcdsa _ | WTFrostDKG, KeygenWTFrost _ => true
  | _, _ => false
  end.

Definition can_handle_signing_request (d : DKG) (p : SigningProtocolSetupParameters) : bool :=
  match d, p with
  | MpEcdsaDKG, SigningMpEcdsa _ | WTFrostDKG, SigningWTFrost _ => true
  | _, _ => false
  end.

(** [DKGModules::initialize]. *)
Definition dkgs : list DKG := [MpEcdsaDKG; WTFrostDKG].

Definition get_keygen_protocol (p : KeygenProtocolSetupParameters) : option DKG :=
  head (filter (λ d, can_handle_keygen_request d p = true) dkgs).

Definition get_signing_protocol (p : SigningProtocolSetupParameters) : option DKG :=
  head (filter (λ d, can_handle_signing_request d p = true) dkgs).
