(* ===== verification/FrostSpec.v ===== *)
(** * Theorems about FROST

    Parties that hear the same messages agree, in whatever order they hear them: on the
    public key after a key generation, on what they sign with and on the signature after
    a signing.  The key identifiers of the parties are disjoint and, where the number of
    parties divides the number of keys, all of them.  And where the code departs from its
    intent: a key generation that is started by its module is always refused, and a
    signature share that arrives before the last nonce is lost and blocks the signer. *)

From S2P Require Import Prelude.
From S2P Require Import Frame.
From S2P Require Import Primitives.
From S2P Require Import GadgetTypes.
From S2P Require Import Remote.
From S2P Require Import WorkManager.
From S2P Require Import Client.
From S2P Require Import Node.
From S2P Require Import Reports.
From S2P Require Import ReportsSpec.
From S2P Require Import AsyncProtocol.
From S2P Require Import AsyncProtocolSpec.
From S2P Require Import VotingStage.
From S2P Require Import Frost.

(** ** Entries of a map in order *)

Lemma StronglySorted_lt_NoDup (l : list Z) : StronglySorted Z.lt l → NoDup l.
Proof.
  induction 1 as [|x l _ IH Hx]; constructor; [|done].
  intros Hin. rewrite Forall_forall in Hx. specialize (Hx x Hin). lia.
Qed.

Lemma sorted_entries_perm {A} (m : gmap Z A) : sorted_entries m ≡ₚ map_to_list m.
Proof. apply sort_by_perm. Qed.

Lemma sorted_entries_sorted {A} (m : gmap Z A) :
  StronglySorted (λ a b, a.1 <=? b.1) (sorted_entries m).
Proof.
  apply sort_by_sorted; [intros x y z|intros x y]; rewrite ?Z.leb_le; lia.
Qed.

(** The entries of a map in the order of their keys are the only list of its entries that
    is in that order. *)
Lemma sorted_entries_unique {A} (m : gmap Z A) l :
  l ≡ₚ map_to_list m → StronglySorted Z.lt l.*1 → sorted_entries m = l.
Proof.
  intros Hp Hs.
  assert (StronglySorted (λ a b : Z * A, a.1 <=? b.1) l) as Hl.
  { clear Hp. induction l as [|a l IH]; constructor; rewrite fmap_cons in Hs;
      apply StronglySorted_inv in Hs as [Hs Ha]; [by apply IH|].
    rewrite Forall_fmap in Ha. eapply Forall_impl; [exact Ha|]. cbn. intros b ?.
    apply Is_true_true, Z.leb_le. lia. }
  eapply (StronglySorted_unique_strong (λ a b : Z * A, a.1 <=? b.1));
    [|apply sorted_entries_sorted|exact Hl|by rewrite sorted_entries_perm, Hp].
  intros [i x] [j y] Hi Hj Hij%Is_true_true Hji%Is_true_true. cbn in *.
  apply Z.leb_le in Hij, Hji. assert (i = j) as -> by lia.
  rewrite sorted_entries_perm in Hi. rewrite Hp in Hj.
  apply elem_of_map_to_list in Hi, Hj. congruence.
Qed.

(** ** Restrictions of a map *)

Section restrict.
Context {A : Type}.
Implicit Types (m : gmap Z A) (X : gset Z).

Definition restrict X m : gmap Z A := filter (λ e, e.1 ∈ X) m.

Lemma lookup_restrict X m i : restrict X m !! i = if decide (i ∈ X) then m !! i else None.
Proof.
  unfold restrict. case_decide as Hi.
  - destruct (m !! i) as [x|] eqn:E; [by apply map_lookup_filter_Some|].
    apply map_lookup_filter_None. by left.
  - apply map_lookup_filter_None. right. intros x _. done.
Qed.

Lemma restrict_insert X m i x :
  m !! i = Some x → <[i := x]> (restrict X m) = restrict ({[ i ]} ∪ X) m.
Proof.
  intros Hi. apply map_eq. intros j. rewrite lookup_restrict. destruct (decide (i = j)) as [<-|].
  - rewrite lookup_insert_eq, decide_True by set_solver. done.
  - rewrite lookup_insert_ne, lookup_restrict by done.
    destruct (decide (j ∈ X)); [rewrite decide_True by set_solver|rewrite decide_False by set_solver];
      done.
Qed.

Lemma restrict_all m : restrict (dom m) m = m.
Proof.
  apply map_eq. intros i. rewrite lookup_restrict. case_decide as Hi; [done|].
  by apply not_elem_of_dom in Hi.
Qed.

Lemma restrict_one m i x : m !! i = Some x → restrict {[ i ]} m = {[ i := x ]}.
Proof.
  intros Hi. apply map_eq. intros j. rewrite lookup_restrict.
  destruct (decide (i = j)) as [<-|]; [rewrite decide_True by set_solver|rewrite decide_False by set_solver].
  - by rewrite lookup_singleton_eq.
  - by rewrite lookup_singleton_ne.
Qed.

Lemma size_restrict X m : X ⊆ dom m → size (restrict X m) = size X.
Proof.
  intros HX. rewrite <- size_dom. f_equal. apply set_eq. intros i.
  rewrite elem_of_dom, lookup_restrict. case_decide as Hi; [|split; [by intros []|done]].
  split; [done|]. intros _. apply elem_of_dom. set_solver.
Qed.

Lemma restrict_enough X m :
  X ⊆ dom m → negb (Z.of_nat (size (restrict X m)) <? Z.of_nat (size m)) = true ↔ X = dom m.
Proof.
  intros HX. rewrite size_restrict, negb_true_iff, Z.ltb_ge, <- (size_dom m) by done. split.
  - intros Hs. apply set_eq. intros i. split; [set_solver|].
    destruct (decide (i ∈ X)) as [?|Hi]; [done|]. intros Hd.
    assert (X ⊂ dom m) as Hlt%subset_size by set_solver. lia.
  - intros ->. lia.
Qed.
End restrict.

(** ** Collecting from a crew

    The loops collect one item per member of a crew.  What they have collected is
    determined by the set of members they heard, [st]; a message is fair when it adds to
    that set, whatever the set is, what it brings news of. *)

Section collecting.
Context {R A : Type} (enough : R → bool) (accept : R → FrostMessage → R).
Context (crew : gmap Z A) (own : Z) (st : gset Z → R) (news : FrostMessage → gset Z).
Context (Henough : ∀ X, X ⊆ dom crew → enough (st X) = true ↔ X = dom crew).
Implicit Types (X : gset Z) (inbox pre post : list Incoming).

Definition fair (i : Incoming) : Prop :=
  match i with
  | Ok (Some m) => news m ⊆ dom crew ∧
      ∀ X, own ∈ X → X ⊆ dom crew → accept (st X) m = st (news m ∪ X)
  | Err _ => True
  | _ => False
  end.

(** A message that is no news. *)
Lemma fair_other m : news m = ∅ → (∀ r, accept r m = r) → fair (Ok (Some m)).
Proof using Type.
  intros Hn Ha. cbn. rewrite Hn. split; [apply empty_subseteq|]. intros X _ _. by rewrite Ha, union_empty_l_L.
Qed.

(** A message of a member of the crew. *)
Lemma fair_member m j e :
  crew !! j = Some e → news m = {[ j ]} →
  (∀ X, accept (st X) m = if j =? own then st X else st ({[ j ]} ∪ X)) → fair (Ok (Some m)).
Proof using Type.
  intros Hj Hn Ha. cbn. rewrite Hn. split.
  { intros x ->%elem_of_singleton. apply elem_of_dom. eauto. }
  intros X Hown _. rewrite Ha. destruct (Z.eqb_spec j own) as [->|]; [|done].
  by rewrite subseteq_union_1_L by by apply singleton_subseteq_l.
Qed.

Lemma collect_enough r inbox : enough r = true → collect enough accept r inbox = Enough r inbox.
Proof. intros Hr. destruct inbox; cbn; by rewrite Hr. Qed.

Lemma collect_waits X inbox : X ⊆ dom crew → X ≠ dom crew →
  collect enough accept (st X) inbox =
  match inbox with
  | [] => Pending
  | Ok (Some m) :: rest => collect enough accept (accept (st X) m) rest
  | Err _ :: rest => collect enough accept (st X) rest
  | Ok None :: _ => Died
  | Panics :: _ => Crashed
  end.
Proof using Henough.
  intros HX Hne. destruct (enough (st X)) eqn:E; [by apply Henough in E|].
  destruct inbox; cbn; by rewrite E.
Qed.

(** Once everybody was heard, the loop ends, and has not looked further. *)
Lemma collect_complete X pre post :
  own ∈ X → X ⊆ dom crew → Forall fair pre →
  (∀ j, j ∈ dom crew → j ∈ X ∨ ∃ m, Ok (Some m) ∈ pre ∧ j ∈ news m) →
  ∃ mid, collect enough accept (st X) (pre ++ post) = Enough (st (dom crew)) (mid ++ post) ∧
    mid `suffix_of` pre.
Proof using Henough.
  intros Hown HX Hf. revert X Hown HX. induction Hf as [|i pre Hi Hf IH]; intros X Hown HX Hall;
    (destruct (decide (X = dom crew)) as [->|Hne];
      [eexists; split; [by apply collect_enough; apply Henough|done]|]).
  - destruct Hne. apply set_eq. intros j. split; [set_solver|]. intros Hj.
    destruct (Hall j Hj) as [?|(m & Hm & _)]; [done|]. by apply not_elem_of_nil in Hm.
  - cbn [app]. rewrite collect_waits by done. destruct i as [[m|]|e|]; [|done| |done]; cbn in Hi.
    + destruct Hi as [Hm Hacc]. rewrite Hacc by done.
      destruct (IH (news m ∪ X)) as (mid & Hc & Hs); [set_solver..| |].
      { intros j Hj. destruct (Hall j Hj) as [?|(m' & Hin & ?)]; [set_solver|].
        apply elem_of_cons in Hin as [[= ->]|?]; [set_solver|]. right. eauto. }
      exists mid. split; [done|]. by apply suffix_cons_r.
    + destruct (IH X) as (mid & Hc & Hs); [done..| |].
      { intros j Hj. destruct (Hall j Hj) as [?|(m' & Hin & ?)]; [by left|].
        apply elem_of_cons in Hin as [?|?]; [done|]. right. eauto. }
      exists mid. split; [done|]. by apply suffix_cons_r.
Qed.

(** On fair messages the loop ends when everybody was heard, or waits. *)
Lemma collect_fair X inbox :
  own ∈ X → X ⊆ dom crew → Forall fair inbox →
  collect enough accept (st X) inbox = Pending ∨
  ∃ rest, collect enough accept (st X) inbox = Enough (st (dom crew)) rest ∧
    rest `suffix_of` inbox.
Proof using Henough.
  intros Hown HX Hf. revert X Hown HX. induction Hf as [|i inbox Hi Hf IH]; intros X Hown HX;
    (destruct (decide (X = dom crew)) as [->|Hne];
      [right; eexists; split; [by apply collect_enough; apply Henough|done]|]);
    rewrite collect_waits by done; [by left|].
  destruct i as [[m|]|e|]; [|done| |done]; cbn in Hi.
  - destruct Hi as [Hm Hacc]. rewrite Hacc by done.
    destruct (IH (news m ∪ X)) as [?|(rest & Hc & Hs)]; [set_solver..|by left|].
    right. exists rest. split; [done|]. by apply suffix_cons_r.
  - destruct (IH X) as [?|(rest & Hc & Hs)]; [done..|by left|].
    right. exists rest. split; [done|]. by apply suffix_cons_r.
Qed.

(** While a member is not heard, the loop does not end. *)
Lemma collect_late X pre post j :
  own ∈ X → X ⊆ dom crew → Forall fair pre → Forall fair post → j ∈ dom crew → j ∉ X →
  (∀ m, Ok (Some m) ∈ pre → j ∉ news m) →
  collect enough accept (st X) (pre ++ post) = Pending ∨
  ∃ rest, collect enough accept (st X) (pre ++ post) = Enough (st (dom crew)) rest ∧
    rest `suffix_of` post.
Proof using Henough.
  intros Hown HX Hf Hpost Hj. revert X Hown HX.
  induction Hf as [|i pre Hi Hf IH]; intros X Hown HX HjX Hnews; [by apply collect_fair|].
  assert (∀ m, Ok (Some m) ∈ pre → j ∉ news m) as Hpre by (intros m Hm; apply Hnews; by right).
  cbn [app]. rewrite collect_waits by set_solver. destruct i as [[m|]|e|]; [|done| |done]; cbn in Hi.
  - destruct Hi as [Hm Hacc]. rewrite Hacc by done.
    assert (j ∉ news m) by (apply Hnews; by left). apply IH; set_solver.
  - by apply IH.
Qed.

Lemma collect_stuck X inbox j :
  own ∈ X → X ⊆ dom crew → Forall fair inbox → j ∈ dom crew → j ∉ X →
  (∀ m, Ok (Some m) ∈ inbox → j ∉ news m) → collect enough accept (st X) inbox = Pending.
Proof using Henough.
  intros Hown HX Hf Hj. revert X Hown HX.
  induction Hf as [|i inbox Hi Hf IH]; intros X Hown HX HjX Hnews;
    rewrite collect_waits by set_solver; [done|].
  assert (∀ m, Ok (Some m) ∈ inbox → j ∉ news m) as Hpre by (intros m Hm; apply Hnews; by right).
  destruct i as [[m|]|e|]; [|done| |done]; cbn in Hi; [|by apply IH].
  destruct Hi as [Hm Hacc]. rewrite Hacc by done.
  assert (j ∉ news m) by (apply Hnews; by left). apply IH; set_solver.
Qed.
End collecting.

(** ** Key identifiers *)

Lemma key_id_groups_length c q start : length (key_id_groups c q start) = c.
Proof. revert start. induction c as [|c IH]; intros start; cbn; by rewrite ?IH. Qed.

Lemma key_id_groups_concat c q start :
  0 <= q → 0 <= start → start + Z.of_nat c * q < 2 ^ 32 →
  concat (key_id_groups c q start) = seqZ start (Z.of_nat c * q).
Proof.
  revert start. induction c as [|c IH]; intros start Hq Hs Hb; [done|].
  cbn [key_id_groups concat]. rewrite wrap_small by (unfold in_width; lia).
  replace (start + q - start) with q by lia. rewrite IH by lia.
  rewrite <- seqZ_app by lia. f_equal. lia.
Qed.

Lemma quotient_bound n k : in_width 32 k → n ≠ 0 → 0 <= n →
  0 <= k / n ∧ n * (k / n) <= k ∧ 0 + Z.of_nat (Z.to_nat n) * (k / n) < 2 ^ 32.
Proof.
  unfold in_width. intros Hk Hn0 Hn. pose proof (Z.mul_div_le k n). pose proof (Z.div_pos k n).
  rewrite Z2Nat.id by lia. lia.
Qed.

Lemma generate_party_key_ids_concat n k groups :
  in_width 32 n → in_width 32 k → generate_party_key_ids n k = Ok groups →
  length groups = Z.to_nat n ∧ concat groups = seqZ 0 (n * (k / n)) ∧ n * (k / n) <= k.
Proof.
  unfold generate_party_key_ids. intros Hn Hk. destruct (Z.eqb_spec n 0) as [|Hn0]; [done|].
  intros [= <-]. assert (0 <= n) as H0 by (unfold in_width in Hn; lia).
  destruct (quotient_bound n k Hk Hn0 H0) as (Hq & Hle & Hb).
  split; [apply key_id_groups_length|]. split; [|done].
  rewrite key_id_groups_concat by done. by rewrite Z2Nat.id by lia.
Qed.

(** The groups of key identifiers of the parties are one per party, do not overlap, and
    make up the first identifiers in order: all of them exactly when the number of
    parties divides the number of keys, which the comment of the function leaves out. *)
Theorem party_key_ids_partition n k groups :
  in_width 32 n → in_width 32 k → generate_party_key_ids n k = Ok groups →
  length groups = Z.to_nat n ∧ NoDup (concat groups) ∧ concat groups = seqZ 0 (n * (k / n)) ∧
  (k mod n = 0 ↔ concat groups = seqZ 0 k).
Proof.
  intros Hn Hk Hg. pose proof (generate_party_key_ids_concat n k groups Hn Hk Hg) as (Hl & Hc & Hle).
  assert (n ≠ 0) as Hn0 by (intros ->; done).
  split_and!; [done|rewrite Hc; apply NoDup_seqZ|done|].
  pose proof (Z.div_mod k n Hn0) as Hdm. rewrite Hc. split; [intros Hm; f_equal; lia|].
  intros Heq%(f_equal length). rewrite !length_seqZ in Heq. unfold in_width in *.
  pose proof (Z.mod_pos_bound k n). pose proof (Z.div_pos k n). lia.
Qed.

(** ** Key generation *)

Section dkg.
Context `{Wsts, !WstsLaws}.
Implicit Types (crew : gmap Z (Party * Rng)).

Definition dkg_of crew : DkgReceived :=
  mkDkgReceived (own_shares ∘ fst <$> crew) (key_ids ∘ fst <$> crew)
    ((λ e, get_poly_commitment e.1 e.2) <$> crew).

Definition dkg_news (m : FrostMessage) : gset Z :=
  match m with DKGShares i _ _ _ => {[ i ]} | _ => ∅ end.

(** A key generation message is the one that its party sends; other messages and errors
    are of no importance, and the channel does not end. *)
Definition honest_dkg crew (i : Incoming) : Prop :=
  match i with
  | Ok (Some (DKGShares j shares ids poly)) =>
      ∃ e, crew !! j = Some e ∧ DKGShares j shares ids poly = dkg_message e.1 e.2
  | Ok (Some _) | Err _ => True
  | _ => False
  end.

Lemma dkg_of_insert crew e i :
  party_id e.1 = i → crew !! i = Some e → ∀ X,
  dkg_insert (dkg_of (restrict X crew)) i (own_shares e.1) (key_ids e.1)
    (get_poly_commitment e.1 e.2) = dkg_of (restrict ({[ i ]} ∪ X) crew).
Proof.
  intros Hid Hi X. rewrite <- (restrict_insert X crew i e Hi).
  unfold dkg_insert, dkg_of. cbn. by rewrite !fmap_insert.
Qed.

Lemma honest_dkg_fair crew own i :
  (∀ j e, crew !! j = Some e → party_id e.1 = j) → honest_dkg crew i →
  fair (dkg_accept own) crew own (λ X, dkg_of (restrict X crew)) dkg_news i.
Proof.
  intros Hids. destruct i as [[[j shares ids poly|j ids nonce|j share]|]|e|]; try done;
    [|by intros _; apply fair_other..].
  intros (e & Hj & Hm). injection Hm as Hid -> -> ->. apply (fair_member _ _ _ _ _ _ j e); [done..|].
  intros X. cbn. destruct (j =? own); [done|]. by apply dkg_of_insert; auto.
Qed.

Lemma dkg_of_enough crew X : X ⊆ dom crew →
  negb (len_usize (received_shares (dkg_of (restrict X crew))) <? Z.of_nat (size crew)) = true ↔
  X = dom crew.
Proof. unfold len_usize, dkg_of. cbn. rewrite map_size_fmap. apply restrict_enough. Qed.

(** What a party is sent for its keys. *)
Definition shares_for crew (ids : list Z) : gmap Z (gmap Z bytes) :=
  list_to_map ((λ id, (id, omap (λ shares, shares !! id) (own_shares ∘ fst <$> crew))) <$> ids).

Lemma party_shares_complete crew ids :
  (∀ i e id, crew !! i = Some e → id ∈ ids → is_Some (own_shares e.1 !! id)) →
  party_shares ids (own_shares ∘ fst <$> crew) = Some (shares_for crew ids).
Proof.
  intros Hall. unfold party_shares, shares_for.
  rewrite (mapM_Some_2 _ _ ((λ id, (id, omap (λ shares, shares !! id) (own_shares ∘ fst <$> crew)))
    <$> ids)); [done|].
  apply Forall2_fmap_r, Forall_Forall2_diag, Forall_forall. intros id Hid. unfold key_shares.
  rewrite bool_decide_true; [done|]. intros i shares Hi.
  apply lookup_fmap_Some in Hi as (e & <- & He). by eapply Hall.
Qed.

Lemma dkg_begin_restrict crew i e :
  crew !! i = Some e → party_id e.1 = i → dkg_begin e.1 e.2 = dkg_of (restrict {[ i ]} crew).
Proof.
  intros Hi Hid. rewrite (restrict_one crew i e Hi). unfold dkg_begin, dkg_insert, dkg_of. cbn.
  by rewrite Hid, !map_fmap_singleton.
Qed.

(** A run of a member of a crew that hears the others. *)
Lemma run_dkg_crew {N} (send : FrostMessage → M N DKGError unit) crew i e inbox s s1 :
  (∀ j e, crew !! j = Some e → party_id e.1 = j) → crew !! i = Some e →
  (∀ j e' id, crew !! j = Some e' → id ∈ key_ids e.1 → is_Some (own_shares e'.1 !! id)) →
  Forall (honest_dkg crew) inbox →
  (∀ j e', crew !! j = Some e' → j ≠ i → Ok (Some (dkg_message e'.1 e'.2)) ∈ inbox) →
  send (dkg_message e.1 e.2) s = Ret tt s1 →
  let polys := (sorted_entries ((λ e, get_poly_commitment e.1 e.2) <$> crew)).*2 in
  run_dkg send e.1 e.2 (Z.of_nat (size crew)) inbox s =
    match compute_secret e.1 (shares_for crew (key_ids e.1)) polys with
    | Some p => Ret (Some (p, polys)) s1
    | None => Fail EGenericError s1
    end.
Proof.
  intros Hids Hi Hsh Hf Hall Hsend polys. unfold run_dkg.
  rewrite (run_call _ _ _ _ _ Hsend), (dkg_begin_restrict crew i e), (Hids i e) by auto.
  destruct (collect_complete
    (λ r, negb (len_usize (received_shares r) <? Z.of_nat (size crew)))
    (dkg_accept i) crew i (λ X, dkg_of (restrict X crew)) dkg_news
    (dkg_of_enough crew) {[ i ]} inbox []) as (mid & Hc & _).
  - set_solver.
  - intros x ->%elem_of_singleton. apply elem_of_dom. eauto.
  - eapply Forall_impl; [exact Hf|]. intros. by apply honest_dkg_fair.
  - intros j Hj. destruct (decide (j = i)) as [->|]; [left; set_solver|right].
    apply elem_of_dom in Hj as [e' He']. exists (dkg_message e'.1 e'.2).
    split; [by eapply Hall|]. cbn. rewrite (Hids j e' He'). set_solver.
  - rewrite app_nil_r in Hc. rewrite Hc, restrict_all. unfold dkg_finish. cbn [received_shares dkg_of].
    rewrite party_shares_complete by done. cbn. fold polys.
    unfold mbind, M_bind, mret, M_ret, ok_or. by destruct (compute_secret e.1 _ polys).
Qed.

(** The parties of a key generation, each with its own randomness. *)
Definition frost_party (n k t : Z) (rng : nat → Rng) (i : nat) (ids : list Z) : Party :=
  party_new (Z.of_nat i) ids n k t (rng i).

Definition frost_members (n k t : Z) (rng : nat → Rng) (groups : list (list Z))
    : list (Z * (Party * Rng)) :=
  imap (λ i ids, (Z.of_nat i, (frost_party n k t rng i ids, rng i))) groups.

Definition frost_crew (n k t : Z) (rng : nat → Rng) (groups : list (list Z))
    : gmap Z (Party * Rng) := list_to_map (frost_members n k t rng groups).

(** Their commitments in order: the public key. *)
Definition frost_public_key (n k t : Z) (rng : nat → Rng) (groups : list (list Z)) : list bytes :=
  imap (λ i ids, get_poly_commitment (frost_party n k t rng i ids) (rng i)) groups.

Lemma frost_members_ids n k t rng groups :
  (frost_members n k t rng groups).*1 = seqZ 0 (Z.of_nat (length groups)).
Proof.
  apply list_eq. intros i. unfold frost_members. rewrite list_lookup_fmap, list_lookup_imap.
  destruct (groups !! i) as [ids|] eqn:Hi; cbn.
  - rewrite lookup_seqZ_lt by (apply lookup_lt_Some in Hi; lia). done.
  - rewrite lookup_seqZ_ge; [done|]. apply lookup_ge_None in Hi. lia.
Qed.

Lemma frost_members_NoDup n k t rng groups : NoDup (frost_members n k t rng groups).*1.
Proof. rewrite frost_members_ids. apply NoDup_seqZ. Qed.

Lemma frost_crew_lookup n k t rng groups i e :
  frost_crew n k t rng groups !! i = Some e ↔
  ∃ j ids, i = Z.of_nat j ∧ groups !! j = Some ids ∧ e = (frost_party n k t rng j ids, rng j).
Proof.
  unfold frost_crew. rewrite <- elem_of_list_to_map by apply frost_members_NoDup.
  unfold frost_members. rewrite elem_of_lookup_imap. split.
  - intros (j & ids & [= -> ->] & Hj). eauto.
  - intros (j & ids & -> & Hj & ->). eauto.
Qed.

Lemma frost_crew_size n k t rng groups : size (frost_crew n k t rng groups) = length groups.
Proof.
  unfold frost_crew. rewrite <- length_map_to_list, map_to_list_to_map by apply frost_members_NoDup.
  unfold frost_members. by rewrite length_imap.
Qed.

Lemma frost_crew_public_key n k t rng groups :
  (sorted_entries ((λ e, get_poly_commitment e.1 e.2) <$> frost_crew n k t rng groups)).*2 =
  frost_public_key n k t rng groups.
Proof.
  set (f e := get_poly_commitment e.1 e.2).
  rewrite (sorted_entries_unique _ (prod_map id f <$> frost_members n k t rng groups)).
  - unfold frost_members, frost_public_key. apply list_eq. intros i.
    rewrite !list_lookup_fmap, !list_lookup_imap. by destruct (groups !! i).
  - unfold frost_crew. rewrite <- list_to_map_fmap, map_to_list_to_map; [done|].
    rewrite <- list_fmap_compose. apply frost_members_NoDup.
  - rewrite <- list_fmap_compose. change ((fst ∘ prod_map id f) <$> _) with
      ((frost_members n k t rng groups).*1).
    rewrite frost_members_ids. apply seqZ_sorted.
Qed.

Lemma frost_party_shares n k t rng groups i j ids ids' id :
  in_width 32 n → in_width 32 k → generate_party_key_ids n k = Ok groups →
  groups !! i = Some ids → id ∈ ids → is_Some (own_shares (frost_party n k t rng j ids') !! id).
Proof.
  intros Hn Hk Hg Hi Hid.
  pose proof (generate_party_key_ids_concat n k groups Hn Hk Hg) as (_ & Hc & Hle).
  assert (id ∈ concat groups) as Hin.
  { apply list_elem_of_In, in_concat. exists ids. rewrite <- !list_elem_of_In.
    split; [by eapply list_elem_of_lookup_2|done]. }
  rewrite Hc, elem_of_seqZ in Hin. unfold own_shares, frost_party.
  apply elem_of_dom. rewrite dom_list_to_map_L, fmap_reverse, party_new_shares.
  apply elem_of_list_to_set, elem_of_reverse, elem_of_seqZ. lia.
Qed.

(** Key generation agrees: take the parties that the parameters of a run call for, with
    the key identifiers the code deals out.  A party that hears every other party, in
    whatever order, however often, and among messages that fail or belong to other
    rounds, ends its run; what it has then does not depend on the order, and the public
    key is for all of them the commitments in the order of the parties. *)
Theorem frost_dkg_agreement {N} (send : FrostMessage → M N DKGError unit) n k t rng groups i ids
    inbox s s1 :
  in_width 32 n → in_width 32 k → generate_party_key_ids n k = Ok groups →
  groups !! i = Some ids →
  Forall (honest_dkg (frost_crew n k t rng groups)) inbox →
  (∀ j ids', groups !! j = Some ids' → j ≠ i →
     Ok (Some (dkg_message (frost_party n k t rng j ids') (rng j))) ∈ inbox) →
  send (dkg_message (frost_party n k t rng i ids) (rng i)) s = Ret tt s1 →
  run_dkg send (frost_party n k t rng i ids) (rng i) n inbox s =
    match compute_secret (frost_party n k t rng i ids)
            (shares_for (frost_crew n k t rng groups) ids) (frost_public_key n k t rng groups) with
    | Some p => Ret (Some (p, frost_public_key n k t rng groups)) s1
    | None => Fail EGenericError s1
    end.
Proof.
  intros Hn Hk Hg Hi Hf Hall Hsend.
  pose proof (generate_party_key_ids_concat n k groups Hn Hk Hg) as (Hl & _ & _).
  assert (frost_crew n k t rng groups !! Z.of_nat i = Some (frost_party n k t rng i ids, rng i))
    as Hc by (apply frost_crew_lookup; eauto).
  assert (key_ids (frost_party n k t rng i ids) = ids) as Hids by apply party_new_key_ids.
  pose proof (run_dkg_crew send (frost_crew n k t rng groups) (Z.of_nat i)
    (frost_party n k t rng i ids, rng i) inbox s s1) as Hrun.
  cbn [fst snd] in Hrun. rewrite frost_crew_size, Hl, Z2Nat.id, frost_crew_public_key, Hids in Hrun
    by (unfold in_width in Hn; lia).
  apply Hrun; [|done|..|done].
  - intros j e' (j' & ids' & -> & _ & ->)%frost_crew_lookup. apply party_new_id.
  - intros j e' id (j' & ids' & -> & _ & ->)%frost_crew_lookup Hid. by eapply frost_party_shares.
  - done.
  - intros j e' (j' & ids' & -> & Hj & ->)%frost_crew_lookup Hne. apply Hall; [done|lia].
Qed.
End dkg.

(** ** Signing *)

Section signing.
Context `{Wsts, !WstsLaws} (crew : gmap Z (Party * Rng)) (msg : bytes).
Context (Hids : ∀ j e, crew !! j = Some e → party_id e.1 = j).
Implicit Types (e : Party * Rng).

Definition sign_of (c : gmap Z (Party * Rng)) : SignReceived :=
  mkSignReceived (key_ids ∘ fst <$> c) ((λ e, (gen_nonce e.1 e.2).1) <$> c).

Definition sign_message e : FrostMessage :=
  Sign (party_id e.1) (key_ids e.1) (gen_nonce e.1 e.2).1.

(** What everybody signs with, and the share of a member. *)
Definition crew_input : SigningInput := signing_input (sign_of crew).

Definition crew_share e : bytes := sign_with (gen_nonce e.1 e.2).2 msg crew_input.

Definition final_message e : FrostMessage := SignFinal (party_id e.1) (crew_share e).

Definition nonce_news (m : FrostMessage) : gset Z :=
  match m with Sign i _ _ => {[ i ]} | _ => ∅ end.

Definition share_news (m : FrostMessage) : gset Z :=
  match m with SignFinal i _ => {[ i ]} | _ => ∅ end.

(** Messages of a signing come from the crew. *)
Definition honest_signing (i : Incoming) : Prop :=
  match i with
  | Ok (Some (Sign j ids nonce)) => ∃ e, crew !! j = Some e ∧ Sign j ids nonce = sign_message e
  | Ok (Some (SignFinal j share)) => ∃ e, crew !! j = Some e ∧ SignFinal j share = final_message e
  | Ok (Some _) | Err _ => True
  | _ => False
  end.

Lemma honest_nonce_fair own i :
  honest_signing i →
  fair (nonce_accept own) crew own (λ X, sign_of (restrict X crew)) nonce_news i.
Proof.
  destruct i as [[[j sh ids poly|j ids nonce|j share]|]|e|]; try done;
    [by intros _; apply fair_other| |by intros _; apply fair_other].
  intros (e & Hj & Hm). injection Hm as _ -> ->. apply (fair_member _ _ _ _ _ _ j e); [done..|].
  intros X. cbn. rewrite Z.eqb_sym. destruct (j =? own); [done|].
  rewrite <- (restrict_insert X crew j e Hj). unfold sign_of. cbn. by rewrite !fmap_insert.
Qed.

Lemma honest_share_fair own i :
  honest_signing i →
  fair (share_accept own) crew own (λ X, crew_share <$> restrict X crew) share_news i.
Proof.
  destruct i as [[[j sh ids poly|j ids nonce|j share]|]|e|]; try done;
    [by intros _; apply fair_other..|].
  intros (e & Hj & Hm). injection Hm as _ ->. apply (fair_member _ _ _ _ _ _ j e); [done..|].
  intros X. cbn. rewrite Z.eqb_sym. destruct (j =? own); [done|].
  rewrite <- (restrict_insert X crew j e Hj). by rewrite fmap_insert.
Qed.

Lemma sign_of_enough X : X ⊆ dom crew →
  negb (len_usize (party_nonces (sign_of (restrict X crew))) <? Z.of_nat (size crew)) = true ↔
  X = dom crew.
Proof. unfold len_usize, sign_of. cbn. rewrite map_size_fmap. apply restrict_enough. Qed.

Lemma shares_enough X : X ⊆ dom crew →
  negb (len_usize (crew_share <$> restrict X crew) <? Z.of_nat (size crew)) = true ↔ X = dom crew.
Proof. unfold len_usize. rewrite map_size_fmap. apply restrict_enough. Qed.

(** The two loops of a run of a member, from where it starts. *)
Definition nonce_loop (i : Z) (inbox : list Incoming) : Gathered SignReceived :=
  collect (λ r, negb (len_usize (party_nonces r) <? Z.of_nat (size crew))) (nonce_accept i)
    (sign_of (restrict {[ i ]} crew)) inbox.

Definition share_loop (i : Z) (inbox : list Incoming) : Gathered (gmap Z bytes) :=
  collect (λ shares, negb (len_usize shares <? Z.of_nat (size crew))) (share_accept i)
    (crew_share <$> restrict {[ i ]} crew) inbox.

Definition continue_signing {N} (send : FrostMessage → M N DKGError unit) (K : Z)
    (public_key : list bytes) (i : Z) e (g : Gathered SignReceived) : M N DKGError (option bytes) :=
  match g with
  | Enough r inbox =>
      send (SignFinal i (sign_with (gen_nonce e.1 e.2).2 msg (signing_input r)));;
      match collect (λ shares, negb (len_usize shares <? Z.of_nat (size crew))) (share_accept i)
              {[ i := sign_with (gen_nonce e.1 e.2).2 msg (signing_input r) ]} inbox with
      | Enough shares _ =>
          signature ← aggregate K (Z.of_nat (size crew)) public_key msg (signing_input r) shares;
          mret (Some signature)
      | Pending => mret None
      | Died => throw EGenericError
      | Crashed => panic
      end
  | Pending => mret None
  | Died => throw EGenericError
  | Crashed => panic
  end.

Lemma run_signing_loops {N} (send : FrostMessage → M N DKGError unit) K public_key i e inbox s s1 :
  crew !! i = Some e → send (sign_message e) s = Ret tt s1 →
  run_signing send e.1 e.2 msg K (Z.of_nat (size crew)) public_key inbox s =
  continue_signing send K public_key i e (nonce_loop i inbox) s1.
Proof.
  intros Hi Hsend. unfold run_signing, sign_message in *.
  pose proof (gen_nonce_id e.1 e.2) as Hid. pose proof (gen_nonce_key_ids e.1 e.2) as Hk.
  rewrite <- Hid, <- Hk in Hsend. rewrite (Hids i e Hi) in Hid.
  unfold continue_signing, nonce_loop. destruct (gen_nonce e.1 e.2) as [nonce p] eqn:E. cbn in *.
  rewrite (run_call _ _ _ _ _ Hsend), (restrict_one crew i e Hi). unfold sign_of.
  rewrite !map_fmap_singleton, E, Hid, Hk. cbn. done.
Qed.

Lemma own_in_crew i e : crew !! i = Some e → {[ i ]} ⊆ dom crew.
Proof. intros Hi. apply singleton_subseteq_l, elem_of_dom. eauto. Qed.

Lemma own_share i e : crew !! i = Some e →
  {[ i := sign_with (gen_nonce e.1 e.2).2 msg (signing_input (sign_of (restrict (dom crew) crew))) ]}
  = crew_share <$> restrict {[ i ]} crew.
Proof.
  intros Hi. rewrite restrict_all, (restrict_one crew i e Hi), map_fmap_singleton. done.
Qed.

Lemma continue_after_nonces {N} (send : FrostMessage → M N DKGError unit) K public_key i e rest s s1 :
  crew !! i = Some e → send (final_message e) s = Ret tt s1 →
  continue_signing send K public_key i e (Enough (sign_of (restrict (dom crew) crew)) rest) s =
  match share_loop i rest with
  | Enough shares _ =>
      (signature ← aggregate K (Z.of_nat (size crew)) public_key msg crew_input shares;
       mret (Some signature)) s1
  | Pending => Ret None s1
  | Died => Fail EGenericError s1
  | Crashed => Panic
  end.
Proof.
  intros Hi Hsend. unfold continue_signing, share_loop. rewrite <- (own_share i e Hi).
  rewrite restrict_all. fold crew_input. unfold final_message, crew_share in Hsend.
  rewrite (Hids i e Hi) in Hsend. rewrite (run_call _ _ _ _ _ Hsend).
  by destruct (collect _ _ _ rest).
Qed.

(** C31: signing agrees: a member of the crew that hears the nonces of all others and, once it
    has them, the shares of all others, in whatever order and among whatever else is not
    a message of another signing, ends with the result of aggregating what the members
    have, in the order of their identifiers, which is the same for all of them. *)
Theorem frost_signing_agreement {N} (send : FrostMessage → M N DKGError unit) K public_key i e
    pre post s s1 s2 :
  crew !! i = Some e → Forall honest_signing pre → Forall honest_signing post →
  (∀ j e', crew !! j = Some e' → j ≠ i → Ok (Some (sign_message e')) ∈ pre) →
  (∀ j e', crew !! j = Some e' → j ≠ i → Ok (Some (final_message e')) ∈ post) →
  send (sign_message e) s = Ret tt s1 → send (final_message e) s1 = Ret tt s2 →
  run_signing send e.1 e.2 msg K (Z.of_nat (size crew)) public_key (pre ++ post) s =
    match agg ← aggregator_new K (Z.of_nat (size crew)) public_key;
          aggregator_sign agg msg (si_nonces crew_input)
            (sorted_entries (crew_share <$> crew)).*2 (si_key_ids crew_input) with
    | Some signature => Ret (Some signature) s2
    | None => Fail EGenericError s2
    end.
Proof.
  intros Hi Hpre Hpost Hn Hsh H1 H2. rewrite (run_signing_loops send K public_key i e _ s s1) by done.
  unfold nonce_loop.
  destruct (collect_complete
    (λ r, negb (len_usize (party_nonces r) <? Z.of_nat (size crew)))
    (nonce_accept i) crew i (λ X, sign_of (restrict X crew)) nonce_news
    sign_of_enough {[ i ]} pre post) as (mid & Hc & Hmid).
  { set_solver. }
  { by eapply own_in_crew. }
  { eapply Forall_impl; [exact Hpre|]. intros. by apply honest_nonce_fair. }
  { intros j Hj. destruct (decide (j = i)) as [->|]; [left; set_solver|right].
    apply elem_of_dom in Hj as [e' He']. exists (sign_message e').
    split; [by eapply Hn|]. cbn. rewrite (Hids j e' He'). set_solver. }
  rewrite Hc, (continue_after_nonces send K public_key i e _ s1 s2) by done. unfold share_loop.
  destruct (collect_complete (λ shares, negb (len_usize shares <? Z.of_nat (size crew)))
    (share_accept i) crew i (λ X, crew_share <$> restrict X crew) share_news
    shares_enough {[ i ]} (mid ++ post) []) as (mid' & Hc' & _).
  { set_solver. }
  { by eapply own_in_crew. }
  { apply Forall_app. split; [|eapply Forall_impl; [exact Hpost|]; intros; by apply honest_share_fair].
    destruct Hmid as [k ->]. apply Forall_app in Hpre as [_ Hpre].
    eapply Forall_impl; [exact Hpre|]. intros. by apply honest_share_fair. }
  { intros j Hj. destruct (decide (j = i)) as [->|]; [left; set_solver|right].
    apply elem_of_dom in Hj as [e' He']. exists (final_message e').
    split; [apply elem_of_app; right; by eapply Hsh|]. cbn. rewrite (Hids j e' He'). set_solver. }
  rewrite app_nil_r in Hc'. rewrite Hc', restrict_all. unfold aggregate. cbn.
  unfold mbind, M_bind, option_bind, ok_or, mret, M_ret. destruct (aggregator_new _ _ _); [|done].
  by destruct (aggregator_sign _ _ _ _ _).
Qed.

(** A share that arrives too early is lost: where every share of a member [j] that arrives
    at all arrives before the nonce of a member [l], the signer waits for it for ever,
    whatever else it hears. *)
Theorem early_share_blocks_signing {N} (send : FrostMessage → M N DKGError unit) K public_key i e
    j l pre post s :
  crew !! i = Some e → j ∈ dom crew → l ∈ dom crew → j ≠ i → l ≠ i →
  Forall honest_signing pre → Forall honest_signing post →
  (∀ ids nonce, Ok (Some (Sign l ids nonce)) ∉ pre) →
  (∀ share, Ok (Some (SignFinal j share)) ∉ post) →
  (∀ m s, ∃ s', send m s = Ret tt s') →
  ∃ s', run_signing send e.1 e.2 msg K (Z.of_nat (size crew)) public_key (pre ++ post) s = Ret None s'.
Proof.
  intros Hi Hj Hl Hji Hli Hpre Hpost Hnonce Hshare Hsend.
  destruct (Hsend (sign_message e) s) as [s1 H1]. destruct (Hsend (final_message e) s1) as [s2 H2].
  rewrite (run_signing_loops send K public_key i e _ s s1) by done. unfold nonce_loop.
  destruct (collect_late
    (λ r, negb (len_usize (party_nonces r) <? Z.of_nat (size crew)))
    (nonce_accept i) crew i (λ X, sign_of (restrict X crew)) nonce_news
    sign_of_enough {[ i ]} pre post l) as [-> | (rest & Hc & k & ->)].
  { set_solver. }
  { by eapply own_in_crew. }
  1,2: eapply Forall_impl; [done|]; intros; by apply honest_nonce_fair.
  { done. }
  { set_solver. }
  { intros [| |] Hm; cbn; [set_solver| |set_solver]. intros ->%elem_of_singleton. by eapply Hnonce. }
  { by exists s1. }
  exists s2. rewrite Hc, (continue_after_nonces send K public_key i e _ s1 s2) by done.
  apply Forall_app in Hpost as [_ Hpost]. unfold share_loop.
  rewrite (collect_stuck (λ shares, negb (len_usize shares <? Z.of_nat (size crew)))
    (share_accept i) crew i (λ X, crew_share <$> restrict X crew) share_news
    shares_enough {[ i ]} rest j); [done|set_solver|by eapply own_in_crew| |done|set_solver|].
  { eapply Forall_impl; [exact Hpost|]. intros. by apply honest_share_fair. }
  intros [| |] Hm; cbn; [set_solver..|]. intros ->%elem_of_singleton.
  eapply Hshare, elem_of_app. by right.
Qed.
End signing.

(** ** The network *)

Section network.
Context `{FrostCodec, Client, Keystore, Crypto, MessageCodec}.
Implicit Types (queue : list (option Header * SignedDKGMessage)).

(** The payload of a delivery that passes the check of its signature. *)
Definition verified_payload (d : option Header * SignedDKGMessage) : option bytes :=
  match verify_signature_against_authorities_inner d.2 d.1 with
  | Ok m => Some (payload_bytes (payload m))
  | _ => None
  end.

Definition decoded (message_bin : bytes) : Incoming :=
  match frost_from_slice message_bin with Some m => Ok (Some m) | None => Err EGenericError end.

(** The payloads whose digest was not seen before. *)
Fixpoint first_of (seen : gset bytes) (l : list bytes) : list bytes :=
  match l with
  | [] => []
  | b :: l =>
      if bool_decide (sha2_256 b ∈ seen) then first_of seen l
      else b :: first_of ({[ sha2_256 b ]} ∪ seen) l
  end.

Lemma next_message_reference received queue :
  Forall (λ d, verify_signature_against_authorities_inner d.2 d.1 ≠ Panics) queue →
  match next_message received queue with
  | Some (incoming, received', rest) =>
      (length rest < length queue)%nat ∧ rest `suffix_of` queue ∧
      ∃ b l, first_of received (omap verified_payload queue) = b :: l ∧ incoming = decoded b ∧
        l = first_of received' (omap verified_payload rest)
  | None => first_of received (omap verified_payload queue) = []
  end.
Proof.
  induction 1 as [|[latest m] queue Hd _ IH]; [done|].
  assert (∀ l', l' = first_of received (omap verified_payload queue) →
    match next_message received queue with
    | Some (incoming, received', rest) =>
        (length rest < S (length queue))%nat ∧ rest `suffix_of` (latest, m) :: queue ∧
        ∃ b l, l' = b :: l ∧ incoming = decoded b ∧
          l = first_of received' (omap verified_payload rest)
    | None => l' = []
    end) as Hskip.
  { intros l' ->. destruct (next_message received queue) as [[[incoming received'] rest]|]; [|done].
    destruct IH as (? & ? & ?). split_and!; [lia|by apply suffix_cons_r|done]. }
  assert (omap verified_payload ((latest, m) :: queue) =
    match verify_signature_against_authorities_inner m latest with
    | Ok d => payload_bytes (payload d) :: omap verified_payload queue
    | _ => omap verified_payload queue
    end) as ->.
  { cbn. unfold verified_payload at 1. cbn. by destruct (verify_signature_against_authorities_inner _ _). }
  cbn [next_message length]. cbn in Hd.
  destruct (verify_signature_against_authorities_inner m latest) as [d|e|]; [|by apply Hskip|done].
  cbn [first_of]. case_bool_decide; [by apply Hskip|].
  split_and!; [lia|by exists [(latest, m)]|]. by eexists _, _.
Qed.

(** What a protocol gets from its channel is, in order, what passes the check of
    signatures, without the repetitions, decoded; one call per delivery is enough to get
    all of it. *)
Theorem inbox_of_reference queue :
  Forall (λ d, verify_signature_against_authorities_inner d.2 d.1 ≠ Panics) queue →
  inbox_of queue = decoded <$> first_of ∅ (omap verified_payload queue).
Proof.
  unfold inbox_of. generalize (∅ : gset bytes) as received.
  assert (length queue <= length queue)%nat as Hc by done. revert Hc.
  generalize (length queue) at 2 3 as calls. intros calls. revert queue.
  induction calls as [|calls IH]; intros queue Hc received Hq.
  { destruct queue; [done|]. cbn in Hc. lia. }
  pose proof (next_message_reference received queue Hq) as Hn. cbn [next_messages].
  destruct (next_message received queue) as [[[incoming received'] rest]|]; [|by rewrite Hn].
  destruct Hn as (Hlt & [k Hk] & b & l & -> & -> & ->). cbn. f_equal. apply IH; [lia|].
  rewrite Hk in Hq. by apply Forall_app in Hq as [_ Hq].
Qed.

Lemma first_of_elem seen l b :
  b ∈ l → sha2_256 b ∉ seen → (∀ b', b' ∈ l → sha2_256 b' = sha2_256 b → b' = b) →
  b ∈ first_of seen l.
Proof.
  revert seen. induction l as [|x l IH]; intros seen Hb Hseen Hcol; [by apply not_elem_of_nil in Hb|].
  cbn. destruct (decide (x = b)) as [->|Hne].
  { rewrite bool_decide_false by done. by left. }
  apply elem_of_cons in Hb as [->|Hb]; [done|].
  assert (sha2_256 x ≠ sha2_256 b) by (intros Hx; apply Hne, Hcol; [by left|done]).
  case_bool_decide; [|right]; apply IH; set_solver.
Qed.

(** A message that one party sends is, for every party that takes it from its channel
    while the sender is among the authorities, among those its protocol gets, unchanged,
    whatever came before and comes after it. *)
Theorem frost_message_roundtrip `{!KeystoreLaws, !FrostCodecLaws} w m n bs header sets public pre post :
  frost_to_vec m = Some bs →
  get_authority_public_key n = (Ret public n : outcome Node DKGError DKGId) →
  (∀ data, is_Some (keystore_sign public data)) → validator_set header = Some sets →
  (∀ x, x ∈ as_authorities sets.1 ∨ x ∈ as_authorities sets.2 → length (dkg_bytes x) = 33%nat) →
  public ∈ as_authorities sets.1 ∨ public ∈ as_authorities sets.2 →
  Forall (λ d, verify_signature_against_authorities_inner d.2 d.1 ≠ Panics) (pre ++ post) →
  (∀ b, b ∈ omap verified_payload (pre ++ post) → sha2_256 b = sha2_256 bs → b = bs) →
  ∃ d, send_message w m n = Ret tt (n <| outbox ::= (λ l, l ++ [d]) |>) ∧
    Ok (Some m) ∈ inbox_of (pre ++ (Some header, d) :: post).
Proof.
  intros Hm Hk Hsign Hv Hlen Hin Hq Hcol.
  destruct (Hsign (encode_message (frost_wire_message w bs))) as [sig Hsig].
  exists (mkSignedDKGMessage (frost_wire_message w bs) (Some sig)). split.
  { unfold send_message. rewrite run_ok_or, Hm. by apply (sign_and_send_msg_run n public). }
  assert (verify_signature_against_authorities_inner
    (mkSignedDKGMessage (frost_wire_message w bs) (Some sig)) (Some header)
    = Ok (frost_wire_message w bs)) as Hver.
  { refine (verify_accepts (mkSignedDKGMessage (frost_wire_message w bs) (Some sig)) header sets sig
      public Hv eq_refl Hlen Hin _). by apply keystore_sign_signed. }
  assert (payload_bytes (frost_payload w bs) = bs) as Hpay.
  { unfold frost_payload. by destruct (proto_stage_type (fn_remote w)). }
  set (d := mkSignedDKGMessage (frost_wire_message w bs) (Some sig)) in *.
  assert (omap verified_payload (pre ++ (Some header, d) :: post) =
    omap verified_payload pre ++ bs :: omap verified_payload post) as Homap.
  { assert (verified_payload (Some header, d) = Some bs) as Hd.
    { unfold verified_payload. cbn [fst snd]. rewrite Hver. f_equal. exact Hpay. }
    rewrite omap_app. cbn [omap list_omap]. by rewrite Hd. }
  rewrite inbox_of_reference.
  - replace (Ok (Some m) : Incoming) with (decoded bs); [|unfold decoded; by rewrite (frost_from_to m)].
    rewrite Homap. apply list_elem_of_fmap_2, first_of_elem; [set_solver..|].
    intros b. rewrite elem_of_app, elem_of_cons. intros [Hb|[->|Hb]]; [|done|];
      apply Hcol; rewrite omap_app, elem_of_app; auto.
  - apply Forall_app in Hq as [? ?]. apply Forall_app. split; [done|]. constructor; [|done].
    cbn [fst snd]. by rewrite Hver.
Qed.
End network.

(** ** The protocols *)

Lemma validate_parameters_Ok n k t :
  validate_parameters n k t = Ok tt ↔ Z.land k n = 0 ∧ k ≠ 0 ∧ t < n.
Proof.
  unfold validate_parameters. destruct (Z.eqb_spec (Z.land k n) 0), (Z.eqb_spec k 0), (Z.leb_spec n t);
    cbn; intuition (congruence || lia).
Qed.

(** The numbers in the comment of [generate_party_key_ids]: they pass the check of the
    parameters, although four does not divide ten, and two of the ten keys are nobody's. *)
Theorem uneven_parameters_accepted :
  validate_parameters 4 10 3 = Ok tt ∧
  generate_party_key_ids 4 10 = Ok [[0; 1]; [2; 3]; [4; 5]; [6; 7]].
Proof. done. Qed.

Section protocols.
Context `{Wsts, FrostCodec, LocalKeyDb, Client, Keystore, Crypto, MessageCodec, SubmissionDelay}.
Implicit Types (n : Node).

(** A key generation as the module sets it up, with as many keys as parties, is refused
    before it sends anything, whatever the parties, the threshold and the messages. *)
Theorem frost_keygen_always_refused p n h u n1 rng inbox n2 :
  frost_initialize_keygen p n = Ret (h, u) n1 →
  frost_keygen_protocol u rng inbox n2 = Fail EGenericError n2.
Proof.
  intros (i & n' & _ & (h' & n'' & _ & [[= -> ->] _]%ret_Ret)%bind_Ret)%bind_Ret.
  unfold frost_keygen_protocol, frost_keygen_party. cbn.
  set (c := wrap 32 _). unfold validate_parameters. rewrite Z.land_diag.
  by destruct (Z.eqb_spec c 0) as [->|].
Qed.

(** A signing needs a FROST key of its session, and is then set up with that key; without
    it nothing changes. *)
Theorem frost_initialize_signing_spec p n :
  match local_keys n !! fsp_session_id p with
  | Some (FROST public_key state) =>
      ∃ h u n', frost_initialize_signing p n = Ret (h, u) n' ∧
        fs_public_key u = public_key ∧ fs_state u = state ∧ fs_batch u = fsp_batch p ∧
        index_to_authority_mapping h = ∅ ∧ next_handle n' = next_handle n + 1 ∧
        remotes (signing_work (signing_manager n')) !! remote_id h = Some remote_new ∧
        remote_id h = next_handle n
  | _ => frost_initialize_signing p n = Fail EGenericError n
  end.
Proof.
  unfold frost_initialize_signing. rewrite run_gets, run_ok_or.
  destruct (local_keys n !! fsp_session_id p) as [[key|public_key state]|]; [done| |done].
  eexists _, _, _. split; [reflexivity|]. cbn. simp_get. split_and!; rewrite ?lookup_insert_eq; done || lia.
Qed.
End protocols.

(** ** A key generation of a node *)

Section node.
Context `{Wsts, FrostCodec, LocalKeyDb, Client, Keystore, Crypto, MessageCodec, SubmissionDelay}.
Context `{!WstsLaws}.

(** The node's own key does not depend on its state. *)
Lemma get_authority_public_key_any (nd nd' : Node) public :
  get_authority_public_key nd = (Ret public nd : outcome Node DKGError DKGId) →
  get_authority_public_key nd' = (Ret public nd' : outcome Node DKGError DKGId).
Proof.
  unfold get_authority_public_key. intros (keys & u & [Hk ->]%expect_Ret & [Ha _]%expect_Ret)%bind_Ret.
  rewrite Hk. change (expect (authority_id keys) nd' = (Ret public nd' : outcome Node DKGError DKGId)).
  by rewrite Ha.
Qed.

(** The announcement of a public key. *)
Definition key_announcement (session : Z) (public_key_bytes : bytes) (public : DKGId) (sig : bytes)
    : DKGMessage := {|
  sender_id := public; recipient_id := None;
  payload := PPublicKeyBroadcast (mkPublicKeyMessage session public_key_bytes sig);
  msg_session_id := session; msg_associated_block_id := 0; msg_ssid := 0 |}.

Lemma frost_keygen_done_run (u : FrostKeygen) party public_key public_key_bytes public nd :
  polys_to_vec public_key = Some public_key_bytes →
  store_public_key (FROST public_key (party_save party)) (fk_session_id u) = Ok tt →
  get_authority_public_key nd = (Ret public nd : outcome Node DKGError DKGId) →
  (∀ data, is_Some (keystore_sign public data)) →
  ∃ nd' sig sig', frost_keygen_done u party public_key nd = Ret tt nd' ∧
    local_keys nd' = <[fk_session_id u := FROST public_key (party_save party)]> (local_keys nd) ∧
    outbox nd' = outbox nd ++ [mkSignedDKGMessage
      (key_announcement (fk_session_id u) public_key_bytes public sig) (Some sig')].
Proof.
  intros Hp Hst Hk Hsign. destruct (Hsign public_key_bytes) as [sig Hs].
  destruct (Hsign (encode_message (key_announcement (fk_session_id u) public_key_bytes public sig)))
    as [sig' Hs'].
  unfold frost_keygen_done. rewrite run_ok_or, Hp. cbv zeta. rewrite run_lift, Hst, run_modify.
  unfold gossip_public_key. rewrite (run_call _ _ _ _ _ (get_authority_public_key_any _ _ _ Hk)).
  cbn [pk_pub_key pk_session_id]. rewrite Hs. unfold send_signed, key_announcement in *.
  rewrite Hs', run_modify. eexists _, sig, sig'. split; [reflexivity|]. simp_get. done.
Qed.

(** C30: a key generation whose parameters pass the check of the code
    ([validate_parameters], which asks for [k land n = 0]) completes on a node whose channel
    brings the key generation message of every other party, in any order and mixed with
    errors and with messages of other rounds, but with no key generation message that
    differs from the one its party sends, and without the channel ending first
    ([honest_dkg]); provided that the library computes the secret, the message and the key
    can be serialized, the database stores the key and the keystore signs.  The node then
    has the public key of the crew with its own secret state under the session, and the
    last of the two messages it sends announces that public key, the same bytes on every
    node. *)
Theorem frost_keygen_completes (u : FrostKeygen) rng groups i ids inbox party frost_msg
    public_key_bytes public nd :
  let n := fk_n u in let k := fk_k u in let t := fk_t u in
  let me := frost_party n k t rng i ids in
  let public_key := frost_public_key n k t rng groups in
  in_width 32 n → in_width 32 k → validate_parameters n k t = Ok tt →
  generate_party_key_ids n k = Ok groups → fk_party_id u = Z.of_nat i → groups !! i = Some ids →
  Forall (honest_dkg (frost_crew n k t rng groups)) inbox →
  (∀ j ids', groups !! j = Some ids' → j ≠ i →
     Ok (Some (dkg_message (frost_party n k t rng j ids') (rng j))) ∈ inbox) →
  compute_secret me (shares_for (frost_crew n k t rng groups) ids) public_key = Some party →
  frost_to_vec (dkg_message me (rng i)) = Some frost_msg →
  polys_to_vec public_key = Some public_key_bytes →
  store_public_key (FROST public_key (party_save party)) (fk_session_id u) = Ok tt →
  get_authority_public_key nd = (Ret public nd : outcome Node DKGError DKGId) →
  (∀ data, is_Some (keystore_sign public data)) →
  ∃ nd' sig sig' d, frost_keygen_protocol u (rng i) inbox nd = Ret (Some tt) nd' ∧
    local_keys nd' !! fk_session_id u = Some (FROST public_key (party_save party)) ∧
    outbox nd' = outbox nd ++ [d; mkSignedDKGMessage
      (key_announcement (fk_session_id u) public_key_bytes public sig) (Some sig')].
Proof.
  intros n k t me public_key Hn Hk Hval Hg Hpid Hi Hf Hall Hsec Hmsg Hpoly Hstore Hpub Hsign.
  destruct (Hsign (encode_message (frost_wire_message (fk_network u) frost_msg))) as [sig0 Hsig0].
  set (d := mkSignedDKGMessage (frost_wire_message (fk_network u) frost_msg) (Some sig0)).
  assert (send_message (fk_network u) (dkg_message me (rng i)) nd =
    Ret tt (nd <| outbox ::= (λ l, l ++ [d]) |>)) as Hsend.
  { unfold send_message. rewrite run_ok_or, Hmsg. by apply (sign_and_send_msg_run nd public). }
  destruct (frost_keygen_done_run u party public_key public_key_bytes public
    (nd <| outbox ::= (λ l, l ++ [d]) |>)) as (nd' & sig & sig' & Hdone & Hkeys & Hout);
    [done|done|by eapply get_authority_public_key_any|done|].
  exists nd', sig, sig', d. split_and!.
  - assert (frost_keygen_party u (rng i) nd = Ret me nd) as Hparty.
    { unfold frost_keygen_party. fold n k t. rewrite run_lift, Hval, run_lift, Hg, run_ok_or, Hpid.
      by rewrite Nat2Z.id, Hi. }
    unfold frost_keygen_protocol. rewrite (run_call _ _ _ _ _ Hparty). fold n.
    pose proof (frost_dkg_agreement (send_message (fk_network u)) n k t rng groups i ids inbox nd _
      Hn Hk Hg Hi Hf Hall Hsend) as Hrun.
    fold me public_key in Hrun. rewrite Hsec in Hrun.
    by rewrite (run_call _ _ _ _ _ Hrun), (run_call _ _ _ _ _ Hdone).
  - rewrite Hkeys. apply lookup_insert_eq.
  - rewrite Hout. simp_get. by rewrite <- app_assoc.
Qed.
End node.

Lemma get_keygen_protocol_handles p d :
  get_keygen_protocol p = Some d ↔ can_handle_keygen_request d p = true.
Proof. destruct p, d; cbn; naive_solver. Qed.

Lemma get_signing_protocol_handles p d :
  get_signing_protocol p = Some d ↔ can_handle_signing_request d p = true.
Proof. destruct p, d; cbn; naive_solver. Qed.
