(* ===== verification/System.v ===== *)
(** * The nodes on the chain

    What the runtime of src/standalone/runtime/src/lib.rs answers to the gadget: the
    implementation of [DKGApi], as the client of a node reads it at a block, and what
    the offchain worker of the proposal handler finds in the storage the gadget shares
    with it.  [FollowsChain] is the contract between the two halves of the development:
    a node whose client answers from the chain.  SystemSpec.v has the theorems. *)

From S2P Require Import Prelude.
From S2P Require Import Frame.
From S2P Require Import Primitives.
From S2P Require Import Traits.
From S2P Require Import ProposalHandler.
From S2P Require Import Metadata.
From S2P Require Import Sessions.
From S2P Require Import Runtime.
From S2P Require Import GadgetTypes.
From S2P Require Import Client.
From S2P Require Import Node.

(** ** The runtime API *)

Section api.
Context `{IterOrder} {Sys : Type}.
Implicit Types c : Chain Sys.

(** [impl DKGApi for Runtime]: the answers at a block whose state is [c]. *)
Definition chain_api c : RuntimeApi := {|
  at_dkg_pub_key := Some (api_dkg_pub_key c);
  at_next_dkg_pub_key := Some (api_next_dkg_pub_key c);
  at_best_authorities := Some (api_get_best_authorities c);
  at_next_best_authorities := Some (api_get_next_best_authorities c);
  at_keygen_threshold := Some (KeygenThreshold (dkg c));
  at_next_keygen_threshold := Some (NextKeygenThreshold (dkg c));
  at_signature_threshold := Some (SignatureThreshold (dkg c));
  at_next_signature_threshold := Some (NextSignatureThreshold (dkg c));
  at_authority_set := Some (api_authority_set c);
  at_queued_authority_set := Some (api_queued_authority_set c);
  at_keygen_jailed := Some (api_get_keygen_jailed c);
  at_should_execute_new_keygen := Some (api_should_execute_new_keygen c);
  at_unsigned_proposal_batches := Some (api_get_unsigned_proposal_batches c) |}.

(** No answer: the state of the block is not available. *)
Definition no_api : RuntimeApi :=
  mkRuntimeApi None None None None None None None None None None None None None.

(** The client of a node that has the state of some blocks. *)
Definition chain_client (state_at : Header → option (Chain Sys)) : Client := λ h,
  match state_at h with Some c => chain_api c | None => no_api end.

Class FollowsChain `{Client} (state_at : Header → option (Chain Sys)) : Prop :=
  answers_at h c : state_at h = Some c → runtime_api h = chain_api c.

#[export] Instance chain_client_follows state_at : FollowsChain (H0 := chain_client state_at) state_at.
Proof. intros h c Hc. unfold runtime_api, chain_client. by rewrite Hc. Qed.
End api.

(** ** The offchain storage *)

(** [StorageValueRef::get]: the value that the worker of the pallet reads. *)
Definition stored_value {A} (s : Stored A) : option (option A) :=
  match s with
  | Missing => None
  | Corrupt => Some None
  | Present a => Some (Some a)
  end.
