(* ===== verification/SystemSpec.v ===== *)
(** * Theorems about nodes and chain together

    A batch that the chain has queued, and that the nodes vote for with the key of the
    chain, ends as a signed batch on the chain: the node leaves it in its offchain
    storage, the worker of the pallet sends it, the runtime accepts it, and no node that
    follows the chain is told of the batch again. *)

From S2P Require Import Prelude.
From S2P Require Import Frame.
From S2P Require Import Primitives.
From S2P Require Import Merkle.
From S2P Require Import Traits.
From S2P Require Import BridgeRegistry.
From S2P Require Import Proposals.
From S2P Require Import ProposalHandler.
From S2P Require Import ProposalHandlerSpec.
From S2P Require Import Metadata.
From S2P Require Import MetadataQuorum.
From S2P Require Import MetadataPending.
From S2P Require Import MetadataSubmission.
From S2P Require Import Sessions.
From S2P Require Import Runtime.
From S2P Require Import RuntimeSpec.
From S2P Require Import GadgetTypes.
From S2P Require Import Remote.
From S2P Require Import WorkManager.
From S2P Require Import Client.
From S2P Require Import Node.
From S2P Require Import Reports.
From S2P Require Import ReportsSpec.
From S2P Require Import SigningManager.
From S2P Require Import AsyncProtocol.
From S2P Require Import VotingStage.
From S2P Require Import VotingStageSpec.
From S2P Require Import System.

(** ** The handlers of a signed batch do not panic *)

Section no_panic.
Context `{WebbProposals, Crypto, ReputationOrder, IterOrder, Weights} {Sys : Type}.
Context `{System Sys, ReportOffences Sys RuntimeError}.
Implicit Types c d : Chain Sys.

Lemma pending_kept : dkg_keeps (Sys := Sys) pending_encodes.
Proof.
  split; intros; [apply pending_build|apply pending_on_genesis_session|apply pending_on_initialize|
    apply pending_on_new_session|apply pending_on_disabled|apply pending_on_signed_proposal].
Qed.

Lemma step_pending c d : step c d → dkg_has pending_encodes c → dkg_has pending_encodes d.
Proof.
  intros [o call c' d' Hf|h c' d' Hf|c' s] Hi; [|by eapply preserves_final;
    [apply (run_hook_has _ pending_kept h)|..]|done].
  destruct call as [mc|vc|hc|bc].
  2-4: by eapply (preserves_final (dkg_has _)); [apply (other_call_has _ pending_kept)| |exact Hf].
  eapply (preserves_final (dkg_has _)); [|exact Hi|exact Hf].
  apply in_dkg_has, pending_metadata_call.
Qed.

Lemma reachable_pending c : reachable c → pending_encodes (dkg c).
Proof.
  intros (c0 & (g & s & Hg) & Hr).
  assert (dkg_has pending_encodes c0) as Hc0.
  { eapply (preserves_final _ (genesis g)); [apply genesis_has, pending_kept| |by rewrite Hg].
    by intros p. }
  clear g s Hg. induction Hr as [|c1 c2 c3 Hs _ IH]; [done|]. by apply IH, (step_pending c1).
Qed.

Lemma reachable_handler `{!IterLaws} c : reachable c → handler_inv (queue c).
Proof. intros (c0 & Hi & Hr). by destruct (steps_keep _ _ Hr (initial_inv _ Hi)). Qed.

Lemma result_map_err_Ok {E E' A} (g : E → E') (r : result E A) a :
  result_map_err g r = Ok a ↔ r = Ok a.
Proof. destruct r; cbn; naive_solver. Qed.

Lemma attempt_matches pk k (r : result ValidationError Z) (out : Z → ProposalIdentifier) id :
  (n ← r; matches_kind pk k (out n)) = Ok id → pk = k ∧ ∃ n, r = Ok n.
Proof. intros (n & Hr & [Hk _]%matches_kind_Ok)%result_bind_Ok. eauto. Qed.

(** A proposal that was decoded as an anchor update has the length of one. *)
Lemma decoded_anchor_length p id :
  decode_proposal_identifier p = Ok id → proposal_kind p = AnchorUpdate →
  length (proposal_data p) = evm_proposal_length AnchorUpdate.
Proof.
  unfold decode_proposal_identifier. cbv zeta. intros Hd Hk.
  case_decide as He; [by rewrite Hk in He|]. apply result_bind_Ok in Hd as (h & _ & Hd).
  apply result_map_err_Ok in Hd. cbn [foldl] in Hd.
  rewrite Hk in Hd. clear He Hk. cbv beta in Hd.
  repeat (apply result_or_Ok in Hd as [Hd|Hd]);
    apply attempt_matches in Hd as [Hkind (m & Hm)]; try discriminate Hkind.
  apply result_bind_Ok in Hm as (q & Hq & _). unfold evm_create in Hq.
  destruct (Nat.eqb_spec (length (proposal_data p)) (evm_proposal_length AnchorUpdate)); done.
Qed.

Abbreviation Rest := (Metadata * (Proposals * (BridgeRegistry * Sys)))%type.

Lemma registry_no_panic p (b : BridgeRegistry) :
  (proposal_kind p = AnchorUpdate →
    length (proposal_data p) = evm_proposal_length AnchorUpdate) →
  (Registry.on_signed_proposal p : M _ (DispatchError BridgeError RuntimeError) unit) b ≠ Panic.
Proof.
  intros Hl. enough (wp False (Registry.on_signed_proposal p :
    M _ (DispatchError BridgeError RuntimeError) unit) b (λ _ _, True) (λ _ _, True)) as Hwp.
  { intros Hp. unfold wp in Hwp. by rewrite Hp in Hwp. }
  unfold Registry.on_signed_proposal. wp_step. wp_step; [|done].
  case_decide as Hk; [|by wp_step]. wp_step. rewrite Hl, Nat.eqb_refl by done. wp_step; [|done].
  unfold Registry.link_resources, Registry.create_bridge, Registry.join_bridge.
  repeat (wp_step; try done).
Qed.

Lemma signed_handler_no_panic p (w : Rest) :
  pending_encodes w.1 →
  (proposal_kind p = AnchorUpdate →
    length (proposal_data p) = evm_proposal_length AnchorUpdate) →
  (on_signed_proposal p : M Rest RuntimeError unit) w ≠ Panic.
Proof.
  intros Hw Hl. destruct w as [s [v [b r]]].
  pose proof (registry_no_panic p b Hl) as Hb.
  cbv [on_signed_proposal signed_proposal_handler on_signed_proposal_pair zoom map_err via id
    mbind M_bind]. cbn [fst snd].
  destruct (Registry.on_signed_proposal p b) as [u b'|e b'|]; [|done..].
  pose proof (on_signed_proposal_no_panic (F := RuntimeError) p s (v, (b', r)) Hw) as Hd.
  by destruct (Dkg.on_signed_proposal _ _).
Qed.

(** Every handler of a signed batch is called, and the call returns. *)
Lemma notify_returns ps (w : Rest) :
  pending_encodes w.1 →
  Forall (λ p, ∃ id, decode_proposal_identifier p = Ok id) ps →
  ∃ w', notify (F := RuntimeError) ps w = Ret tt w'.
Proof.
  intros Hw Hps. revert w Hw. induction Hps as [|p ps [id Hp] _ IH]; intros w Hw; [by exists w|].
  pose proof (signed_handler_no_panic p w Hw (decoded_anchor_length p id Hp)) as Hn.
  pose proof (signed_handler_has pending_encodes pending_kept p w Hw) as Hk.
  unfold notify, wp in *. cbn [for_each]. cbv [mbind M_bind catch].
  destruct (on_signed_proposal p w) as [u w'|e w'|]; [by apply IH..|done].
Qed.
End no_panic.

(** ** A batch that the nodes signed *)

Section settled.
Context `{WebbProposals, Crypto, ReputationOrder, IterOrder, !IterLaws, Weights} {Sys : Type}.
Context `{System Sys, ReportOffences Sys RuntimeError}.
Implicit Types (c d e : Chain Sys) (ub : StoredUnsignedProposalBatch) (sb : SignedProposalBatch).

(** What the runtime API lists is what is queued, under its own identifier. *)
Lemma listed_queued c ub :
  handler_inv (queue c) →
  ub ∈ api_get_unsigned_proposal_batches c ↔
  ∃ chain, UnsignedProposalQueue (queue c) !! (chain, ub_batch_id ub) = Some ub.
Proof.
  intros Hi. unfold api_get_unsigned_proposal_batches.
  rewrite list_elem_of_fmap. setoid_rewrite iter_queue_perm. split.
  - intros ([[chain b] ub'] & -> & Hin%elem_of_map_to_list). exists chain. cbn.
    by destruct (hi_queue _ Hi _ _ _ Hin) as (-> & _).
  - intros [chain Hq]. exists ((chain, ub_batch_id ub), ub). split; [done|].
    by apply elem_of_map_to_list.
Qed.

(** The signed batch of a queued one, with any signature of the chain's key. *)
Record signs c ub sb : Prop := {
  sg_id : sb_batch_id sb = ub_batch_id ub;
  sg_proposals : Forall2 (λ u p, decode_proposal_identifier p =
    decode_proposal_identifier (up_proposal u)) (ub_proposals ub) (sb_proposals sb);
  sg_signed : ensure_signed_by_dkg (api_dkg_pub_key c).2 (sb_signature sb)
    (signed_batch_data sb) = Ok tt }.

Lemma signs_checks c ub sb chain :
  handler_inv (queue c) → signs c ub sb →
  UnsignedProposalQueue (queue c) !! (chain, ub_batch_id ub) = Some ub →
  sign_checks sb (queue c) = Ok (chain, ub_batch_id ub) ∧
  Forall (λ p, ∃ id, decode_proposal_identifier p = Ok id ∧ typed_chain_id id = chain)
    (sb_proposals sb).
Proof.
  intros Hi [Hid Hps Hs] Hq. destruct (hi_queue _ Hi _ _ _ Hq) as (_ & _ & Hne & _ & Hok).
  assert (Forall (λ p, ∃ id, decode_proposal_identifier p = Ok id ∧ typed_chain_id id = chain)
    (sb_proposals sb)) as Hall.
  { eapply Forall2_Forall_r; [exact Hps|]. eapply Forall_impl; [exact Hok|].
    intros u [_ Hu] p ->. by eexists. }
  split; [|exact Hall]. unfold sign_checks.
  destruct Hps as [|u p us ps Hp _]; [done|]. apply Forall_cons in Hall as [(id & Hd & <-) _].
  cbn [head result_of mbind result_bind]. rewrite Hd. cbn [result_map_err mbind result_bind].
  rewrite Hid, bool_decide_true by by rewrite Hq. cbn [negb].
  by rewrite (ensure_signed_valid _ _ _ Hs).
Qed.

Lemma signs_proposals_head c ub sb chain :
  handler_inv (queue c) → signs c ub sb →
  UnsignedProposalQueue (queue c) !! (chain, ub_batch_id ub) = Some ub →
  ∃ p id, head (sb_proposals sb) = Some p ∧ decode_proposal_identifier p = Ok id ∧
    typed_chain_id id = chain.
Proof.
  intros Hi Hsg Hq. destruct (signs_checks c ub sb chain Hi Hsg Hq) as [_ Hps].
  destruct (hi_queue _ Hi _ _ _ Hq) as (_ & _ & Hne & _).
  destruct (sg_proposals _ _ _ Hsg); [done|].
  apply Forall_cons in Hps as [(id & Hd & Hc) _]. eauto.
Qed.

(** The runtime accepts it, whoever sends it. *)
Lemma signed_batch_accepted o c ub sb chain :
  reachable c → signs c ub sb →
  UnsignedProposalQueue (queue c) !! (chain, ub_batch_id ub) = Some ub →
  ∃ w, runtime_call o (CallDKGProposalHandler (Batches.SubmitSignedProposals [sb])) c =
    Ret tt (of_queue_view (sign_batch (chain, ub_batch_id ub) sb (queue c), w)).
Proof.
  intros Hr Hsg Hq. pose proof (reachable_handler c Hr) as Hi.
  destruct (signs_checks c ub sb chain Hi Hsg Hq) as [Hk Hps].
  destruct (notify_returns (sb_proposals sb) (dkg c, (voting c, (bridges c, system c))))
    as [w Hn]; [by apply reachable_pending|by eapply Forall_impl; [exact Hps|naive_solver]|].
  exists w. cbn [runtime_call]. unfold in_queue, via, Batches.handler_call, dispatch,
    Batches.submit_signed_proposals.
  change (len [sb] <=? MaxProposalsPerBatch) with true. cbn [for_each].
  unfold Batches.submit_one. mrun. unfold queue_view at 1. cbn [fst snd].
  pose proof (sg_signed _ _ _ Hsg) as Hs. unfold api_dkg_pub_key in Hs.
  cbn [dkg_key dkg_public_keys metadata_dkg_key fst]. rewrite Hs. unfold mbind at 1, M_bind at 1.
  unfold queue_view. by rewrite handle_signed_run, Hk, Hn.
Qed.

(** The worker of the authority whose turn it is sends the batch that its node left. *)
Lemma worker_sends account rest block c ub sb chain who :
  handler_inv (queue c) → signs c ub sb →
  UnsignedProposalQueue (queue c) !! (chain, ub_batch_id ub) = Some ub →
  (Batches.get_expected_signer block :
    M _ (DispatchError HandlerError RuntimeError) _) (queue_view c) = Ret who (queue_view c) →
  (∀ a, who = Some a → a = account) →
  (Batches.submit_signed_proposal_onchain (account :: rest) (stored_value (Present [sb])) block :
    M _ (DispatchError HandlerError RuntimeError) _) (queue_view c) =
    Ret (inr [Batches.SubmitSignedProposals [sb]]) (queue_view c).
Proof.
  intros Hi Hsg Hq Hw Ha.
  unfold Batches.submit_signed_proposal_onchain. rewrite (run_call _ _ _ _ _ Hw).
  assert ((match who with Some a => bool_decide (account ≠ a) | None => false end) = false) as ->.
  { destruct who as [a|]; [|done]. rewrite (Ha a eq_refl). by apply bool_decide_eq_false; intros []. }
  cbn [stored_value Batches.get_next_offchain_signed_proposals].
  unfold Batches.filter_new_batches, Batches.is_not_existing_proposal_batch.
  destruct (signs_proposals_head c ub sb chain Hi Hsg Hq) as (p & id & Hp & Hd & Hc).
  rewrite Hp. mrun. rewrite Hd. mrun. cbn [fst queue_view].
  rewrite Hc, (sg_id _ _ _ Hsg).
  destruct (SignedProposals (queue c) !! (chain, ub_batch_id ub)) eqn:Hs.
  { apply hi_signed in Hs as (_ & _ & _ & Hn); [|done]. by rewrite Hn in Hq. }
  by rewrite bool_decide_false by by intros [? ?].
Qed.

(** The batch is off the list, and nothing new is on it. *)
Lemma settled_not_listed c ub sb chain w ub' :
  handler_inv (queue c) → signs c ub sb →
  UnsignedProposalQueue (queue c) !! (chain, ub_batch_id ub) = Some ub →
  ub' ∈ api_get_unsigned_proposal_batches
    (of_queue_view (sign_batch (chain, ub_batch_id ub) sb (queue c), w) : Chain Sys) →
  ub_batch_id ub' ≠ ub_batch_id ub ∧ ub' ∈ api_get_unsigned_proposal_batches c.
Proof.
  intros Hi Hsg Hq Hin. destruct (signs_checks c ub sb chain Hi Hsg Hq) as [Hk _].
  rewrite listed_queued in Hin by by apply sign_batch_inv. destruct Hin as [chain' Hq'].
  assert (UnsignedProposalQueue (queue c) !! (chain', ub_batch_id ub') = Some ub' ∧
    (chain, ub_batch_id ub) ≠ (chain', ub_batch_id ub')) as [Hold Hne].
  { cbn [of_queue_view queue fst] in Hq'. unfold sign_batch in Hq'. simp_get_in Hq'.
    unfold drop_stale in Hq'. destruct (existsb _ _).
    - apply map_lookup_filter_Some in Hq' as [Hq' _]. by apply lookup_delete_Some in Hq' as [? ?].
    - by apply lookup_delete_Some in Hq' as [? ?]. }
  split; [|by apply listed_queued; [|exists chain']].
  intros Heq. apply Hne. rewrite Heq in *. f_equal.
  apply (hi_unique _ Hi chain chain' (ub_batch_id ub)); [by rewrite Hq|by rewrite Hold].
Qed.
End settled.

(** ** What a node starts to sign *)

Section jobs.
Context `{JobOrder, Client, Keystore, Crypto, MessageCodec, SubmissionDelay, WebbProposals,
  SigningSets}.
Implicit Types (n : Node) (header : Header).

(** Compared with [n0], the node signs no batch that is not in the list. *)
Definition only_signs (batches : list StoredUnsignedProposalBatch) n0 n : Prop :=
  ∀ i p, protocols n !! i = Some (SigningProtocol p) →
    protocols n0 !! i = Some (SigningProtocol p) ∨ sp_unsigned_proposal_batch p ∈ batches.

Section fixed.
Context (batches : list StoredUnsignedProposalBatch) (n0 : Node).

#[local] Hint Extern 3 (preserves (only_signs _ _) (modify _)) =>
  apply preserves_modify; exact (λ n Hn, Hn) : preserves.

Lemma signing_work_only {A} (m : M WorkManager DKGError A) :
  preserves (only_signs batches n0) (on_signing_work m).
Proof. intros n Hn. unfold wp, on_signing_work, zoom. by destruct (m _). Qed.

Lemma handle_dkg_error_only e : preserves (only_signs batches n0) (handle_dkg_error e).
Proof.
  unfold handle_dkg_error. destruct (match e with
    | EKeygenMisbehaviour _ _ => _ | _ => _ end) as [offenders session].
  apply preserves_for_each. intros offender.
  unfold handle_dkg_report, ignore, gossip_misbehaviour_report, get_authority_public_key,
    send_signed, reports_entry, push_report, try_store_offchain,
    store_aggregated_misbehaviour_reports.
  destruct e; solve_preserves.
Qed.

#[local] Hint Resolve signing_work_only handle_dkg_error_only : preserves.

Lemma initialize_signing_only p :
  sp_unsigned_proposal_batch p ∈ batches →
  preserves (only_signs batches n0) (Signer.initialize_signing_protocol p).
Proof.
  intros Hp. unfold Signer.initialize_signing_protocol, generate_async_proto_params.
  apply preserves_bind; [solve_preserves|intros h].
  apply preserves_bind; [solve_preserves|intros _].
  apply preserves_bind; [|solve_preserves]. apply preserves_modify. intros n Hn i q. simp_get.
  intros [[_ [= <-]]|[_ Hq]]%lookup_insert_Some; [by right|by apply Hn].
Qed.

Lemma process_batch_only r batch :
  batch ∈ batches → preserves (only_signs batches n0) (Signer.process_batch r batch).
Proof.
  intros Hb. unfold Signer.process_batch, Signer.set_tracker, Signer.remove_tracker. cbv zeta.
  repeat (apply preserves_bind; [solve_preserves|intros ?]).
  destruct (negb _); [solve_preserves|].
  repeat (apply preserves_bind; [solve_preserves|intros ?]).
  destruct (negb _); [solve_preserves|].
  repeat (apply preserves_bind; [solve_preserves|intros ?]).
  destruct (Signer.still_waiting _ _); [solve_preserves|].
  destruct (Signer.next_attempt _ _) as [t ssid].
  pose proof (λ p, initialize_signing_only p) as Hinit.
  repeat (apply preserves_bind; [solve_preserves|intros ?]).
  destruct (sets t !! Z.to_nat ssid) as [set|]; [|solve_preserves].
  repeat (apply preserves_bind; [solve_preserves|intros ?]).
  destruct (negb _); [solve_preserves|].
  repeat (apply preserves_bind; [first [by apply preserves_catch, Hinit|solve_preserves]|intros ?]).
  solve_preserves.
Qed.
End fixed.

(** At a finalized block a node starts to sign batches of that block only. *)
Lemma signing_block_only header n n' :
  final (Signer.on_block_finalized header n) = Some n' →
  only_signs (default [] (get_unsigned_proposal_batches header)) n n'.
Proof.
  apply preserves_final; [|by intros i p; left].
  set (batches := default [] _). unfold Signer.on_block_finalized.
  apply preserves_bind; [solve_preserves|intros locked]. destruct locked; [solve_preserves|].
  destruct (get_dkg_pub_key header) as [session key].
  apply preserves_bind; [unfold get_authority_public_key; solve_preserves|intros public].
  destruct (get_party_index public header) as [index|]; [|solve_preserves].
  apply preserves_bind; [solve_preserves|intros party_i].
  intros m Hm. unfold Signer.get_unsigned_proposals. unfold batches in *.
  destruct (get_unsigned_proposal_batches header) as [all|]; [|exact Hm]. cbn [default] in *.
  unfold wp. rewrite run_bind_bind, run_ok_or, run_bind_bind, run_gets, run_ret. cbn [fst snd].
  case_bool_decide; [exact Hm|].
  match goal with |- context [for_while ?l ?f m] =>
    assert (preserves (only_signs all n) (for_while l f)) as Hl end; [|exact (Hl m Hm)].
  apply preserves_for_while_in. intros batch [_ Hb]%list_elem_of_filter.
  apply process_batch_only. by rewrite <- (sort_by_perm (λ a b, ub_timestamp a <=? ub_timestamp b)).
Qed.
End jobs.

(** ** From the queue to the signed batches *)

Section system.
Context `{MultiPartyEcdsa, LocalKeyDb, WebbProposals, Client, Keystore, Crypto, MessageCodec,
  SubmissionDelay, !MultiPartyEcdsaLaws, JobOrder, SigningSets}.
Context `{ReputationOrder, IterOrder, !IterLaws, Weights} {Sys : Type}.
Context `{System Sys, ReportOffences Sys RuntimeError}.
Implicit Types (b : Ballot) (n : Node) (c d : Chain Sys) (h : Header).

(** The node is one of the authorities and knows a block. *)
Record on_duty n (o : Offchain) : Prop := {
  od_authority : ∃ keys public, ecdsa_public_keys = Some keys ∧ authority_id keys = Some public ∧
    public ∈ as_authorities (current_validator_set n);
  od_block : is_Some (latest_header n);
  od_storage : offchain n = Some o }.

(** What a voting stage that succeeds leaves in the storage of such a node. *)
Lemma voting_result b arrivals n n' o :
  bl_batch_key b = next_batch_key → on_duty n o → new_voting b arrivals n = Ret tt n' →
  ∃ bytes o', let sb := signed_batch_of (mkVoteResult bytes (bl_batch b)
      (ap_session_id (bl_params b)) (bl_batch_key b)) in
    offchain n' = Some o' ∧ stored_proposals o' = Present [sb] ∧
    ensure_signed_by_dkg (offline_public_key (bl_offline_stage b)) bytes (signed_batch_data sb)
      = Ok tt.
Proof.
  intros Hbk [(keys & public & Hks & Hpub & Hin) [header Hhd] Ho] Hn.
  apply new_voting_Ret in Hn as (signing & v & n1 & Hbegin & Hv & Hf).
  destruct (begin_voting_Ret _ _ _ _ Hbegin) as (hash & partial & Hh & Hs).
  apply finish_voting_Ret in Hf as (hash' & sig & bytes & votes & Hh' & _ & Hc & Hver & Hb & Hp).
  assert (hash' = hash) as -> by congruence.
  rewrite <- (begin_voting_frame current_validator_set b n signing n1) in Hin by done.
  rewrite <- (begin_voting_frame latest_header b n signing n1) in Hhd by done.
  rewrite <- (begin_voting_frame offchain b n signing n1) in Ho by done.
  rewrite (process_vote_result_run _ _ _ public keys header o) in Hp
    by (done || by cbn; rewrite Hbk).
  injection Hp as _ <-. exists bytes. eexists. split_and!; [reflexivity|reflexivity|].
  by destruct (finished_batch_signed b hash signing partial v sig bytes Hh Hs Hc Hver Hb).
Qed.

(** The batch that the votes sign is the queued one. *)
Lemma signed_batch_signs c b bytes :
  let sb := signed_batch_of (mkVoteResult bytes (bl_batch b) (ap_session_id (bl_params b))
    (bl_batch_key b)) in
  (api_dkg_pub_key c).2 = offline_public_key (bl_offline_stage b) →
  ensure_signed_by_dkg (offline_public_key (bl_offline_stage b)) bytes (signed_batch_data sb)
    = Ok tt →
  signs c (bl_batch b) sb.
Proof.
  intros sb Hk Hs. split; [done| |by rewrite Hk].
  unfold sb, signed_batch_of. cbn. apply Forall2_fmap_r, Forall_Forall2_diag, Forall_forall.
  intros u _. apply decode_signed.
Qed.

Context (state_at : Header → option (Chain Sys)) `{!FollowsChain state_at}.

(** C5: nodes and chain together: when the voting for a batch succeeds, the node leaves a
    signed batch for the worker of the pallet.  At every block of the chain that lists
    the batch and has the parties' key, the worker of the authority whose turn it is
    sends exactly that signed batch; the runtime accepts it from anyone and stores it as
    signed; and at a block with the resulting state no node starts to sign the batch. *)
Theorem voted_batch_settles b arrivals n n' o :
  bl_batch_key b = next_batch_key → on_duty n o → new_voting b arrivals n = Ret tt n' →
  ∃ o' sb, offchain n' = Some o' ∧ stored_proposals o' = Present [sb] ∧
    ∀ h c, state_at h = Some c → reachable c →
      bl_batch b ∈ default [] (get_unsigned_proposal_batches h) →
      (get_dkg_pub_key h).2 = offline_public_key (bl_offline_stage b) →
      let call := Batches.SubmitSignedProposals [sb] in
      (∀ account rest block who,
        (Batches.get_expected_signer block : M _ (DispatchError HandlerError RuntimeError) _)
          (queue_view c) = Ret who (queue_view c) → (∀ a, who = Some a → a = account) →
        (Batches.submit_signed_proposal_onchain (account :: rest)
          (stored_value (stored_proposals o')) block :
          M _ (DispatchError HandlerError RuntimeError) _) (queue_view c) =
          Ret (inr [call]) (queue_view c)) ∧
      ∀ origin, ∃ d, runtime_call origin (CallDKGProposalHandler call) c = Ret tt d ∧
        (∃ chain, SignedProposals (queue d) !! (chain, ub_batch_id (bl_batch b)) = Some sb) ∧
        ∀ h' m m' i p, state_at h' = Some d → final (Signer.on_block_finalized h' m) = Some m' →
          protocols m' !! i = Some (SigningProtocol p) →
          ub_batch_id (sp_unsigned_proposal_batch p) = ub_batch_id (bl_batch b) →
          protocols m !! i = Some (SigningProtocol p).
Proof.
  intros Hbk Hduty Hn. destruct (voting_result b arrivals n n' o Hbk Hduty Hn)
    as (bytes & o' & Ho & Hst & Hs).
  eexists o', _. split_and!; [exact Ho|exact Hst|]. intros h c Hc Hr Hb Hk call.
  unfold get_unsigned_proposal_batches, get_dkg_pub_key in Hb, Hk.
  rewrite (answers_at h c Hc) in Hb, Hk. cbn [chain_api at_unsigned_proposal_batches
    at_dkg_pub_key default] in Hb, Hk.
  pose proof (signed_batch_signs c b bytes Hk Hs) as Hsg.
  pose proof (reachable_handler c Hr) as Hi. apply listed_queued in Hb as [chain Hq]; [|done].
  rewrite Hst. split; [by intros; eapply worker_sends|].
  intros origin. destruct (signed_batch_accepted origin c _ _ chain Hr Hsg Hq) as [w Hw].
  eexists. split_and!; [exact Hw|exists chain; apply sign_batch_signed|].
  intros h' m m' i p Hd Hm Hp Hid. destruct (signing_block_only h' m m' Hm i p Hp) as [|Hin]; [done|].
  exfalso. unfold get_unsigned_proposal_batches in Hin. rewrite (answers_at h' _ Hd) in Hin.
  by apply (settled_not_listed c _ _ chain w _ Hi Hsg Hq) in Hin as [? _].
Qed.
End system.

(** ** From broadcasts to the next key *)

Section keys.
Context `{WebbProposals, Client, Keystore, Crypto, MessageCodec, SubmissionDelay,
  !SubmissionDelayLaws, ReputationOrder, IterOrder, Weights} {Sys : Type}.
Context `{System Sys, ReportOffences Sys RuntimeError}.
Context (state_at : Header → option (Chain Sys)) `{!FollowsChain state_at}.
Implicit Types (n : Node) (c d e : Chain Sys) (h : Header).

(** The call of the worker, on a chain without a next key. *)
Lemma next_key_call ks d :
  let set := (NextBestAuthorities (dkg d)).*2 in
  let run := runtime_call NoOrigin (CallDKG (Dkg.SubmitNextPublicKey ks)) d in
  NextDKGPublicKey (dkg d) = None → well_formed set →
  if decide (Forall (λ entry, is_Some (signer set entry)) ks) then
    (∃ key, wins set ks (NextSignatureThreshold (dkg d)) key ∧
       if len key <=? 512
       then ∃ e, run = Ret tt e ∧ api_next_dkg_pub_key e = Some (NextAuthoritySetId (dkg d), key)
       else run = Fail (Runtime.DKGError OutOfBounds) d) ∨
    (∀ key, key ∈ ks.*1 → len (tally set ks key) < NextSignatureThreshold (dkg d)) ∧
      run = Fail (Runtime.DKGError InvalidPublicKeys) d
  else run = Fail (Runtime.DKGError CannotRetreiveSigner) d.
Proof.
  intros set run Hn Hwf.
  pose proof (next_key_outcome (F := RuntimeError) ks (dkg d) (dkg_view d).2 Hn Hwf) as Ho.
  unfold run. cbn [runtime_call]. unfold in_dkg, via, Dkg.metadata_call, dispatch.
  change (dkg_view d) with (dkg d, (dkg_view d).2).
  destruct (decide (Forall _ ks)) as [Hall|Hall].
  - destruct Ho as [(key & Hwin & Hr)|[Hno Hr]].
    + left. exists key. split; [exact Hwin|]. change MaxKeyLength with 512 in Hr.
      destruct (len key <=? 512); [|rewrite Hr; by destruct d].
      destruct Hr as (t & Hr & Hk & _). eexists. by rewrite Hr.
    + right. split; [exact Hno|]. rewrite Hr. by destruct d.
  - rewrite Ho. by destruct d.
Qed.

(** When the worker of the pallet sends what it finds: not in the grace period that
    follows an accepted submission. *)
Lemma keys_worker_sends pool d (keys : OffchainKeys) ks at_ block :
  keys = mkOffchainKeys (Present ks) (Present at_) → NextDKGPublicKey (dkg d) = None →
  at_ <= block →
  (Workers.submit_next_public_key_onchain pool (dkg d) keys block).2 =
    if block <? NextUnsignedAt (dkg d) then None else Some (Dkg.SubmitNextPublicKey ks).
Proof.
  intros -> Hn Ha. unfold Workers.submit_next_public_key_onchain, Workers.submit_keys_onchain.
  destruct (block <? _); [done|]. cbn. rewrite (proj2 (Z.ltb_ge _ _) Ha), Hn.
  rewrite bool_decide_false by by intros []. by destruct (pool _).
Qed.

(** C6: a broadcast of a session other than the first that brings the signatures of a node
    over the threshold of the chain leaves all of them for the worker.  From then on, on
    every state of the chain without a next key: at every block past the delay the worker
    sends exactly these signatures, unless the chain is in the grace period after an
    accepted submission, when it sends nothing.  The outcome of that call is decided by
    who signed: if all signers are next best authorities and a key of at most 512 bytes
    wins, it is accepted and every node that follows the chain learns it as the next key;
    but a single signature by another authority, which the node accepts, makes the call
    fail and the chain stays as it is.  The block number leaves room for the delay in a
    u32, and authorities are keys of 33 bytes. *)
Theorem collected_keys_outcome m k n h c sets o who :
  payload m = PPublicKeyBroadcast k → pk_session_id k ≠ 0 →
  latest_header n = Some h → state_at h = Some c → validator_set h = Some sets →
  0 <= number h < 2 ^ 32 - 3 → offchain n = Some o →
  authenticate_msg_origin (own_session n k) (as_authorities sets.1, as_authorities sets.2)
    (pk_pub_key k) (pk_signature k) = Ok who →
  NextSignatureThreshold (dkg c) < len (collected n k) →
  ∃ n' o', handle_public_key_broadcast m n = Ret tt n' ∧ offchain n' = Some o' ∧
    ∀ d, let ks := collected n k in let set := (NextBestAuthorities (dkg d)).*2 in
      let call := Dkg.SubmitNextPublicKey ks in
      NextDKGPublicKey (dkg d) = None → well_formed set →
      (∀ pool block, number h + MAX_SUBMISSION_DELAY <= block →
         (Workers.submit_next_public_key_onchain pool (dkg d) (next_keys o') block).2 =
           if block <? NextUnsignedAt (dkg d) then None else Some call) ∧
      (∀ key, Forall (λ entry, is_Some (signer set entry)) ks →
         wins set ks (NextSignatureThreshold (dkg d)) key → len key <= 512 →
         ∃ e, runtime_call NoOrigin (CallDKG call) d = Ret tt e ∧
           ∀ h', state_at h' = Some e →
             get_next_dkg_pub_key h' = Some (NextAuthoritySetId (dkg d), key)) ∧
      (∀ entry, entry ∈ ks → signer set entry = None →
         runtime_call NoOrigin (CallDKG call) d = Fail (Runtime.DKGError CannotRetreiveSigner) d).
Proof.
  intros Hm Hs Hh Hc Hv Hnum Ho Ha Hth.
  destruct (public_key_broadcast_spec m k n h sets who o Hm Hh Hv) as (n' & Hn' & Hst); [lia..|done|done|].
  assert (get_next_signature_threshold h = NextSignatureThreshold (dkg c)) as Ht.
  { unfold get_next_signature_threshold. by rewrite (answers_at h c Hc). }
  rewrite Ht, (proj2 (Z.ltb_lt _ _) Hth), (proj2 (Z.eqb_neq _ _) Hs) in Hst.
  destruct Hst as (o' & at_ & Ho' & Hk & Hat & _). exists n', o'. split_and!; [done|done|].
  intros d ks set call Hd Hwf. pose proof (next_key_call ks d Hd Hwf) as Hcall.
  fold call set in Hcall. split_and!.
  - intros pool block Hb. eapply keys_worker_sends; [exact Hk|done|lia].
  - intros key Hall Hwin Hlen. rewrite decide_True in Hcall by done.
    destruct Hcall as [(key' & Hwin' & Hr)|[Hno _]].
    + rewrite <- (wins_unique _ _ _ _ _ Hwin Hwin'), (proj2 (Z.leb_le _ _) Hlen) in Hr.
      destruct Hr as (e & Hr & Hnext). exists e. split; [done|]. intros h' He.
      unfold get_next_dkg_pub_key. by rewrite (answers_at h' e He).
    + destruct Hwin as [Hin Hle _]. specialize (Hno key Hin). lia.
  - intros entry He Hnone. rewrite decide_False in Hcall; [done|].
    intros Hall. rewrite Forall_forall in Hall. specialize (Hall _ He). rewrite Hnone in Hall.
    by destruct Hall.
Qed.
End keys.
