(* ===== verification/Gossip.v ===== *)
(** * The gossip engine

    src/dkg-gadget/src/gossip_engine: the bounded maps of known messages, the handshake
    that ties a peer to an authority, the handler of network events and the forwarding
    of protocol messages.  [notifications] and [reputation] are what the handler asked
    the network service to write and to report; [to_receiver] is the channel to the
    worker.  Logging and metrics have no effect on any of it. *)

From S2P Require Import Prelude.
From S2P Require Import Frame.
From S2P Require Import Primitives.
From S2P Require Import GadgetTypes.
From S2P Require Import Client.

(** ** Bounded maps *)

Section linked_hash_map.
Context {K V : Type} `{EqDecision K}.
Implicit Types (l : list (K * V)).

(** A linked hash map is the list of its entries, oldest first. *)
Fixpoint linked_get (k : K) l : option V :=
  match l with
  | [] => None
  | (k', v) :: rest => if decide (k' = k) then Some v else linked_get k rest
  end.

(** An entry that is inserted anew moves to the end. *)
Definition linked_insert (k : K) (v : V) l : list (K * V) := filter (λ e, e.1 ≠ k) l ++ [(k, v)].

(** [get_mut] through an occupied entry leaves the order alone. *)
Definition linked_alter (k : K) (f : V → V) l : list (K * V) :=
  (λ e, if decide (e.1 = k) then (e.1, f e.2) else e) <$> l.

Record LruHashMap := mkLru {
  inner : list (K * V);
  limit : nat }.

Definition lru_new (limit : nat) : LruHashMap := mkLru [] limit.

(** Whether the key is new, and the map, from which the oldest entry goes when the
    (exclusive) limit is reached. *)
Definition lru_insert (k : K) (v : V) (m : LruHashMap) : bool * LruHashMap :=
  let is_new := bool_decide (linked_get k (inner m) = None) in
  let l := linked_insert k v (inner m) in
  (is_new, mkLru (if (limit m <=? length l)%nat then tail l else l) (limit m)).

Definition lru_get (k : K) (m : LruHashMap) : option V := linked_get k (inner m).
End linked_hash_map.
Arguments LruHashMap : clear implicits.

#[export] Instance LruHashMap_eta {K V} : Eta (LruHashMap K V) := λ m, mkLru (inner m) (limit m).

(** [LruHashSet]. *)
Abbreviation LruHashSet T := (LruHashMap T unit).

(** ** Peers and messages *)

(** A peer is known by the bytes of its identifier. *)
Abbreviation PeerId := bytes.

(** [HandshakeMessage], [DKGNetworkMessage]. *)
Record HandshakeMessage := mkHandshake {
  hs_authority_id : DKGId;
  hs_peer_id : bytes;
  hs_signature : bytes }.

Inductive DKGNetworkMessage :=
| NHandshake (h : HandshakeMessage)
| NDKGMessage (m : SignedDKGMessage).

(** The reputation changes of the module [rep]. *)
Inductive Rep := GOOD_MESSAGE | UNEXPECTED_MESSAGE | PEER_IMPERSONATED | DUPLICATE_MESSAGE.

#[export] Instance Rep_eq_dec : EqDecision Rep.
Proof. solve_decision. Defined.

Record Peer := mkPeer {
  known_messages : LruHashSet bytes;
  message_counter : LruHashMap bytes Z;
  peer_authority_id : option DKGId }.

#[export] Instance Peer_eta : Eta Peer := λ p,
  mkPeer (known_messages p) (message_counter p) (peer_authority_id p).

Definition peer_new : Peer :=
  mkPeer (lru_new MAX_KNOWN_MESSAGES) (lru_new MAX_KNOWN_MESSAGES) None.

Inductive Event :=
| Dht
| NotificationStreamOpened (remote : PeerId) (protocol : bytes)
| NotificationStreamClosed (remote : PeerId) (protocol : bytes)
| NotificationsReceived (remote : PeerId) (messages : list (bytes * bytes)).

(** What the controller asks the handler for. *)
Inductive ToHandler :=
| SendMessage (recipient : PeerId) (message : SignedDKGMessage)
| Gossip (message : SignedDKGMessage).

Record GossipHandler := mkGossipHandler {
  protocol_name : bytes;
  local_peer_id : PeerId;
  to_receiver : list SignedDKGMessage;
  receiver_open : bool;
  pending_messages_peers : LruHashMap bytes (gset PeerId);
  peers : gmap PeerId Peer;
  authority_id_to_peer_id : gmap DKGId PeerId;
  gossip_enabled : bool;
  notifications : list (PeerId * bytes);
  reputation : list (PeerId * Rep) }.

#[export] Instance GossipHandler_eta : Eta GossipHandler := λ h,
  mkGossipHandler (protocol_name h) (local_peer_id h) (to_receiver h) (receiver_open h)
    (pending_messages_peers h) (peers h) (authority_id_to_peer_id h) (gossip_enabled h)
    (notifications h) (reputation h).

(** [NetworkGossipEngineBuilder::build]: gossip is disabled at first. *)
Definition handler_new (name : bytes) (local : PeerId) : GossipHandler :=
  mkGossipHandler name local [] true (lru_new MAX_KNOWN_MESSAGES) ∅ ∅ false [] [].

(** What is outside of the repository: identifiers of peers, the block hash, the
    encodings, [verify_prehashed] and the order in which a hash map lists its keys. *)
Class Network := {
  peer_try_from : bytes → option PeerId;
  hash_of : bytes → bytes;
  encode_vote : DKGVoteMessage → bytes;
  encode_public_key_message : PublicKeyMessage → bytes;
  encode_misbehaviour_message : MisbehaviourMessage → bytes;
  encode_network_message : DKGNetworkMessage → bytes;
  decode_network_message : bytes → option DKGNetworkMessage;
  verify_prehashed : bytes → bytes → DKGId → bool;
  peer_order : gset PeerId → list PeerId }.

Class NetworkLaws `{Network, Keystore} : Prop := {
  peer_try_from_canonical bs p : peer_try_from bs = Some p → peer_try_from p = Some p;
  decode_encode_message m : decode_network_message (encode_network_message m) = Some m;
  verify_signed public hash sig :
    ecdsa_sign_prehashed public hash = Some sig → verify_prehashed sig hash public = true;
  peer_order_perm X : peer_order X ≡ₚ elements X }.

Section handler.
Context `{Network, Keystore, Crypto}.
Abbreviation GM := (M GossipHandler DKGError).
Implicit Types (m : SignedDKGMessage) (who : PeerId).

(** [message_hash]: of a key generation or offline message only the bytes for the state
    machine count. *)
Definition message_hash m : bytes :=
  hash_of match payload (msg m) with
          | PKeygen k => km_keygen_msg k
          | POffline o => om_offline_msg o
          | PVote v => encode_vote v
          | PPublicKeyBroadcast k => encode_public_key_message k
          | PMisbehaviourBroadcast b => encode_misbehaviour_message b
          end.

(** ** Handshakes *)

Definition handshake_payload (peer : bytes) (authority : DKGId) : bytes :=
  peer ++ dkg_bytes authority.

Definition try_new (peer : PeerId) : GM HandshakeMessage :=
  authority ← get_authority_public_key;
  signature ← ok_or (keystore_sign authority (handshake_payload peer authority)) ECriticalError;
  mret (mkHandshake authority peer signature).

Definition is_valid (h : HandshakeMessage) (sender : PeerId) : result DKGError bool :=
  msg_peer_id ← result_of (peer_try_from (hs_peer_id h)) EInvalidPeerId;
  if negb (bool_decide (msg_peer_id = sender)) then Ok false else
  Ok (verify_prehashed (hs_signature h)
    (keccak_256 (handshake_payload (hs_peer_id h) (hs_authority_id h))) (hs_authority_id h)).

Definition write_notification (to_who : PeerId) (bs : bytes) : GM unit :=
  upd! notifications ::= (λ l, l ++ [(to_who, bs)]).

Definition report_peer who (r : Rep) : GM unit := upd! reputation ::= (λ l, l ++ [(who, r)]).

Definition send_handshake_message (to_who : PeerId) : GM unit :=
  me ← gets local_peer_id;
  handshake ← try_new me;
  write_notification to_who (encode_network_message (NHandshake handshake)).

(** The message is checked, and the peer registered whatever the check says. *)
Definition on_handshake_message who (h : HandshakeMessage) : GM unit :=
  match is_valid h who with
  | Ok true => mret tt
  | Ok false => report_peer who PEER_IMPERSONATED
  | Err _ => report_peer who UNEXPECTED_MESSAGE
  | Panics => panic
  end;;
  upd! peers ::= alter (set peer_authority_id (λ _, Some (hs_authority_id h))) who;;
  upd! authority_id_to_peer_id ::= insert (hs_authority_id h) who.

(** ** Sending *)

Definition send_signed_dkg_message (to_who : PeerId) m : GM unit :=
  ps ← gets peers;
  match ps !! to_who with
  | None => mret tt
  | Some peer =>
      let '(new_to_them, known) := lru_insert (message_hash m) tt (known_messages peer) in
      upd! peers ::= insert to_who (peer <| known_messages := known |>);;
      when new_to_them (write_notification to_who (encode_network_message (NDKGMessage m)))
  end.

(** The recipient first, and then everybody. *)
Definition gossip_dkg_signed_message m : GM unit :=
  known ← gets authority_id_to_peer_id;
  match recipient_id (msg m) ≫= (λ a, known !! a) with
  | Some peer_id => send_signed_dkg_message peer_id m
  | None => mret tt
  end;;
  ps ← gets (dom ∘ peers);
  for_each (peer_order ps) (λ p, send_signed_dkg_message p m).

(** [handle] of the controller's commands. *)
Definition handle_command (c : ToHandler) : GM unit :=
  match c with
  | SendMessage recipient m => send_signed_dkg_message recipient m
  | Gossip m => gossip_dkg_signed_message m
  end.

(** ** Receiving *)

Definition send_the_message m : GM unit :=
  open ← gets receiver_open;
  when open (upd! to_receiver ::= (λ l, l ++ [m])).

(** A message that is known already: its senders are counted, and whoever repeats it too
    often is reported. *)
Definition count_duplicate who (peer : Peer) (hash : bytes) : GM unit :=
  let old := default 0 (lru_get hash (message_counter peer)) in
  let '(_, counter) := lru_insert hash (wrap 64 (old + 1)) (message_counter peer) in
  upd! peers ::= insert who (peer <| message_counter := counter |>);;
  when (MAX_DUPLICATED_MESSAGES_PER_PEER <=? old) (report_peer who DUPLICATE_MESSAGE).

Definition receive_from who (peer : Peer) m : GM unit :=
  let hash := message_hash m in
  let peer := peer <| known_messages ::= λ k, (lru_insert hash tt k).2 |> in
  upd! peers ::= insert who peer;;
  pending ← gets (inner ∘ pending_messages_peers);
  match linked_get hash pending with
  | None =>
      send_the_message m;;
      upd! pending_messages_peers ::= set inner (λ l, l ++ [(hash, {[ who ]})]);;
      report_peer who GOOD_MESSAGE
  | Some senders =>
      upd! pending_messages_peers ::= set inner (linked_alter hash (λ s, {[ who ]} ∪ s));;
      when (bool_decide (who ∈ senders)) (count_duplicate who peer hash);;
      send_the_message m
  end.

Definition on_signed_dkg_message who m : GM unit :=
  ps ← gets peers;
  match ps !! who with
  | Some peer => receive_from who peer m
  | None => mret tt
  end;;
  enabled ← gets gossip_enabled;
  when enabled (gossip_dkg_signed_message m).

(** One notification; whether the loop goes on. *)
Definition on_notification who (e : bytes * bytes) : GM bool :=
  name ← gets protocol_name;
  if negb (bool_decide (e.1 = name)) then mret true else
  match decode_network_message e.2 with
  | None => report_peer who UNEXPECTED_MESSAGE;; mret false
  | Some (NHandshake h) => on_handshake_message who h;; mret true
  | Some (NDKGMessage m) => on_signed_dkg_message who m;; mret true
  end.

Definition handle_network_event (e : Event) : GM unit :=
  name ← gets protocol_name;
  match e with
  | Dht => mret tt
  | NotificationStreamOpened remote protocol =>
      when (bool_decide (protocol = name)) (
        _ ← catch (send_handshake_message remote);
        upd! peers ::= insert remote peer_new)
  | NotificationStreamClosed remote protocol =>
      when (bool_decide (protocol = name)) (
        ps ← gets peers;
        upd! peers ::= delete remote;;
        match ps !! remote ≫= peer_authority_id with
        | Some authority => upd! authority_id_to_peer_id ::= delete authority
        | None => mret tt
        end)
  | NotificationsReceived remote messages => for_while messages (on_notification remote)
  end.

(** ** Runs of a handler *)

(** The three tasks of [run], in any interleaving; the controller may switch gossip on
    and off, and the worker may stop listening. *)
Inductive handler_step : GossipHandler → GossipHandler → Prop :=
| step_command c h t : final (handle_command c h) = Some t → handler_step h t
| step_event e h t : final (handle_network_event e h) = Some t → handler_step h t
| step_set_gossip_enabled b h : handler_step h (h <| gossip_enabled := b |>)
| step_receiver_closed h : handler_step h (h <| receiver_open := false |>).
End handler.
