(* ===== verification/GossipSpec.v ===== *)
(** * What the gossip engine does

    The bounded maps keep their bound and what was inserted last; a message goes once to
    every peer that does not know it; repeated messages are counted and reported; a
    handshake registers its sender whatever it says; and in a network of handlers a
    gossiped message reaches every node. *)

From S2P Require Import Prelude.
From S2P Require Import Frame.
From S2P Require Import Primitives.
From S2P Require Import GadgetTypes.
From S2P Require Import Client.
From S2P Require Import Gossip.

(** ** Bounded maps *)

Section lru.
Context {K V : Type} `{EqDecision K}.
Implicit Types (l : list (K * V)) (m : LruHashMap K V).

Lemma linked_get_None k l : linked_get k l = None ↔ k ∉ l.*1.
Proof.
  induction l as [|[k' v] l IH]; cbn; [by split; [intros _ []%not_elem_of_nil|]|].
  rewrite not_elem_of_cons, <- IH. case_decide; naive_solver.
Qed.

Lemma linked_get_app k l l' :
  linked_get k (l ++ l') = match linked_get k l with Some v => Some v | None => linked_get k l' end.
Proof. induction l as [|[k' v] l IH]; cbn; [done|]. by case_decide. Qed.

Lemma linked_get_filter k k' l :
  linked_get k (filter (λ e, e.1 ≠ k') l) = if decide (k = k') then None else linked_get k l.
Proof.
  induction l as [|[k0 v] l IH]; [cbn; by case_decide|].
  rewrite filter_cons. cbn [fst]. destruct (decide (k0 ≠ k')); cbn [linked_get]; rewrite IH;
    repeat case_decide; subst; try done; tauto.
Qed.

Lemma linked_get_insert k k' v l :
  linked_get k (linked_insert k' v l) = if decide (k = k') then Some v else linked_get k l.
Proof.
  unfold linked_insert. rewrite linked_get_app, linked_get_filter. cbn.
  repeat case_decide; subst; try congruence. by destruct (linked_get k l).
Qed.

Lemma linked_alter_keys k f l : (linked_alter k f l).*1 = l.*1.
Proof.
  unfold linked_alter. rewrite <- list_fmap_compose. apply list_fmap_ext. intros _ [k' v] _. cbn.
  by case_decide.
Qed.

Lemma linked_get_alter k k' f l :
  linked_get k (linked_alter k' f l) =
    if decide (k = k') then f <$> linked_get k l else linked_get k l.
Proof.
  induction l as [|[k0 v] l IH]; cbn; [by case_decide|].
  repeat (case_decide; subst; cbn in *); try congruence; done.
Qed.

Lemma linked_insert_NoDup k v l : NoDup l.*1 → NoDup (linked_insert k v l).*1.
Proof.
  intros Hl. unfold linked_insert. rewrite fmap_app. apply NoDup_app. split_and!.
  - eapply sublist_NoDup; [exact Hl|]. apply sublist_fmap, sublist_filter.
  - intros x (e & -> & He)%list_elem_of_fmap. apply list_elem_of_filter in He as [He _].
    by intros Hk%list_elem_of_singleton.
  - apply NoDup_singleton.
Qed.

Lemma linked_insert_length k v l : (length (linked_insert k v l) <= S (length l))%nat.
Proof. unfold linked_insert. rewrite length_app, Nat.add_1_r. cbn. apply le_n_S, length_filter. Qed.

(** The map is below its limit, which leaves room for a new entry. *)
Record lru_wf m : Prop := {
  lru_nodup : NoDup (inner m).*1;
  lru_below : (length (inner m) < limit m)%nat;
  lru_room : (2 <= limit m)%nat }.

Lemma lru_new_wf n : (2 <= n)%nat → lru_wf (lru_new (K:=K) (V:=V) n).
Proof. split; cbn; [constructor|lia|done]. Qed.

Lemma tail_linked_insert k v l :
  (2 <= length (linked_insert k v l))%nat →
  tail (linked_insert k v l) = tail (filter (λ e, e.1 ≠ k) l) ++ [(k, v)].
Proof. unfold linked_insert. by destruct (filter _ l); cbn; [lia|]. Qed.

Lemma lru_insert_wf k v m : lru_wf m → lru_wf (lru_insert k v m).2.
Proof.
  intros [Hn Hb Hr]. pose proof (linked_insert_length k v (inner m)) as Hl.
  pose proof (linked_insert_NoDup k v _ Hn) as Hn'. unfold lru_insert. cbn.
  destruct (Nat.leb_spec (limit m) (length (linked_insert k v (inner m)))) as [Hle|Hlt];
    split; cbn; try done.
  - rewrite fmap_tail. by destruct ((linked_insert k v (inner m)).*1); [|apply NoDup_cons in Hn' as []].
  - destruct (linked_insert k v (inner m)); cbn in *; lia.
Qed.

(** What is inserted is found, and nothing else appears. *)
Lemma lru_insert_get k v m : lru_wf m → lru_get k (lru_insert k v m).2 = Some v.
Proof.
  intros [_ _ Hr]. unfold lru_get, lru_insert. cbn.
  destruct (Nat.leb_spec (limit m) (length (linked_insert k v (inner m)))) as [Hle|Hlt].
  - rewrite tail_linked_insert, linked_get_app by lia. cbn. rewrite decide_True by done.
    destruct (linked_get k (tail (filter (λ e, e.1 ≠ k) (inner m)))) as [w|] eqn:E; [|done].
    assert (linked_get k (filter (λ e : K * V, e.1 ≠ k) (inner m)) = None) as En.
    { rewrite linked_get_filter. by rewrite decide_True. }
    apply linked_get_None in En. assert (is_Some (Some w)) as Hs by done. rewrite <- E in Hs.
    destruct (decide (k ∈ (tail (filter (λ e : K * V, e.1 ≠ k) (inner m))).*1)) as [Hin|Hin].
    + destruct En. rewrite fmap_tail in Hin. destruct (filter _ _); [by apply not_elem_of_nil in Hin|].
      by right.
    + apply linked_get_None in Hin. congruence.
  - rewrite linked_get_insert. by rewrite decide_True.
Qed.

Lemma linked_get_tail k l v : NoDup l.*1 → linked_get k (tail l) = Some v → linked_get k l = Some v.
Proof.
  destruct l as [|[k' w] l]; [done|]. cbn. intros [Hk _]%NoDup_cons Hg. case_decide; subst; [|done].
  apply linked_get_None in Hk. congruence.
Qed.

Lemma lru_insert_other k k' v w m : lru_wf m → k' ≠ k →
  lru_get k' (lru_insert k v m).2 = Some w → lru_get k' m = Some w.
Proof.
  intros [Hn _ _] Hne. unfold lru_get, lru_insert. cbn. intros Hg.
  enough (linked_get k' (linked_insert k v (inner m)) = Some w) as Hi.
  { rewrite linked_get_insert in Hi. by rewrite decide_False in Hi. }
  destruct (_ <=? _)%nat; [|done]. apply linked_get_tail; [|done]. by apply linked_insert_NoDup.
Qed.

Lemma lru_insert_new k v m : (lru_insert k v m).1 = bool_decide (lru_get k m = None).
Proof. done. Qed.
End lru.

(** ** One handler *)

Lemma alter_None {A} (f : A → A) (k : bytes) (m : gmap bytes A) : m !! k = None → alter f k m = m.
Proof.
  intros Hk. apply map_eq. intros i. destruct (decide (i = k)) as [->|].
  - by rewrite lookup_alter_eq, Hk.
  - by rewrite lookup_alter_ne.
Qed.

Record peer_wf (p : Peer) : Prop := {
  pw_known : lru_wf (known_messages p);
  pw_counter : lru_wf (message_counter p);
  pw_limits : limit (known_messages p) = MAX_KNOWN_MESSAGES ∧
    limit (message_counter p) = MAX_KNOWN_MESSAGES }.

Definition handler_wf (h : GossipHandler) : Prop :=
  (∀ p peer, peers h !! p = Some peer → peer_wf peer) ∧
  NoDup (inner (pending_messages_peers h)).*1.

Lemma peer_new_wf : peer_wf peer_new.
Proof. by split; [apply lru_new_wf; unfold MAX_KNOWN_MESSAGES; lia..|]. Qed.

Section handler.
Context `{Network, Keystore, Crypto, !NetworkLaws}.
Implicit Types (m : SignedDKGMessage) (h : GossipHandler) (p q who : PeerId).
Abbreviation wire m := (encode_network_message (NDKGMessage m)).

Definition touch m (peer : Peer) : Peer :=
  peer <| known_messages ::= λ k, (lru_insert (message_hash m) tt k).2 |>.

(** The peer is connected and is not known to have the message. *)
Definition unaware h (hash : bytes) p : bool :=
  match peers h !! p with
  | Some peer => bool_decide (lru_get hash (known_messages peer) = None)
  | None => false
  end.

Definition sent p m h : GossipHandler :=
  h <| peers ::= alter (touch m) p |>
    <| notifications ::= λ l, l ++ if unaware h (message_hash m) p then [(p, wire m)] else [] |>.

Lemma send_run p m h : send_signed_dkg_message p m h = Ret tt (sent p m h).
Proof.
  unfold send_signed_dkg_message. rewrite run_gets. unfold sent, unaware.
  destruct (peers h !! p) as [peer|] eqn:Hp.
  - rewrite <- lru_insert_new with (v := tt).
    destruct (lru_insert (message_hash m) tt (known_messages peer)) as [new known] eqn:E.
    rewrite run_modify.
    assert (<[p := peer <| known_messages := known |>]> (peers h) = alter (touch m) p (peers h)) as Ha.
    { apply map_eq. intros i. destruct (decide (i = p)) as [->|].
      - rewrite lookup_insert_eq, lookup_alter_eq, Hp. cbn. f_equal. unfold touch.
        assert ((lru_insert (message_hash m) tt (known_messages peer)).2 = known) as <- by (by rewrite E).
        done.
      - by rewrite lookup_insert_ne, lookup_alter_ne. }
    assert (h <| peers ::= insert p (peer <| known_messages := known |>) |> =
      h <| peers ::= alter (touch m) p |>) as ->.
    { destruct h as [? ? ? ? ? ps ? ? ? ?]. cbv [set]. f_equal. exact Ha. }
    destruct new; cbn [when fst]; [done|]. cbv [mret M_ret]. f_equal.
    destruct h as [? ? ? ? ? ps ? ? ns ?]. cbv [set]. cbn. f_equal. by rewrite app_nil_r.
  - cbv [mret M_ret]. f_equal. destruct h as [? ? ? ? ? ps ? ? ns ?]. cbn in Hp. cbv [set]. cbn.
    by rewrite alter_None, app_nil_r.
Qed.

Lemma touch_wf m peer : peer_wf peer → peer_wf (touch m peer).
Proof. intros [Hk Hc Hl]. split; cbn; [by apply lru_insert_wf|done|done]. Qed.

Lemma touch_knows m peer :
  peer_wf peer → lru_get (message_hash m) (known_messages (touch m peer)) = Some tt.
Proof. intros [Hk _ _]. by apply lru_insert_get. Qed.

Lemma sent_wf p m h : handler_wf h → handler_wf (sent p m h).
Proof.
  intros [Hp Hn]. split; [|done]. intros i peer. unfold sent. simp_get. rewrite lookup_alter_Some.
  intros [(<- & peer0 & Hi & ->)|[_ Hi]]; [apply touch_wf|]; by eapply Hp.
Qed.

(** What sending a message to each of a list of peers does: who is in the list and was
    unaware of it gets it, and everyone in the list is known to have it. *)
Record delivered m (l : list PeerId) h h' : Prop := {
  dl_peers p : peers h' !! p ≫= (λ r, Some (message_counter r, peer_authority_id r)) =
               peers h !! p ≫= (λ r, Some (message_counter r, peer_authority_id r));
  dl_known p peer : p ∈ l → peers h' !! p = Some peer →
    lru_get (message_hash m) (known_messages peer) = Some tt;
  dl_same p : p ∉ l → peers h' !! p = peers h !! p;
  dl_other p peer' hash : hash ≠ message_hash m → peers h' !! p = Some peer' →
    lru_get hash (known_messages peer') = Some tt →
    ∃ peer, peers h !! p = Some peer ∧ lru_get hash (known_messages peer) = Some tt;
  dl_sent : ∃ ps, notifications h' = notifications h ++ ((λ p, (p, wire m)) <$> ps) ∧ NoDup ps ∧
    (∀ p, p ∈ ps ↔ p ∈ l ∧ unaware h (message_hash m) p = true) ∧
    (∀ p, head l = Some p → unaware h (message_hash m) p = true → head ps = Some p);
  dl_wf : handler_wf h';
  dl_rest : h' <| peers := peers h |> <| notifications := notifications h |> = h }.

Lemma delivered_nil m h : handler_wf h → delivered m [] h h.
Proof.
  intros Hw. split; try done.
  - by intros p peer []%not_elem_of_nil.
  - eauto.
  - exists []. rewrite app_nil_r. split_and!; [done|by apply NoDup_nil_2| |].
    + intros p. split; [intros []%not_elem_of_nil|intros [[]%not_elem_of_nil _]].
    + done.
  - by destruct h.
Qed.

Lemma delivered_one p m h : handler_wf h → delivered m [p] h (sent p m h).
Proof.
  intros Hw. unfold sent. split; simp_get.
  - intros q. destruct (decide (q = p)) as [->|]; [|by rewrite lookup_alter_ne].
    rewrite lookup_alter_eq. by destruct (peers h !! p).
  - intros q peer ->%list_elem_of_singleton. rewrite lookup_alter_eq, fmap_Some.
    intros (peer0 & Hp & ->). apply touch_knows. by eapply Hw.
  - intros q Hq. rewrite lookup_alter_ne; [done|]. intros ->. apply Hq. by left.
  - intros q peer' hash Hne. rewrite lookup_alter_Some. intros [(<- & peer & Hp & ->)|[_ Hq]] Hg; [|eauto].
    exists peer. split; [done|]. eapply lru_insert_other; [by eapply Hw|exact Hne|exact Hg].
  - exists (if unaware h (message_hash m) p then [p] else []).
    destruct (unaware h (message_hash m) p) eqn:Hu; (split_and!; [done| | |]).
    + apply NoDup_singleton.
    + intros q. rewrite list_elem_of_singleton. naive_solver.
    + naive_solver.
    + apply NoDup_nil_2.
    + intros q. rewrite list_elem_of_singleton. split; [intros []%not_elem_of_nil|intros [-> ?]; congruence].
    + intros q [= <-]. congruence.
  - by apply sent_wf.
  - by destruct h.
Qed.

Lemma delivered_unaware m l h h' p : delivered m l h h' →
  unaware h' (message_hash m) p = true ↔ (p ∉ l) ∧ unaware h (message_hash m) p = true.
Proof.
  intros Hd. unfold unaware. destruct (decide (p ∈ l)) as [Hp|Hp].
  - destruct (peers h' !! p) as [peer|] eqn:E; [|by split; [|intros []]].
    rewrite (dl_known _ _ _ _ Hd p peer Hp E). by split; [|intros []].
  - rewrite (dl_same _ _ _ _ Hd p Hp). tauto.
Qed.

Lemma delivered_app m l1 l2 h h1 h2 :
  delivered m l1 h h1 → delivered m l2 h1 h2 → delivered m (l1 ++ l2) h h2.
Proof.
  intros H1' H2'. split.
  - intros p. by rewrite (dl_peers _ _ _ _ H2'), (dl_peers _ _ _ _ H1').
  - intros p peer Hp Hl. destruct (decide (p ∈ l2)) as [|Hn]; [by eapply (dl_known _ _ _ _ H2')|].
    rewrite (dl_same _ _ _ _ H2' p Hn) in Hl. apply elem_of_app in Hp as [Hp|]; [|done].
    by eapply (dl_known _ _ _ _ H1').
  - intros p [Hp1 Hp2]%not_elem_of_app. by rewrite (dl_same _ _ _ _ H2'), (dl_same _ _ _ _ H1').
  - intros p peer' hash Hne Hp Hg.
    destruct (dl_other _ _ _ _ H2' p peer' hash Hne Hp Hg) as (peer1 & Hp1 & Hg1).
    by eapply (dl_other _ _ _ _ H1').
  - destruct (dl_sent _ _ _ _ H1') as (ps1 & E1 & Hn1 & Hp1 & Hh1).
    destruct (dl_sent _ _ _ _ H2') as (ps2 & E2 & Hn2 & Hp2 & Hh2).
    setoid_rewrite (delivered_unaware _ _ _ _ _ H1') in Hp2.
    setoid_rewrite (delivered_unaware _ _ _ _ _ H1') in Hh2.
    exists (ps1 ++ ps2). rewrite E2, E1, fmap_app, (assoc_L (++)). split; [done|]. split_and!.
    + apply NoDup_app. split_and!; [done| |done]. intros p Hp Hp'. apply Hp1 in Hp as [? _].
      apply Hp2 in Hp' as (_ & ? & _). done.
    + intros p. rewrite !elem_of_app, Hp1, Hp2. destruct (decide (p ∈ l1)); tauto.
    + intros p Hp Hu. destruct l1 as [|p1 l1].
      * destruct ps1 as [|q ps1]; [|by destruct (proj1 (Hp1 q) (list_elem_of_here _ _)) as [[]%not_elem_of_nil _]].
        apply Hh2; [done|]. split; [apply not_elem_of_nil|done].
      * specialize (Hh1 p Hp Hu). by destruct ps1.
  - apply H2'.
  - pose proof (dl_rest _ _ _ _ H1') as R1. pose proof (dl_rest _ _ _ _ H2') as R2.
    rewrite <- R1. rewrite <- R2. by destruct h2.
Qed.

Lemma delivered_each m l h :
  handler_wf h → ∃ h', for_each l (λ p, send_signed_dkg_message p m) h = Ret tt h' ∧ delivered m l h h'.
Proof.
  revert h. induction l as [|p l IH]; intros h Hw; cbn [for_each].
  - exists h. split; [done|]. by apply delivered_nil.
  - rewrite (run_call _ _ _ _ _ (send_run p m h)).
    destruct (IH (sent p m h)) as (h' & Hrun & Hd); [by apply sent_wf|]. exists h'. split; [done|].
    apply (delivered_app m [p] l h (sent p m h)); [by apply delivered_one|done].
Qed.

(** The peers that a message is sent to, in order. *)
Definition addressees m h : list PeerId :=
  match recipient_id (msg m) ≫= (λ a, authority_id_to_peer_id h !! a) with
  | Some p => [p]
  | None => []
  end ++ peer_order (dom (peers h)).

Lemma gossip_run m h :
  handler_wf h → ∃ h', gossip_dkg_signed_message m h = Ret tt h' ∧ delivered m (addressees m h) h h'.
Proof.
  intros Hw. unfold gossip_dkg_signed_message, addressees. rewrite run_gets.
  destruct (recipient_id (msg m) ≫= _) as [q|]; cbn [app].
  - rewrite (run_call _ _ _ _ _ (send_run q m h)), run_gets.
    assert (dom (peers (sent q m h)) = dom (peers h)) as E.
    { unfold sent. simp_get. by rewrite dom_alter_L. }
    unfold compose. rewrite E.
    destruct (delivered_each m (peer_order (dom (peers h))) (sent q m h)) as (h' & Hrun & Hd);
      [by apply sent_wf|].
    exists h'. split; [done|]. eapply (delivered_app m [q]); [by apply delivered_one|done].
  - rewrite run_ret, run_gets. by apply delivered_each.
Qed.

Lemma in_peer_order h p : p ∈ peer_order (dom (peers h)) ↔ is_Some (peers h !! p).
Proof. by rewrite peer_order_perm, elem_of_elements, elem_of_dom. Qed.

Lemma unaware_connected h hash p : unaware h hash p = true → is_Some (peers h !! p).
Proof. unfold unaware. by destruct (peers h !! p). Qed.

(** A message is sent exactly once to every connected peer that is not known to have
    it, the recipient first where its peer is known, and to nobody else; afterwards
    every peer is known to have it, and nothing but the known messages has changed. *)
Theorem gossip_spec m h :
  handler_wf h →
  ∃ h' ps, gossip_dkg_signed_message m h = Ret tt h' ∧
    notifications h' = notifications h ++ ((λ p, (p, wire m)) <$> ps) ∧ NoDup ps ∧
    (∀ p, p ∈ ps ↔ unaware h (message_hash m) p = true) ∧
    (∀ a p, recipient_id (msg m) = Some a → authority_id_to_peer_id h !! a = Some p →
       unaware h (message_hash m) p = true → head ps = Some p) ∧
    (∀ p peer, peers h' !! p = Some peer →
       lru_get (message_hash m) (known_messages peer) = Some tt) ∧
    h' <| peers := peers h |> <| notifications := notifications h |> = h ∧ handler_wf h'.
Proof.
  intros Hw. destruct (gossip_run m h Hw) as (h' & Hrun & Hd).
  destruct (dl_sent _ _ _ _ Hd) as (ps & Hn & Hnd & Hps & Hhead).
  exists h', ps. split_and!; [done..| | | |apply Hd|apply Hd].
  - intros p. rewrite Hps. split; [tauto|]. intros Hu. split; [|done]. apply elem_of_app. right.
    apply in_peer_order. by eapply unaware_connected.
  - intros a p Ha Hp Hu. apply Hhead; [|done]. unfold addressees. by rewrite Ha, Hp || (cbn; rewrite Ha; cbn; rewrite Hp).
  - intros p peer Hp. eapply (dl_known _ _ _ _ Hd); [|done]. apply elem_of_app. right.
    apply in_peer_order. pose proof (dl_peers _ _ _ _ Hd p) as E. rewrite Hp in E.
    by destruct (peers h !! p).
Qed.

(** ** The bound *)

Lemma send_wf p m : preserves handler_wf (send_signed_dkg_message p m).
Proof. intros h Hw. unfold wp. rewrite send_run. by apply sent_wf. Qed.

Lemma gossip_wf m : preserves handler_wf (gossip_dkg_signed_message m).
Proof.
  unfold gossip_dkg_signed_message. pose proof send_wf. solve_preserves.
Qed.

(** ** Receiving a message *)

Abbreviation pending h := (inner (pending_messages_peers h)).

(** Whether the peer has sent the message before. *)
Definition repeated who m h : bool :=
  match linked_get (message_hash m) (pending h) with
  | Some senders => bool_decide (who ∈ senders)
  | None => false
  end.

Definition repetitions (peer : Peer) m : Z :=
  default 0 (lru_get (message_hash m) (message_counter peer)).

(** What is left of the peer, of the pending messages and of its reputation. *)
Definition peer_after who (peer : Peer) m h : Peer :=
  let peer := touch m peer in
  if repeated who m h
  then peer <| message_counter ::=
    λ c, (lru_insert (message_hash m) (wrap 64 (repetitions peer m + 1)) c).2 |>
  else peer.

Definition pending_after who m (l : list (bytes * gset PeerId)) : list (bytes * gset PeerId) :=
  match linked_get (message_hash m) l with
  | None => l ++ [(message_hash m, {[ who ]})]
  | Some _ => linked_alter (message_hash m) (λ s, {[ who ]} ∪ s) l
  end.

Definition verdict who (peer : Peer) m h : list (PeerId * Rep) :=
  match linked_get (message_hash m) (pending h) with
  | None => [(who, GOOD_MESSAGE)]
  | Some _ =>
      if repeated who m h && (MAX_DUPLICATED_MESSAGES_PER_PEER <=? repetitions peer m)
      then [(who, DUPLICATE_MESSAGE)] else []
  end.

Definition received who (peer : Peer) m h : GossipHandler :=
  h <| peers ::= insert who (peer_after who peer m h) |>
    <| pending_messages_peers ::= set inner (pending_after who m) |>
    <| to_receiver ::= λ l, l ++ if receiver_open h then [m] else [] |>
    <| reputation ::= λ l, l ++ verdict who peer m h |>.

Lemma handler_eq h1 h2 :
  protocol_name h1 = protocol_name h2 → local_peer_id h1 = local_peer_id h2 →
  to_receiver h1 = to_receiver h2 → receiver_open h1 = receiver_open h2 →
  pending_messages_peers h1 = pending_messages_peers h2 → peers h1 = peers h2 →
  authority_id_to_peer_id h1 = authority_id_to_peer_id h2 →
  gossip_enabled h1 = gossip_enabled h2 → notifications h1 = notifications h2 →
  reputation h1 = reputation h2 → h1 = h2.
Proof. destruct h1, h2. cbn. intros. congruence. Qed.

Local Ltac finish :=
  unfold send_the_message; rewrite ?run_bind_bind, run_gets; simp_get;
  match goal with |- context [receiver_open ?h] => destruct (receiver_open h) end;
  cbn [when]; unfold report_peer; repeat (rewrite run_modify || rewrite run_ret);
  cbv [modify mret M_ret];
  match goal with |- Ret _ ?a = Ret _ ?b => assert (a = b) as ->; [|done] end;
  apply handler_eq; simp_get; rewrite ?app_nil_r; try done.

Lemma pending_after_eq who m (x : LruHashMap bytes (gset PeerId)) :
  x <| inner ::= pending_after who m |> =
    match linked_get (message_hash m) (inner x) with
    | None => x <| inner ::= λ l, l ++ [(message_hash m, {[ who ]})] |>
    | Some _ => x <| inner ::= linked_alter (message_hash m) (λ s, {[ who ]} ∪ s) |>
    end.
Proof. destruct x as [l n]. cbv [set]. cbn. unfold pending_after. by destruct (linked_get _ l). Qed.

Lemma receive_run who peer m h : receive_from who peer m h = Ret tt (received who peer m h).
Proof.
  unfold receive_from, received, peer_after, verdict, repeated.
  cbv zeta. rewrite run_modify, run_gets. unfold compose. simp_get. fold (touch m peer).
  pose proof (pending_after_eq who m (pending_messages_peers h)) as Hpend.
  destruct (linked_get (message_hash m) (pending h)) as [senders|] eqn:Hl.
  - rewrite run_modify. destruct (bool_decide (who ∈ senders)); cbn [when andb].
    + unfold count_duplicate. fold (repetitions (touch m peer) m).
      change (repetitions (touch m peer) m) with (repetitions peer m).
      destruct (lru_insert _ _ (message_counter (touch m peer))) as [b counter] eqn:E.
      assert ((touch m peer) <| message_counter ::= λ c, (lru_insert (message_hash m)
        (wrap 64 (repetitions peer m + 1)) c).2 |> = (touch m peer) <| message_counter := counter |>) as ->.
      { replace counter with (lru_insert (message_hash m) (wrap 64 (repetitions peer m + 1))
          (message_counter (touch m peer))).2 by (by rewrite E). done. }
      rewrite run_bind_bind, run_modify.
      destruct (_ <=? _); cbn [when]; unfold report_peer; rewrite ?run_modify, ?run_ret; finish;
        by rewrite insert_insert_eq.
    + rewrite run_ret. finish.
  - finish.
Qed.

Lemma received_pending who peer m h :
  pending (received who peer m h) = pending_after who m (pending h).
Proof. by destruct h. Qed.

Lemma received_wf who peer m h :
  peers h !! who = Some peer → handler_wf h → handler_wf (received who peer m h).
Proof.
  intros Hp [Hw Hn]. split; [|rewrite received_pending].
  - intros q peer'. unfold received. simp_get. intros [[_ <-]|[_ Hq]]%lookup_insert_Some; [|by eapply Hw].
    pose proof (touch_wf m _ (Hw _ _ Hp)) as Ht. unfold peer_after. destruct (repeated who m h); [|done].
    destruct Ht as [Hk Hc Hl]. split; simp_get; [done|by apply lru_insert_wf|done].
  - unfold pending_after. destruct (linked_get (message_hash m) (pending h)) eqn:Hl.
    + by rewrite linked_alter_keys.
    + apply linked_get_None in Hl. rewrite fmap_app. apply NoDup_app. split_and!; [done| |apply NoDup_singleton].
      by intros x Hx ->%list_elem_of_singleton.
Qed.

(** A message of a connected peer. *)
Lemma on_message_run who peer m h :
  peers h !! who = Some peer → handler_wf h →
  ∃ h', on_signed_dkg_message who m h = Ret tt h' ∧
    delivered m (if gossip_enabled h then addressees m (received who peer m h) else [])
      (received who peer m h) h'.
Proof.
  intros Hp Hw. pose proof (received_wf who peer m h Hp Hw) as Hr.
  unfold on_signed_dkg_message. rewrite run_gets, Hp, (run_call _ _ _ _ _ (receive_run who peer m h)).
  rewrite run_gets. replace (gossip_enabled (received who peer m h)) with (gossip_enabled h)
    by (unfold received; by simp_get).
  destruct (gossip_enabled h); cbn [when].
  - by apply gossip_run.
  - eexists. split; [done|]. by apply delivered_nil.
Qed.

Lemma on_signed_wf who m : preserves handler_wf (on_signed_dkg_message who m).
Proof.
  intros h Hw. unfold wp. destruct (peers h !! who) as [peer|] eqn:Hp.
  - destruct (on_message_run who peer m h Hp Hw) as (h' & -> & Hd). apply Hd.
  - unfold on_signed_dkg_message. rewrite run_gets, Hp, run_ret, run_gets.
    destruct (gossip_enabled h); [|done]. by apply gossip_wf.
Qed.

Lemma handshake_wf who hs : preserves handler_wf (on_handshake_message who hs).
Proof.
  unfold on_handshake_message, report_peer.
  apply preserves_bind; [|intros []; apply preserves_bind; [|intros []]].
  - destruct (is_valid hs who) as [[]| |]; auto with preserves;
      by apply preserves_modify.
  - apply preserves_modify. intros h [Hw Hn]. split; [|done]. intros q peer. simp_get.
    rewrite lookup_alter_Some. intros [(<- & peer0 & Hq & ->)|[_ Hq]]; [|by eapply Hw].
    by destruct (Hw _ _ Hq).
  - by apply preserves_modify.
Qed.

Lemma network_event_wf e : preserves handler_wf (handle_network_event e).
Proof.
  unfold handle_network_event. apply preserves_bind; [solve_preserves|intros name].
  destruct e as [|remote protocol|remote protocol|remote messages]; [solve_preserves|..].
  - apply preserves_when, preserves_bind; [|intros _].
    + apply preserves_catch. unfold send_handshake_message, try_new, get_authority_public_key,
        write_notification.
      repeat (apply preserves_bind; [solve_preserves|intros ?]). by apply preserves_modify.
    + apply preserves_modify. intros h [Hw Hn]. split; [|done]. intros q peer. simp_get.
      intros [[_ <-]|[_ Hq]]%lookup_insert_Some; [apply peer_new_wf|by eapply Hw].
  - apply preserves_when, preserves_bind; [solve_preserves|intros ps].
    apply preserves_bind; [|intros _].
    + apply preserves_modify. intros h [Hw Hn]. split; [|done]. intros q peer. simp_get.
      intros [_ Hq]%lookup_delete_Some. by eapply Hw.
    + destruct (_ ≫= _); [by apply preserves_modify|solve_preserves].
  - apply preserves_for_while. intros [name' bs]. unfold on_notification.
    pose proof (on_signed_wf remote). pose proof (handshake_wf remote).
    apply preserves_bind; [solve_preserves|intros name0]. destruct (negb _); [solve_preserves|].
    destruct (decode_network_message _) as [[hs|m]|].
    + apply preserves_bind; auto with preserves.
    + apply preserves_bind; auto with preserves.
    + apply preserves_bind; [by apply preserves_modify|solve_preserves].
Qed.

Lemma handler_step_wf h t : handler_step h t → handler_wf h → handler_wf t.
Proof.
  intros [c h0 t0 Hf|e h0 t0 Hf|b h0|h0] Hw.
  - eapply (preserves_final handler_wf); [|exact Hw|exact Hf]. destruct c; [apply send_wf|apply gossip_wf].
  - eapply (preserves_final handler_wf); [|exact Hw|exact Hf]. apply network_event_wf.
  - done.
  - done.
Qed.

Lemma handler_new_wf name local : handler_wf (handler_new name local).
Proof. split; [by intros p peer|constructor]. Qed.

(** Whatever the network sends and the controller asks for: the messages a handler
    remembers of a peer, and those it counts, stay below 4096 per peer, each once, and
    so does each pending message appear once. *)
Theorem known_messages_bounded name local h p peer :
  rtc handler_step (handler_new name local) h → peers h !! p = Some peer →
  NoDup (inner (known_messages peer)).*1 ∧ NoDup (inner (message_counter peer)).*1 ∧
  (length (inner (known_messages peer)) < 4096)%nat ∧
  (length (inner (message_counter peer)) < 4096)%nat ∧ NoDup (pending h).*1.
Proof.
  intros Hr Hp. assert (handler_wf h) as [Hw Hn].
  { revert h Hr Hp. intros h Hr _. revert h Hr. apply rtc_ind_r; [apply handler_new_wf|].
    intros h t _. apply handler_step_wf. }
  destruct (Hw p peer Hp) as [[Hk1 Hk2 _] [Hc1 Hc2 _] [E1 E2]]. rewrite E1 in Hk2. rewrite E2 in Hc2.
  by unfold MAX_KNOWN_MESSAGES in *.
Qed.

(** ** Repeated messages *)

Lemma delivered_rest m l h h' : delivered m l h h' →
  reputation h' = reputation h ∧ to_receiver h' = to_receiver h ∧
  pending_messages_peers h' = pending_messages_peers h ∧ receiver_open h' = receiver_open h ∧
  gossip_enabled h' = gossip_enabled h ∧ protocol_name h' = protocol_name h ∧
  authority_id_to_peer_id h' = authority_id_to_peer_id h.
Proof. intros Hd. pose proof (dl_rest _ _ _ _ Hd) as <-. by destruct h'. Qed.

Lemma delivered_counter m l h h' p peer : delivered m l h h' → peers h !! p = Some peer →
  ∃ peer', peers h' !! p = Some peer' ∧ message_counter peer' = message_counter peer.
Proof.
  intros Hd Hp. pose proof (dl_peers _ _ _ _ Hd p) as E. rewrite Hp in E.
  destruct (peers h' !! p) as [peer'|]; [|done]. cbn in E. exists peer'. split; [done|]. congruence.
Qed.

(** The peer has repeated the message [k] times. *)
Record has_repeated who m (k : nat) h : Prop := {
  hr_peer : ∃ peer, peers h !! who = Some peer ∧ repetitions peer m = Z.of_nat k;
  hr_repeated : repeated who m h = true;
  hr_wf : handler_wf h }.

Lemma pending_after_get who m l :
  linked_get (message_hash m) (pending_after who m l) =
    Some ({[ who ]} ∪ default ∅ (linked_get (message_hash m) l)).
Proof.
  unfold pending_after. destruct (linked_get (message_hash m) l) as [S|] eqn:Hl; cbn.
  - rewrite linked_get_alter, decide_True by done. by rewrite Hl.
  - rewrite linked_get_app, Hl. cbn. rewrite decide_True by done. by rewrite (right_id_L ∅ (∪)).
Qed.

Lemma repeated_after who peer m h h' l :
  delivered m l (received who peer m h) h' → repeated who m h' = true.
Proof.
  intros (_ & _ & Hp & _)%delivered_rest. unfold repeated. rewrite Hp, received_pending, pending_after_get.
  apply bool_decide_true. set_solver.
Qed.

Lemma repetition_step who m k h :
  has_repeated who m k h → Z.of_nat (S k) < 2 ^ 64 →
  ∃ h', on_signed_dkg_message who m h = Ret tt h' ∧ has_repeated who m (S k) h' ∧
    reputation h' = reputation h ++ (if decide (8 <= k)%nat then [(who, DUPLICATE_MESSAGE)] else []) ∧
    to_receiver h' = to_receiver h ++ (if receiver_open h then [m] else []) ∧
    receiver_open h' = receiver_open h.
Proof.
  intros [(peer & Hp & Hk) Hr Hw] Hmax.
  destruct (on_message_run who peer m h Hp Hw) as (h' & Hrun & Hd). exists h'. split; [done|].
  destruct (delivered_rest _ _ _ _ Hd) as (Erep & Erec & Epen & Eopen & _).
  split_and!; [split| | |].
  - destruct (delivered_counter _ _ _ _ who (peer_after who peer m h) Hd) as (peer' & Hp' & Hc).
    { unfold received. simp_get. by rewrite lookup_insert_eq. }
    exists peer'. split; [done|]. unfold repetitions. rewrite Hc. unfold peer_after. rewrite Hr.
    simp_get. rewrite lru_insert_get by apply (touch_wf m _ (proj1 Hw _ _ Hp)). cbn.
    change (repetitions (touch m peer) m) with (repetitions peer m). rewrite Hk.
    rewrite wrap_small; [lia|]. unfold in_width. lia.
  - by eapply repeated_after.
  - apply Hd.
  - rewrite Erep. unfold received. simp_get. f_equal. unfold verdict. rewrite Hr, Hk.
    unfold repeated in Hr. destruct (linked_get _ _); [|done]. cbn [andb].
    unfold MAX_DUPLICATED_MESSAGES_PER_PEER.
    destruct (decide (8 <= k)%nat), (Z.leb_spec 8 (Z.of_nat k)); done || lia.
  - by rewrite Erec.
  - by rewrite Eopen.
Qed.

Lemma repetitions_run n who m k h :
  has_repeated who m k h → Z.of_nat (k + n) < 2 ^ 64 →
  ∃ h', for_each (replicate n m) (on_signed_dkg_message who) h = Ret tt h' ∧
    reputation h' = reputation h ++ replicate (n - (8 - k)) (who, DUPLICATE_MESSAGE) ∧
    to_receiver h' = to_receiver h ++ (if receiver_open h then replicate n m else []).
Proof.
  revert k h. induction n as [|n IH]; intros k h Hh Hmax; cbn [replicate for_each].
  - exists h. cbn. rewrite app_nil_r. by destruct (receiver_open h); rewrite app_nil_r.
  - destruct (repetition_step who m k h Hh) as (h1 & Hrun & Hh1 & Erep & Erec & Eopen); [lia|].
    destruct (IH (S k) h1 Hh1) as (h' & Hrun' & Erep' & Erec'); [lia|].
    exists h'. split; [by rewrite (run_call _ _ _ _ _ Hrun)|]. split.
    + rewrite Erep', Erep, <- (assoc_L (++)). f_equal. case_decide.
      * replace (S n - (8 - k))%nat with (S (n - (8 - S k))) by lia. done.
      * cbn [app]. f_equal. lia.
    + rewrite Erec', Erec, Eopen, <- (assoc_L (++)). f_equal. by destruct (receiver_open h).
Qed.

(** A peer that keeps sending one message gets credit for the first copy; the next eight
    copies are free and every further one is reported.  All copies go to the worker. *)
Theorem duplicates_reported n who m h peer :
  handler_wf h → peers h !! who = Some peer →
  linked_get (message_hash m) (pending h) = None →
  lru_get (message_hash m) (message_counter peer) = None → Z.of_nat n < 2 ^ 64 →
  ∃ h', for_each (replicate (S n) m) (on_signed_dkg_message who) h = Ret tt h' ∧
    reputation h' = reputation h ++ (who, GOOD_MESSAGE) :: replicate (n - 8) (who, DUPLICATE_MESSAGE) ∧
    (receiver_open h = true → to_receiver h' = to_receiver h ++ replicate (S n) m).
Proof.
  intros Hw Hp Hl Hc Hn. destruct (on_message_run who peer m h Hp Hw) as (h1 & Hrun & Hd).
  destruct (delivered_rest _ _ _ _ Hd) as (Erep & Erec & _ & Eopen & _).
  destruct (repetitions_run n who m 0 h1) as (h' & Hrun' & Erep' & Erec'); [|done|].
  { split; [|by eapply repeated_after|apply Hd].
    destruct (delivered_counter _ _ _ _ who (peer_after who peer m h) Hd) as (peer' & Hp' & Hc').
    { unfold received. simp_get. by rewrite lookup_insert_eq. }
    exists peer'. split; [done|]. unfold repetitions. rewrite Hc'.
    unfold peer_after, repeated. rewrite Hl. cbn [message_counter touch].
    change (message_counter (touch m peer)) with (message_counter peer). by rewrite Hc. }
  exists h'. cbn [replicate for_each]. split; [by rewrite (run_call _ _ _ _ _ Hrun)|]. split.
  - rewrite Erep', Erep. unfold received, verdict. simp_get. rewrite Hl, <- (assoc_L (++)).
    rewrite Nat.sub_0_r. done.
  - intros Ho. rewrite Erec', Erec, Eopen. unfold received. simp_get. by rewrite Ho, <- (assoc_L (++)).
Qed.

(** The bound of the pending messages is not enforced: however many different messages
    a peer sends, an entry is kept for each of them. *)
Theorem pending_messages_unbounded ms who h :
  handler_wf h → is_Some (peers h !! who) → NoDup (message_hash <$> ms) →
  (∀ m, m ∈ ms → linked_get (message_hash m) (pending h) = None) →
  ∃ h', for_each ms (on_signed_dkg_message who) h = Ret tt h' ∧
    length (pending h') = (length (pending h) + length ms)%nat.
Proof.
  revert h. induction ms as [|m ms IH]; intros h Hw [peer Hp] Hnd Hf; cbn [for_each].
  { exists h. split; [done|]. cbn. lia. }
  destruct (on_message_run who peer m h Hp Hw) as (h1 & Hrun & Hd).
  destruct (delivered_rest _ _ _ _ Hd) as (_ & _ & Epen & _).
  rewrite fmap_cons, NoDup_cons in Hnd. destruct Hnd as [Hm Hnd].
  assert (pending h1 = pending h ++ [(message_hash m, {[ who ]})]) as E.
  { rewrite Epen, received_pending. unfold pending_after. by rewrite Hf by (by left). }
  destruct (IH h1) as (h' & Hrun' & Hlen).
  - apply Hd.
  - destruct (delivered_counter _ _ _ _ who (peer_after who peer m h) Hd) as (peer' & -> & _); [|done].
    unfold received. simp_get. by rewrite lookup_insert_eq.
  - done.
  - intros m' Hm'. rewrite E, linked_get_app, Hf by (by right). cbn. rewrite decide_False; [done|].
    intros Heq. apply Hm. rewrite Heq. by apply list_elem_of_fmap_2.
  - exists h'. split; [by rewrite (run_call _ _ _ _ _ Hrun)|]. rewrite Hlen, E, length_app. cbn. lia.
Qed.

(** ** Handshakes *)

Lemma try_new_run me h hs t : try_new me h = Ret hs t →
  t = h ∧ hs_peer_id hs = me ∧
  keystore_sign (hs_authority_id hs) (handshake_payload me (hs_authority_id hs)) = Some (hs_signature hs).
Proof.
  unfold try_new, get_authority_public_key. intros Hrun. minv Hrun. minv Hrun0. done.
Qed.

(** The handshake of a node is valid for the node itself and for nobody else. *)
Theorem handshake_roundtrip me h hs t who :
  peer_try_from me = Some me → try_new me h = Ret hs t →
  t = h ∧ is_valid hs who = Ok (bool_decide (who = me)).
Proof.
  intros Hme Hrun. destruct (try_new_run me h hs t Hrun) as (-> & Hid & Hs). split; [done|].
  unfold is_valid. rewrite Hid, Hme. cbn. case_bool_decide as Hw; cbn; [|by rewrite bool_decide_false by congruence].
  rewrite bool_decide_true by congruence. f_equal. unfold keystore_sign in Hs.
  destruct ecdsa_public_keys; [|done]. cbn in Hs. by apply verify_signed.
Qed.

(** A handshake that is not valid costs its sender reputation, and then registers it all
    the same: from now on the messages for the claimed authority go to the sender first. *)
Theorem invalid_handshake_registered who hs h peer :
  peers h !! who = Some peer → is_valid hs who ≠ Ok true →
  ∃ h' r, on_handshake_message who hs h = Ret tt h' ∧
    reputation h' = reputation h ++ [(who, r)] ∧ (r = PEER_IMPERSONATED ∨ r = UNEXPECTED_MESSAGE) ∧
    authority_id_to_peer_id h' !! hs_authority_id hs = Some who ∧
    (∃ peer', peers h' !! who = Some peer' ∧ peer_authority_id peer' = Some (hs_authority_id hs)) ∧
    ∀ m, recipient_id (msg m) = Some (hs_authority_id hs) → head (addressees m h') = Some who.
Proof.
  intros Hp Hv. assert (∃ r, (r = PEER_IMPERSONATED ∨ r = UNEXPECTED_MESSAGE) ∧
    on_handshake_message who hs h = Ret tt (h <| reputation ::= λ l, l ++ [(who, r)] |>
      <| peers ::= alter (set peer_authority_id (λ _, Some (hs_authority_id hs))) who |>
      <| authority_id_to_peer_id ::= insert (hs_authority_id hs) who |>)) as (r & Hr & Hrun).
  { unfold on_handshake_message, report_peer. unfold is_valid in *.
    destruct (peer_try_from (hs_peer_id hs)) as [q|]; cbn in *; [|by exists UNEXPECTED_MESSAGE; eauto].
    destruct (negb (bool_decide (q = who))); [by exists PEER_IMPERSONATED; eauto|].
    destruct (verify_prehashed _ _ _); [done|]. by exists PEER_IMPERSONATED; eauto. }
  eexists _, r. split; [exact Hrun|]. simp_get. split_and!; [done|done| | |].
  - by rewrite lookup_insert_eq.
  - rewrite lookup_alter_eq, Hp. by eexists.
  - intros m Hm. unfold addressees. simp_get. rewrite Hm. cbn. by rewrite lookup_insert_eq.
Qed.
End handler.
