(* ===== verification/GossipNetwork.v ===== *)
(** * A network of gossip handlers

    Handlers that are connected to each other, the messages on the way between them, and
    the theorem that a gossiped message reaches every node there is a path to.
    [commanded] is the history of what the workers asked for. *)

From S2P Require Import Prelude.
From S2P Require Import Frame.
From S2P Require Import Primitives.
From S2P Require Import GadgetTypes.
From S2P Require Import Client.
From S2P Require Import Gossip.
From S2P Require Import GossipSpec.

Record Net := mkNet {
  nodes : gmap PeerId GossipHandler;
  commanded : list (PeerId * bytes) }.

Section network.
Context `{Network, Keystore, Crypto, !NetworkLaws}.
Implicit Types (N : Net) (h g : GossipHandler) (p q : PeerId) (m : SignedDKGMessage).

(** A message on its way from one peer to another arrives. *)
Inductive arrives p q (bs : bytes) N : Net → Prop :=
| arrives_intro l1 l2 h g g' :
    nodes N !! p = Some h → notifications h = l1 ++ (q, bs) :: l2 →
    <[p := h <| notifications := l1 ++ l2 |>]> (nodes N) !! q = Some g →
    handle_network_event (NotificationsReceived p [(protocol_name g, bs)]) g = Ret tt g' →
    arrives p q bs N (mkNet (<[q := g']> (<[p := h <| notifications := l1 ++ l2 |>]> (nodes N)))
      (commanded N)).

(** A worker asks for a message to be gossiped, or a message arrives, in whatever order. *)
Inductive net_step : Net → Net → Prop :=
| net_gossip p m h h' N :
    nodes N !! p = Some h → handle_command (Gossip m) h = Ret tt h' →
    net_step N (mkNet (<[p := h']> (nodes N)) ((p, message_hash m) :: commanded N))
| net_arrival p q bs N N' : arrives p q bs N N' → net_step N N'.

Abbreviation wire m := (encode_network_message (NDKGMessage m)).

Section message.
Variable hash : bytes.

(** The bytes are those of a message with the hash. *)
Definition carries (bs : bytes) : Prop :=
  ∃ m, decode_network_message bs = Some (NDKGMessage m) ∧ message_hash m = hash.

Definition got h : Prop := ∃ m, m ∈ to_receiver h ∧ message_hash m = hash.

Definition has N p : Prop :=
  (p, hash) ∈ commanded N ∨ ∃ h, nodes N !! p = Some h ∧ got h.

Definition in_flight N p q : Prop :=
  ∃ h bs, nodes N !! p = Some h ∧ (q, bs) ∈ notifications h ∧ carries bs.

Definition knows h q : Prop :=
  ∃ peer, peers h !! q = Some peer ∧ lru_get hash (known_messages peer) = Some tt.

Definition connected N p q : Prop := ∃ h, nodes N !! p = Some h ∧ is_Some (peers h !! q).

(** A handler that takes part: it gossips, its worker listens, it writes to connected
    peers only, and its connections go both ways. *)
Record participates N p h : Prop := {
  tp_wf : handler_wf h;
  tp_enabled : gossip_enabled h = true;
  tp_open : receiver_open h = true;
  tp_targets q bs : (q, bs) ∈ notifications h → is_Some (peers h !! q);
  tp_mutual q : is_Some (peers h !! q) → connected N q p }.

(** Whoever has the message has passed it on to each of its peers, unless they have it
    anyway; [x] is a pair for which this is about to become true. *)
Record flood_inv (x : option (PeerId * PeerId)) N : Prop := {
  fi_nodes p h : nodes N !! p = Some h → participates N p h;
  fi_source p q : in_flight N p q ∨ x = Some (p, q) → has N p;
  fi_known p q h : nodes N !! p = Some h → knows h q →
    has N q ∨ in_flight N p q ∨ x = Some (p, q);
  fi_passed p q : has N p → connected N p q → has N q ∨ in_flight N p q ∨ x = Some (p, q) }.

(** What one handler may do without breaking this. *)
Record extends N N' p h h' : Prop := {
  ex_wf : handler_wf h';
  ex_enabled : gossip_enabled h' = gossip_enabled h;
  ex_open : receiver_open h' = receiver_open h;
  ex_peers q : is_Some (peers h' !! q) ↔ is_Some (peers h !! q);
  ex_received m : m ∈ to_receiver h → m ∈ to_receiver h';
  ex_sent q bs : (q, bs) ∈ notifications h → (q, bs) ∈ notifications h';
  ex_new q bs : (q, bs) ∈ notifications h' → (q, bs) ∈ notifications h ∨
    is_Some (peers h !! q) ∧ (carries bs → has N' p);
  ex_known q : knows h' q → knows h q ∨ has N q ∨ in_flight N' p q;
  ex_passed q : has N' p → is_Some (peers h' !! q) → has N p ∨ knows h' q }.

Lemma has_insert N p h h' C : nodes N !! p = Some h → to_receiver h' = to_receiver h → C = commanded N →
  ∀ q, has (mkNet (<[p := h']> (nodes N)) C) q ↔ has N q.
Proof.
  intros Hp Hr -> q. unfold has. cbn. apply or_iff_compat_l.
  destruct (decide (q = p)) as [->|]; [|by rewrite lookup_insert_ne]. rewrite lookup_insert_eq, Hp.
  unfold got. split; intros (g & [= <-] & Hg); eexists; (split; [done|]); by rewrite ?Hr in *.
Qed.

Lemma connected_insert N N' p h h' :
  nodes N !! p = Some h → nodes N' = <[p := h']> (nodes N) →
  (∀ q, is_Some (peers h' !! q) ↔ is_Some (peers h !! q)) →
  ∀ a b, connected N' a b ↔ connected N a b.
Proof.
  intros Hp HN Hps a b. unfold connected. rewrite HN.
  destruct (decide (a = p)) as [->|]; [|by rewrite lookup_insert_ne]. rewrite lookup_insert_eq, Hp.
  split; intros (? & [= <-] & Hb); eexists; (split; [done|by apply Hps]).
Qed.

Lemma in_flight_insert N N' p h h' a b :
  nodes N !! p = Some h → nodes N' = <[p := h']> (nodes N) → in_flight N a b →
  in_flight N' a b ∨ a = p ∧ ∃ bs, (b, bs) ∈ notifications h ∧ ((b, bs) ∉ notifications h') ∧ carries bs.
Proof.
  intros Hp HN (ha & bs & Ha & Hin & Hc). unfold in_flight. rewrite HN.
  destruct (decide (a = p)) as [->|].
  - rewrite Hp in Ha. injection Ha as <-. destruct (decide ((b, bs) ∈ notifications h')); [left|right; eauto].
    exists h', bs. by rewrite lookup_insert_eq.
  - left. exists ha, bs. by rewrite lookup_insert_ne.
Qed.

Lemma extends_part N N' p h h' :
  nodes N !! p = Some h → nodes N' = <[p := h']> (nodes N) → extends N N' p h h' →
  (∀ a ha, nodes N !! a = Some ha → participates N a ha) →
  ∀ a ha, nodes N' !! a = Some ha → participates N' a ha.
Proof.
  intros Hp HN He Hall a ha Ha.
  pose proof (connected_insert N N' p h h' Hp HN (ex_peers _ _ _ _ _ He)) as Hconn.
  rewrite HN in Ha. apply lookup_insert_Some in Ha as [[<- <-]|[Hne Ha]].
  - destruct (Hall p h Hp) as [_ He' Ho Ht Hm]. split.
    + apply He.
    + by rewrite (ex_enabled _ _ _ _ _ He).
    + by rewrite (ex_open _ _ _ _ _ He).
    + intros q bs Hq. apply (ex_peers _ _ _ _ _ He).
      destruct (ex_new _ _ _ _ _ He q bs Hq) as [Hq'|[Hq' _]]; [by eapply Ht|done].
    + intros q Hq. apply Hconn, Hm. by apply (ex_peers _ _ _ _ _ He).
  - destruct (Hall a ha Ha) as [Hw He' Ho Ht Hm]. split; [done..|].
    intros q Hq. by apply Hconn, Hm.
Qed.

Lemma extends_inv x N N' p h h' :
  flood_inv x N → nodes N !! p = Some h → nodes N' = <[p := h']> (nodes N) →
  (∀ q, has N q → has N' q) → (∀ q, q ≠ p → has N' q → has N q) →
  (∀ a b, x = Some (a, b) → has N' b) → extends N N' p h h' → flood_inv None N'.
Proof.
  intros Hi Hp HN Hmono Honly Hx He.
  pose proof (connected_insert N N' p h h' Hp HN (ex_peers _ _ _ _ _ He)) as Hconn.
  assert (∀ a b, has N b ∨ in_flight N a b ∨ x = Some (a, b) →
    has N' b ∨ in_flight N' a b ∨ None = Some (a, b)) as Hdone.
  { intros a b [Hb|[Hb|Hb]]; [left; by apply Hmono| |left; by eapply Hx].
    destruct (in_flight_insert N N' p h h' a b Hp HN Hb) as [?|(_ & bs & Hin & Hnin & _)]; [tauto|].
    by destruct Hnin; apply (ex_sent _ _ _ _ _ He). }
  assert (∀ q, knows h' q → has N' q ∨ in_flight N' p q ∨ None = Some (p, q)) as Hknown.
  { intros q Hq. destruct (ex_known _ _ _ _ _ He q Hq) as [Hk|[Hk|Hk]].
    - apply Hdone. by eapply (fi_known _ _ Hi).
    - left. by apply Hmono.
    - tauto. }
  split.
  - eapply extends_part; [done..|]. apply (fi_nodes _ _ Hi).
  - intros a b [(ha & bs & Ha & Hin & Hc)|[=]]. rewrite HN in Ha.
    apply lookup_insert_Some in Ha as [[<- <-]|[Hne Ha]].
    + destruct (ex_new _ _ _ _ _ He b bs Hin) as [Hin'|[_ Hc']]; [|by apply Hc'].
      apply Hmono, (fi_source _ _ Hi p b). left. by exists h, bs.
    + apply Hmono, (fi_source _ _ Hi a b). left. by exists ha, bs.
  - intros a b ha Ha Hk. rewrite HN in Ha. apply lookup_insert_Some in Ha as [[<- <-]|[Hne Ha]].
    + by apply Hknown.
    + apply Hdone. by eapply (fi_known _ _ Hi).
  - intros a b Ha Hab%Hconn. destruct (decide (a = p)) as [->|Hne].
    + destruct (ex_passed _ _ _ _ _ He b Ha) as [Ha'|Hk].
      * apply (ex_peers _ _ _ _ _ He). destruct Hab as (h0 & Hh0 & Hb). congruence.
      * apply Hdone. by eapply (fi_passed _ _ Hi).
      * by apply Hknown.
    + apply Hdone, (fi_passed _ _ Hi); [by apply Honly|done].
Qed.

(** Taking a message off the wire. *)
Lemma removed_inv x N p q bs l1 l2 h :
  flood_inv None N → nodes N !! p = Some h → notifications h = l1 ++ (q, bs) :: l2 →
  (x = Some (p, q) ∧ carries bs ∨ x = None ∧ ¬ carries bs) →
  flood_inv x (mkNet (<[p := h <| notifications := l1 ++ l2 |>]> (nodes N)) (commanded N)).
Proof.
  intros Hi Hp Hn Hx. set (h1 := h <| notifications := l1 ++ l2 |>).
  set (N1 := mkNet (<[p := h1]> (nodes N)) (commanded N)).
  assert (∀ e, e ∈ notifications h1 → e ∈ notifications h) as Hsub.
  { intros e. unfold h1. simp_get. rewrite Hn, !elem_of_app, elem_of_cons. tauto. }
  assert (∀ a, has N1 a ↔ has N a) as Hhas by (by eapply has_insert).
  assert (∀ a b, connected N1 a b ↔ connected N a b) as Hconn by (by eapply connected_insert).
  assert (∀ a b, has N b ∨ in_flight N a b ∨ None = Some (a, b) →
    has N1 b ∨ in_flight N1 a b ∨ x = Some (a, b)) as Hdone.
  { intros a b [Hb|[Hb|[=]]]; [left; by apply Hhas|].
    destruct (in_flight_insert N N1 p h h1 a b Hp eq_refl Hb) as [?|(-> & bs' & Hin & Hnin & Hc)]; [tauto|].
    assert ((b, bs') = (q, bs)) as [= -> ->]; [|tauto].
    unfold h1 in Hnin. simp_get_in Hnin. rewrite Hn, elem_of_app, elem_of_cons in Hin.
    rewrite elem_of_app in Hnin. tauto. }
  split.
  - intros a ha Ha. cbn in Ha. apply lookup_insert_Some in Ha as [[<- <-]|[_ Ha]].
    + destruct (fi_nodes _ _ Hi p h Hp) as [Hw He Ho Ht Hm]. split; try done.
      * intros b e Hb%Hsub. by eapply Ht.
      * intros b Hb. by apply Hconn, Hm.
    + destruct (fi_nodes _ _ Hi a ha Ha) as [Hw He Ho Ht Hm]. split; try done.
      intros b Hb. by apply Hconn, Hm.
  - intros a b Hb. apply Hhas, (fi_source _ _ Hi a b). left. destruct Hb as [(ha & e & Ha & He & Hc)|Hb].
    + cbn in Ha. apply lookup_insert_Some in Ha as [[<- <-]|[_ Ha]]; [exists h, e; auto|by exists ha, e].
    + destruct Hx as [[-> Hc]|[-> _]]; [|done]. simplify_eq. exists h, bs. split_and!; [done| |done].
      rewrite Hn. apply elem_of_app. right. by left.
  - intros a b ha Ha Hk. cbn in Ha. apply Hdone.
    apply lookup_insert_Some in Ha as [[<- <-]|[_ Ha]]; by eapply (fi_known _ _ Hi).
  - intros a b Ha Hab. apply Hdone, (fi_passed _ _ Hi); [by apply Hhas|by apply Hconn].
Qed.

(** Passing a message on, in a state [h1] that the handler came to from [h]. *)
Lemma delivered_extends N N' p h h1 h' m l :
  delivered m l h1 h' → nodes N' !! p = Some h' →
  (∀ q, is_Some (peers h1 !! q) → q ∈ l) →
  gossip_enabled h1 = gossip_enabled h → receiver_open h1 = receiver_open h →
  (∀ q, is_Some (peers h1 !! q) ↔ is_Some (peers h !! q)) →
  (∀ m, m ∈ to_receiver h → m ∈ to_receiver h1) → notifications h1 = notifications h →
  (∀ q, knows h1 q → knows h q ∨ has N q) →
  (message_hash m = hash → has N' p) → (has N' p → has N p ∨ message_hash m = hash) →
  extends N N' p h h'.
Proof.
  intros Hd Hp Hl He Ho Hps Hrec Hnot Hk Hm Hm'.
  destruct (delivered_rest _ _ _ _ Hd) as (_ & Erec & _ & Eopen & Een & _ & _).
  destruct (dl_sent _ _ _ _ Hd) as (ps & Es & _ & Hs & _).
  assert (∀ q, is_Some (peers h' !! q) ↔ is_Some (peers h1 !! q)) as Hps'.
  { intros q. pose proof (dl_peers _ _ _ _ Hd q) as E.
    destruct (peers h' !! q), (peers h1 !! q); try done; by split; intros []. }
  assert (∀ q, (q, wire m) ∈ notifications h' → message_hash m = hash → in_flight N' p q) as Hfl.
  { intros q Hq E. exists h', (wire m). split_and!; [done..|]. exists m. by rewrite decode_encode_message. }
  split.
  - apply Hd.
  - congruence.
  - congruence.
  - intros q. by rewrite Hps', Hps.
  - intros m0 Hm0. rewrite Erec. by apply Hrec.
  - intros q bs Hq. rewrite Es, Hnot. apply elem_of_app. by left.
  - intros q bs. rewrite Es, Hnot, elem_of_app. intros [|Hq]; [by left|right].
    apply list_elem_of_fmap in Hq as (q' & [= -> ->] & Hq'). apply Hs in Hq' as [_ Hu%unaware_connected].
    split; [by apply Hps|]. intros (m0 & Hdec & <-). apply Hm. rewrite decode_encode_message in Hdec. congruence.
  - intros q (peer' & Hq & Hg). destruct (decide (message_hash m = hash)) as [E|Hne].
    + assert (is_Some (peers h1 !! q)) as [peer Hq1] by (apply Hps'; by eexists).
      destruct (unaware h1 (message_hash m) q) eqn:Hu.
      * right; right. apply Hfl; [|done]. rewrite Es. apply elem_of_app. right.
        apply (list_elem_of_fmap_2 (λ p, (p, wire m))), Hs. split; [apply Hl; by eexists|done].
      * destruct (Hk q) as [|]; [|by left|by right; left]. exists peer. split; [done|].
        unfold unaware in Hu. rewrite Hq1, E in Hu. apply bool_decide_eq_false in Hu.
        by destruct (lru_get hash (known_messages peer)) as [[]|].
    + destruct (dl_other _ _ _ _ Hd q peer' hash) as (peer & Hq1 & Hg1); [congruence|done..|].
      destruct (Hk q) as [|]; [by exists peer|by left|by right; left].
  - intros q Hhas Hq. destruct (Hm' Hhas) as [|E]; [by left|right]. destruct Hq as [peer' Hq].
    exists peer'. split; [done|]. rewrite <- E. eapply (dl_known _ _ _ _ Hd); [|done].
    apply Hl, Hps'. by eexists.
Qed.

Lemma gossip_step_inv p m h h' N :
  flood_inv None N → nodes N !! p = Some h → gossip_dkg_signed_message m h = Ret tt h' →
  flood_inv None (mkNet (<[p := h']> (nodes N)) ((p, message_hash m) :: commanded N)).
Proof.
  intros Hi Hp Hrun. set (N' := mkNet _ _). pose proof (fi_nodes _ _ Hi p h Hp) as Ht.
  destruct (gossip_run m h (tp_wf _ _ _ Ht)) as (h'' & Hrun' & Hd). assert (h'' = h') as -> by congruence.
  destruct (delivered_rest _ _ _ _ Hd) as (_ & Erec & _).
  assert (∀ q, has N' q ↔ has N q ∨ q = p ∧ message_hash m = hash) as Hhas.
  { intros q. unfold has. cbn. rewrite elem_of_cons.
    assert ((∃ g, <[p := h']> (nodes N) !! q = Some g ∧ got g) ↔ (∃ g, nodes N !! q = Some g ∧ got g)) as ->.
    { destruct (decide (q = p)) as [->|]; [|by rewrite lookup_insert_ne]. rewrite lookup_insert_eq, Hp.
      unfold got. split; intros (g & [= <-] & Hg); eexists; (split; [done|]); by rewrite ?Erec in *. }
    split.
    - intros [[[= -> E]|?]|?]; [by right|by left; left|by left; right].
    - intros [[?|?]|[-> E]]; [by left; right|by right|left; left; by rewrite E]. }
  eapply (extends_inv None N N' p h h'); [done|done|done|..].
  - intros q Hq. apply Hhas. by left.
  - intros q Hne [|[]]%Hhas; done.
  - done.
  - eapply delivered_extends; [exact Hd|apply lookup_insert_eq|..]; try done.
    + intros q Hq. apply elem_of_app. right. by apply in_peer_order.
    + by left.
    + intros E. apply Hhas. by right.
    + intros [|[_ ?]]%Hhas; tauto.
Qed.

(** A step that has nothing to do with the message. *)
Lemma quiet_extends N N' p h h' :
  handler_wf h' → gossip_enabled h' = gossip_enabled h → receiver_open h' = receiver_open h →
  (∀ q, known_messages <$> peers h' !! q = known_messages <$> peers h !! q) →
  to_receiver h' = to_receiver h → notifications h' = notifications h → (has N' p → has N p) →
  extends N N' p h h'.
Proof.
  intros Hw He Ho Hps Hr Hn Hh. split; try done.
  - intros q. by rewrite <- (fmap_is_Some known_messages), Hps, fmap_is_Some.
  - by rewrite Hr.
  - by rewrite Hn.
  - intros q bs. rewrite Hn. tauto.
  - intros q (peer & Hq & Hg). left. specialize (Hps q). rewrite Hq in Hps.
    destruct (peers h !! q) as [peer0|] eqn:E; [|done]. injection Hps as Hps. exists peer0. by rewrite <- Hps.
  - tauto.
Qed.

Lemma quiet_inv N p h h' :
  flood_inv None N → nodes N !! p = Some h →
  handler_wf h' → gossip_enabled h' = gossip_enabled h → receiver_open h' = receiver_open h →
  (∀ q, known_messages <$> peers h' !! q = known_messages <$> peers h !! q) →
  to_receiver h' = to_receiver h → notifications h' = notifications h →
  flood_inv None (mkNet (<[p := h']> (nodes N)) (commanded N)).
Proof.
  intros Hi Hp Hw He Ho Hps Hr Hn.
  pose proof (has_insert N p h h' (commanded N) Hp Hr eq_refl) as Hhas.
  eapply (extends_inv None N); [done|exact Hp|done|..].
  - intros q. apply Hhas.
  - intros q _. apply Hhas.
  - done.
  - apply quiet_extends; try done. apply Hhas.
Qed.

Lemma receive_step_inv x p q m g g' N :
  flood_inv x N → nodes N !! q = Some g → is_Some (peers g !! p) →
  (message_hash m = hash → has N p) → (∀ a b, x = Some (a, b) → b = q ∧ message_hash m = hash) →
  on_signed_dkg_message p m g = Ret tt g' →
  flood_inv None (mkNet (<[q := g']> (nodes N)) (commanded N)).
Proof.
  intros Hi Hq [peer Hp] Hsrc Hx Hrun. set (N' := mkNet _ _).
  destruct (fi_nodes _ _ Hi q g Hq) as [Hw Hen Hop _ _].
  destruct (on_message_run p peer m g Hp Hw) as (g'' & Hrun' & Hd).
  assert (g'' = g') as -> by congruence. rewrite Hen in Hd.
  destruct (delivered_rest _ _ _ _ Hd) as (_ & Erec & _).
  assert (to_receiver g' = to_receiver g ++ [m]) as Erec'.
  { rewrite Erec. unfold received. simp_get. by rewrite Hop. }
  assert (∀ a, has N' a ↔ has N a ∨ a = q ∧ message_hash m = hash) as Hhas.
  { intros a. unfold has. cbn. destruct (decide (a = q)) as [->|].
    - rewrite lookup_insert_eq, Hq. unfold got. split.
      + intros [?|(? & [= <-] & m0 & Hm0 & E)]; [by left; left|]. rewrite Erec' in Hm0.
        apply elem_of_app in Hm0 as [Hm0| ->%list_elem_of_singleton]; [left; right; eauto|by right].
      + intros [[?|(? & [= <-] & m0 & Hm0 & E)]|[_ E]]; [by left|right..]; eexists; (split; [done|]).
        * exists m0. rewrite Erec'. split; [|done]. apply elem_of_app. by left.
        * exists m. rewrite Erec'. split; [|done]. apply elem_of_app. right. by left.
    - rewrite lookup_insert_ne by done. tauto. }
  eapply (extends_inv x N N' q g g'); [done|exact Hq|done|..].
  - intros a Ha. apply Hhas. by left.
  - intros a Hne [|[]]%Hhas; done.
  - intros a b Hab. apply Hhas. right. by eapply Hx.
  - eapply delivered_extends; [exact Hd|apply lookup_insert_eq|..]; try (unfold received; by simp_get).
    + intros a Ha. apply elem_of_app. right. by apply in_peer_order.
    + intros a. unfold received. simp_get. rewrite lookup_insert_is_Some'. naive_solver.
    + intros m0 Hm0. unfold received. simp_get. apply elem_of_app. by left.
    + intros a (peer' & Ha & Hg). unfold received in Ha. simp_get_in Ha.
      apply lookup_insert_Some in Ha as [[<- <-]|[Hne Ha]]; [|left; by exists peer'].
      destruct (decide (message_hash m = hash)) as [E|Hne]; [right; by apply Hsrc|left].
      exists peer. split; [done|].
      assert (known_messages (peer_after p peer m g) = known_messages (touch m peer)) as Ek.
      { unfold peer_after. by destruct (repeated p m g). }
      rewrite Ek in Hg. eapply lru_insert_other; [by eapply Hw| |exact Hg]. congruence.
    + intros E. apply Hhas. by right.
    + intros [|[_ ?]]%Hhas; tauto.
Qed.

Lemma notification_run p bs g :
  handle_network_event (NotificationsReceived p [(protocol_name g, bs)]) g =
    match decode_network_message bs with
    | None => Ret tt (g <| reputation ::= λ l, l ++ [(p, UNEXPECTED_MESSAGE)] |>)
    | Some (NHandshake hs) => on_handshake_message p hs g
    | Some (NDKGMessage m) => on_signed_dkg_message p m g
    end.
Proof.
  unfold handle_network_event. rewrite run_gets. cbn [for_while]. unfold on_notification.
  rewrite run_bind_bind, run_gets. cbn [fst snd]. rewrite bool_decide_true by done. cbn [negb].
  destruct (decode_network_message bs) as [[hs|m]|]; [..|done]; rewrite run_bind_bind.
  - cbv [mbind M_bind]. by destruct (on_handshake_message p hs g) as [[] ?|?|].
  - cbv [mbind M_bind]. by destruct (on_signed_dkg_message p m g) as [[] ?|?|].
Qed.

Lemma handshake_quiet p hs g g' : handler_wf g → on_handshake_message p hs g = Ret tt g' →
  handler_wf g' ∧ gossip_enabled g' = gossip_enabled g ∧ receiver_open g' = receiver_open g ∧
  (∀ q, known_messages <$> peers g' !! q = known_messages <$> peers g !! q) ∧
  to_receiver g' = to_receiver g ∧ notifications g' = notifications g.
Proof.
  intros Hw Hrun. split; [by eapply (wp_Ret _ _ _ _ _ _ _ (handshake_wf p hs g Hw))|].
  assert (∀ q, known_messages <$> alter (set peer_authority_id (λ _, Some (hs_authority_id hs))) p
    (peers g) !! q = known_messages <$> peers g !! q) as Hps.
  { intros q. destruct (decide (q = p)) as [->|]; [|by rewrite lookup_alter_ne].
    rewrite lookup_alter_eq. by destruct (peers g !! p). }
  unfold on_handshake_message, report_peer in Hrun.
  destruct (is_valid hs p) as [[]| |]; [| | |done]; rewrite ?run_ret, ?run_modify in Hrun;
    cbv [modify] in Hrun; injection Hrun as <-; simp_get; done.
Qed.

Lemma arrival_connected x N p q bs l1 l2 h g :
  flood_inv x N → nodes N !! p = Some h → notifications h = l1 ++ (q, bs) :: l2 →
  <[p := h <| notifications := l1 ++ l2 |>]> (nodes N) !! q = Some g → is_Some (peers g !! p).
Proof.
  intros Hi Hp Hn Hq. destruct (fi_nodes _ _ Hi p h Hp) as [_ _ _ Ht Hm].
  destruct (Hm q) as (g0 & Hg0 & Hgp); [apply (Ht q bs); rewrite Hn; apply elem_of_app; right; by left|].
  apply lookup_insert_Some in Hq as [[<- <-]|[_ Hq]]; [|congruence]. simp_get. congruence.
Qed.

Lemma net_step_inv N N' : net_step N N' → flood_inv None N → flood_inv None N'.
Proof.
  intros [p m h h' N0 Hp Hrun|p q bs N0 ? [l1 l2 h g g' Hp Hn Hq Hrun]] Hi.
  { by eapply gossip_step_inv. }
  set (N1 := mkNet (<[p := h <| notifications := l1 ++ l2 |>]> (nodes N0)) (commanded N0)).
  assert (is_Some (peers g !! p)) as Hgp by (by eapply arrival_connected).
  rewrite notification_run in Hrun. change (commanded N0) with (commanded N1).
  change (<[p := h <| notifications := l1 ++ l2 |>]> (nodes N0)) with (nodes N1) in Hq |- *.
  destruct (decode_network_message bs) as [[hs|m]|] eqn:Hdec.
  - assert (flood_inv None N1) as Hi1.
    { eapply removed_inv; [done..|]. right. split; [done|]. intros (m & Hm & _). congruence. }
    destruct (handshake_quiet p hs g g') as (? & ? & ? & ? & ? & ?); [|done|by eapply (quiet_inv N1 q g)].
    by apply (fi_nodes _ _ Hi1 q g Hq).
  - destruct (decide (message_hash m = hash)) as [E|Hne].
    + assert (flood_inv (Some (p, q)) N1) as Hi1.
      { eapply removed_inv; [done..|]. left. split; [done|]. by exists m. }
      eapply (receive_step_inv (Some (p, q)) p q m g g' N1); try done.
      * intros _. apply (fi_source _ _ Hi1 p q). by right.
      * by intros a b [= -> ->].
    + assert (flood_inv None N1) as Hi1.
      { eapply removed_inv; [done..|]. right. split; [done|]. intros (m0 & Hm0 & E0). congruence. }
      by eapply (receive_step_inv None p q m g g' N1).
  - assert (flood_inv None N1) as Hi1.
    { eapply removed_inv; [done..|]. right. split; [done|]. intros (m & Hm & _). congruence. }
    injection Hrun as <-. eapply (quiet_inv N1 q g); try done.
    by apply (fi_nodes _ _ Hi1 q g Hq).
Qed.

(** Messages leave the connections alone. *)
Lemma delivered_peers m l h h' : delivered m l h h' →
  ∀ q, is_Some (peers h' !! q) ↔ is_Some (peers h !! q).
Proof.
  intros Hd q. pose proof (dl_peers _ _ _ _ Hd q) as E.
  destruct (peers h' !! q), (peers h !! q); try done; by split; intros [].
Qed.

Lemma arrival_peers p bs g g' : handler_wf g → is_Some (peers g !! p) →
  handle_network_event (NotificationsReceived p [(protocol_name g, bs)]) g = Ret tt g' →
  ∀ q, is_Some (peers g' !! q) ↔ is_Some (peers g !! q).
Proof.
  intros Hw [peer Hp] Hrun q. rewrite notification_run in Hrun.
  destruct (decode_network_message bs) as [[hs|m]|].
  - destruct (handshake_quiet p hs g g' Hw Hrun) as (_ & _ & _ & E & _).
    by rewrite <- (fmap_is_Some known_messages), E, fmap_is_Some.
  - destruct (on_message_run p peer m g Hp Hw) as (g'' & Hrun' & Hd).
    assert (g'' = g') as -> by congruence. rewrite (delivered_peers _ _ _ _ Hd).
    unfold received. simp_get. rewrite lookup_insert_is_Some'. naive_solver.
  - by injection Hrun as <-.
Qed.

Lemma net_step_connected N N' : net_step N N' → flood_inv None N →
  ∀ a b, connected N' a b ↔ connected N a b.
Proof.
  intros [p m h h' N0 Hp Hrun|p q bs N0 ? [l1 l2 h g g' Hp Hn Hq Hrun]] Hi a b.
  - destruct (gossip_run m h (tp_wf _ _ _ (fi_nodes _ _ Hi p h Hp))) as (h'' & Hrun' & Hd).
    cbn in Hrun. assert (h'' = h') as -> by congruence.
    eapply connected_insert; [exact Hp|done|]. by eapply delivered_peers.
  - set (N1 := mkNet (<[p := h <| notifications := l1 ++ l2 |>]> (nodes N0)) (commanded N0)).
    assert (∀ a b, connected N1 a b ↔ connected N0 a b) as <- by (by eapply connected_insert).
    eapply (connected_insert N1); [exact Hq|done|]. eapply arrival_peers; [| |exact Hrun].
    + apply lookup_insert_Some in Hq as [[<- <-]|[_ Hq]]; [|by apply (fi_nodes _ _ Hi q g)].
      by apply (fi_nodes _ _ Hi p h).
    + by eapply arrival_connected.
Qed.

(** Nobody has the message or knows of it yet. *)
Record fresh_net N : Prop := {
  fn_nodes p h : nodes N !! p = Some h → participates N p h ∧ ¬ got h ∧ ∀ q, ¬ knows h q;
  fn_commanded p : (p, hash) ∉ commanded N;
  fn_flight p q : ¬ in_flight N p q }.

Lemma fresh_inv N : fresh_net N → flood_inv None N.
Proof.
  intros [Hn Hc Hf]. assert (∀ p, ¬ has N p) as Hno.
  { intros p [Hp|(h & Hh & Hg)]; [by eapply Hc|]. by apply (Hn p h Hh). }
  split.
  - intros p h Hp. by apply Hn.
  - intros p q [Hpq|[=]]. by destruct (Hf p q).
  - intros p q h Hp Hk. by destruct (proj2 (proj2 (Hn p h Hp)) q).
  - intros p q Hp. by destruct (Hno p).
Qed.

Lemma run_inv N0 N : fresh_net N0 → rtc net_step N0 N →
  flood_inv None N ∧ ∀ a b, connected N a b ↔ connected N0 a b.
Proof.
  intros Hf Hr. revert N Hr. apply rtc_ind_r; [split; [by apply fresh_inv|done]|].
  intros N N' _ Hs [Hi Hc]. split; [by eapply net_step_inv|].
  intros a b. by rewrite (net_step_connected N N' Hs Hi).
Qed.

(** C13: in a network whose handlers gossip and stay connected, a message that one worker
    asked to be gossiped has, once no copy of it is on its way any more, reached the
    worker of every node there is a path to. *)
Theorem gossip_reaches_everyone N0 N p q :
  fresh_net N0 → rtc net_step N0 N → (p, hash) ∈ commanded N → (∀ a b, ¬ in_flight N a b) →
  rtc (connected N0) p q →
  (q, hash) ∈ commanded N ∨ ∃ h, nodes N !! q = Some h ∧ got h.
Proof.
  intros H0' Hr Hp Hq Hpath. destruct (run_inv N0 N H0' Hr) as [Hi Hc].
  assert (has N p) as Hhas by (by left). clear Hp. induction Hpath as [|a b c Hab _ IH]; [done|].
  apply IH. destruct (fi_passed _ _ Hi a b Hhas) as [|[Hf|[=]]]; [by apply Hc|done|].
  by destruct (Hq a b).
Qed.

(** ** The flood ends *)

#[local] Instance carries_dec bs : Decision (carries bs).
Proof.
  destruct (decode_network_message bs) as [[hs|m]|] eqn:E.
  - right. intros (m & Hm & _). congruence.
  - destruct (decide (message_hash m = hash)) as [Hm|Hm]; [left; by exists m|right].
    intros (m' & Hm' & Hh). congruence.
  - right. intros (m & Hm & _). congruence.
Defined.

(** What a handler may still send of the message, twice, and what is on its way. *)
Definition cost h : nat :=
  2 * length (filter (λ q, unaware h hash q = true) (elements (dom (peers h)))) +
  length (filter (λ e, carries e.2) (notifications h)).

Definition total N : nat := sum_list (cost ∘ snd <$> map_to_list (nodes N)).

Lemma total_lookup N p h : nodes N !! p = Some h →
  total N = (cost h + sum_list (cost ∘ snd <$> map_to_list (delete p (nodes N))))%nat.
Proof. intros Hp. unfold total. by rewrite <- (map_to_list_delete (nodes N) p h Hp). Qed.

Lemma total_insert N p h C :
  total (mkNet (<[p := h]> (nodes N)) C) =
    (cost h + sum_list (cost ∘ snd <$> map_to_list (delete p (nodes N))))%nat.
Proof.
  rewrite (total_lookup _ p h) by (cbn; apply lookup_insert_eq). cbn. by rewrite delete_insert_eq.
Qed.

(** Passing the message on costs no more than was set aside for it. *)
Lemma delivered_cost m l h h1 h' :
  message_hash m = hash → delivered m l h1 h' → (∀ q, is_Some (peers h1 !! q) → q ∈ l) →
  notifications h1 = notifications h → (∀ q, unaware h1 hash q = true → unaware h hash q = true) →
  (cost h' <= cost h)%nat.
Proof.
  intros Hm Hd Hl Hn Hu. destruct (dl_sent _ _ _ _ Hd) as (ps & Es & Hnd & Hps & _).
  assert (filter (λ q, unaware h' hash q = true) (elements (dom (peers h'))) = []) as E1.
  { apply filter_nil_iff || idtac. apply elem_of_nil_inv. intros q [Hq _]%list_elem_of_filter.
    rewrite <- Hm in Hq. apply (delivered_unaware _ _ _ _ _ Hd) in Hq as [Hq Hq'].
    by apply Hq, Hl, (unaware_connected h1 (message_hash m)). }
  assert (length ps <= length (filter (λ q, unaware h hash q = true) (elements (dom (peers h)))))%nat as Hle.
  { apply submseteq_length, NoDup_submseteq; [done|]. intros q [_ Hq]%Hps. rewrite Hm in Hq.
    apply list_elem_of_filter. split; [by apply Hu|]. apply elem_of_elements, elem_of_dom.
    by eapply unaware_connected, Hu. }
  unfold cost. rewrite E1, Es, Hn, filter_app, length_app. cbn [length].
  pose proof (length_filter (λ e, carries e.2) ((λ p, (p, wire m)) <$> ps)) as Hf.
  rewrite length_fmap in Hf. lia.
Qed.

(** A copy of the message arrives. *)
Definition flood_step N N' : Prop := ∃ p q bs, arrives p q bs N N' ∧ carries bs.

Lemma flood_step_inv N N' : flood_step N N' → flood_inv None N → flood_inv None N'.
Proof. intros (p & q & bs & Ha & _). apply net_step_inv. by eapply net_arrival. Qed.

Lemma removed_cost p q bs l1 l2 h : notifications h = l1 ++ (q, bs) :: l2 → carries bs →
  cost h = S (cost (h <| notifications := l1 ++ l2 |>)).
Proof.
  intros Hn Hc. unfold cost. simp_get. rewrite Hn, !filter_app, filter_cons_True, !length_app by done.
  cbn [length]. unfold unaware. simp_get. lia.
Qed.

Lemma receive_cost p m g g' peer :
  message_hash m = hash → handler_wf g → gossip_enabled g = true → peers g !! p = Some peer →
  on_signed_dkg_message p m g = Ret tt g' → (cost g' <= cost g)%nat.
Proof.
  intros Hm Hw Hen Hp Hrun. destruct (on_message_run p peer m g Hp Hw) as (g'' & Hrun' & Hd).
  assert (g'' = g') as -> by congruence. rewrite Hen in Hd.
  eapply delivered_cost; [done|exact Hd|..].
  - intros q Hq. apply elem_of_app. right. by apply in_peer_order.
  - unfold received. by simp_get.
  - intros q. unfold unaware, received. simp_get. destruct (decide (q = p)) as [->|];
      [|by rewrite lookup_insert_ne]. rewrite lookup_insert_eq.
    assert (known_messages (peer_after p peer m g) = known_messages (touch m peer)) as ->.
    { unfold peer_after. by destruct (repeated p m g). }
    rewrite <- Hm, touch_knows by (by eapply Hw). done.
Qed.

(** Each arrival of a copy uses up some of what is left to be sent. *)
Lemma flood_step_cost N N' : flood_inv None N → flood_step N N' → (S (total N') <= total N)%nat.
Proof.
  intros Hi (p & q & bs & [l1 l2 h g g' Hp Hn Hq Hrun] & Hc).
  set (h1 := h <| notifications := l1 ++ l2 |>) in *.
  set (N1 := mkNet (<[p := h1]> (nodes N)) (commanded N)).
  change (<[p := h1]> (nodes N)) with (nodes N1) in Hq |- *. pose proof Hc as (m & Hdec & Hm).
  assert (total N = S (total N1)) as ->.
  { rewrite (total_lookup N p h Hp), (removed_cost p q bs l1 l2 h Hn Hc). fold h1.
    unfold N1. by rewrite total_insert. }
  rewrite (total_insert N1 q g' (commanded N)), (total_lookup N1 q g Hq).
  destruct (arrival_connected None N p q bs l1 l2 h g Hi Hp Hn Hq) as [peer Hgp].
  assert (participates N1 q g) as [Hw Hen _ _ _].
  { apply (fi_nodes (Some (p, q)) N1); [|exact Hq].
    eapply removed_inv; [done..|]. by left. }
  rewrite notification_run, Hdec in Hrun.
  pose proof (receive_cost p m g g' peer Hm Hw Hen Hgp Hrun). lia.
Qed.

Lemma flood_progress N p q : flood_inv None N → in_flight N p q → ∃ N', flood_step N N'.
Proof.
  intros Hi (h & bs & Hp & Hin & Hc). pose proof Hc as (m & Hdec & Hm).
  destruct (list_elem_of_split _ _ Hin) as (l1 & l2 & Hn).
  destruct (fi_nodes _ _ Hi p h Hp) as [_ _ _ Ht Hmut].
  destruct (Hmut q (Ht q bs Hin)) as (g0 & Hg0 & _).
  assert (∃ g, <[p := h <| notifications := l1 ++ l2 |>]> (nodes N) !! q = Some g) as [g Hq].
  { destruct (decide (p = q)) as [->|]; [rewrite lookup_insert_eq|rewrite lookup_insert_ne by done]; eauto. }
  destruct (arrival_connected None N p q bs l1 l2 h g Hi Hp Hn Hq) as [peer Hgp].
  assert (participates (mkNet (<[p := h <| notifications := l1 ++ l2 |>]> (nodes N)) (commanded N)) q g)
    as [Hw _ _ _ _].
  { apply (fi_nodes (Some (p, q))); [|exact Hq]. eapply removed_inv; [done..|]. by left. }
  destruct (on_message_run p peer m g Hgp Hw) as (g' & Hrun & _).
  eexists. exists p, q, bs. split; [|done]. eapply arrives_intro; [done..|].
  rewrite notification_run, Hdec. exact Hrun.
Qed.

Lemma flood_bounded n N N' :
  flood_inv None N → nsteps flood_step n N N' → (n + total N' <= total N)%nat.
Proof.
  intros Hi Hn. induction Hn as [N|n N1 N2 N3 H12 _ IH]; [done|].
  pose proof (flood_step_cost N1 N2 Hi H12). specialize (IH (flood_step_inv _ _ H12 Hi)). lia.
Qed.

Definition flying N : bool :=
  existsb (λ e, existsb (λ x, bool_decide (carries x.2)) (notifications e.2)) (map_to_list (nodes N)).

Lemma flying_spec N : flying N = true ↔ ∃ p q, in_flight N p q.
Proof.
  unfold flying, in_flight. rewrite existsb_exists. split.
  - intros ([p h] & Hp%list_elem_of_In%elem_of_map_to_list & ([q bs] & Hq%list_elem_of_In & Hb)%existsb_exists).
    apply bool_decide_eq_true in Hb. by exists p, q, h, bs.
  - intros (p & q & h & bs & Hp & Hq & Hc). exists (p, h).
    split; [by apply list_elem_of_In, elem_of_map_to_list|]. apply existsb_exists. exists (q, bs).
    split; [by apply list_elem_of_In|by apply bool_decide_eq_true].
Qed.

Lemma flood_settles N : flood_inv None N → ∃ N', rtc flood_step N N' ∧ ∀ a b, ¬ in_flight N' a b.
Proof.
  remember (total N) as k eqn:Hk. revert N Hk. induction k as [k IH] using lt_wf_ind. intros N -> Hi.
  destruct (flying N) eqn:Hf.
  - apply flying_spec in Hf as (p & q & Hpq). destruct (flood_progress N p q Hi Hpq) as (N1 & H1').
    pose proof (flood_step_cost N N1 Hi H1').
    destruct (IH (total N1)) with (N := N1) as (N' & Hr & Hn); [lia|done|by eapply flood_step_inv|].
    exists N'. split; [by eapply rtc_l|done].
  - exists N. split; [done|]. intros a b Hab. apply not_true_iff_false in Hf. apply Hf, flying_spec. eauto.
Qed.

Lemma flood_run N N' : rtc flood_step N N' → rtc net_step N N' ∧ commanded N' = commanded N.
Proof.
  induction 1 as [|N1 N2 N3 (p & q & bs & Ha & _) _ [IH1 IH2]]; [done|]. split.
  - eapply rtc_l; [|exact IH1]. by eapply net_arrival.
  - rewrite IH2. by destruct Ha.
Qed.

(** C14: copies keep arriving for a bounded number of steps only, and as long as one is on
    its way it can arrive: so every run can be continued until none is left. *)
Theorem flood_terminates N0 N :
  fresh_net N0 → rtc net_step N0 N →
  (∀ n N', nsteps flood_step n N N' → (n + total N' <= total N)%nat) ∧
  ∃ N', rtc flood_step N N' ∧ ∀ a b, ¬ in_flight N' a b.
Proof.
  intros Hf Hr. destruct (run_inv N0 N Hf Hr) as [Hi _].
  split; [intros n N'; by apply flood_bounded|by apply flood_settles].
Qed.
End message.
End network.
