(* ===== verification/Demo.v ===== *)
(** * A concrete chain

    Instances of every parameter of the model, with the laws that the theorems
    assume, and a run of the runtime from genesis: four validators submit a key,
    approve an anchor update, have it queued, and rotate to a next key.  The
    cryptography is a toy (a 65-byte signature is the signer's x-coordinate next
    to the digest), which is enough to satisfy the laws; Witnesses.v evaluates the
    theorems on this run. *)

From S2P Require Import Prelude.
From S2P Require Import Frame.
From S2P Require Import Primitives.
From S2P Require Import Merkle.
From S2P Require Import Traits.
From S2P Require Import BridgeRegistry.
From S2P Require Import Proposals.
From S2P Require Import ProposalHandler.
From S2P Require Import Metadata.
From S2P Require Import Runtime.

(** ** Parameters *)

#[export] Instance demo_webb : WebbProposals := {|
  nonce_to_bytes n := be_encode 4 n;
  nonce_from_bytes bs := be_decode bs;
  header_length := 40%nat;
  header_nonce bs := be_decode (slice 36 40 bs);
  header_resource_id bs := slice 0 32 bs;
  typed_chain_id_from bs :=
    if decide (slice 0 2 bs = [1; 0]) then Evm (be_decode (slice 2 6 bs))
    else OtherChain (be_decode (slice 0 2 bs)) (be_decode (slice 2 6 bs));
  resource_typed_chain_id r :=
    if decide (slice 26 28 r = [1; 0]) then Evm (be_decode (slice 28 32 r))
    else OtherChain (be_decode (slice 26 28 r)) (be_decode (slice 28 32 r));
  evm_proposal_length k := 104%nat;
  evm_from_slice k bs := Some {|
    parsed_nonce := be_decode (slice 36 40 bs);
    parsed_resource_id := slice 0 32 bs;
    parsed_src_resource_id := slice 72 104 bs |};
  transaction_decode bs := Some (EIP1559 1 (be_decode (take 4 bs)));
  abi_encode_array := mjoin |}.

#[export] Instance demo_webb_laws : WebbLaws.
Proof.
  split; intros n; [apply be_encode_length|]. intros Hn. by apply (be_decode_encode 4).
Qed.

Definition toy_digest (bs : bytes) : bytes :=
  replicate 32 (fold_left (λ a b, (a * 31 + b) mod 256) bs 7).

(** The x-coordinate of the signer, then the digest, then a recovery byte. *)
Definition toy_sign (x digest : bytes) : bytes := x ++ digest ++ [0].

#[export] Instance demo_crypto : Crypto := {|
  keccak_256 := toy_digest;
  secp256k1_ecdsa_recover sig hash :=
    if decide (length sig = 65%nat ∧ slice 32 64 sig = hash)
    then Some (take 32 sig ++ replicate 32 0) else None;
  secp256k1_decompress k :=
    if decide (length k = 33%nat) then Some (4 :: drop 1 k ++ replicate 32 0) else None;
  sr25519_from_slice sig := Some sig;
  sr25519_verify _ _ _ := false |}.

#[export] Instance demo_crypto_laws : CryptoLaws.
Proof.
  split.
  - intros b. apply length_replicate.
  - intros sig hash k. cbv [secp256k1_ecdsa_recover demo_crypto]. case_decide as Hd; [|done].
    intros <-%(inj Some). rewrite length_app, length_take, length_replicate. lia.
  - intros c k. cbv [secp256k1_decompress demo_crypto]. case_decide; [|done].
    intros <-%(inj Some). rewrite length_cons, length_app, length_drop, length_replicate. lia.
Qed.

#[export] Instance demo_reputation_order : ReputationOrder := map_to_list.

#[export] Instance demo_metadata_laws : MetadataLaws.
Proof.
  split; [|done]. intros r Hr. simpl.
  split; [apply Z.div_pos; lia|apply Z.div_le_upper_bound; lia].
Qed.

#[export] Instance demo_iter_order : IterOrder := {|
  iter_staged := map_to_list;
  iter_queue := map_to_list |}.

#[export] Instance demo_iter_laws : IterLaws.
Proof. by split. Qed.

#[export] Instance demo_weights : Weights := {|
  Weight := Z;
  weight_is_zero w := w <=? 0;
  weight_saturating_sub := saturating_sub;
  db_reads n := n;
  db_writes n := n;
  db_reads_writes n m := n + m |}.

(** The rest of the chain is its block number. *)
#[export] Instance demo_system : System Z := λ n, n.

#[export] Instance demo_offences : ReportOffences Z RuntimeError := {|
  session_index _ := 0;
  validators _ := [];
  identification_of _ _ := None;
  ro_report_offence _ := mret tt |}.

(** ** Actors and proposals *)

Definition x_of (i : Z) : bytes := replicate 32 i.
Definition auth (i : Z) : DKGId := mkDKGId (2 :: x_of i).
Definition acct (i : Z) : AccountId := mkAccountId [i].
Definition toy_sig (i : Z) (msg : bytes) : bytes := toy_sign (x_of i) (toy_digest msg).

Definition validators4 : list (AccountId * DKGId) :=
  [(acct 1, auth 1); (acct 2, auth 2); (acct 3, auth 3); (acct 4, auth 4)].

(** The first and the second DKG key. *)
Definition key1 : bytes := 2 :: x_of 11.
Definition key2 : bytes := 3 :: x_of 12.

Definition resource (i : Z) : bytes := replicate 26 i ++ [1; 0; 0; 0; 0; 5].

Definition anchor_update (n : Z) : Proposal :=
  Unsigned AnchorUpdate (resource 7 ++ [0; 0; 0; 0] ++ be_encode 4 n ++ replicate 32 9 ++ resource 8).

Definition demo_genesis : GenesisConfig := {|
  gen_authority_ids := validators4.*1;
  gen_keygen_threshold := 3;
  gen_signature_threshold := 2;
  gen_chain_ids := [[1; 0; 0; 0; 0; 5]];
  gen_r_ids := [(resource 7, [42])];
  gen_proposers := [];
  gen_validators := validators4;
  gen_bridges := [] |}.

(** ** The run *)

Abbreviation C := (Chain Z).

(** The state after a step that is known to return. *)
Definition after {S E A} (m : M S E A) (s : S) : S := default s (final (m s)).

Lemma after_returns {S E} (m : M S E unit) s : returns (m s) = true → m s = Ret tt (after m s).
Proof. unfold after. by destruct (m s) as [[]| |]. Qed.

(** The same for a pallet's storage next to the rest of the chain. *)
Lemma after_returns_pair {S W E} (m : M (S * W) E unit) p :
  returns (m p) = true → m p = Ret tt ((after m p).1, (after m p).2).
Proof. intros ->%after_returns. by destruct (after m p). Qed.

Lemma after_final {S E A} (m : M S E A) s :
  match m s with Panic => false | _ => true end = true → final (m s) = Some (after m s).
Proof. unfold after. by destruct (m s). Qed.

Definition at_block (n : Z) (c : C) : C :=
  mkChain (dkg c) (voting c) (queue c) (bridges c) n.

Definition keys_for (k : bytes) (signers : list Z) : AggregatedPublicKeys :=
  (λ i, (k, toy_sig i k)) <$> signers.

Abbreviation call := (runtime_call (Sys := Z)).

Definition c0 : C := after (genesis demo_genesis) (chain_empty 0).
Definition c1 : C := after (call NoOrigin (CallDKG (Dkg.SubmitPublicKey (keys_for key1 [1; 2; 3]))))
  (at_block 5 c0).
Definition c2 : C := after (call Root (CallDKGProposals (Voting.SetThreshold 2))) c1.
Abbreviation vote i n :=
  (call (SignedBy (acct i)) (CallDKGProposals (Voting.AcknowledgeProposal (anchor_update n)))).
Definition c3 : C := after (vote 1 1) c2.
Definition c4 : C := after (vote 2 1) c3.

(** The approved update is put into a batch. *)
Definition c5 : C := after (run_hook (OnIdle 6 1000)) (at_block 6 c4).
(** The next authorities submit their key; the next block starts the refresh. *)
Definition c6 : C := after (call NoOrigin (CallDKG (Dkg.SubmitNextPublicKey (keys_for key2 [1; 2; 3]))))
  (at_block 10 c5).
Definition c7 : C := after (run_hook (OnInitialize 11)) (at_block 11 c6).
Definition c8 : C := after (run_hook (OnIdle 12 1000)) (at_block 12 c7).

(** The refresh proposal comes back in a batch signed by the first key. *)
Definition refresh1 : RefreshProposal := default refresh_default (PendingRefreshProposal (dkg c8)).
Definition refresh1_data : bytes :=
  match refresh_encode (E := MetadataError) refresh1 with Ok bs => bs | _ => [] end.
Definition refresh1_sig : bytes := toy_sig 11 refresh1_data.
Definition refresh1_signed : Proposal := Signed Refresh refresh1_data refresh1_sig.
Definition refresh1_batch : SignedProposalBatch := {|
  sb_batch_id := 1; sb_proposals := [refresh1_signed]; sb_signature := refresh1_sig |}.
Abbreviation submit_batches sbs :=
  (call (SignedBy (acct 9)) (CallDKGProposalHandler (Batches.SubmitSignedProposals sbs))).
Definition c9 : C := after (submit_batches [refresh1_batch]) c8.
Definition c10 : C := after (run_hook (OnNewSession validators4 validators4)) (at_block 20 c9).
