(* ===== verification/Witnesses.v ===== *)
(** * The theorems on a concrete chain

    Each theorem with hypotheses is applied to the run of Demo.v, its hypotheses
    discharged by evaluation. *)

From S2P Require Import Prelude.
From S2P Require Import Frame.
From S2P Require Import Primitives.
From S2P Require Import Merkle.
From S2P Require Import Traits.
From S2P Require Import BridgeRegistry.
From S2P Require Import Proposals.
From S2P Require Import ProposalHandler.
From S2P Require Import ProposalHandlerSpec.
From S2P Require Import Metadata.
From S2P Require Import MetadataQuorum.
From S2P Require Import MetadataSpec.
From S2P Require Import MetadataRotation.
From S2P Require Import MetadataKeys.
From S2P Require Import Sessions.
From S2P Require Import Runtime.
From S2P Require Import RuntimeSpec.
From S2P Require Import Demo.

(** Prove a closed equation by evaluation. *)
Ltac eval_eq := lazymatch goal with |- _ = ?r => vm_cast_no_check (eq_refl r) end.

(** Prove that a closed computation returns in the state it is said to. *)
Ltac eval_run_pair p := unfold p; apply after_returns_pair; eval_eq.
Ltac eval_final p := unfold p; apply after_final; eval_eq.

(** ** The run is a run *)

Lemma demo_initial : initial c0.
Proof. exists demo_genesis, 0. unfold c0. apply after_returns. eval_eq. Qed.

Lemma run_call_step o rc (c : C) :
  match call o rc c with Panic => false | _ => true end = true →
  rtc step c (after (call o rc) c).
Proof. intros Hr. by apply rtc_once, (step_call o rc), after_final. Qed.

Lemma run_hook_step h (c : C) :
  match run_hook h c with Panic => false | _ => true end = true →
  rtc step c (after (run_hook h) c).
Proof. intros Hr. by apply rtc_once, (step_hook h), after_final. Qed.

Lemma wait n (c : C) : rtc step c (at_block n c).
Proof. apply rtc_once, (step_system c n). Qed.

Ltac run_step c :=
  unfold c; lazymatch goal with
  | |- rtc step _ (after (run_hook _) _) => apply run_hook_step
  | |- _ => apply run_call_step
  end; eval_eq.
Ltac wait_step n c := etrans; [apply (wait n)|run_step c].

Lemma demo_step1 : rtc step c0 c1.
Proof. wait_step 5 c1. Qed.

Lemma demo_step3 : rtc step c1 c3.
Proof. trans c2; [run_step c2|run_step c3]. Qed.

Lemma demo_step4 : rtc step c3 c4.
Proof. run_step c4. Qed.

Lemma demo_step5 : rtc step c4 c5.
Proof. wait_step 6 c5. Qed.

Lemma demo_step8 : rtc step c5 c8.
Proof. trans c6; [wait_step 10 c6|]. trans c7; [wait_step 11 c7|wait_step 12 c8]. Qed.

Lemma demo_step9 : rtc step c8 c9.
Proof. run_step c9. Qed.

Lemma demo_step10 : rtc step c8 c10.
Proof. etrans; [apply demo_step9|wait_step 20 c10]. Qed.

Lemma demo_steps : rtc step c0 c10.
Proof.
  etrans; [apply demo_step1|]. etrans; [apply demo_step3|]. etrans; [apply demo_step4|].
  etrans; [apply demo_step5|]. etrans; [apply demo_step8|apply demo_step10].
Qed.

Lemma demo_inv3 : chain_inv c3.
Proof.
  eapply steps_keep; [|apply initial_inv, demo_initial].
  etrans; [apply demo_step1|apply demo_step3].
Qed.

Lemma demo_inv4 : chain_inv c4.
Proof. eapply steps_keep; [apply demo_step4|apply demo_inv3]. Qed.

Lemma demo_inv5 : chain_inv c5.
Proof. eapply steps_keep; [apply demo_step5|apply demo_inv4]. Qed.

Lemma demo_inv8 : chain_inv c8.
Proof. eapply steps_keep; [apply demo_step8|apply demo_inv5]. Qed.

(** Decide a closed proposition by evaluation. *)
Ltac eval_decide := apply (bool_decide_eq_true_1 _); eval_eq.

(** The worlds of the three pallets in a state of the chain. *)
Abbreviation QW := (Metadata * (Proposals * (BridgeRegistry * Z)))%type.
Definition dkg_rest (c : C) := (dkg_view c).2.
Definition voting_rest (c : C) := (voting_view c).2.
Definition queue_rest (c : C) := (queue_view c).2.

(** ** The chain *)

Lemma key_provenance_witness :
  ∃ c', rtc step c0 c' ∧ rtc step c' c10 ∧ quorum_signed (dkg c') key2.
Proof. apply (proj1 (key_provenance c0 c10 demo_initial demo_steps) 1). eval_eq. Defined.

Lemma reachable_inv_witness : chain_inv c10.
Proof. apply reachable_inv. exists c0. split; [apply demo_initial|apply demo_steps]. Defined.

Lemma Some_default {A} (d : A) o : bool_decide (is_Some o) = true → o = Some (default d o).
Proof. by destruct o. Qed.

Lemma refresh1_pending : PendingRefreshProposal (dkg c8) = Some refresh1.
Proof. unfold refresh1. apply Some_default. eval_eq. Qed.

Lemma refresh1_encoded : refresh_encode refresh1 = (Ok refresh1_data : result MetadataError bytes).
Proof.
  assert (match refresh_encode (E := MetadataError) refresh1 with Ok _ => true | _ => false end = true)
    as E by eval_eq.
  unfold refresh1_data. destruct (refresh_encode refresh1); done.
Qed.

Lemma refresh_rotates_key_witness :
  ∃ d, runtime_call (SignedBy (acct 9))
         (CallDKGProposalHandler (Batches.SubmitSignedProposals [refresh1_batch])) c8 = Ret tt d ∧
    ∀ e, run_hook (OnNewSession validators4 validators4) d = Ret tt e →
      api_dkg_pub_key e = (1, key2).
Proof.
  destruct (refresh_rotates_key (SignedBy (acct 9)) c8 1
    (mkProposalIdentifier (RefreshProposalKey 1) (OtherChain 1799 117901063))
    refresh1 refresh1_data refresh1_sig refresh1_sig (1, key2) demo_inv8)
    as (d & Hd & _ & _ & Hrot);
    [eval_eq|eval_decide|eval_eq|eval_eq|eval_eq|apply refresh1_pending|apply refresh1_encoded
    |by vm_compute|eval_decide|].
  exists d. split; [exact Hd|]. intros e He. by destruct (Hrot _ _ _ He).
Defined.

Definition demo_vote_key : VoteKey := (Evm 5, (1, anchor_update 1)).

Lemma demo_newly_approved t :
  Votes t !! demo_vote_key = Some (mkProposalVotes [acct 1; acct 2] [] Approved 125) →
  newly_approved (voting c3) t demo_vote_key.
Proof.
  intros Ht. assert (Votes (voting c3) !! demo_vote_key =
    Some (mkProposalVotes [acct 1] [] Initiated 125)) as E by eval_eq.
  split; [|by intros v; rewrite E; intros [= <-]].
  exists (mkProposalVotes [acct 1; acct 2] [] Approved 125). by split.
Qed.

Lemma approved_proposal_queued_witness :
  ∃ v id, Votes (voting c4) !! demo_vote_key = Some v ∧ ProposerThreshold (voting c3) <= len (votes_for v) ∧
    pending (queue c4) ≡ₚ mkUnsignedProposal (typed_chain_id id) (key id) (anchor_update 1) ::
      pending (queue c3).
Proof.
  destruct (approved_proposal_queued (SignedBy (acct 2))
    (Voting.AcknowledgeProposal (anchor_update 1)) c3 c4 demo_vote_key demo_inv3)
    as (v & id & Hv & _ & Hth & _ & Hp & _);
    [unfold c4; apply after_returns; eval_eq|apply demo_newly_approved; eval_eq|].
  exists v, id. split_and!; [exact Hv|exact Hth|exact Hp].
Defined.

(** ** pallet-dkg-metadata *)

(** The metadata pallet after one of its operations. *)
Abbreviation dkg_after m c := (after (m : M _ (DispatchError MetadataError RuntimeError) unit)
  (dkg c, dkg_rest c)).

Definition key_set :=
  dkg_after (Dkg.submit_public_key NoOrigin (keys_for key1 [1; 2; 3])) (at_block 5 c0).

Lemma submit_public_key_quorum_witness :
  let s := dkg (at_block 5 c0) in
  ∃ key voters, backed_by (keys_for key1 [1; 2; 3]) (BestAuthorities s).*2 key voters ∧
    SignatureThreshold s <= len voters ∧ DKGPublicKey key_set.1 = Some (AuthoritySetId s, key).
Proof.
  intros s. destruct (submit_public_key_quorum (F := RuntimeError) NoOrigin
    (keys_for key1 [1; 2; 3]) s (dkg_rest (at_block 5 c0)) tt key_set.1 key_set.2)
    as (_ & _ & _ & key & voters & Hb & Hth & Hk & _); [eval_run_pair key_set|].
  exists key, voters. split_and!; [exact Hb|exact Hth|exact Hk].
Defined.

Definition next_key_set :=
  dkg_after (Dkg.submit_next_public_key NoOrigin (keys_for key2 [1; 2; 3])) (at_block 10 c5).

Lemma submit_next_public_key_quorum_witness :
  let s := dkg (at_block 10 c5) in
  ∃ key voters, backed_by (keys_for key2 [1; 2; 3]) (NextBestAuthorities s).*2 key voters ∧
    NextSignatureThreshold s <= len voters ∧
    NextDKGPublicKey next_key_set.1 = Some (NextAuthoritySetId s, key).
Proof.
  intros s. destruct (submit_next_public_key_quorum (F := RuntimeError) NoOrigin
    (keys_for key2 [1; 2; 3]) s (dkg_rest (at_block 10 c5)) tt next_key_set.1 next_key_set.2)
    as (_ & _ & _ & key & voters & Hb & Hth & Hk & _); [eval_run_pair next_key_set|].
  exists key, voters. split_and!; [exact Hb|exact Hth|exact Hk].
Defined.

Definition rotated := dkg_after (Dkg.on_new_session validators4 validators4) (at_block 20 c9).

Lemma on_new_session_effect_witness :
  rotated_to (dkg (at_block 20 c9)) rotated.1 (1, key2) refresh1_sig validators4.*2 validators4.*1.
Proof.
  destruct (on_new_session_effect (F := RuntimeError) validators4 validators4 (dkg (at_block 20 c9))
    (dkg_rest (at_block 20 c9)) tt rotated.1 rotated.2) as (_ & _ & Hm); [eval_run_pair rotated|].
  assert (NextDKGPublicKey (dkg (at_block 20 c9)) = Some (1, key2)) as E1 by eval_eq.
  assert (NextPublicKeySignature (dkg (at_block 20 c9)) = Some refresh1_sig) as E2 by eval_eq.
  rewrite E1, E2 in Hm. exact Hm.
Defined.

Lemma next_thresholds_valid_witness :
  NextSignatureThreshold rotated.1 < NextKeygenThreshold rotated.1 <= len validators4.
Proof.
  destruct (next_thresholds_valid (F := RuntimeError) validators4 validators4 (dkg (at_block 20 c9))
    (dkg_rest (at_block 20 c9)) tt rotated.1 rotated.2) as [Ht _];
    [by vm_compute|by vm_compute|by vm_compute|eval_run_pair rotated|exact Ht].
Defined.

Definition threshold_set := dkg_after (Dkg.set_keygen_threshold Root 4) c1.

Lemma set_keygen_threshold_valid_witness :
  2 <= 4 <= len (NextAuthorities threshold_set.1) ∧ pending_ok threshold_set.1.
Proof.
  destruct (set_keygen_threshold_valid (F := RuntimeError) Root 4 (dkg c1) (dkg_rest c1) tt
    threshold_set.1 threshold_set.2) as (_ & _ & _ & Hn & Hp & _); [eval_run_pair threshold_set|].
  split; [exact Hn|exact Hp].
Defined.

Definition demo_report (ty : MisbehaviourType) : AggregatedMisbehaviourReports := {|
  misbehaviour_type := ty; report_session_id := 0; offender := auth 3;
  reporters := [auth 1; auth 2; auth 4];
  report_signatures := (λ i, toy_sig i (misbehaviour_payload ty 0 (auth 3))) <$> [1; 2; 4] |}.

Definition reported (ty : MisbehaviourType) :=
  dkg_after (Dkg.submit_misbehaviour_reports NoOrigin (demo_report ty)) c1.

Lemma keygen_report_effect_witness :
  (auth 3 ∉ (NextBestAuthorities (reported MisbehaviourKeygen).1).*2) ∧
  JailedKeygenAuthorities (reported MisbehaviourKeygen).1 !! auth 3 = Some (block_number (dkg_rest c1)).
Proof.
  destruct (keygen_report_effect (F := RuntimeError) NoOrigin (demo_report MisbehaviourKeygen)
    (dkg c1) (dkg_rest c1) tt (reported MisbehaviourKeygen).1 (reported MisbehaviourKeygen).2)
    as (_ & _ & _ & _ & _ & Hout & _ & _ & Hj); [eval_eq|eval_run_pair reported|].
  split; [exact Hout|]. apply Hj. eval_decide.
Defined.

Lemma signing_report_effect_witness :
  JailedSigningAuthorities (reported MisbehaviourSign).1 =
    <[auth 3 := block_number (dkg_rest c1)]> (JailedSigningAuthorities (dkg c1)).
Proof.
  destruct (signing_report_effect (F := RuntimeError) NoOrigin (demo_report MisbehaviourSign)
    (dkg c1) (dkg_rest c1) tt (reported MisbehaviourSign).1 (reported MisbehaviourSign).2)
    as (_ & Hj & _); [eval_eq|by vm_compute|eval_run_pair reported|exact Hj].
Defined.

Lemma get_best_authorities_spec_witness :
  (get_best_authorities (dkg c1) 3 validators4.*2).*1 = seqZ 1 3.
Proof.
  destruct (get_best_authorities_spec (dkg c1) 3 validators4.*2) as [Hn _];
    [done|eval_decide|by vm_compute|exact Hn].
Defined.

Lemma create_refresh_proposal_total_witness :
  ∃ p data, refresh_decode data = Some p ∧
    Dkg.create_refresh_proposal (F := RuntimeError) key2 1 (dkg_view c6) =
      Ret (Unsigned Refresh data) ((dkg c6) <| PendingRefreshProposal := Some p |>, dkg_rest c6).
Proof.
  destruct (create_refresh_proposal_total (F := RuntimeError) key2 1 (dkg c6) (dkg_rest c6))
    as (p & data & _ & _ & _ & Hd & Hr); [by vm_compute..|].
  exists p, data. split; [exact Hd|exact Hr].
Defined.

Definition refresh_accepted :=
  after (Dkg.on_signed_proposal (F := RuntimeError) refresh1_signed) (dkg c8, (queue_rest c8).2).

Lemma on_signed_refresh_accepts_witness :
  ∃ curr sig, PendingRefreshProposal (dkg c8) = Some curr ∧
    refresh_encode curr = (Ok refresh1_data : result MetadataError _) ∧
    NextPublicKeySignature refresh_accepted.1 = Some sig.
Proof.
  destruct (on_signed_refresh_accepts (F := RuntimeError) refresh1_signed (dkg c8) (queue_rest c8).2
    tt refresh_accepted.1 refresh_accepted.2)
    as (key & curr & sig & _ & _ & _ & Hp & He & _ & _ & Hs & _); [eval_eq|eval_run_pair refresh_accepted|].
  exists curr, sig. split_and!; [exact Hp|exact He|exact Hs].
Defined.

Definition initialized := dkg_after (Dkg.on_initialize 11) (at_block 11 c6).

Lemma on_initialize_effect_witness :
  DKGPublicKey initialized.1 = DKGPublicKey (dkg (at_block 11 c6)) ∧
  RefreshNonce initialized.1 = RefreshNonce (dkg (at_block 11 c6)).
Proof.
  destruct (on_initialize_effect (F := RuntimeError) 11 (dkg (at_block 11 c6))
    (dkg_rest (at_block 11 c6)) tt initialized.1 initialized.2) as (_ & Hk & _ & Hn & _); [eval_run_pair initialized|].
  split; [exact Hk|exact Hn].
Defined.

(** The metadata pallet next to handlers that do nothing. *)
Section unit_handlers.
  #[local] Existing Instance proposal_handler_unit.

Lemma refresh_cycle_witness :
  ∃ t data, Dkg.do_refresh (W := Z) (F := RuntimeError) key2 (dkg c6, 11) = Ret tt (t, 11) ∧
    ∃ v, Dkg.on_signed_proposal (F := RuntimeError) (Signed Refresh data refresh1_sig) (t, 11) =
           Ret tt (v, 11) ∧
      refresh_decode data = CurrentRefreshProposal v.
Proof.
  destruct (refresh_cycle (W := Z) (F := RuntimeError) (1, key2) (4 :: x_of 12 ++ replicate 32 0)
    refresh1_sig (dkg c6) 11 11) as (t & data & Hr & _ & v & Hv & _ & Hd);
    [by vm_compute..|eval_eq|eval_eq|eval_eq|eval_decide|done|].
  exists t, data. split; [exact Hr|]. exists v. split; [exact Hv|exact Hd].
Defined.
End unit_handlers.

(** ** pallet-dkg-proposal-handler *)

Definition full_block : @Weight demo_weights := 1000.

Lemma demo_inv9 : chain_inv c9.
Proof. eapply steps_keep; [apply demo_step9|apply demo_inv8]. Qed.

Definition batch_signed := after (Batches.handler_call (W := QW) (F := RuntimeError)
  (SignedBy (acct 9)) (Batches.SubmitSignedProposals [refresh1_batch])) (queue c8, queue_rest c8).

Lemma handler_call_inv_witness : handler_inv batch_signed.1.
Proof.
  apply (handler_call_inv (W := QW) (F := RuntimeError) (SignedBy (acct 9))
    (Batches.SubmitSignedProposals [refresh1_batch]) (queue c8) (queue_rest c8)
    batch_signed); [by vm_compute|apply demo_inv8|eval_final batch_signed].
Defined.

Lemma handle_signed_proposal_batch_spec_witness :
  returns (Batches.handle_signed_proposal_batch (W := QW) (F := RuntimeError) refresh1_batch
    (queue c8, queue_rest c8)) = true.
Proof.
  rewrite (handle_signed_proposal_batch_spec (W := QW) (F := RuntimeError) refresh1_batch (queue c8)
    (queue_rest c8)) by apply demo_inv8. eval_eq.
Defined.

Lemma signed_batch_id_final_witness :
  returns (Batches.handle_signed_proposal_batch (W := QW) (F := RuntimeError) refresh1_batch
    (queue c9, queue_rest c9)) = false.
Proof.
  apply (signed_batch_id_final (W := QW) (F := RuntimeError) (OtherChain 1799 117901063) refresh1_batch
    refresh1_batch); [apply demo_inv9|eval_eq].
Defined.

Definition batch_submitted := after (Batches.submit_one (W := QW) (F := RuntimeError)
  refresh1_batch) (queue c8, queue_rest c8).

Lemma submit_one_needs_current_key_witness :
  ∃ k, SignedProposals batch_submitted.1 = <[k := refresh1_batch]> (SignedProposals (queue c8)).
Proof.
  pose proof (submit_one_needs_current_key (W := QW) (F := RuntimeError) refresh1_batch (queue c8)
    (queue_rest c8) tt batch_submitted.1 batch_submitted.2) as Hs.
  assert (ensure_signed_by_dkg (dkg_key (queue_rest c8)) (sb_signature refresh1_batch)
    (signed_batch_data refresh1_batch) = Ok tt) as E by eval_eq.
  rewrite E in Hs. destruct Hs as (k & Hk & _); [apply demo_inv8|eval_run_pair batch_submitted|].
  exists k. exact Hk.
Defined.

Lemma on_idle_create_conserves_witness :
  ∃ r' t, Batches.on_idle_create_proposal_batches (W := QW) (F := RuntimeError) full_block (queue c4, queue_rest c4) =
    Ret r' (t, queue_rest c4) ∧ pending t ≡ₚ pending (queue c4).
Proof.
  destruct (on_idle_create_conserves (W := QW) (F := RuntimeError) full_block (queue c4) (queue_rest c4))
    as (r' & t & Hr & _ & Hp & _); [apply demo_inv4|].
  exists r', t. split; [exact Hr|exact Hp].
Defined.

Lemma on_idle_remove_expired_effect_witness :
  ∃ r' t, Batches.on_idle_remove_expired_batches (W := QW) (F := RuntimeError) 100 full_block
      (queue c5, queue_rest c5) = Ret r' (t, queue_rest c5) ∧
    UnsignedProposalQueue t ⊆ UnsignedProposalQueue (queue c5).
Proof.
  destruct (on_idle_remove_expired_effect (W := QW) (F := RuntimeError) 100 full_block (queue c5)
    (queue_rest c5)) as (r' & t & Hr & _ & _ & _ & Hs & _); [apply demo_inv5|].
  exists r', t. split; [exact Hr|exact Hs].
Defined.

Lemma on_idle_total_witness :
  ∃ r' t, Batches.on_idle (W := QW) (F := RuntimeError) 6 full_block (queue c4, queue_rest c4) =
    Ret r' (t, queue_rest c4) ∧ handler_inv t.
Proof.
  destruct (on_idle_total (W := QW) (F := RuntimeError) 6 full_block (queue c4) (queue_rest c4))
    as (r' & t & Hr & Ht & _); [apply demo_inv4|].
  exists r', t. split; [exact Hr|exact Ht].
Defined.

Lemma handle_unsigned_proposal_stores_witness :
  match Batches.handle_unsigned_proposal (W := QW) (F := RuntimeError) (anchor_update 2)
          (queue c3, queue_rest c3) with
  | Ret _ (t, _) => pending t ≡ₚ
      mkUnsignedProposal (Evm 5) (AnchorUpdateProposal 2) (anchor_update 2) :: pending (queue c3)
  | _ => False
  end.
Proof.
  pose proof (handle_unsigned_proposal_stores (W := QW) (F := RuntimeError) (anchor_update 2)
    (mkProposalIdentifier (AnchorUpdateProposal 2) (Evm 5)) (queue c3) (queue_rest c3)) as Hs.
  assert (returns (Batches.handle_unsigned_proposal (W := QW) (F := RuntimeError) (anchor_update 2)
    (queue c3, queue_rest c3)) = true) as E by eval_eq.
  destruct (Batches.handle_unsigned_proposal (anchor_update 2) (queue c3, queue_rest c3))
    as [u [t w]| |]; [|discriminate E..].
  destruct Hs as (_ & _ & Hp); [by vm_compute|apply demo_inv3|eval_eq|exact Hp].
Defined.

Lemma get_expected_signer_fair_witness :
  ∃ block, 7 <= block < 11 ∧
    Batches.get_expected_signer (W := QW) (F := RuntimeError) block (queue c4, queue_rest c4) =
      Ret (Some (acct 3)) (queue c4, queue_rest c4).
Proof.
  destruct (get_expected_signer_fair (W := QW) (F := RuntimeError) 7 (queue c4) (queue_rest c4) 2 (acct 3))
    as (block & Hb & Hs); [done|by vm_compute|eval_eq|].
  exists block. split; [exact Hb|exact Hs].
Defined.

Lemma submit_signed_proposal_onchain_calls_witness :
  ∃ r, Batches.submit_signed_proposal_onchain (W := QW) (F := RuntimeError) [acct 1]
         (Some (Some [refresh1_batch])) 12 (queue c8, queue_rest c8) =
       Ret r (queue c8, queue_rest c8).
Proof.
  destruct (submit_signed_proposal_onchain_calls (W := QW) (F := RuntimeError) [acct 1] [refresh1_batch] 12
    (queue c8) (queue_rest c8)) as (r & Hr & _); [by vm_compute|by repeat constructor| |].
  - intros b p Hb. apply list_elem_of_singleton in Hb as ->. intros [= <-]. by vm_compute.
  - exists r. exact Hr.
Defined.

(** ** pallet-dkg-proposals *)

Abbreviation voting_after o call c :=
  (after (Voting.proposals_call (F := RuntimeError) o call) (voting c, voting_rest c)).

Definition acknowledged :=
  voting_after (SignedBy (acct 2)) (Voting.AcknowledgeProposal (anchor_update 1)) c3.

Definition voted := after (Voting.acknowledge_proposal (F := RuntimeError) (SignedBy (acct 2))
  (anchor_update 1)) (voting c3, voting_rest c3).

Lemma vote_calls_effect_witness :
  vote_effect (acct 2) (anchor_update 1) true (voting c3) voted.1 (voting_rest c3) voted.2.
Proof.
  destruct (vote_calls_effect (F := RuntimeError) true (SignedBy (acct 2)) (anchor_update 1)
    (voting c3) (voting_rest c3) tt voted.1 voted.2) as (who & Hw & He); [eval_run_pair voted|].
  injection Hw as <-. exact He.
Defined.

Lemma votes_inv_call_witness : votes_inv acknowledged.1.
Proof.
  apply (votes_inv_call (F := RuntimeError) (SignedBy (acct 2))
    (Voting.AcknowledgeProposal (anchor_update 1)) (voting c3) (voting_rest c3) acknowledged);
    [by vm_compute|apply demo_inv3|eval_final acknowledged].
Defined.

(** A vote against the approved proposal is refused. *)
Definition refused :=
  voting_after (SignedBy (acct 3)) (Voting.RejectProposal (anchor_update 1)) c4.

Lemma completed_votes_final_witness :
  Votes refused.1 !! demo_vote_key = Some (mkProposalVotes [acct 1; acct 2] [] Approved 125).
Proof.
  apply (completed_votes_final (F := RuntimeError) (SignedBy (acct 3))
    (Voting.RejectProposal (anchor_update 1)) (voting c4) (voting_rest c4) demo_vote_key
    (mkProposalVotes [acct 1; acct 2] [] Approved 125) refused); [eval_eq|done|eval_final refused].
Defined.

Lemma approval_runs_handler_witness :
  handle_unsigned_proposal (anchor_update 1) (voting_rest c3) = Ret tt acknowledged.2.
Proof.
  destruct (approval_runs_handler (F := RuntimeError) (SignedBy (acct 2))
    (Voting.AcknowledgeProposal (anchor_update 1)) (voting c3) (voting_rest c3) tt acknowledged.1
    acknowledged.2) as [Ha _]; [by vm_compute|apply demo_inv3|eval_run_pair acknowledged|].
  apply (Ha demo_vote_key). apply demo_newly_approved. eval_eq.
Defined.

Lemma rejection_sound_witness : len [acct 3] < 2.
Proof.
  apply (rejection_sound (mkProposalVotes [] [acct 1; acct 2] Initiated 10) 2
    [acct 1; acct 2; acct 3] (mkProposalVotes [] [acct 1; acct 2] Rejected 10) [acct 3]);
    [done|eval_eq|eval_decide|eval_decide].
Defined.

Lemma full_vote_decides_witness :
  (try_to_complete (mkProposalVotes [acct 1] [acct 2; acct 3] Initiated 10) 2 3).2 ≠ Initiated.
Proof.
  apply (full_vote_decides (mkProposalVotes [acct 1] [acct 2; acct 3] Initiated 10) 2 3);
    [done|by vm_compute|done].
Defined.

(** ** pallet-bridge-registry *)

Definition registry1 : BridgeRegistry := mkBridgeRegistry 1 ∅ ∅.

Lemma registry1_inv : registry_inv registry1.
Proof.
  split; simpl; [done|..]; intros *; rewrite lookup_empty; intros Hl; discriminate Hl.
Qed.

Definition signed_update : Proposal := Signed AnchorUpdate (proposal_data (anchor_update 1)) [].

Definition registry2 : BridgeRegistry :=
  after (Registry.on_signed_proposal (F := RuntimeError) signed_update) registry1.

Definition linked : BridgeRegistry :=
  after (Registry.link_resources (F := RuntimeError) (resource 8) (resource 7)) registry1.

Lemma link_resources_effect_witness :
  Registry.bridge_index_of linked (resource 8) = Registry.bridge_index_of linked (resource 7) ∧
  Registry.bridge_index_of linked (resource 8) ≠ 0.
Proof.
  destruct (link_resources_effect (F := RuntimeError) (resource 8) (resource 7) registry1 tt linked)
    as (He & Hn & _); [done|unfold linked; apply after_returns; eval_eq|]. split; [exact He|exact Hn].
Defined.

Lemma on_signed_proposal_inv_witness : registry_inv registry2.
Proof.
  apply (on_signed_proposal_inv (F := RuntimeError) signed_update registry1 tt registry2);
    [apply registry1_inv|by vm_compute|unfold registry2; apply after_returns; eval_eq].
Defined.

(** ** Primitives and the Merkle tree *)

Lemma refresh_roundtrip_witness :
  ∃ bs, refresh_encode refresh1 = (Ok bs : result MetadataError bytes) ∧
    refresh_decode bs = Some refresh1.
Proof.
  destruct (refresh_roundtrip (E := MetadataError) refresh1) as (bs & He & _ & Hd);
    [split_and!; by vm_compute|]. exists bs. split; [exact He|exact Hd].
Defined.

Lemma verify_signer_from_set_ecdsa_spec_witness :
  ∃ k x, recover_ecdsa_pub_key key1 (toy_sig 2 key1) = Some k ∧
    x ∈ dkg_bytes <$> validators4.*2 ∧ drop 1 x = take 32 k.
Proof.
  destruct (verify_signer_from_set_ecdsa_spec (dkg_bytes <$> validators4.*2) key1 (toy_sig 2 key1)
    (Some (2 :: x_of 2)) true) as [[Hs _] _]; [eval_eq|]. apply Hs. reflexivity.
Defined.

Lemma get_voter_set_tree_height_least_witness :
  5 <= 2 ^ get_voter_set_tree_height 5 ∧ 2 ^ 2 < 5.
Proof.
  destruct (get_voter_set_tree_height_least 5) as (_ & Hu & Hl); [done|].
  split; [exact Hu|]. apply Hl; [done|by vm_compute].
Defined.

Lemma get_voter_set_tree_root_reference_witness :
  get_voter_set_tree_root validators4.*2 = Some (merkle_root 2 (merkle_leaves validators4.*2)).
Proof. destruct (get_voter_set_tree_root_reference validators4.*2) as [Hr _]; [by vm_compute|exact Hr]. Defined.

(** ** Offchain workers *)

Definition demo_offchain : OffchainKeys := {|
  agg_keys := Present (keys_for key2 [1; 2; 3]); submit_at := Present 8 |}.

Lemma submit_next_public_key_onchain_once_witness :
  (Workers.submit_next_public_key_onchain (λ _, true) (dkg c5)
    (mkOffchainKeys Missing Missing) 11).2 = None.
Proof.
  apply (Workers.submit_next_public_key_onchain_once (λ _, true) (dkg c5) demo_offchain 10 (inr tt)
    (mkOffchainKeys Missing Missing) (Dkg.SubmitNextPublicKey (keys_for key2 [1; 2; 3]))). eval_eq.
Defined.
