(* ===== verification/GadgetDemo.v ===== *)
(** * A concrete node and a concrete network

    Instances of the parameters of the gadget's model, with their laws: the chain of
    four validators of Demo.v as the first of them sees it, its keystore, a toy codec,
    and two gossip handlers that are connected to each other.  GadgetWitnesses.v
    evaluates the theorems on them. *)

From S2P Require Import Prelude.
From S2P Require Import Frame.
From S2P Require Import Primitives.
From S2P Require Import GadgetTypes.
From S2P Require Import Remote.
From S2P Require Import WorkManager.
From S2P Require Import Client.
From S2P Require Import Node.
From S2P Require Import SigningManager.
From S2P Require Import SigningManagerSpec.
From S2P Require Import Worker.
From S2P Require Import Gossip.
From S2P Require Import GossipSpec.
From S2P Require Import GossipNetwork.
From S2P Require Import Demo.

(** ** The node *)

#[export] Instance demo_job_order : JobOrder := map_to_list.

#[export] Instance demo_job_laws : JobOrderLaws.
Proof. by intros m. Qed.

Definition demo_batch : StoredUnsignedProposalBatch := {|
  ub_batch_id := 0;
  ub_proposals := [mkUnsignedProposal (Evm 5) (AnchorUpdateProposal 1) (anchor_update 1)];
  ub_timestamp := 6 |}.

Definition best4 : list (Z * DKGId) := [(1, auth 1); (2, auth 2); (3, auth 3); (4, auth 4)].

(** Before block 10 the chain has no key, afterwards it has one and a batch to sign. *)
#[export] Instance demo_client : Client := λ h, {|
  at_dkg_pub_key := Some (0, if number h <? 10 then [] else key1);
  at_next_dkg_pub_key := Some None;
  at_best_authorities := Some best4;
  at_next_best_authorities := Some best4;
  at_keygen_threshold := Some 4;
  at_next_keygen_threshold := Some 4;
  at_signature_threshold := Some 2;
  at_next_signature_threshold := Some 2;
  at_authority_set := Some (mkAuthoritySet best4.*2 0);
  at_queued_authority_set := Some (mkAuthoritySet best4.*2 1);
  at_keygen_jailed := Some (λ _, []);
  at_should_execute_new_keygen := Some (false, false);
  at_unsigned_proposal_batches := Some [demo_batch] |}.

(** The node holds the key of the first validator. *)
#[export] Instance demo_keystore : Keystore := {|
  ecdsa_public_keys := Some [auth 1];
  has_keys k := bool_decide (k = auth 1);
  ecdsa_sign_prehashed public hash :=
    if decide (public = auth 1 ∧ length hash = 32%nat) then Some (toy_sign (x_of 1) hash) else None |}.

Lemma slice_toy_sign x hash :
  length x = 32%nat → length hash = 32%nat → slice 32 64 (toy_sign x hash) = hash.
Proof.
  intros Hx Hh. unfold toy_sign, slice. rewrite drop_app_length' by done.
  rewrite take_app_le by lia. by rewrite take_ge by lia.
Qed.

#[export] Instance demo_keystore_laws : KeystoreLaws.
Proof.
  split.
  - intros public hash sig. cbv [ecdsa_sign_prehashed demo_keystore]. case_decide as Hd; [|done].
    intros <-%(inj Some). unfold toy_sign. rewrite !length_app. cbn. destruct Hd as [_ ->]. done.
  - intros public hash sig. cbv [ecdsa_sign_prehashed demo_keystore]. case_decide as Hd; [|done].
    intros <-%(inj Some). destruct Hd as [-> Hh]. exists (x_of 1 ++ replicate 32 0). split; [|done].
    cbv [secp256k1_ecdsa_recover demo_crypto]. rewrite decide_True; [done|]. split.
    + unfold toy_sign. rewrite !length_app. cbn. lia.
    + by apply slice_toy_sign.
Qed.

#[export] Instance demo_codec : MessageCodec := {|
  encode_message m := be_encode 8 (msg_session_id m) ++ payload_bytes (payload m);
  encode_batch b := be_encode 4 (ub_batch_id b) |}.

#[export] Instance demo_delay : SubmissionDelay := λ _, 1.

#[export] Instance demo_delay_laws : SubmissionDelayLaws.
Proof. intros b. by vm_compute. Qed.

Fixpoint sublists (k : nat) (l : list Z) : list (list Z) :=
  match k, l with
  | O, _ => [[]]
  | S k', [] => []
  | S k', x :: rest => (cons x <$> sublists k' rest) ++ sublists k rest
  end.

#[export] Instance demo_signing_sets : SigningSets := {|
  combinations := sublists;
  choose_multiple seed n l := take n l |}.

Lemma sublists_elem k l s : s ∈ sublists k l ↔ s `sublist_of` l ∧ length s = k.
Proof.
  revert k s. induction l as [|x l IH]; intros [|k] s; cbn [sublists].
  - rewrite list_elem_of_singleton. split; [intros ->; done|intros [_ ?%nil_length_inv]; done].
  - split; [intros []%not_elem_of_nil|intros [->%sublist_nil_r ?]; done].
  - rewrite list_elem_of_singleton. split; [intros ->; split; [apply sublist_nil_l|done]|].
    intros [_ ?%nil_length_inv]; done.
  - rewrite elem_of_app, list_elem_of_fmap, IH. split.
    + intros [(s' & -> & [Hs Hl]%IH)|[Hs Hl]]; [|by split; [apply sublist_cons|]].
      split; [by apply sublist_skip|cbn; lia].
    + intros [Hs Hl]. apply sublist_cons_r in Hs as [Hs|(s' & -> & Hs)]; [by right|left].
      exists s'. split; [done|]. apply IH. cbn in Hl. split; [done|lia].
Qed.

#[export] Instance demo_signing_sets_laws : SigningSetsLaws.
Proof.
  split.
  - apply sublists_elem.
  - intros k l. cbn [combinations demo_signing_sets]. revert k.
    induction l as [|x l IH]; intros [|k] Hl; cbn [sublists];
      [apply NoDup_singleton|apply NoDup_nil_2|apply NoDup_singleton|].
    apply NoDup_cons in Hl as [Hx Hl]. apply NoDup_app. split_and!; [|  |by apply IH].
    + apply (NoDup_fmap_2 (cons x)). by apply IH.
    + intros s (s' & -> & _)%list_elem_of_fmap [Hs _]%sublists_elem. apply Hx.
      eapply elem_of_submseteq; [|by apply sublist_submseteq]. by left.
  - intros seed n l Hl. cbn. by rewrite take_ge.
Qed.

#[export] Instance demo_sync : SyncService := λ _, Some false.

Definition block (n : Z) : Header := mkHeader n [].

(** The node at genesis, and on a chain with a key. *)
Definition n0 : Node := worker_new None.
Definition n_keygen : Node := after (initialization (block 1)) n0.
Definition n_signing : Node := after (initialization (block 10)) n0.

(** ** The network *)

#[local] Instance keygen_message_countable : Countable DKGKeygenMessage.
Proof.
  by refine (inj_countable' (λ m, (km_sender_id m, km_keygen_msg m, km_keygen_protocol_hash m))
    (λ '(a, b, c), mkDKGKeygenMessage a b c) _); intros [].
Defined.

#[local] Instance offline_message_countable : Countable DKGOfflineMessage.
Proof.
  by refine (inj_countable' (λ m, (om_key m, om_signer_set_id m, om_offline_msg m, om_unsigned_proposal_hash m))
    (λ '(a, b, c, d), mkDKGOfflineMessage a b c d) _); intros [].
Defined.

#[local] Instance vote_message_countable : Countable DKGVoteMessage.
Proof.
  by refine (inj_countable' (λ m, (vm_party_ind m, vm_round_key m, vm_partial_signature m, vm_unsigned_proposal_hash m))
    (λ '(a, b, c, d), mkDKGVoteMessage a b c d) _); intros [].
Defined.

#[local] Instance public_key_message_countable : Countable PublicKeyMessage.
Proof.
  by refine (inj_countable' (λ m, (pk_session_id m, pk_pub_key m, pk_signature m))
    (λ '(a, b, c), mkPublicKeyMessage a b c) _); intros [].
Defined.

#[local] Instance misbehaviour_message_countable : Countable MisbehaviourMessage.
Proof.
  by refine (inj_countable' (λ m, (mb_misbehaviour_type m, mb_session_id m, mb_offender m, mb_signature m))
    (λ '(a, b, c, d), mkMisbehaviourMessage a b c d) _); intros [].
Defined.

#[local] Instance payload_countable : Countable NetworkMsgPayload.
Proof.
  by refine (inj_countable'
    (λ p, match p with
          | PKeygen m => inl (inl m)
          | POffline m => inl (inr m)
          | PVote m => inr (inl m)
          | PPublicKeyBroadcast m => inr (inr (inl m))
          | PMisbehaviourBroadcast m => inr (inr (inr m))
          end)
    (λ s, match s with
          | inl (inl m) => PKeygen m
          | inl (inr m) => POffline m
          | inr (inl m) => PVote m
          | inr (inr (inl m)) => PPublicKeyBroadcast m
          | inr (inr (inr m)) => PMisbehaviourBroadcast m
          end) _); intros [].
Defined.

#[local] Instance message_countable : Countable DKGMessage.
Proof.
  by refine (inj_countable' (λ m, (sender_id m, recipient_id m, payload m, msg_session_id m,
      msg_associated_block_id m, msg_ssid m))
    (λ '(a, b, c, d, e, f), mkDKGMessage a b c d e f) _); intros [].
Defined.

#[local] Instance signed_message_countable : Countable SignedDKGMessage.
Proof.
  by refine (inj_countable' (λ m, (msg m, msg_signature m)) (λ '(a, b), mkSignedDKGMessage a b) _);
    intros [].
Defined.

#[local] Instance handshake_eq_dec : EqDecision HandshakeMessage.
Proof. solve_decision. Defined.

#[local] Instance handshake_countable : Countable HandshakeMessage.
Proof.
  by refine (inj_countable' (λ h, (hs_authority_id h, hs_peer_id h, hs_signature h))
    (λ '(a, b, c), mkHandshake a b c) _); intros [].
Defined.

#[local] Instance network_message_eq_dec : EqDecision DKGNetworkMessage.
Proof. solve_decision. Defined.

#[local] Instance network_message_countable : Countable DKGNetworkMessage.
Proof.
  by refine (inj_countable' (λ m, match m with NHandshake h => inl h | NDKGMessage s => inr s end)
    (λ s, match s with inl h => NHandshake h | inr m => NDKGMessage m end) _); intros [].
Defined.

(** A message on the wire is its number. *)
#[export] Instance demo_network : Network := {|
  peer_try_from bs := Some bs;
  hash_of bs := bs;
  encode_vote v := vm_partial_signature v;
  encode_public_key_message k := pk_pub_key k;
  encode_misbehaviour_message b := mb_signature b;
  encode_network_message m := [Z.pos (encode m)];
  decode_network_message bs := match bs with [Z.pos p] => decode p | _ => None end;
  verify_prehashed sig hash public := bool_decide (sig = toy_sign (drop 1 (dkg_bytes public)) hash);
  peer_order X := elements X |}.

#[export] Instance demo_network_laws : NetworkLaws.
Proof.
  split.
  - done.
  - intros m. cbn. apply decode_encode.
  - intros public hash sig. cbv [ecdsa_sign_prehashed demo_keystore]. case_decide as Hd; [|done].
    intros <-%(inj Some). destruct Hd as [-> _]. by apply bool_decide_true.
  - done.
Qed.

(** Two handlers that gossip and are connected to each other. *)
Definition peer1 : bytes := [1].
Definition peer2 : bytes := [2].

Definition handler_of (me other : bytes) : GossipHandler :=
  (handler_new [7] me) <| gossip_enabled := true |> <| peers := {[ other := peer_new ]} |>.

Definition net0 : Net := mkNet {[ peer1 := handler_of peer1 peer2; peer2 := handler_of peer2 peer1 ]} [].

Definition hello : SignedDKGMessage :=
  mkSignedDKGMessage (mkDKGMessage (auth 1) None (PVote (mkDKGVoteMessage 1 [] [42] [])) 0 0 0) None.
