(* ===== verification/GadgetWitnesses.v ===== *)
(** * The theorems of the gadget on a concrete node and network

    Each theorem with hypotheses is applied to the node and the network of
    GadgetDemo.v, its hypotheses discharged by evaluation. *)

From S2P Require Import Prelude.
From S2P Require Import Frame.
From S2P Require Import Primitives.
From S2P Require Import Metadata.
From S2P Require Import Sessions.
From S2P Require Import GadgetTypes.
From S2P Require Import Remote.
From S2P Require Import WorkManager.
From S2P Require Import WorkManagerSpec.
From S2P Require Import Client.
From S2P Require Import Node.
From S2P Require Import Reports.
From S2P Require Import ReportsSpec.
From S2P Require Import SigningManager.
From S2P Require Import SigningManagerSpec.
From S2P Require Import KeygenManager.
From S2P Require Import Worker.
From S2P Require Import WorkerSpec.
From S2P Require Import KeygenManagerSpec.
From S2P Require Import WorkerReports.
From S2P Require Import Gossip.
From S2P Require Import GossipSpec.
From S2P Require Import GossipNetwork.
From S2P Require Import Demo.
From S2P Require Import GadgetDemo.

(** Prove a closed equation by evaluation. *)
Ltac eval_eq := lazymatch goal with |- _ = ?r => vm_cast_no_check (eq_refl r) end.

(** Prove a closed decidable proposition by evaluation. *)
Ltac eval_decide P := apply (bool_decide_eq_true_1 P); eval_eq.

(** ** The worker *)

Lemma n_keygen_reachable : node_reachable n_keygen.
Proof.
  exists None. apply rtc_once, (step_initialization (block 1)). unfold n_keygen. apply after_final. eval_eq.
Qed.

Lemma n_signing_reachable : node_reachable n_signing.
Proof.
  exists None. apply rtc_once, (step_initialization (block 10)). unfold n_signing. apply after_final. eval_eq.
Qed.

(** At genesis the node runs one key generation, and it owns its protocol. *)
Lemma node_protocols_owned_witness :
  (size (remotes (keygen_work (keygen_manager n_keygen))) = 1)%nat ∧
  (size (active_tasks (keygen_work (keygen_manager n_keygen))) <= 1)%nat.
Proof.
  destruct (node_protocols_owned n_keygen n_keygen_reachable) as (_ & _ & _ & _ & Hs).
  split; [eval_eq|exact Hs].
Defined.

Definition hash1 : bytes := keccak_256 (unsigned_batch_data demo_batch).

Lemma signing_histories_wf_witness :
  ∃ t, ssid_history (signing_manager n_signing) !! hash1 = Some t ∧ tracker_wf t.
Proof.
  assert (is_Some (ssid_history (signing_manager n_signing) !! hash1)) as [t Ht].
  { apply (bool_decide_eq_true_1 (is_Some _)). eval_eq. }
  exists t. split; [exact Ht|]. apply (signing_histories_wf n_signing hash1 t [] [] [] 0 n_signing_reachable Ht).
Defined.

(** ** Key generation *)

Definition sets4 : AuthoritySet * AuthoritySet := (mkAuthoritySet best4.*2 0, mkAuthoritySet best4.*2 1).



Definition n_block1 : Node := after (Keygen.on_block_finalized (block 1)) n0.

Lemma no_keygen_without_cause_witness : keygen_cause (block 1).
Proof.
  apply (no_keygen_without_cause (block 1) n0 n_block1).
  - unfold n_block1. apply after_final. eval_eq.
  - intros Heq. assert ((next_handle n_block1 =? next_handle n0) = false) as Hf by eval_eq.
    rewrite Heq, Z.eqb_refl in Hf. discriminate Hf.
Defined.

(** ** Signing *)

Import Signer.

Definition round4 (i : Z) : Round := {|
  round_header := block 10; round_session_id := 0; round_dkg_pub_key := key1;
  round_party_i := mkKeygenPartyId i; round_best_authorities := keygen_parties best4;
  round_threshold := 2; round_all := [demo_batch] |}.

Lemma due4 i : due (round4 i) demo_batch n0 hash1.
Proof.
  split; [by eexists|reflexivity|reflexivity|by left|reflexivity].
Qed.

Definition attempt4 : SigningSetHistoryTracker * Z :=
  attempt (gens_of (round4 1) demo_batch) 10 tracker_default.

Definition set4 : ProposedSigningSet :=
  default (mkProposedSigningSet 0 None []) (sets attempt4.1 !! Z.to_nat attempt4.2).

Lemma set4_lookup : sets attempt4.1 !! Z.to_nat attempt4.2 = Some set4.
Proof.
  assert (bool_decide (is_Some (sets attempt4.1 !! Z.to_nat attempt4.2)) = true) as Hs by eval_eq.
  apply bool_decide_eq_true in Hs as [s Hs]. unfold set4. rewrite Hs. reflexivity.
Qed.

Lemma process_batch_spec_witness :
  ∃ n', process_batch (round4 1) demo_batch n0 = Ret true n' ∧ size (protocols n') = 1%nat.
Proof.
  destruct (process_batch_spec (round4 1) demo_batch n0 hash1 attempt4.1 attempt4.2 set4)
    as (n' & Hrun & _ & Hn);
    [apply due4|reflexivity|apply surjective_pairing|apply set4_lookup|eval_eq|].
  exists n'. split; [exact Hrun|].
  assert (bool_decide (round_party_i (round4 1) ∈ signing_set set4) = true) as Hm by eval_eq.
  rewrite Hm in Hn. destruct Hn as [-> _]. by rewrite map_size_insert_None.
Defined.

Lemma below_u16 {A} (l : list A) : len l < 2 ^ 16 → (length l < 2 ^ 16)%nat.
Proof. intros Hl. apply Nat2Z.inj_lt. by rewrite Nat2Z.inj_pow. Qed.

(** All four nodes agree on the first attempt, and three of them start it. *)
Lemma signing_quorum_witness :
  len (filter (λ i, takes_part (as_party i (round4 1)) demo_batch hash1 n0 = true) (seqZ 1 4)) = 3.
Proof.
  destruct (signing_quorum (round4 1) demo_batch hash1 (λ _, n0) tracker_default attempt4.1
    attempt4.2 set4 (round_threshold (round4 1))) as [_ Hl];
    [done|done|by apply below_u16| |apply surjective_pairing|apply set4_lookup| |exact Hl].
  - intros i _. split; [apply (due4 i)|]. split; [reflexivity|]. split; reflexivity.
  - eval_decide (signing_set set4 ∈ signing_set <$> gens_of (round4 1) demo_batch).
Defined.

Lemma attempts_cycle_witness :
  attempt_numbers (gens_of (round4 1) demo_batch) [10; 200; 400; 600; 800] tracker_default =
    (λ k, k mod len (gens_of (round4 1) demo_batch)) <$> seqZ 0 5.
Proof. apply (attempts_cycle (gens_of (round4 1) demo_batch) [10; 200; 400; 600; 800]). by vm_compute. Defined.

(** ** The work manager *)

Definition handle_a : Handle := mkHandle 0 10 0 10 0 (Signing [9]) ∅.
Definition handle_b : Handle := mkHandle 1 10 0 10 0 (Signing [8]) ∅.

Definition vote_at (block_id : Z) : SignedDKGMessage :=
  mkSignedDKGMessage (mkDKGMessage (auth 2) None (PVote (mkDKGVoteMessage 2 [] [42] [9])) 0 block_id 0) None.

(** A vote and an outdated vote come before the job; it gets the first. *)
Lemma early_messages_delivered_witness :
  ∃ s1 s2 r,
    for_each [vote_at 10; vote_at 1000] (λ m, Work.deliver_message m [9]) work_empty = Ret tt s1 ∧
    Work.push_task signing_config [9] true handle_a (s1 <| remotes ::= insert 0 remote_new |>) = Ret tt s2 ∧
    remotes s2 !! 0 = Some r ∧ rx_voting r = [vote_at 10].
Proof.
  destruct (early_messages_delivered signing_config [vote_at 10; vote_at 1000] [9] handle_a work_empty)
    as (s1 & s2 & r & H1 & H2 & H3 & _ & _ & Hv & _).
  - intros k j Hj. cbn in Hj. rewrite lookup_empty in Hj. discriminate Hj.
  - reflexivity.
  - reflexivity.
  - reflexivity.
  - repeat constructor.
  - exists s1, s2, r. split; [exact H1|]. split; [exact H2|]. split; [exact H3|]. rewrite Hv. eval_eq.
Defined.

Definition two_waiting : WorkManager :=
  work_empty <| enqueued_tasks := [mkJob [9] handle_a; mkJob [8] handle_b] |>
    <| remotes := {[ 0 := remote_new; 1 := remote_new ]} |>.

(** One place is free, so one of two waiting jobs starts. *)
Lemma poll_spec_witness :
  ∃ t, Work.poll signing_config 10 two_waiting = Ret tt t ∧
    enqueued_tasks t = [mkJob [8] handle_b].
Proof.
  destruct (poll_spec signing_config 10 two_waiting) as (t & Hrun & _ & He & _).
  - eval_decide (NoDup (remote_id ∘ handle <$> active_jobs two_waiting)).
  - eval_decide (NoDup (task_hash <$> enqueued_tasks two_waiting)).
  - intros j _. reflexivity.
  - exists t. split; [exact Hrun|]. rewrite He. reflexivity.
Defined.

(** ** Reports and keys *)

Definition offchain0 : Offchain :=
  mkOffchain (mkOffchainKeys Missing Missing) (mkOffchainKeys Missing Missing) Missing Missing.

Definition signed_as (i : Z) (m : DKGMessage) : SignedDKGMessage :=
  mkSignedDKGMessage m (Some (toy_sig i (encode_message m))).

(** Authority [i] reports the fourth one for the key generation of session 1. *)
Definition report_of (i : Z) : SignedDKGMessage :=
  signed_as i (mkDKGMessage (auth i) None
    (PMisbehaviourBroadcast (mkMisbehaviourMessage MisbehaviourKeygen 1 (auth 4)
      (toy_sig i (misbehaviour_payload MisbehaviourKeygen 1 (auth 4))))) 1 0 0).

Definition n_r0 : Node := after (initialization (block 10)) (worker_new (Some offchain0)).
Definition n_r1 : Node := after (process_incoming_dkg_message (report_of 1)) n_r0.
Definition n_r2 : Node := after (process_incoming_dkg_message (report_of 2)) n_r1.
Definition n_r3 : Node := after (process_incoming_dkg_message (report_of 3)) n_r2.

Lemma n_r3_run : rtc node_step (worker_new (Some offchain0)) n_r3.
Proof.
  eapply rtc_l; [apply (step_initialization (block 10)) with (t := n_r0)|].
  { unfold n_r0. apply after_final. eval_eq. }
  eapply rtc_l; [apply (step_message (report_of 1)) with (t := n_r1)|].
  { unfold n_r1. apply after_final. eval_eq. }
  eapply rtc_l; [apply (step_message (report_of 2)) with (t := n_r2)|].
  { unfold n_r2. apply after_final. eval_eq. }
  apply rtc_once, (step_message (report_of 3)). unfold n_r3. apply after_final. eval_eq.
Qed.

Definition stored_report (n : Node) : option AggregatedMisbehaviourReports :=
  match offchain n with
  | Some o => match stored_reports o with Present r => Some r | _ => None end
  | None => None
  end.

Definition report3 : AggregatedMisbehaviourReports :=
  default (new_reports MisbehaviourKeygen 0 (auth 4)) (stored_report n_r3).

Lemma stored_report_spec n r : stored_report n = Some r →
  ∃ o, offchain n = Some o ∧ stored_reports o = Present r.
Proof.
  unfold stored_report. destruct (offchain n) as [o|]; [|done]. intros Hr. exists o. split; [done|].
  by destruct (stored_reports o); simplify_eq.
Qed.

Lemma report3_stored : stored_report n_r3 = Some report3.
Proof.
  assert (bool_decide (is_Some (stored_report n_r3)) = true) as Hs by eval_eq.
  apply bool_decide_eq_true in Hs as [r Hr]. unfold report3. by rewrite Hr.
Qed.

Lemma stored_reports_accepted_witness :
  Dkg.process_misbehaviour_reports report3 best4.*2 = Ok (reporters report3) ∧ NoDup (reporters report3).
Proof.
  destruct (stored_report_spec _ _ report3_stored) as (o' & Ho & Hr).
  destruct (stored_reports_accepted (Some offchain0) n_r3 o' report3 best4.*2)
    as [Hnd (vs & Hvs & _ & _ & Hall)]; [by intros x [= <-]|exact n_r3_run|exact Ho|exact Hr|].
  split; [|exact Hnd]. rewrite Hvs, Hall; [done|].
  apply (Forall_forall (λ x, x ∈ best4.*2 ∧ length (dkg_bytes x) = 33%nat ∧ dkg_bytes x ≠ replicate 33 0)).
  apply (bool_decide_eq_true_1 (Forall _ _)). eval_eq.
Defined.

Definition key_message : DKGMessage :=
  mkDKGMessage (auth 2) None (PPublicKeyBroadcast (mkPublicKeyMessage 1 key2 (toy_sig 2 key2))) 1 0 0.

Lemma public_key_broadcast_spec_witness :
  ∃ n', handle_public_key_broadcast key_message n_r0 = Ret tt n' ∧ offchain n' = offchain n_r0.
Proof.
  assert (latest_header n_r0 = Some (block 10)) as Hh by eval_eq.
  assert (offchain n_r0 = Some offchain0) as Ho by eval_eq.
  destruct (public_key_broadcast_spec key_message (mkPublicKeyMessage 1 key2 (toy_sig 2 key2)) n_r0
    (block 10) sets4 (auth 2) offchain0) as (n' & Hrun & Hn); [reflexivity|exact Hh|reflexivity|done|done|exact Ho|eval_eq|].
  exists n'. split; [exact Hrun|].
  assert ((get_next_signature_threshold (block 10) <?
    len (collected n_r0 (mkPublicKeyMessage 1 key2 (toy_sig 2 key2)))) = false) as Hl by eval_eq.
  rewrite Hl in Hn. exact (proj1 Hn).
Defined.

Lemma offline_party_roundtrip_witness :
  try_from_keygen_party_id (mkKeygenPartyId 3) [mkKeygenPartyId 2; mkKeygenPartyId 3] =
    Ok (mkOfflinePartyId 2) ∧
  try_to_keygen_party_id (mkOfflinePartyId 2) [mkKeygenPartyId 2; mkKeygenPartyId 3] =
    Ok (mkKeygenPartyId 3).
Proof.
  split; [reflexivity|].
  exact (proj2 (proj2 (offline_party_roundtrip (mkKeygenPartyId 3)
    [mkKeygenPartyId 2; mkKeygenPartyId 3] eq_refl))).
Defined.

(** ** Gossip *)

Lemma handler_of_wf me other : handler_wf (handler_of me other).
Proof.
  split; [|apply NoDup_nil_2]. intros p peer Hp. unfold handler_of in Hp. simp_get_in Hp.
  apply lookup_singleton_Some in Hp as [_ <-]. apply peer_new_wf.
Qed.

Lemma gossip_spec_witness :
  ∃ h' ps, gossip_dkg_signed_message hello (handler_of peer1 peer2) = Ret tt h' ∧
    NoDup ps ∧ peer2 ∈ ps ∧ peer1 ∉ ps.
Proof.
  destruct (gossip_spec hello (handler_of peer1 peer2) (handler_of_wf _ _))
    as (h' & ps & Hrun & _ & Hnd & Hps & _).
  exists h', ps. split; [exact Hrun|]. split; [exact Hnd|]. rewrite !Hps. split; [reflexivity|done].
Defined.

Definition handler_connected : GossipHandler :=
  after (handle_network_event (NotificationStreamOpened peer2 [7])) (handler_new [7] peer1).

Lemma known_messages_bounded_witness :
  ∃ peer, peers handler_connected !! peer2 = Some peer ∧
    (length (inner (known_messages peer)) < 4096)%nat.
Proof.
  assert (is_Some (peers handler_connected !! peer2)) as [peer Hp].
  { apply (bool_decide_eq_true_1 (is_Some _)). eval_eq. }
  exists peer. split; [exact Hp|].
  apply (known_messages_bounded [7] peer1 handler_connected peer2 peer); [|exact Hp].
  apply rtc_once, (step_event (NotificationStreamOpened peer2 [7])). unfold handler_connected.
  apply after_final. eval_eq.
Defined.

Definition hello_hash : bytes := message_hash hello.

Lemma net0_nodes p h : nodes net0 !! p = Some h →
  p = peer1 ∧ h = handler_of peer1 peer2 ∨ p = peer2 ∧ h = handler_of peer2 peer1.
Proof.
  unfold net0. cbn [nodes]. intros [[<- <-]|[_ Hp]]%lookup_insert_Some; [by left|right].
  by apply lookup_singleton_Some in Hp as [<- <-].
Qed.

Lemma handler_of_quiet me other :
  (∀ q, is_Some (peers (handler_of me other) !! q) → q = other) ∧
  ∀ q, ¬ knows hello_hash (handler_of me other) q.
Proof.
  split; intros q.
  - intros [peer Hp]. unfold handler_of in Hp. simp_get_in Hp. by apply lookup_singleton_Some in Hp as [<- _].
  - intros (peer & Hp & Hk). unfold handler_of in Hp. simp_get_in Hp.
    by apply lookup_singleton_Some in Hp as [_ <-].
Qed.

Lemma net0_connected p q : (p = peer1 ∧ q = peer2 ∨ p = peer2 ∧ q = peer1) → connected net0 p q.
Proof.
  intros [[-> ->]|[-> ->]]; eexists; (split; [reflexivity|]); by eexists.
Qed.

Lemma net0_fresh : fresh_net hello_hash net0.
Proof.
  split.
  - intros p h Hp. apply net0_nodes in Hp.
    assert (∃ other, h = handler_of p other ∧ connected net0 other p) as (other & -> & Hc).
    { destruct Hp as [[-> ->]|[-> ->]]; eexists; (split; [done|]); apply net0_connected; auto. }
    destruct (handler_of_quiet p other) as [Hq Hk]. split; [|split; [|exact Hk]].
    + split; [apply handler_of_wf|done|done|by intros q bs Hin%not_elem_of_nil|].
      by intros q ->%Hq.
    + by intros (m & Hm%not_elem_of_nil & _).
  - by intros p Hp%not_elem_of_nil.
  - intros p q (h & bs & Hp & Hin & _). apply net0_nodes in Hp as [[_ ->]|[_ ->]];
      by apply not_elem_of_nil in Hin.
Qed.

Lemma net1_run : ∃ N, rtc net_step net0 N ∧ (peer1, hello_hash) ∈ commanded N.
Proof.
  destruct (gossip_run hello (handler_of peer1 peer2) (handler_of_wf _ _)) as (h' & Hrun & _).
  eexists. split; [apply rtc_once, (net_gossip peer1 hello _ h' net0 eq_refl Hrun)|by left].
Qed.

(** The first node gossips; when nothing is on its way, the second one has got it. *)
Lemma gossip_reaches_everyone_witness :
  ∃ N, rtc net_step net0 N ∧ (peer1, hello_hash) ∈ commanded N ∧
    ((peer2, hello_hash) ∈ commanded N ∨ ∃ h, nodes N !! peer2 = Some h ∧ got hello_hash h).
Proof.
  destruct net1_run as (N1 & Hr1 & Hc1).
  destruct (flood_settles hello_hash N1 (proj1 (run_inv hello_hash net0 N1 net0_fresh Hr1))) as (N & Hf & Hq).
  destruct (flood_run hello_hash N1 N Hf) as [Hr Hc]. rewrite <- Hc in Hc1.
  assert (rtc net_step net0 N) as Hr0 by (etrans; eassumption).
  exists N. split; [exact Hr0|]. split; [exact Hc1|].
  apply (gossip_reaches_everyone hello_hash net0 N peer1 peer2 net0_fresh Hr0 Hc1 Hq).
  apply rtc_once, net0_connected. by left.
Defined.

Lemma flood_terminates_witness :
  ∃ N1, rtc net_step net0 N1 ∧ (peer1, hello_hash) ∈ commanded N1 ∧
    ∃ N, rtc (flood_step hello_hash) N1 N ∧ ∀ a b, ¬ in_flight hello_hash N a b.
Proof.
  destruct net1_run as (N1 & Hr1 & Hc1). exists N1. split; [exact Hr1|]. split; [exact Hc1|].
  exact (proj2 (flood_terminates hello_hash net0 N1 net0_fresh Hr1)).
Defined.
