(* ===== verification/ProtocolWitnesses.v ===== *)
(** * The theorems of the protocol tasks on a concrete signing protocol

    Instances of the parameters of the protocol tasks, with their laws: toy formats of
    messages, a state machine that collects what it is given, and threshold signatures
    that are completed to a signature of the first key of Demo.v.  The theorems are
    applied to the voting of the first validator with the second and the third. *)

From S2P Require Import Prelude.
From S2P Require Import Frame.
From S2P Require Import Primitives.
From S2P Require Import Traits.
From S2P Require Import BridgeRegistry.
From S2P Require Import Proposals.
From S2P Require Import ProposalHandler.
From S2P Require Import ProposalHandlerSpec.
From S2P Require Import Metadata.
From S2P Require Import Runtime.
From S2P Require Import Sessions.
From S2P Require Import GadgetTypes.
From S2P Require Import Remote.
From S2P Require Import WorkManager.
From S2P Require Import Client.
From S2P Require Import Node.
From S2P Require Import Reports.
From S2P Require Import SigningManager.
From S2P Require Import Worker.
From S2P Require Import AsyncProtocol.
From S2P Require Import AsyncProtocolSpec.
From S2P Require Import VotingStage.
From S2P Require Import VotingStageSpec.
From S2P Require Import ProtocolTask.
From S2P Require Import ProtocolTaskSpec.
From S2P Require Import Demo.
From S2P Require Import GadgetDemo.
From S2P Require Import GadgetWitnesses.

(** ** Parameters *)

(** The big-endian bytes of a number, without leading zeros. *)
Definition toy_bytes (z : Z) : bytes := be_encode (Z.to_nat (Z.log2 z / 8 + 1)) z.

Lemma toy_bytes_width z : 0 <= z → in_width (8 * Z.of_nat (Z.to_nat (Z.log2 z / 8 + 1))) z.
Proof.
  intros Hz. pose proof (Z.log2_nonneg z). pose proof (Z.div_mod (Z.log2 z) 8 ltac:(lia)).
  pose proof (Z.mod_pos_bound (Z.log2 z) 8 ltac:(lia)).
  assert (0 <= Z.log2 z / 8) by (apply Z.div_pos; lia). rewrite Z2Nat.id by lia.
  unfold in_width. split; [done|]. destruct (decide (z = 0)) as [->|]; [apply Z.pow_pos_nonneg; lia|].
  apply Z.log2_lt_pow2; lia.
Qed.

Definition toy_r : Z := be_decode (x_of 11).

#[export] Instance demo_ecdsa : MultiPartyEcdsa := {|
  CompletedOfflineStage := unit;
  SignManual := Z;
  PartialSignature := Z;
  offline_public_key _ := key1;
  sign_manual_new m _ := Ok (m, 0);
  sign_complete m _ := if (0 <=? m) && (m <? 2 ^ 256) then Ok (mkSignatureRecid toy_r m 0)
                       else Err SignErrorOther;
  ecdsa_verify sig key m := bool_decide (sig_s sig = m) && bool_decide (key = key1);
  partial_to_vec p := Some [p];
  partial_from_slice bs := match bs with [p] => Some p | _ => None end;
  bigint_to_bytes := toy_bytes;
  local_key_public _ := key1 |}.

Lemma toy_digest_bytes data : Forall is_byte (toy_digest data).
Proof.
  apply Forall_replicate. destruct data as [|b data] using rev_ind; [by vm_compute|].
  rewrite fold_left_app. cbn. apply (wrap_in_width 8). lia.
Qed.

#[export] Instance demo_ecdsa_laws : MultiPartyEcdsaLaws.
Proof.
  split.
  - intros z Hz. apply be_decode_encode. by apply toy_bytes_width.
  - intros z. apply be_encode_bytes.
  - intros z [Hz Hlt]. cbn [bigint_to_bytes demo_ecdsa]. unfold toy_bytes. rewrite be_encode_length.
    assert (Z.log2 z < 256).
    { destruct (decide (z = 0)) as [->|]; [done|]. apply Z.log2_lt_pow2; lia. }
    assert (Z.log2 z / 8 < 32) by (apply Z.div_lt_upper_bound; lia).
    pose proof (Z.log2_nonneg z). assert (0 <= Z.log2 z / 8) by (apply Z.div_pos; lia). lia.
  - done.
  - intros m ps sig. cbn. destruct ((0 <=? m) && (m <? 2 ^ 256)) eqn:Hm; [|done].
    intros [= <-]. cbn. split; [by vm_compute|]. unfold in_width. lia.
  - intros data [] m p ps sig. cbn [sign_manual_new sign_complete ecdsa_verify demo_ecdsa].
    intros [= <- <-]. destruct ((0 <=? _) && _); [|done]. intros [= <-] _. cbn [sig_r sig_s sig_recid].
    assert (be_encode 32 (be_decode (toy_digest data)) = toy_digest data) as ->.
    { pose proof (be_encode_decode (toy_digest data) (toy_digest_bytes data)) as Hd.
      unfold toy_digest at 1 in Hd. by rewrite length_replicate in Hd. }
    assert (be_encode 32 toy_r = x_of 11) as -> by by vm_compute.
    exists (x_of 11 ++ replicate 32 0). split; [|done].
    cbv [secp256k1_ecdsa_recover demo_crypto keccak_256].
    assert (length (toy_digest data) = 32%nat) as Hl by apply length_replicate.
    rewrite decide_True; [done|]. split; [by rewrite !length_app, Hl|].
    unfold slice. rewrite drop_app_length' by done. rewrite take_app_le by lia.
    by rewrite take_ge by lia.
Qed.

#[export] Instance demo_db : LocalKeyDb := λ _ _, Ok tt.

Definition toy_wire (m : Msg Z) : bytes :=
  match rb_receiver m with
  | None => [rb_sender m; rb_body m]
  | Some r => [rb_sender m; r; rb_body m]
  end.

#[export] Instance demo_wire : Wire Z := {|
  to_vec m := Some (toy_wire m);
  from_slice bs := match bs with
    | [s; b] => Some (mkMsg s None b)
    | [s; r; b] => Some (mkMsg s (Some r) b)
    | _ => None
    end;
  bincode m := Some (toy_wire m);
  round_id _ := 1 |}.

#[export] Instance demo_wire_laws : WireLaws Z.
Proof.
  split.
  - intros [s [r|] b] bs [= <-]; done.
  - intros [s [r|] b] [s' [r'|] b'] bs; cbn; by intros [= <-] [=]; subst.
Qed.

(** A state machine that keeps what it is given. *)
#[export] Instance demo_machine : StateMachine (list Z) Z unit := {|
  sm_handle_incoming m := modify (λ l, l ++ [rb_body m]);
  sm_proceed := mret tt;
  sm_current_round _ := 1;
  sm_round_blame l := (0, []);
  sm_message_queue l := [];
  sm_drained l := l;
  is_critical _ := true |}.

#[export] Instance demo_offline_new : OfflineStageNew (list Z) := λ _ _ _, Some [].
#[export] Instance demo_keygen_new : KeygenNew (list Z) := λ _ _ _, Ok [].

(** ** Voting *)

Definition handle0 : Handle := mkHandle 0 10 0 10 0 (Signing hash1) ∅.

Definition params0 (party : Z) (local_key : option LocalKeyType) : AsyncProtocolParameters := {|
  ap_best_authorities := keygen_parties best4; ap_authority_public_key := auth party;
  ap_party_i := mkKeygenPartyId party; ap_associated_block_id := 10; ap_handle := handle0;
  ap_session_id := 0; ap_local_key := local_key |}.

(** The first of the signing set of parties 1, 2 and 3. *)
Definition ballot1 : Ballot :=
  mkBallot (params0 1 (Some (ECDSA [5]))) tt demo_batch (mkOfflinePartyId 1) 2 next_batch_key.

Definition vote_from (i : Z) : SignedDKGMessage :=
  signed_as i (mkDKGMessage (auth i) None (PVote (mkDKGVoteMessage i hash1 [i] hash1)) 0 10 0).

(** Another stage, the votes of two parties with a copy of the first, and one too many. *)
Definition arrivals1 : list (option Header * SignedDKGMessage) :=
  (λ m, (Some (block 10), m)) <$>
    [report_of 2; vote_from 2; vote_from 2; vote_from 3; vote_from 4].

Lemma arrivals1_verifiable : verifiable ballot1 arrivals1.
Proof.
  assert (Forall (λ a, match transform a.1 (voting_type ballot1) 0 a.2 with Panics => false | _ => true end = true)
    arrivals1) as Hall.
  { apply (bool_decide_eq_true_1 (Forall _ _)). eval_eq. }
  intros latest m Hin Hp. rewrite Forall_forall in Hall. specialize (Hall _ Hin). cbn [fst snd] in Hall.
  change (transform latest (voting_type ballot1) 0 m = Panics) in Hp. by rewrite Hp in Hall.
Qed.

Lemma collect_votes_reference_witness :
  collect_votes ballot1 no_votes arrivals1 = Ok (mkVotes {[ 2; 3 ]} [2; 3]).
Proof.
  rewrite (collect_votes_reference ballot1 arrivals1) by (done || apply arrivals1_verifiable).
  eval_eq.
Defined.

Lemma voting_completes_witness :
  ∃ v, collect_votes ballot1 no_votes arrivals1 = Ok v ∧ len (sigs v) = 2.
Proof.
  destruct (voting_completes ballot1 arrivals1) as (v & Hv & Hl & _);
    [done|apply arrivals1_verifiable|by apply Z.leb_le; eval_eq| |].
  - apply (bool_decide_eq_true_1 (Forall _ _)). eval_eq.
  - exists v. by split.
Defined.

Definition n_voted : Node := after (new_voting ballot1 arrivals1) n_r0.

Lemma new_voting_run : new_voting ballot1 arrivals1 n_r0 = Ret tt n_voted.
Proof. unfold n_voted. apply after_returns. eval_eq. Qed.

(** The rest of the chain, as the proposal handler sees it. *)
Abbreviation Rest := (Metadata * (Proposals * (BridgeRegistry * Z)))%type.

Lemma voted_batch_signed_on_chain_witness :
  ∃ sb o', offchain n_voted = Some o' ∧ stored_proposals o' = Present [sb].
Proof.
  destruct (voted_batch_signed_on_chain (W := Rest) (F := RuntimeError) ballot1 arrivals1 n_r0 n_voted)
    as (sb & _ & _ & Hst & _); [done|done|apply new_voting_run|].
  exists sb. apply (Hst [auth 1] (auth 1) (block 10) offchain0); [reflexivity|eval_eq| |eval_eq|eval_eq].
  apply (bool_decide_eq_true_1 (_ ∈ _)). eval_eq.
Defined.

(** ** Messages of the offline stage *)

Definition offline_ty (i : Z) : ProtocolType unit :=
  TOffline demo_batch (mkOfflinePartyId i) (mkKeygenPartyId <$> [1; 2; 3]) [5] 10.

(** The first party sends to the second. *)
Lemma protocol_message_roundtrip_witness :
  ∃ d, send_outgoing (params0 1 None) (offline_ty 1) (mkMsg 1 (Some 2) 77) n_r0 =
      Ret true (n_r0 <| outbox ::= (λ l, l ++ [d]) |>) ∧
    inbound (params0 2 None) (offline_ty 2) d n_r0 = Ret (Some (mkMsg 1 (Some 2) 77), true) n_r0.
Proof.
  apply (protocol_message_roundtrip (params0 1 None) (offline_ty 1) (params0 2 None) (offline_ty 2)
    (mkMsg 1 (Some 2) 77) n_r0 n_r0 (block 10) sets4 (auth 1)).
  - reflexivity.
  - reflexivity.
  - reflexivity.
  - by vm_compute.
  - done.
  - done.
  - by right.
  - by eexists.
  - eval_eq.
  - intros data. unfold keystore_sign. cbn. rewrite decide_True; [by eexists|].
    by split.
  - eval_eq.
  - reflexivity.
  - intros x Hx. assert (Forall (λ x, length (dkg_bytes x) = 33%nat) best4.*2) as Hall
      by (apply (bool_decide_eq_true_1 (Forall _ _)); eval_eq).
    rewrite Forall_forall in Hall. apply Hall. by destruct Hx.
  - left. apply (bool_decide_eq_true_1 (_ ∈ _)). eval_eq.
Defined.

(** ** A signing task *)

Definition setup1 : SigningSetup :=
  mkSigningSetup (params0 1 (Some (ECDSA [5]))) 2 demo_batch (mkKeygenPartyId <$> [1; 2; 3]).

(** The value and the state of a run that is known to return. *)
Definition run_of {A} (m : NM A) (d : A) (n : Node) : A * Node :=
  match m n with Ret a n' => (a, n') | _ => (d, n) end.

Lemma run_of_Ret {A} (m : NM A) d n :
  returns (m n) = true → m n = Ret (run_of m d n).1 (run_of m d n).2.
Proof. unfold run_of. by destruct (m n). Qed.

(** The job is polled, started, and its offline stage ends. *)
Definition n_polled : Node := after (on_signing_work (Work.poll signing_config 10)) n_signing.

Abbreviation Task := (SigningTask (list Z) Z).

Definition started1 : Task * Node :=
  run_of (start_signing setup1 [5]) SigningWaiting
    (on_remote handle0 (set start_rx_open (λ _, false)) n_polled).

Definition voting1 : Task * Node := run_of (offline_done setup1 (mkOfflinePartyId 1) (Ok tt)) SigningWaiting started1.2.

Lemma n_polled_reachable : node_reachable n_polled.
Proof.
  apply (node_step_reachable n_signing); [|apply n_signing_reachable].
  apply rtc_once, step_signing_poll. unfold n_polled.
  replace (get_latest_block_number n_signing) with 10 by eval_eq. apply after_final. eval_eq.
Qed.

Lemma live1 n : returns ((expect (remotes (work_of handle0 n) !! 0)) n : outcome Node DKGError Remote) = true →
  live handle0 n.
Proof. unfold live. cbn [remote_id handle0]. by destruct (remotes _ !! 0). Qed.

Lemma start_step : signing_step setup1 n_polled (SigningWaiting : Task) started1.2 started1.1.
Proof.
  apply (signing_start setup1 n_polled [5]); [done|eval_eq|]. apply run_of_Ret. eval_eq.
Qed.

Lemma started1_offline : ∃ r, started1.1 = SigningOffline r (mkOfflinePartyId 1).
Proof.
  assert (match started1.1 with SigningOffline _ i => bool_decide (i = mkOfflinePartyId 1) | _ => false end = true)
    as Hs by eval_eq.
  destruct started1.1 as [|r i| |]; try discriminate Hs. apply bool_decide_eq_true in Hs as ->. by exists r.
Qed.

Lemma voting_step : signing_step setup1 started1.2 started1.1 voting1.2 voting1.1.
Proof.
  destruct started1_offline as [r ->].
  apply (signing_run_done setup1 started1.2 (@RunOk unit (@CompletedOfflineStage demo_ecdsa) tt) (Ok tt)); [done|].
  apply run_of_Ret. eval_eq.
Qed.

Lemma protocol_tasks_refine_witness : rtc node_step n_polled voting1.2 ∧ node_reachable voting1.2.
Proof.
  apply (protocol_tasks_refine (SM := list Z) (B := Z) (E := unit) (SM' := list Z) (B' := Z) (E' := unit)
    n_polled voting1.2); [|apply n_polled_reachable].
  eapply rtc_l; [eapply (signing_task_step _ setup1); [|apply start_step]|].
  { apply live1. eval_eq. }
  apply rtc_once. eapply (signing_task_step _ setup1); [|apply voting_step]. apply live1. eval_eq.
Defined.

Lemma signing_task_inv_witness :
  node_reachable voting1.2 ∧ task_ok setup1 voting1.1 ∧
  match voting1.1 with SigningVoting _ _ _ => true | _ => false end = true.
Proof.
  destruct (signing_task_inv (SM := list Z) (B := Z) (E := unit) (SM' := list Z) (B' := Z) (E' := unit)
    setup1 n_polled voting1.2 voting1.1) as [Hn Ht].
  - done.
  - apply n_polled_reachable.
  - eapply rtc_l; [apply system_task; [|apply start_step]; apply live1; eval_eq|].
    apply rtc_once, system_task; [|apply voting_step]. apply live1. eval_eq.
  - split; [exact Hn|]. split; [exact Ht|eval_eq].
Defined.
