(* ===== verification/FrostWitnesses.v ===== *)
(** * The theorems about FROST on a concrete crew

    An instance of wsts with its laws, in which shares and nonces show where they come
    from, and codecs; the theorems are applied to two parties with two keys each, and to
    three signers. *)

From S2P Require Import Prelude.
From S2P Require Import Frame.
From S2P Require Import Primitives.
From S2P Require Import GadgetTypes.
From S2P Require Import Remote.
From S2P Require Import WorkManager.
From S2P Require Import Client.
From S2P Require Import Node.
From S2P Require Import Reports.
From S2P Require Import VotingStage.
From S2P Require Import Frost.
From S2P Require Import FrostSpec.
From S2P Require Import Demo.
From S2P Require Import GadgetDemo.
From S2P Require Import GadgetWitnesses.
From S2P Require Import ProtocolWitnesses.

(** ** Parameters *)

Record ToyParty := mkToyParty { tp_id : Z; tp_ids : list Z; tp_keys : Z }.

#[export] Instance demo_wsts : Wsts := {|
  Party := ToyParty;
  Rng := Z;
  Aggregator := Z;
  party_new i ids n k t rng := mkToyParty i ids k;
  party_id := tp_id;
  key_ids := tp_ids;
  get_shares p := (λ key, (key, [tp_id p; key])) <$> seqZ 0 (tp_keys p);
  get_poly_commitment p rng := [tp_id p; rng];
  compute_secret p shares polys := if decide (length polys = 2%nat) then Some p else None;
  gen_nonce p rng := ([rng], p);
  party_sign p msg ids keys nonces := tp_id p :: concat nonces;
  party_save p := tp_id p :: tp_keys p :: tp_ids p;
  party_load bs := match bs with i :: k :: ids => mkToyParty i ids k | _ => mkToyParty 0 [] 0 end;
  num_keys bs := match bs with _ :: k :: _ => k | _ => 0 end;
  aggregator_new k t polys := Some t;
  aggregator_sign t msg nonces shares keys := Some (concat shares) |}.

#[export] Instance demo_wsts_laws : WstsLaws.
Proof.
  split; try done. intros i ids n k t rng. cbn. rewrite <- list_fmap_compose. apply list_fmap_id.
Qed.

#[local] Instance frost_message_countable : Countable FrostMessage.
Proof.
  apply (inj_countable'
    (λ m, match m with
          | DKGShares i shares ids poly => inl (i, shares, ids, poly)
          | Sign i ids nonce => inr (inl (i, ids, nonce))
          | SignFinal i share => inr (inr (i, share))
          end)
    (λ s, match s with
          | inl (i, shares, ids, poly) => DKGShares i shares ids poly
          | inr (inl (i, ids, nonce)) => Sign i ids nonce
          | inr (inr (i, share)) => SignFinal i share
          end)). by intros [].
Defined.

#[export] Instance demo_frost_codec : FrostCodec := {|
  frost_to_vec m := Some [Z.pos (encode m)];
  frost_from_slice bs := match bs with [Z.pos p] => decode p | _ => None end;
  sha2_256 bs := bs;
  polys_to_vec polys := Some (concat polys);
  encode_proposals _ := [7];
  encode_frost_signature sig := sig |}.

#[export] Instance demo_frost_codec_laws : FrostCodecLaws.
Proof. intros m bs [= <-]. apply decode_encode. Qed.

(** ** Key generation *)

Definition rng0 (i : nat) : @Rng demo_wsts := 100 + Z.of_nat i.

(** The other party's message comes after a failure and a message of a signing. *)
Definition inbox0 : list Incoming :=
  [Err EGenericError; Ok (Some (Sign 1 [] []));
   Ok (Some (dkg_message (frost_party 2 4 1 rng0 1 [2; 3]) (rng0 1)))].

Definition frost_net : FrostNetworkWrapper :=
  mkFrostNetworkWrapper (mkHandle 0 10 0 10 0 KeygenStandard ∅) (auth 1) hash1.

Definition frost_keygen0 : FrostKeygen := mkFrostKeygen 2 0 4 1 frost_net 3.

Lemma inbox0_honest : Forall (honest_dkg (frost_crew 2 4 1 rng0 [[0; 1]; [2; 3]])) inbox0.
Proof.
  repeat constructor. exists (frost_party 2 4 1 rng0 1 [2; 3], rng0 1). split; [|reflexivity].
  apply frost_crew_lookup. exists 1%nat, [2; 3]. done.
Qed.

Lemma demo_signs data : is_Some (keystore_sign (auth 1) data).
Proof. unfold keystore_sign. cbn. rewrite decide_True; [by eexists|]. by split. Qed.

Lemma frost_keygen_completes_witness :
  ∃ n', frost_keygen_protocol frost_keygen0 (rng0 0) inbox0 n_r0 = Ret (Some tt) n' ∧
    local_keys n' !! 3 = Some (FROST [[0; 100]; [1; 101]] [0; 4; 0; 1]).
Proof.
  destruct (frost_keygen_completes frost_keygen0 rng0 [[0; 1]; [2; 3]] 0 [0; 1] inbox0
    (mkToyParty 0 [0; 1] 4)
    [Z.pos (encode (dkg_message (frost_party 2 4 1 rng0 0 [0; 1]) (rng0 0)))]
    [0; 100; 1; 101] (auth 1) n_r0) as (n' & sig & sig' & d & Hrun & Hkey & _).
  - by vm_compute.
  - by vm_compute.
  - reflexivity.
  - reflexivity.
  - reflexivity.
  - reflexivity.
  - apply inbox0_honest.
  - intros [|[|j]] ids Hj Hne; [done| |done]. injection Hj as <-. right. right. left.
  - reflexivity.
  - reflexivity.
  - reflexivity.
  - reflexivity.
  - eval_eq.
  - apply demo_signs.
  - exists n'. split; [exact Hrun|exact Hkey].
Defined.

(** ** A key generation as the module starts it *)

Definition frost_keygen_params : FrostKeygenParams := {|
  fkp_authority_id := auth 1; fkp_best_authorities := keygen_parties best4;
  fkp_authority_public_key := auth 1; fkp_keygen_protocol_hash := hash1; fkp_threshold := 2;
  fkp_session_id := 3; fkp_associated_block := 10; fkp_stage := KeygenStandard |}.

Lemma frost_keygen_always_refused_witness :
  ∃ h u n', frost_initialize_keygen frost_keygen_params n_r0 = Ret (h, u) n' ∧
    frost_keygen_protocol u 0 inbox0 n' = Fail EGenericError n'.
Proof.
  eexists _, _, _. split; [reflexivity|].
  eapply (frost_keygen_always_refused frost_keygen_params n_r0). reflexivity.
Defined.

(** ** Signing *)

Definition signer (i : Z) : Party * Rng := (mkToyParty i [2 * i; 2 * i + 1] 6, 100 + i).

Definition signers : gmap Z (Party * Rng) := list_to_map ((λ i, (i, signer i)) <$> [0; 1; 2]).

Definition log_message (m : FrostMessage) : M (list FrostMessage) DKGError unit :=
  modify (λ l, l ++ [m]).

Lemma signers_lookup i e : signers !! i = Some e → i ∈ [0; 1; 2] ∧ e = signer i.
Proof.
  unfold signers. intros (x & [= -> ->] & Hx)%elem_of_list_to_map_2%list_elem_of_fmap. done.
Qed.

Lemma signers_ids j e : signers !! j = Some e → party_id e.1 = j.
Proof. by intros [_ ->]%signers_lookup. Qed.

Lemma sign_honest i : i ∈ [0; 1; 2] → honest_signing signers [7] (Ok (Some (sign_message (signer i)))).
Proof.
  intros Hi. exists (signer i). split; [|done].
  repeat (apply elem_of_cons in Hi as [->|Hi]; [reflexivity|]). by apply not_elem_of_nil in Hi.
Qed.

Lemma final_honest i :
  i ∈ [0; 1; 2] → honest_signing signers [7] (Ok (Some (final_message signers [7] (signer i)))).
Proof.
  intros Hi. exists (signer i). split; [|done].
  repeat (apply elem_of_cons in Hi as [->|Hi]; [reflexivity|]). by apply not_elem_of_nil in Hi.
Qed.

Definition nonces_then_shares : list Incoming * list Incoming :=
  (Ok ∘ Some <$> [sign_message (signer 2); sign_message (signer 1)],
   Ok ∘ Some <$> [final_message signers [7] (signer 1); final_message signers [7] (signer 2)]).

Lemma frost_signing_agreement_witness :
  ∃ l, run_signing log_message (signer 0).1 (signer 0).2 [7] 6 3 []
         (nonces_then_shares.1 ++ nonces_then_shares.2) [] =
       Ret (Some (concat ((λ i, [i; 100; 101; 102]) <$> [0; 1; 2]))) l.
Proof.
  eexists. etransitivity.
  - eapply (frost_signing_agreement signers [7] signers_ids log_message 6 [] 0 (signer 0)
      nonces_then_shares.1 nonces_then_shares.2 []); [reflexivity|..].
    + repeat constructor; apply sign_honest; set_solver.
    + repeat constructor; apply final_honest; set_solver.
    + intros j e [Hj ->]%signers_lookup Hne.
      rewrite !elem_of_cons in Hj. destruct Hj as [->|[->|[->|[]%not_elem_of_nil]]]; [done|..];
        cbn; set_solver.
    + intros j e [Hj ->]%signers_lookup Hne.
      rewrite !elem_of_cons in Hj. destruct Hj as [->|[->|[->|[]%not_elem_of_nil]]]; [done|..];
        cbn [nonces_then_shares snd fmap list_fmap]; set_solver.
    + reflexivity.
    + reflexivity.
  - vm_compute. reflexivity.
Defined.

(** The second signer is fast: its share reaches the first before the third's nonce. *)
Lemma early_share_blocks_signing_witness :
  ∃ l, run_signing log_message (signer 0).1 (signer 0).2 [7] 6 3 []
         ([Ok (Some (sign_message (signer 1))); Ok (Some (final_message signers [7] (signer 1)))] ++
          [Ok (Some (sign_message (signer 2))); Ok (Some (final_message signers [7] (signer 2)))]) []
       = Ret None l.
Proof.
  apply (early_share_blocks_signing signers [7] signers_ids log_message 6 [] 0 (signer 0) 1 2).
  - reflexivity.
  - apply elem_of_dom. by eexists.
  - apply elem_of_dom. by eexists.
  - done.
  - done.
  - repeat constructor; [apply sign_honest|apply final_honest]; set_solver.
  - repeat constructor; [apply sign_honest|apply final_honest]; set_solver.
  - intros ids nonce. rewrite !elem_of_cons. intros [Hm|[Hm|[]%not_elem_of_nil]]; discriminate Hm.
  - intros share. rewrite !elem_of_cons. intros [Hm|[Hm|[]%not_elem_of_nil]]; discriminate Hm.
  - intros m l. by eexists.
Defined.
