(* ===== verification/LocalKeyWitnesses.v ===== *)
(** * The theorems about local keys on concrete databases

    A toy cipher and a toy format of keys with their laws, a keystore with one key, and an
    SQLite that knows the statements of sql_storage.rs. *)

From S2P Require Import Prelude.
From S2P Require Import Frame.
From S2P Require Import Primitives.
From S2P Require Import GadgetTypes.
From S2P Require Import Client.
From S2P Require Import Node.
From S2P Require Import AsyncProtocol.
From S2P Require Import VotingStage.
From S2P Require Import LocalKeys.
From S2P Require Import Demo.
From S2P Require Import GadgetDemo.
From S2P Require Import GadgetWitnesses.
From S2P Require Import ProtocolWitnesses.

(** ** Parameters *)

(** Every byte is masked with the first of the key, and one byte is the tag. *)
Definition mask (key : bytes) (data : bytes) : bytes := (λ b, Z.lxor b (hd 0 key)) <$> data.

#[export] Instance demo_aead : Aead := {|
  aead_encrypt key nonce data := Some (mask key data ++ [len data]);
  aead_decrypt key nonce encrypted := Some (mask key (take (length encrypted - 1) encrypted)) |}.

#[export] Instance demo_aead_laws : AeadLaws.
Proof.
  intros key nonce data encrypted [= <-]. cbn. f_equal. rewrite length_app. cbn.
  rewrite Nat.add_sub, take_app_length. unfold mask. rewrite <- list_fmap_compose.
  etransitivity; [|apply list_fmap_id]. apply list_fmap_ext. intros _ b _. cbn.
  by rewrite Z.lxor_assoc, Z.lxor_nilpotent, Z.lxor_0_r.
Qed.

#[local] Instance local_key_countable : Countable LocalKeyType.
Proof.
  apply (inj_countable'
    (λ k, match k with ECDSA key => inl key | FROST pk state => inr (pk, state) end)
    (λ s, match s with inl key => ECDSA key | inr (pk, state) => FROST pk state end)). by intros [].
Defined.

#[export] Instance demo_json : LocalKeyJson := {|
  key_to_vec k := Some [Z.pos (encode k)];
  key_from_slice bs := match bs with [Z.pos p] => decode p | _ => None end |}.

#[export] Instance demo_json_laws : LocalKeyJsonLaws.
Proof. intros k bs [= <-]. apply decode_encode. Qed.

(** ** The offchain storage *)

Definition account : bytes := replicate 32 9.

Definition demo_sr_keystore : Offchain.SrKeystore := {|
  Offchain.account_keys := Some [account];
  Offchain.has_account_key k := bool_decide (k = account);
  Offchain.key_pair := Some (λ _, Ok (Some (replicate 64 5))) |}.

Definition empty_db : Offchain.DKGOffchainStorageDb :=
  Offchain.mkDKGOffchainStorageDb (Some ∅) demo_sr_keystore.

Definition db_ops0 : list DbOp :=
  [DbFetch 3; DbStore 3 (ECDSA [1; 2]); DbStore 4 (FROST [[1]; [2]] [3]); DbFetch 3].

Lemma local_key_databases_witness :
  ∃ d d', db_ops db_ops0 Mem.new = Ret (map_ops (λ _, true) ∅ db_ops0).1 d ∧
    db_ops db_ops0 empty_db = Ret (map_ops (Offchain.accepts (replicate 64 5)) ∅ db_ops0).1 d'.
Proof.
  destruct (local_key_databases db_ops0) as [(d & Hd & _) Hoff].
  { repeat constructor; by vm_compute. }
  destruct (Hoff empty_db ∅ (replicate 64 5)) as (d' & Hd' & _);
    [reflexivity|reflexivity|intros session _; apply lookup_empty|].
  by exists d, d'.
Defined.

(** ** SQLite *)

(** A connection counts the statements it executed. *)
#[export] Instance demo_sqlite : Sql.Sqlite := {|
  Sql.Conn := nat;
  Sql.sql_begin c := Some c;
  Sql.sql_commit c := Some c;
  Sql.sql_execute c s args :=
    if Sql.dangling_comma false s || String.prefix "INSERT" s then None else Some (S c);
  Sql.sql_fetch_optional c s args := Some None |}.

#[export] Instance demo_sqlite_laws : Sql.SqliteLaws.
Proof.
  split.
  - intros c s args _ Hs. cbn. by rewrite Hs.
  - intros c table columns values args _ _. cbn [Sql.sql_execute demo_sqlite].
    assert (String.prefix "INSERT" (Sql.insert_statement table columns values) = true) as ->.
    { unfold Sql.insert_statement. cbn. by destruct (table +:+ _)%string. }
    by rewrite orb_true_r.
Qed.

Definition sql_backend0 : Sql.SqlBackend := Sql.mkSqlBackend 0%nat 0.

Lemma sql_keygen_fails_witness :
  keygen_on_finish (H0 := db_store_public_key sql_backend0) (params0 1 None) [5] n_r0 =
  Fail EStoringLocalKeyFailed n_r0.
Proof. apply (Sql.sql_keygen_fails sql_backend0). by eexists. Defined.
