(* ===== verification/SystemWitnesses.v ===== *)
(** * The theorems about the whole system on a concrete chain and node

    The chain of Demo.v when it has queued its first batch, and the first validator as
    a node whose client answers from that chain: it votes for the batch with the second
    and the third validator, and collects signatures over the next key. *)

From S2P Require Import Prelude.
From S2P Require Import Frame.
From S2P Require Import Primitives.
From S2P Require Import Traits.
From S2P Require Import ProposalHandler.
From S2P Require Import Metadata.
From S2P Require Import MetadataSubmission.
From S2P Require Import Sessions.
From S2P Require Import Runtime.
From S2P Require Import RuntimeSpec.
From S2P Require Import GadgetTypes.
From S2P Require Import Client.
From S2P Require Import Node.
From S2P Require Import Reports.
From S2P Require Import ReportsSpec.
From S2P Require Import SigningManager.
From S2P Require Import VotingStage.
From S2P Require Import VotingStageSpec.
From S2P Require Import System.
From S2P Require Import SystemSpec.
From S2P Require Import Demo.
From S2P Require Import Witnesses.
From S2P Require Import GadgetDemo.
From S2P Require Import GadgetWitnesses.
From S2P Require Import ProtocolWitnesses.

(** ** Which submissions are accepted *)

Definition ks3 : AggregatedPublicKeys := Demo.keys_for key2 [1; 2; 3].

Lemma next_best_wf : well_formed (NextBestAuthorities (dkg c5)).*2.
Proof.
  refine (proj1 (Forall_forall (λ x, length (dkg_bytes x) = 33%nat) _) _).
  apply (bool_decide_eq_true_1 (Forall _ _)). eval_eq.
Qed.

Lemma ks3_signers : Forall (λ e, is_Some (signer (NextBestAuthorities (dkg c5)).*2 e)) ks3.
Proof. apply (bool_decide_eq_true_1 (Forall _ _)). eval_eq. Qed.

Lemma ks3_keys key : key ∈ ks3.*1 → key = key2.
Proof.
  change (ks3.*1) with [key2; key2; key2]. rewrite !elem_of_cons.
  by intros [->|[->|[->|[]%not_elem_of_nil]]].
Qed.

Lemma next_key_submission_witness :
  ∃ t, (Dkg.submit_next_public_key NoOrigin ks3 :
      M _ (DispatchError MetadataError RuntimeError) unit) (dkg c5, dkg_rest c5) =
      Ret tt (t, dkg_rest c5) ∧ NextDKGPublicKey t = Some (1, key2).
Proof.
  pose proof (next_key_submission (F := RuntimeError) ks3 (dkg c5) (dkg_rest c5)) as Ho.
  cbv zeta in Ho. rewrite decide_True in Ho by apply ks3_signers.
  destruct Ho as [(key & Hwin & Hrun)|[Hno _]].
  - eval_eq.
  - apply next_best_wf.
  - assert ((len key <=? 512) = true) as Hl
      by (rewrite (ks3_keys key (win_listed _ _ _ _ Hwin)); reflexivity).
    change Metadata.MaxKeyLength with 512 in Hrun. rewrite Hl in Hrun. destruct Hrun as (t & Hrun & Hk & _).
    exists t. split; [exact Hrun|]. rewrite Hk. rewrite (ks3_keys key (win_listed _ _ _ _ Hwin)).
    eval_eq.
  - exfalso. assert ((len (tally (NextBestAuthorities (dkg c5)).*2 ks3 key2) <?
      NextSignatureThreshold (dkg c5)) = false) as Hlt by eval_eq.
    specialize (Hno key2 ltac:(by left)). apply Z.ltb_ge in Hlt. lia.
Defined.

(** ** A node on the chain *)

Definition state5 (h : Header) : option (Chain Z) := Some c5.

#[local] Instance system_client : Client := chain_client state5.

#[local] Instance system_follows : FollowsChain state5 := chain_client_follows state5.

Lemma c5_reachable : reachable c5.
Proof.
  exists c0. split; [apply demo_initial|]. etrans; [apply demo_step1|].
  etrans; [apply demo_step3|]. etrans; [apply demo_step4|apply demo_step5].
Qed.

Definition n_voted5 : Node := after (new_voting ballot1 arrivals1) n_r0.

Lemma new_voting5_run : new_voting ballot1 arrivals1 n_r0 = Ret tt n_voted5.
Proof. unfold n_voted5. apply after_returns. eval_eq. Qed.

Lemma n_r0_on_duty : on_duty n_r0 offchain0.
Proof.
  split; [|exists (block 10); eval_eq|eval_eq].
  exists [auth 1], (auth 1). split_and!; [reflexivity|eval_eq|].
  apply (bool_decide_eq_true_1 (_ ∈ _)). eval_eq.
Qed.

Lemma accounts5 : CurrentAuthoritiesAccounts (dkg c5) = acct <$> [1; 2; 3; 4].
Proof. eval_eq. Qed.

(** The third account takes the worker's turn at block 6. *)
Lemma turn5 : (Batches.get_expected_signer 6 :
    M _ (DispatchError HandlerError RuntimeError) _) (queue_view c5) =
  Ret (Some (acct 3)) (queue_view c5).
Proof.
  unfold Batches.get_expected_signer. mrun.
  change (current_authorities_accounts (queue_view c5).2) with (CurrentAuthoritiesAccounts (dkg c5)).
  by rewrite accounts5.
Qed.

Lemma batch5_listed : ballot1.(bl_batch) ∈ default [] (get_unsigned_proposal_batches (block 10)).
Proof. apply (bool_decide_eq_true_1 (_ ∈ _)). eval_eq. Qed.

Lemma key5 : (get_dkg_pub_key (block 10)).2 = offline_public_key (bl_offline_stage ballot1).
Proof. eval_eq. Qed.

Lemma voted_batch_settles_witness :
  ∃ o' sb d, offchain n_voted5 = Some o' ∧
    (Batches.submit_signed_proposal_onchain [acct 3] (stored_value (stored_proposals o')) 6 :
      M _ (DispatchError HandlerError RuntimeError) _) (queue_view c5) =
      Ret (inr [Batches.SubmitSignedProposals [sb]]) (queue_view c5) ∧
    runtime_call (SignedBy (acct 9)) (CallDKGProposalHandler (Batches.SubmitSignedProposals [sb])) c5 =
      Ret tt d ∧ ∃ chain, SignedProposals (queue d) !! (chain, ub_batch_id demo_batch) = Some sb.
Proof.
  destruct (voted_batch_settles state5 ballot1 arrivals1 n_r0 n_voted5 offchain0 eq_refl
    n_r0_on_duty new_voting5_run) as (o' & sb & Ho & _ & Hall).
  destruct (Hall (block 10) c5 eq_refl c5_reachable batch5_listed key5) as [Hw Hr].
  destruct (Hr (SignedBy (acct 9))) as (d & Hd & Hs & _). exists o', sb, d.
  split; [exact Ho|]. split; [|split; [exact Hd|exact Hs]].
  apply (Hw (acct 3) [] 6 (Some (acct 3)) turn5). by intros a [= <-].
Defined.

(** ** Signatures over the next key *)

(** The node has the signatures of the first two validators. *)
Definition n_keys : Node :=
  n_r0 <| aggregated_public_keys := {[ 1 := Demo.keys_for key2 [1; 2] ]} |>.

Definition key_from (i : Z) : PublicKeyMessage := mkPublicKeyMessage 1 key2 (toy_sig i key2).

Definition broadcast (i : Z) : DKGMessage :=
  mkDKGMessage (auth i) None (PPublicKeyBroadcast (key_from i)) 1 0 0.

Definition sets5 : AuthoritySet * AuthoritySet :=
  (mkAuthoritySet (auth <$> [1; 2; 3; 4]) 0, mkAuthoritySet (auth <$> [1; 2; 3; 4]) 1).

Lemma n_keys_header : latest_header n_keys = Some (block 10).
Proof. eval_eq. Qed.

Lemma n_keys_storage : offchain n_keys = Some offchain0.
Proof. eval_eq. Qed.

Lemma validators5 : validator_set (block 10) = Some sets5.
Proof. eval_eq. Qed.

Lemma no_next_key5 : NextDKGPublicKey (dkg c5) = None.
Proof. eval_eq. Qed.

Lemma third_authentic : authenticate_msg_origin (own_session n_keys (key_from 3))
  (as_authorities sets5.1, as_authorities sets5.2) key2 (toy_sig 3 key2) = Ok (auth 3).
Proof. eval_eq. Qed.

Lemma fourth_authentic : authenticate_msg_origin (own_session n_keys (key_from 4))
  (as_authorities sets5.1, as_authorities sets5.2) key2 (toy_sig 4 key2) = Ok (auth 4).
Proof. eval_eq. Qed.

Lemma third_collected : collected n_keys (key_from 3) = ks3.
Proof. eval_eq. Qed.

Lemma fourth_collected : collected n_keys (key_from 4) = Demo.keys_for key2 [1; 2; 4].
Proof. eval_eq. Qed.

Lemma threshold5 : NextSignatureThreshold (dkg c5) = 2.
Proof. eval_eq. Qed.

Lemma ks3_tally : len (tally (NextBestAuthorities (dkg c5)).*2 ks3 key2) = 3.
Proof. eval_eq. Qed.

Lemma fourth_outside : signer (NextBestAuthorities (dkg c5)).*2 (key2, toy_sig 4 key2) = None.
Proof. eval_eq. Qed.

Lemma ks3_wins : wins (NextBestAuthorities (dkg c5)).*2 ks3 (NextSignatureThreshold (dkg c5)) key2.
Proof.
  split; [by left|rewrite threshold5, ks3_tally; lia|]. intros key Hk _. left. by apply ks3_keys.
Qed.

(** With the third signature the key is accepted; with that of the fourth validator, who
    is not among the best, it is not. *)
Lemma collected_keys_outcome_witness :
  (∃ e, runtime_call NoOrigin (CallDKG (Dkg.SubmitNextPublicKey ks3)) c5 = Ret tt e) ∧
  runtime_call NoOrigin (CallDKG (Dkg.SubmitNextPublicKey (Demo.keys_for key2 [1; 2; 4]))) c5 =
    Fail (Runtime.DKGError CannotRetreiveSigner) c5.
Proof.
  assert (0 <= number (block 10) < 2 ^ 32 - 3) as Hb by (cbn; lia).
  split.
  - destruct (collected_keys_outcome state5 (broadcast 3) (key_from 3) n_keys (block 10) c5
      sets5 offchain0 (auth 3) eq_refl) as (n' & o' & _ & _ & Hall);
      [done|exact n_keys_header|exact eq_refl|exact validators5|exact Hb|exact n_keys_storage|
       exact third_authentic|rewrite third_collected, threshold5; apply Z.ltb_lt; reflexivity|].
    specialize (Hall c5). cbv zeta in Hall. rewrite third_collected in Hall.
    destruct (Hall no_next_key5 next_best_wf) as (_ & Hacc & _).
    destruct (Hacc key2 ks3_signers ks3_wins) as (e & He & _); [apply Z.leb_le; reflexivity|]. by exists e.
  - destruct (collected_keys_outcome state5 (broadcast 4) (key_from 4) n_keys (block 10) c5
      sets5 offchain0 (auth 4) eq_refl) as (n' & o' & _ & _ & Hall);
      [done|exact n_keys_header|exact eq_refl|exact validators5|exact Hb|exact n_keys_storage|
       exact fourth_authentic|rewrite fourth_collected, threshold5; apply Z.ltb_lt; reflexivity|].
    specialize (Hall c5). cbv zeta in Hall. rewrite fourth_collected in Hall.
    destruct (Hall no_next_key5 next_best_wf) as (_ & _ & Hrej).
    apply (Hrej (key2, toy_sig 4 key2)); [by right; right; left|exact fourth_outside].
Defined.
