(* ===== verification/KeysWitnesses.v ===== *)
(** * Instances for the recovery of keys

    A group of the order of secp256k1 with coordinates that are easy to compute, in which
    the theorems of Keys.v are applied to a signature and to a key. *)

From Stdlib Require Import Zcong.
From S2P Require Import Prelude.
From S2P Require Import Frame.
From S2P Require Import Primitives.
From S2P Require Import Keys.

(** The numbers modulo the order; a number and its opposite share the x-coordinate, and
    the y-coordinate tells them apart. *)
Definition half : Z := (ORDER - 1) / 2.

Definition Y0 : Z := 2 ^ 255.

Definition toy_x (k : Z) : option Z := if k =? 0 then None else Some (if k <=? half then k else ORDER - k).
Definition toy_y (k : Z) : option Z := if k =? 0 then None else Some (if k <=? half then Y0 else Y0 + 1).
Definition toy_from (x y : Z) : option Z :=
  if (0 <? x) && (x <=? half) then
    if y =? Y0 then Some x else if y =? Y0 + 1 then Some (ORDER - x) else None
  else None.
Definition toy_xo (x : Z) (odd : bool) : option (Z * Z) :=
  if (0 <? x) && (x <=? half) then Some (x, if odd then Y0 + 1 else Y0) else None.
Definition toy_invert (a : Z) : option Z :=
  let b := Z.invmod a ORDER in if (a * b) mod ORDER =? 1 then Some b else None.

#[export] Instance toy_group : Secp256k1 := {|
  Point := Z;
  generator := 1;
  pt_mul P a := (P * a) mod ORDER;
  pt_sub P Q := (P - Q) mod ORDER;
  from_coords := toy_from;
  x_coord := toy_x;
  y_coord := toy_y;
  invert := toy_invert;
  set_xo_var := toy_xo |}.

Lemma half_spec : ORDER = 2 * half + 1 ∧ 0 < half ∧ ORDER < FIELD.
Proof. by vm_compute. Qed.

Lemma order_pos : 1 < ORDER.
Proof. by vm_compute. Qed.

Lemma toy_coords k : 0 < k < ORDER →
  has_coords (k : Point) (if k <=? half then k else ORDER - k) (if k <=? half then Y0 else Y0 + 1).
Proof.
  intros Hk. destruct half_spec as (E & Hh & Hf). pose proof order_pos.
  split; simpl; unfold toy_x, toy_y, toy_from, is_coord.
  - by rewrite (proj2 (Z.eqb_neq k 0)) by lia.
  - by rewrite (proj2 (Z.eqb_neq k 0)) by lia.
  - destruct (Z.leb_spec k half); lia.
  - destruct (k <=? half); by vm_compute.
  - destruct (Z.leb_spec k half).
    + by rewrite (proj2 (Z.ltb_lt 0 k)), (proj2 (Z.leb_le k half)) by lia.
    + rewrite (proj2 (Z.ltb_lt 0 (ORDER - k))), (proj2 (Z.leb_le (ORDER - k) half)) by lia.
      simpl. f_equal. lia.
Qed.

Lemma toy_has_coords k x y : has_coords (k : Point) x y →
  k ≠ 0 ∧ x = (if k <=? half then k else ORDER - k) ∧ y = (if k <=? half then Y0 else Y0 + 1).
Proof.
  intros [Hx Hy _ _ _]. simpl in *. unfold toy_x, toy_y in *.
  destruct (Z.eqb_spec k 0); [done|]. by simplify_eq.
Qed.

Lemma toy_mul_1 k : is_scalar k → pt_mul generator k = k.
Proof. intros Hk. simpl pt_mul. rewrite Z.mul_1_l. by apply Z.mod_small. Qed.

Lemma toy_invert_Some a : Z.gcd a ORDER = 1 → is_Some (toy_invert a).
Proof.
  intros Hg. pose proof order_pos as Ho. unfold toy_invert. revert Hg Ho. generalize ORDER. intros n Hg Ho.
  assert ((a * Z.invmod a n) mod n = 1) as ->; [|by eexists].
  rewrite Z.mul_comm. apply Z.invmod_coprime; [lia|done].
Qed.

Lemma toy_invert_inv a b : toy_invert a = Some b → is_scalar b ∧ (a * b) mod ORDER = 1.
Proof.
  pose proof order_pos as Ho. unfold toy_invert, is_scalar. revert Ho. generalize ORDER. intros n Ho.
  destruct (Z.eqb_spec ((a * Z.invmod a n) mod n) 1); [|done]. intros [= <-].
  split; [|done]. apply Z.mod_pos_bound. lia.
Qed.

#[export] Instance toy_laws : Secp256k1Laws.
Proof.
  destruct half_spec as (E & Hh & Hf). pose proof order_pos as Ho.
  split.
  - intros a b Ha Hb. rewrite (toy_mul_1 a Ha). simpl. by rewrite Z.mul_1_l, Z.mod_mod by lia.
  - intros a b Ha Hb. rewrite (toy_mul_1 a Ha), (toy_mul_1 b Hb). simpl.
    by rewrite Z.mul_1_l, Z.mod_mod by lia.
  - intros a b _. apply toy_invert_inv.
  - intros a _. apply toy_invert_Some.
  - intros k Hk. rewrite toy_mul_1 by (unfold is_scalar; lia). do 2 eexists. by apply toy_coords.
  - intros k x y Hk. rewrite toy_mul_1 by done. intros (Hk0 & -> & ->)%toy_has_coords.
    simpl. unfold toy_xo. destruct Hk. destruct (Z.leb_spec k half).
    + by rewrite (proj2 (Z.ltb_lt 0 k)), (proj2 (Z.leb_le k half)) by lia.
    + by rewrite (proj2 (Z.ltb_lt 0 (ORDER - k))), (proj2 (Z.leb_le (ORDER - k) half)) by lia.
  - intros x odd x' y Hx. change (set_xo_var x odd) with (toy_xo x odd). unfold toy_xo.
    destruct ((0 <? x) && (x <=? half)) eqn:Hxh; [|discriminate]. intros [= <- <-].
    apply andb_true_iff in Hxh as [?%Z.ltb_lt ?%Z.leb_le].
    split; [reflexivity|]. split; [by clear; destruct odd|]. destruct odd.
    + exists (ORDER - x). split; [unfold is_scalar; lia|]. rewrite toy_mul_1 by (unfold is_scalar; lia).
      pose proof (toy_coords (ORDER - x) ltac:(lia)) as Hc.
      rewrite (proj2 (Z.leb_gt (ORDER - x) half)) in Hc by lia.
      by replace (ORDER - (ORDER - x)) with x in Hc by lia.
    + exists x. split; [unfold is_scalar; lia|]. rewrite toy_mul_1 by (unfold is_scalar; lia).
      pose proof (toy_coords x ltac:(lia)) as Hc. by rewrite (proj2 (Z.leb_le x half)) in Hc by lia.
Qed.

(** Numbers as text, and the digits of a byte string. *)
#[export] Instance short_text : BigIntText := {|
  bigint_to_bytes x := be_encode (size256 x) x;
  bigint_to_hex x := hex_digit <$> digits16 (size16 x) x |}.

#[export] Instance short_text_laws : BigIntTextLaws.
Proof. by split. Qed.

Fixpoint hex_pairs (t : list Z) : option bytes :=
  match t with
  | [] => Some []
  | [_] => None
  | a :: b :: t =>
      a ← hex_value a; b ← hex_value b; bs ← hex_pairs t; Some (16 * a + b :: bs)
  end.

#[export] Instance hex_text : HexCodec := {|
  hex_encode b := hex_digit <$> (b ≫= nibbles);
  hex_decode := hex_pairs |}.

Lemma hex_pairs_odd n t : (length t <= n)%nat → Nat.even (length t) = false → hex_pairs t = None.
Proof.
  revert t. induction n as [|n IH]; intros [|a [|b t]] Hn Ht; simpl in *; try done; try lia.
  destruct (hex_value a); [|done]. simpl. destruct (hex_value b); [|done]. simpl.
  by rewrite IH by (done || lia).
Qed.

#[export] Instance hex_text_laws : HexCodecLaws.
Proof.
  split; [done| |].
  - induction 1 as [|x b Hx _ IH]; [done|]. unfold is_byte, in_width in Hx.
    cbn [hex_decode hex_encode hex_text] in *. rewrite bind_cons. unfold nibbles at 1.
    rewrite fmap_app, !fmap_cons, fmap_nil. cbn [app hex_pairs].
    rewrite !hex_value_digit by (Z.to_euclidean_division_equations; lia). simpl.
    rewrite IH. simpl. f_equal. f_equal. Z.to_euclidean_division_equations; lia.
  - intros t. by apply (hex_pairs_odd (length t)).
Qed.

#[export] Instance sum_crypto : Crypto := {|
  keccak_256 b := be_encode 32 (be_decode b * be_decode b + 7);
  secp256k1_ecdsa_recover _ _ := None;
  secp256k1_decompress _ := None;
  sr25519_from_slice _ := None;
  sr25519_verify _ _ _ := false |}.

#[export] Instance sum_crypto_bytes : KeccakBytes.
Proof. intros b. split; [apply be_encode_bytes|apply be_encode_length]. Qed.

Definition key5 : Z := 5.
Definition nonce5 : Z := 2 ^ 252 + 3.
Definition message5 : Z := 123456789.

Definition sig5 : SignatureRecid :=
  default {| sig_r := 0; sig_s := 0; sig_recid := 0 |} (ecdsa_sign key5 nonce5 message5).

Lemma recover_pub_key_signed_witness :
  sig_r sig5 = 2 ^ 252 + 3 ∧ recover_pub_key sig5 message5 = Ok (5 : Point).
Proof.
  split; [by vm_compute|].
  assert (ecdsa_sign key5 nonce5 message5 = Some sig5) as Hs by by vm_compute.
  assert (recover_pub_key sig5 message5 =
    if 2 ^ 248 <=? sig_r sig5 then Ok (pt_mul generator key5) else Err InvalidRValue) as ->.
  { apply (recover_pub_key_signed key5 nonce5 message5 sig5);
      [split; by vm_compute|split; by vm_compute|exact Hs|by vm_compute]. }
  by vm_compute.
Defined.

(** A key with two long coordinates, and one with a short one. *)
Lemma convert_to_eth_address_spec_witness :
  (∃ a, convert_to_eth_address (nonce5 : Point) = Ok a ∧ length a = 40%nat ∧
     convert_to_checksum_eth_address a = Ok a) ∧
  convert_to_eth_address (key5 : Point) = Err NotHex.
Proof.
  assert (has_coords (nonce5 : Point) nonce5 Y0) as Hn
    by (apply (toy_coords nonce5); split; by vm_compute).
  assert (has_coords (key5 : Point) key5 Y0) as Hk
    by (apply (toy_coords key5); split; by vm_compute).
  destruct (convert_to_eth_address_spec _ _ _ Hn) as (Ha & _ & Hi).
  destruct (convert_to_eth_address_spec _ _ _ Hk) as (_ & -> & _).
  split; [|by vm_compute]. eexists. split; [apply Ha; by vm_compute|]. split; [by vm_compute|].
  apply Hi, Ha; by vm_compute.
Defined.
