(* ===== verification/ChainSpec.v ===== *)
(** * The chain specifications

    The genesis configurations that the node ships
    (src/standalone/node/src/chain_spec.rs): [testnet_genesis], the development chain,
    the local testnet and the Arana testnet, and what the genesis build of Runtime.v
    makes of them.  Keys derived from a seed phrase, the choice of nominations and the
    election of the first validators are parameters: they are made by sp-core, rand and
    pallet-staking. *)

From S2P Require Import Prelude.
From S2P Require Import Frame.
From S2P Require Import Float.
From S2P Require Import Primitives.
From S2P Require Import Merkle.
From S2P Require Import Traits.
From S2P Require Import BridgeRegistry.
From S2P Require Import Proposals.
From S2P Require Import ProposalHandler.
From S2P Require Import Metadata.
From S2P Require Import MetadataQuorum.
From S2P Require Import Sessions.
From S2P Require Import Runtime.

(** ** Keys *)

(** [Pair::from_string("//seed").public()] for the key types of the specification, and
    the account of an sr25519 key. *)
Class SeedKeys := {
  seed_account : string → AccountId;
  seed_sr25519 : string → bytes;
  seed_ed25519 : string → bytes;
  seed_dkg : string → DKGId }.

Record Authority := mkAuthority {
  au_stash : AccountId;
  au_controller : AccountId;
  au_aura : bytes;
  au_grandpa : bytes;
  au_im_online : bytes;
  au_dkg : DKGId }.

Record SessionKeys := mkSessionKeys {
  sk_grandpa : bytes;
  sk_aura : bytes;
  sk_dkg : DKGId;
  sk_im_online : bytes }.

Definition dkg_session_keys (grandpa aura im_online : bytes) (dkg : DKGId) : SessionKeys :=
  {| sk_grandpa := grandpa; sk_aura := aura; sk_dkg := dkg; sk_im_online := im_online |}.

Section seeds.
Context `{SeedKeys}.

Definition authority_keys_from_seed (stash controller : string) : Authority := {|
  au_stash := seed_account stash;
  au_controller := seed_account controller;
  au_aura := seed_sr25519 stash;
  au_grandpa := seed_ed25519 stash;
  au_im_online := seed_sr25519 stash;
  au_dkg := seed_dkg stash |}.
End seeds.

(** ** The genesis configuration *)

Inductive StakerStatus :=
| Validator
| Nominator (nominations : list AccountId).

#[export] Instance StakerStatus_eq_dec : EqDecision StakerStatus.
Proof. solve_decision. Defined.

(** The fields of [RuntimeGenesisConfig] that the specification sets. *)
Record RuntimeGenesisConfig := mkRuntimeGenesisConfig {
  code : bytes;
  sudo_key : option AccountId;
  balances : list (AccountId * Z);
  session_keys : list (AccountId * AccountId * SessionKeys);
  validator_count : Z;
  minimum_validator_count : Z;
  invulnerables : list AccountId;
  stakers : list (AccountId * AccountId * Z * StakerStatus);
  dkg_authorities : list DKGId;
  keygen_threshold : Z;
  signature_threshold : Z;
  authority_ids : list AccountId;
  initial_chain_ids : list bytes;
  initial_r_ids : list (bytes * bytes);
  initial_proposers : list AccountId;
  genesis_bridges : list BridgeMetadata }.

Definition CHAIN_ID_HERMES : bytes := [1; 0; 0; 0; 19; 137].
Definition CHAIN_ID_ATHENA : bytes := [1; 0; 0; 0; 19; 138].

Definition RESOURCE_ID_HERMES_ATHENA : bytes :=
  be_encode 32 0x0000000000000000e69a847cd5bc0c9480ada0b339d7f0a8cac2b6670000138a.
Definition RESOURCE_ID_ATHENA_HERMES : bytes :=
  be_encode 32 0x000000000000d30c8839c1145609e564b986f667b273ddcb8496010000001389.

(** The bytes of "hermes-athena". *)
Definition hermes_athena : bytes := [104; 101; 114; 109; 101; 115; 45; 97; 116; 104; 101; 110; 97].

Definition DOLLARS : Z := 1000000000000.
Definition ENDOWMENT : Z := 10000000 * DOLLARS.
Definition STASH : Z := ENDOWMENT / 1000.

(** [rng.gen::<usize>()] and [choose_multiple], at the [i]-th nominator. *)
Class Rng := {
  MaxNominations : Z;
  rng_gen : nat → Z;
  choose_multiple : nat → list Authority → Z → list Authority }.

Section spec.
Context `{Rng}.

(** The remainder by [limit] panics for an empty list of authorities. *)
Definition nominator_entry (initial_authorities : list Authority) (i : nat) (x : AccountId)
    : option (AccountId * AccountId * Z * StakerStatus) :=
  let limit := Z.min MaxNominations (len initial_authorities) in
  if limit =? 0 then None else
  let count := rng_gen i mod limit in
  let nominations := au_stash <$> choose_multiple i initial_authorities count in
  Some (x, x, STASH, Nominator nominations).

(** [None] is a panic. *)
Definition testnet_genesis (wasm_binary : bytes) (initial_authorities : list Authority)
    (initial_nominators : list AccountId) (root_key : AccountId)
    (endowed_accounts : list AccountId) (chain_ids : list bytes)
    (r_ids : list (bytes * bytes)) (proposers : list AccountId)
    : option RuntimeGenesisConfig :=
  nominators ← mapM (λ p, nominator_entry initial_authorities p.1 p.2)
    (imap pair initial_nominators);
  Some {|
    code := wasm_binary;
    sudo_key := Some root_key;
    balances := (λ k, (k, ENDOWMENT)) <$> endowed_accounts;
    session_keys := (λ x, (au_controller x, au_stash x,
      dkg_session_keys (au_grandpa x) (au_aura x) (au_im_online x) (au_dkg x)))
      <$> initial_authorities;
    validator_count := wrap 32 (len initial_authorities);
    minimum_validator_count := wrap 32 (len initial_authorities - 1);
    invulnerables := au_stash <$> initial_authorities;
    stakers := ((λ x, (au_stash x, au_controller x, STASH, Validator)) <$> initial_authorities)
      ++ nominators;
    dkg_authorities := au_dkg <$> initial_authorities;
    keygen_threshold := wrap 16 (len initial_authorities);
    signature_threshold := ceil_half (len initial_authorities);
    authority_ids := au_stash <$> initial_authorities;
    initial_chain_ids := chain_ids;
    initial_r_ids := r_ids;
    initial_proposers := proposers;
    genesis_bridges := [{|
      resource_ids := [RESOURCE_ID_HERMES_ATHENA; RESOURCE_ID_ATHENA_HERMES];
      info := {| additional := []; display := DataRaw hermes_athena |} |}] |}.
End spec.

(** ** The shipped chains *)

Section chains.
Context `{Rng, SeedKeys}.

Definition ALL_DEV_AUTHORITIES : list string :=
  ["Alice"; "Bob"; "Charlie"; "Dave"; "Eve"; "Ferdie"]%string.

Definition stash_seed (x : string) : string := (x ++ "//stash")%string.

Definition dev_authority (x : string) : Authority := authority_keys_from_seed x (stash_seed x).

(** [Default::default()] data for the two resources. *)
Definition dev_resources : list (bytes * bytes) :=
  [(RESOURCE_ID_HERMES_ATHENA, []); (RESOURCE_ID_ATHENA_HERMES, [])].

(** The genesis of a specification; [None] for the outer option is a missing wasm. *)
Definition development_config (wasm : option bytes) : option (option RuntimeGenesisConfig) :=
  wasm_binary ← wasm;
  Some (testnet_genesis wasm_binary (dev_authority <$> ALL_DEV_AUTHORITIES) []
    (seed_account "Alice")
    ((seed_account <$> ALL_DEV_AUTHORITIES) ++
     ((λ x, seed_account (stash_seed x)) <$> ALL_DEV_AUTHORITIES))
    [CHAIN_ID_HERMES; CHAIN_ID_ATHENA] dev_resources (seed_account <$> ALL_DEV_AUTHORITIES)).

(** [count] is the parsed [INITIAL_AUTHORITIES_COUNT]. *)
Definition local_testnet_config (wasm : option bytes) (count : option Z)
    : option (option RuntimeGenesisConfig) :=
  wasm_binary ← wasm;
  let initial_authorities_count := Z.min (default 5 count) (len ALL_DEV_AUTHORITIES) in
  let initial_authorities := take (Z.to_nat initial_authorities_count) ALL_DEV_AUTHORITIES in
  Some (testnet_genesis wasm_binary (dev_authority <$> initial_authorities) []
    (seed_account "Alice")
    ((seed_account <$> initial_authorities) ++
     ((λ x, seed_account (stash_seed x)) <$> initial_authorities))
    [CHAIN_ID_HERMES; CHAIN_ID_ATHENA] dev_resources
    [seed_account "Dave"; seed_account "Eve"]).
(** The Arana testnet, of testnet_fixtures.rs: an account is 32 bytes, a DKG key is a
    compressed point of 33. *)
Definition account32 (x : Z) : AccountId := mkAccountId (be_encode 32 x).

Definition get_testnet_root_key : AccountId :=
  account32 0x888a3ab33eea2b827f15302cb26af0e007b067ccfbf693faff3aa7ffcfa25925.

Definition get_arana_initial_authorities : list Authority :=
  [
   {| au_stash := account32 0x4e85271af1330e5e9384bd3ac5bdc04c0f8ef5a8cc29c1a8ae483d674164745c;
      au_controller := account32 0x804808fb75d16340dc250871138a1a6f1dfa3cab9cc1fbd6f42960f1c39a950d;
      au_aura := be_encode 32 0x16be9647f91aa5441e300acb8f0d6ccc63e72850202a7947df6a646c1bb4071a;
      au_grandpa := be_encode 32 0x71bf01524c555f1e0f6b7dc7243caf00851d3afc543422f98d3eb6bca78acd8c;
      au_im_online := be_encode 32 0x16be9647f91aa5441e300acb8f0d6ccc63e72850202a7947df6a646c1bb4071a;
      au_dkg := mkDKGId (be_encode 33 0x028a4c0781f8369fdd873f8531491f24e2e806fd11a13d828cb4099e6c1045103e) |};
   {| au_stash := account32 0x587c2ef00ec0a1b98af4c655763acd76ece690fccbb255f01663660bc274960d;
      au_controller := account32 0xcc195602a63bbdcf2ef4773c86fdbfefe042cb9aa8e3059d02e59a062d9c3138;
      au_aura := be_encode 32 0xf4e206607ffffcd389c4c60523de5dda5a411d1435f8540b6b6bc181553bd65a;
      au_grandpa := be_encode 32 0x61f771ebfdb0a6de08b8e0ca7a39a01f24e7eaa3d1e7f1001e6503490c25c044;
      au_im_online := be_encode 32 0xf4e206607ffffcd389c4c60523de5dda5a411d1435f8540b6b6bc181553bd65a;
      au_dkg := mkDKGId (be_encode 33 0x02427a6cf7f1d7538d9e3e4df834e27db337fd6ef0f530aab4e9799ff865e843fc) |};
   {| au_stash := account32 0x368ea402dbd9c9888ae999d6a799cf36e08673ee53c001dfb4529c149fc2c13b;
      au_controller := account32 0xa24f729f085de51eebaeaeca97d6d499761b8f6daeca9b99d754a06ef8bcec3f;
      au_aura := be_encode 32 0x8e92157e55a72fe0ee78c251a7553af341635bec0aafee1e4189cf8ce52cdd71;
      au_grandpa := be_encode 32 0xa41a815db90b9bd3d9ec462f90ba77ba1d627a9fccc9f7847e34c9e9e9b57c90;
      au_im_online := be_encode 32 0x8e92157e55a72fe0ee78c251a7553af341635bec0aafee1e4189cf8ce52cdd71;
      au_dkg := mkDKGId (be_encode 33 0x036aec5853fba2662f31ba89e859ac100daa6c58dc8fdaf0555565663f2b99f8f2) |};
   {| au_stash := account32 0x2c7f3cc085da9175414d1a9d40aa3aa161c8584a9ca62a938684dfbe90ae9d74;
      au_controller := account32 0x0a55e5245382700f35d16a5ea6d60a56c36c435bef7204353b8c36871f347857;
      au_aura := be_encode 32 0x9a457869037b3e7643db0b71e7340d5f319ec5b53be0bffbc8280fe9a6d6bd68;
      au_grandpa := be_encode 32 0xb0f002333f4fd657155dfcb4ac5c6ce04d0b2c68b64befa178d4357ceb05fe2d;
      au_im_online := be_encode 32 0x9a457869037b3e7643db0b71e7340d5f319ec5b53be0bffbc8280fe9a6d6bd68;
      au_dkg := mkDKGId (be_encode 33 0x0297579c2b3896c65bf556e710ba361d76bff80827e30d70bc8f1d39049005c509) |};
   {| au_stash := account32 0xe0948453e7acbc6ac937e124eb01580191e99f4262d588d4524994deb6134349;
      au_controller := account32 0x6c73e5ee9f8614e7c9f23fd8f7257d12e061e75fcbeb3b50ed70eb87ba91f500;
      au_aura := be_encode 32 0x4eddfb7cdb385617475a383929a3f129acad452d5789f27ca94373a1fa877b15;
      au_grandpa := be_encode 32 0xd2eb206f8c7a64ce47828b33314806ac6cb915d464990eaff9f6435880c6e54f;
      au_im_online := be_encode 32 0x4eddfb7cdb385617475a383929a3f129acad452d5789f27ca94373a1fa877b15;
      au_dkg := mkDKGId (be_encode 33 0x020d672a9e42b74d47f6280f8a5ea04f11f8ef53d9bcfba8a7c652ad0131a4d2f3) |}
  ].

Definition arana_accounts : list AccountId :=
  get_testnet_root_key :: (account32 <$> [
    0x4e85271af1330e5e9384bd3ac5bdc04c0f8ef5a8cc29c1a8ae483d674164745c;
    0x804808fb75d16340dc250871138a1a6f1dfa3cab9cc1fbd6f42960f1c39a950d;
    0x587c2ef00ec0a1b98af4c655763acd76ece690fccbb255f01663660bc274960d;
    0xcc195602a63bbdcf2ef4773c86fdbfefe042cb9aa8e3059d02e59a062d9c3138;
    0xa24f729f085de51eebaeaeca97d6d499761b8f6daeca9b99d754a06ef8bcec3f;
    0x368ea402dbd9c9888ae999d6a799cf36e08673ee53c001dfb4529c149fc2c13b;
    0x2c7f3cc085da9175414d1a9d40aa3aa161c8584a9ca62a938684dfbe90ae9d74;
    0x0a55e5245382700f35d16a5ea6d60a56c36c435bef7204353b8c36871f347857;
    0xe0948453e7acbc6ac937e124eb01580191e99f4262d588d4524994deb6134349;
    0x6c73e5ee9f8614e7c9f23fd8f7257d12e061e75fcbeb3b50ed70eb87ba91f500]).

(** [arana_local_config] and [arana_testnet_config] differ in their boot nodes only. *)
Definition arana_config (wasm : option bytes) : option (option RuntimeGenesisConfig) :=
  wasm_binary ← wasm;
  Some (testnet_genesis wasm_binary get_arana_initial_authorities [] get_testnet_root_key
    arana_accounts [] [] (au_stash <$> get_arana_initial_authorities)).
End chains.

(** ** Building the chain *)

(** The validators that the session pallet starts with, as [Staking] elects them. *)
Class Election := elected : RuntimeGenesisConfig → list AccountId.

(** When there are as many seats as stakers, and all of them are validators with the same
    stake, everyone is elected. *)
Class ElectionLaws `{Election} : Prop :=
  elects_all g stake :
    let validators := (λ s, s.1.1.1) <$> stakers g in
    0 < stake → Forall (λ s, s.2 = Validator ∧ s.1.2 = stake) (stakers g) →
    NoDup validators → validator_count g = len validators → elected g ≡ₚ validators.

Section genesis.
Context `{Election}.

(** The DKG key of the session keys stored for a validator, or the default key. *)
Definition validator_dkg_key (g : RuntimeGenesisConfig) (v : AccountId) : DKGId :=
  match list_find (λ x, x.1.2 = v) (session_keys g) with
  | Some (_, (_, _, keys)) => sk_dkg keys
  | None => mkDKGId (replicate 33 0)
  end.

(** What the build of the four pallets and the first session receive.  The builds of
    Substrate's own pallets, with their assertions about balances, stakes and session
    keys, are not part of the model. *)
Definition genesis_config (g : RuntimeGenesisConfig) : GenesisConfig := {|
  gen_authority_ids := authority_ids g;
  gen_keygen_threshold := keygen_threshold g;
  gen_signature_threshold := signature_threshold g;
  gen_chain_ids := initial_chain_ids g;
  gen_r_ids := initial_r_ids g;
  gen_proposers := initial_proposers g;
  gen_validators := (λ v, (v, validator_dkg_key g v)) <$> elected g;
  gen_bridges := genesis_bridges g |}.
End genesis.
