(* ===== verification/GenesisSpec.v ===== *)
(** * The shipped genesis configurations build a chain

    The genesis of [testnet_genesis] (ChainSpec.v) run through the genesis build of the
    four DKG pallets and the first session (Runtime.v): with two to a thousand
    authorities, and proposers and resources within their bounds, it succeeds, in a state
    from which the theorems about reachable chains hold; otherwise it panics.  Whether
    Substrate's own pallets accept the rest of the configuration is not part of it. *)

From S2P Require Import Prelude.
From S2P Require Import Frame.
From S2P Require Import Float.
From S2P Require Import Primitives.
From S2P Require Import Merkle.
From S2P Require Import Traits.
From S2P Require Import BridgeRegistry.
From S2P Require Import Proposals.
From S2P Require Import ProposalHandler.
From S2P Require Import Metadata.
From S2P Require Import MetadataQuorum.
From S2P Require Import Sessions.
From S2P Require Import Runtime.
From S2P Require Import ChainSpec.

(** ** The pallets' builds *)

Lemma run_panic {S E A B} (m : M S E A) (f : A → M S E B) s : m s = Panic → (m ≫= f) s = Panic.
Proof. cbv [mbind M_bind]. by intros ->. Qed.

Section builds.
Context `{WebbProposals, Crypto, !CryptoLaws, MetadataConfig, ProposalsConfig, BridgeConfig}.

Lemma ethereum_address_length a : len (DKGEcdsaToEthereumAddress a) <= 20.
Proof.
  unfold DKGEcdsaToEthereumAddress. destruct (secp256k1_decompress _); [|simpl; lia].
  rewrite length_drop, keccak_256_length. lia.
Qed.

Section voting.
Context {W F : Type} `{System W, ProposalHandlerTrait W F, MerkleLeaf}.
Abbreviation P A := (M (Proposals * W) (DispatchError ProposalsError F) A).

(** Whitelisting keeps what is whitelisted. *)
Lemma whitelist_run (chains : list bytes) (s : Proposals) (w : W) :
  ∃ t, (for_each chains (λ bs, mutate! ChainNonces ::= <[typed_chain_id_from bs := 0]>) : P unit)
    (s, w) = Ret tt (t, w) ∧ Resources t = Resources s ∧
    (∀ c, is_Some (ChainNonces s !! c) ∨ c ∈ typed_chain_id_from <$> chains →
       is_Some (ChainNonces t !! c)).
Proof.
  revert s. induction chains as [|b chains IH]; intros s; simpl.
  { exists s. split_and!; [done..|]. intros c [?|Hc]; [done|]. by apply elem_of_nil in Hc. }
  destruct (IH (s <| ChainNonces ::= <[typed_chain_id_from b := 0]> |>)) as (t & Hrun & Hr & Hc).
  exists t. split_and!; [exact Hrun|by rewrite Hr; simp_get|]. intros c Hin. apply Hc.
  simp_get. rewrite lookup_insert_is_Some. rewrite elem_of_cons in Hin.
  destruct (decide (typed_chain_id_from b = c)); naive_solver.
Qed.

Lemma resources_run (rids : list (bytes * bytes)) (s : Proposals) (w : W) :
  Forall (λ r, len r.2 <= MaxResourceLength) rids →
  ∃ t, (for_each rids (λ '(r_id, r_data),
      bounded_input ← expect (try_bound MaxResourceLength r_data);
      mutate! Resources ::= <[r_id := bounded_input]>) : P unit) (s, w) = Ret tt (t, w) ∧
    ChainNonces t = ChainNonces s ∧
    (∀ r, is_Some (Resources s !! r) ∨ r ∈ rids.*1 → is_Some (Resources t !! r)).
Proof.
  intros Hall. revert s. induction Hall as [|[r d] rids Hd _ IH]; intros s; simpl.
  { exists s. split_and!; [done..|]. intros c [?|Hc]; [done|]. by apply elem_of_nil in Hc. }
  simpl in Hd. rewrite (proj2 (try_bound_Some MaxResourceLength d d)) by done.
  destruct (IH (s <| Resources ::= <[r := d]> |>)) as (t & Hrun & Hr & Hc).
  exists t. split_and!; [exact Hrun|by rewrite Hr; simp_get|]. intros c Hin. apply Hc.
  simp_get. rewrite lookup_insert_is_Some. rewrite elem_of_cons in Hin.
  destruct (decide (r = c)); naive_solver.
Qed.

Lemma voting_build_run chains rids proposers (s : Proposals) (w : W) :
  Forall (λ r, len r.2 <= MaxResourceLength) rids → len proposers <= MaxProposers →
  ∃ t, (Voting.build chains rids proposers : P unit) (s, w) = Ret tt (t, w) ∧
    (∀ c, c ∈ typed_chain_id_from <$> chains → is_Some (ChainNonces t !! c)) ∧
    (∀ r, r ∈ rids.*1 → is_Some (Resources t !! r)).
Proof.
  intros Hr Hp. destruct (whitelist_run chains s w) as (s1 & Hrun1 & _ & Hc).
  destruct (resources_run rids s1 w Hr) as (s2 & Hrun2 & Hcn & Hres).
  exists (s2 <| Proposers := proposers |>). unfold Voting.build.
  rewrite (run_call _ _ _ _ _ Hrun1), (run_call _ _ _ _ _ Hrun2).
  rewrite (proj2 (try_bound_Some MaxProposers proposers proposers)) by done.
  split_and!; [done|intros; simp_get..]; [rewrite Hcn|]; auto.
Qed.

Lemma resources_panic (rids : list (bytes * bytes)) (s : Proposals) (w : W) :
  ¬ Forall (λ r, len r.2 <= MaxResourceLength) rids →
  (for_each rids (λ '(r_id, r_data),
      bounded_input ← expect (try_bound MaxResourceLength r_data);
      mutate! Resources ::= <[r_id := bounded_input]>) : P unit) (s, w) = Panic.
Proof.
  revert s. induction rids as [|[r d] rids IH]; intros s Hn; [by destruct Hn|]. simpl.
  unfold try_bound. destruct (Z.leb_spec (len d) MaxResourceLength); [|done].
  apply (IH (s <| Resources ::= <[r := d]> |>)). intros Hall. apply Hn. by constructor.
Qed.

(** Too many proposers or too long a resource stop the build. *)
Lemma voting_build_panics chains rids proposers (s : Proposals) (w : W) :
  ¬ (Forall (λ r, len r.2 <= MaxResourceLength) rids ∧ len proposers <= MaxProposers) →
  (Voting.build chains rids proposers : P unit) (s, w) = Panic.
Proof.
  intros Hn. destruct (whitelist_run chains s w) as (s1 & Hrun1 & _). unfold Voting.build.
  rewrite (run_call _ _ _ _ _ Hrun1).
  destruct (decide (Forall (λ r, len r.2 <= MaxResourceLength) rids)) as [Hr|Hr].
  - destruct (resources_run rids s1 w Hr) as (s2 & Hrun2 & _). rewrite (run_call _ _ _ _ _ Hrun2).
    unfold try_bound. destruct (Z.leb_spec (len proposers) MaxProposers); [naive_solver|done].
  - by apply run_panic, resources_panic.
Qed.
End voting.
End builds.

(** ** The DKG pallet *)

Section dkg.
Context `{WebbProposals, Crypto, MetadataConfig, MerkleLeaf} {W F : Type}.
Context `{System W, OnAuthoritySetChangeHandler W F, ProposalHandlerTrait W F}.
Abbreviation MD A := (M (Metadata * W) (DispatchError MetadataError F) A).

Lemma dkg_build_run ids keygen signature (s : Metadata) (w : W) :
  signature < keygen → 1 < keygen <= len ids →
  ∃ t, (Dkg.build ids keygen signature : MD unit) (s, w) = Ret tt (t, w) ∧
    Authorities t = Authorities s ∧ KeygenThreshold t = keygen ∧
    SignatureThreshold t = signature.
Proof.
  intros Hlt Hk. unfold Dkg.build. mrun. rewrite (proj2 (Z.ltb_lt _ _)) by lia. mrun.
  rewrite (proj2 (Z.ltb_lt _ _)) by lia. mrun. rewrite (proj2 (Z.leb_le _ _)) by lia.
  mrun. eexists. split; [reflexivity|]. by simp_get.
Qed.

Lemma dkg_build_panics ids keygen signature (s : Metadata) (w : W) :
  keygen <= 1 → (Dkg.build ids keygen signature : MD unit) (s, w) = Panic.
Proof.
  intros Hk. unfold Dkg.build. mrun. destruct (signature <? keygen); [|done]. mrun.
  by rewrite (proj2 (Z.ltb_ge _ _)) by lia.
Qed.

(** The first session: the validators are the authorities, and the best of them. *)
Lemma genesis_session_run (v : list (AccountId * DKGId)) (s : Metadata) (w w' : W) :
  Authorities s = [] → v ≠ [] → len v <= MaxAuthorities → 0 <= KeygenThreshold s →
  on_authority_set_changed v.*1 v.*2 w = Ret tt w' →
  ∃ t, (Dkg.on_genesis_session v : MD unit) (s, w) = Ret tt (t, w') ∧
    Authorities t = v.*2 ∧ NextAuthorities t = v.*2 ∧
    CurrentAuthoritiesAccounts t = v.*1 ∧ NextAuthoritiesAccounts t = v.*1 ∧
    KeygenThreshold t = KeygenThreshold s ∧ SignatureThreshold t = SignatureThreshold s ∧
    (BestAuthorities t).*2 ⊆+ v.*2 ∧
    len (BestAuthorities t) = Z.min (KeygenThreshold s) (len v).
Proof.
  intros Ha Hv Hl Hk Hw. unfold Dkg.on_genesis_session, Dkg.initialize_authorities.
  rewrite bool_decide_eq_false_2 by (by destruct v). mrun. rewrite Ha. mrun.
  assert (∀ A (f : AccountId * DKGId → A),
    try_bound MaxAuthorities (f <$> v) = Some (f <$> v)) as Hf
    by (intros; apply try_bound_Some; by rewrite length_fmap).
  rewrite !Hf. mrun. rewrite ?Hf. mrun.
  match goal with |- context [get_best_authorities ?x ?k ?l] => set (s1 := x);
    replace k with (KeygenThreshold s) by (by simp_get);
    set (b := get_best_authorities s1 (KeygenThreshold s) l) end.
  destruct (best_authorities_facts s1 (KeygenThreshold s) v.*2) as [Hsub Hbl]. fold b in Hsub, Hbl.
  specialize (Hbl Hk). rewrite !length_fmap in Hbl.
  rewrite (proj2 (try_bound_Some MaxAuthorities b b)) by (split; [done|lia]). mrun.
  assert (KeygenThreshold s1 = KeygenThreshold s) as Ek by (unfold s1; by simp_get).
  destruct (best_authorities_facts (s1 <| BestAuthorities := b |>) (KeygenThreshold s1) v.*2)
    as [_ Hbl']. rewrite !length_fmap in Hbl'.
  match goal with |- context [try_bound _ ?x] => set (b' := x) in Hbl' |- * end.
  rewrite (proj2 (try_bound_Some MaxAuthorities b' b')) by (split; [done|lia]).
  rewrite bool_decide_eq_true_2 by done. mrun. unfold calls. cbn [snd fst]. rewrite Hw.
  eexists. split; [reflexivity|]. unfold s1. simp_get. split_and!; done.
Qed.
End dkg.

(** ** The configuration *)

Section config.
Context `{Rng, Election, !ElectionLaws}.
Context (wasm : bytes) (auths : list Authority) (root : AccountId) (endowed : list AccountId).
Context (chains : list bytes) (rids : list (bytes * bytes)) (proposers : list AccountId).
Context (Hnodup : NoDup (au_stash <$> auths)) (Hlen : len auths <= 1000).

(** Without nominators the configuration is always built. *)
Lemma testnet_genesis_defined :
  ∃ g, testnet_genesis wasm auths [] root endowed chains rids proposers = Some g.
Proof. eexists. reflexivity. Qed.

Context (g : RuntimeGenesisConfig).
Context (Hg : testnet_genesis wasm auths [] root endowed chains rids proposers = Some g).

Lemma elected_authorities : elected g ≡ₚ au_stash <$> auths.
Proof using All.
  assert ((λ s, s.1.1.1) <$> stakers g = au_stash <$> auths) as E.
  { injection Hg as <-. simpl. by rewrite app_nil_r, <- list_fmap_compose. }
  rewrite <- E. apply (elects_all g STASH); rewrite ?E; [done| |done|].
  - injection Hg as <-. simpl. rewrite app_nil_r. by apply Forall_fmap, Forall_true.
  - injection Hg as <-. simpl. rewrite length_fmap. apply wrap_small. unfold in_width. lia.
Qed.

Lemma validator_key a : a ∈ auths → validator_dkg_key g (au_stash a) = au_dkg a.
Proof using Hnodup Hg.
  intros (i & Hi)%list_elem_of_lookup. unfold validator_dkg_key. injection Hg as <-. simpl.
  rewrite list_find_fmap. assert (list_find ((λ x, x.1.2 = au_stash a) ∘ (λ x, (au_controller x,
    au_stash x, dkg_session_keys (au_grandpa x) (au_aura x) (au_im_online x) (au_dkg x)))) auths
    = Some (i, a)) as ->; [|done].
  apply list_find_Some. split_and!; [done..|]. intros j b Hj Hji E. simpl in E.
  assert (j = i) as ->; [|lia].
  eapply NoDup_lookup; [exact Hnodup|by apply list_lookup_fmap_Some; eauto|].
  apply list_lookup_fmap_Some. exists a. by rewrite E.
Qed.

Lemma validators_accounts : (gen_validators (genesis_config g)).*1 = elected g.
Proof using. simpl. rewrite <- list_fmap_compose. apply list_fmap_id. Qed.

Lemma validators_keys : (gen_validators (genesis_config g)).*2 ≡ₚ au_dkg <$> auths.
Proof using All.
  simpl. rewrite <- list_fmap_compose, elected_authorities, <- list_fmap_compose.
  erewrite list_fmap_ext; [reflexivity|]. intros i a Ha. apply validator_key.
  by eapply list_elem_of_lookup_2.
Qed.
End config.

(** ** The chain *)

Section chain.
Context `{WebbProposals, Crypto, !CryptoLaws, ReputationOrder, IterOrder, Weights} {Sys : Type}.
Context `{System Sys, ReportOffences Sys RuntimeError, Rng, Election, !ElectionLaws}.
Implicit Types c : Chain Sys.

(** What a genesis with the given authorities, chains and resources establishes. *)
Record built_from (auths : list Authority) (chains : list bytes) (rids : list (bytes * bytes))
    c : Prop := {
  bf_keygen : KeygenThreshold (dkg c) = len auths;
  bf_signature : SignatureThreshold (dkg c) = (len auths + 1) / 2;
  bf_authorities : Authorities (dkg c) ≡ₚ au_dkg <$> auths;
  bf_best : (BestAuthorities (dkg c)).*2 ≡ₚ au_dkg <$> auths;
  bf_proposers : Proposers (voting c) ≡ₚ au_stash <$> auths;
  bf_chains : ∀ b, b ∈ chains → is_Some (ChainNonces (voting c) !! typed_chain_id_from b);
  bf_resources : ∀ r, r ∈ rids.*1 → is_Some (Resources (voting c) !! r);
  bf_bridge r : r = RESOURCE_ID_HERMES_ATHENA ∨ r = RESOURCE_ID_ATHENA_HERMES →
    ResourceToBridgeIndex (bridges c) !! r = Some 1 }.

Lemma in_dkg_Ret {A} (m : M _ (DispatchError MetadataError RuntimeError) A) c a p :
  m (dkg_view c) = Ret a p → in_dkg m c = Ret a (of_dkg_view p).
Proof. unfold in_dkg, via. by intros ->. Qed.

Lemma in_voting_Ret {A} (m : M _ (DispatchError ProposalsError RuntimeError) A) c a p :
  m (voting_view c) = Ret a p → in_voting m c = Ret a (of_voting_view p).
Proof. unfold in_voting, via. by intros ->. Qed.

Lemma registry_build_run (b : BridgeMetadata) (r r' : bytes) :
  resource_ids b = [r; r'] →
  ∃ t, (Registry.build [b] : M _ (DispatchError BridgeError RuntimeError) unit) registry_empty
    = Ret tt t ∧ ResourceToBridgeIndex t = <[r' := 1]> (<[r := 1]> ∅).
Proof.
  intros Hb. unfold Registry.build. mrun. cbn [for_each]. mrun. rewrite Hb. cbn [for_each].
  eexists. split; [reflexivity|]. by simp_get.
Qed.

Lemma in_dkg_Panic {A} (m : M _ (DispatchError MetadataError RuntimeError) A) c :
  m (dkg_view c) = Panic → in_dkg m c = Panic.
Proof. unfold in_dkg, via. by intros ->. Qed.

Lemma in_voting_Panic {A} (m : M _ (DispatchError ProposalsError RuntimeError) A) c :
  m (voting_view c) = Panic → in_voting m c = Panic.
Proof. unfold in_voting, via. by intros ->. Qed.

(** The bounds of the configuration. *)
Definition genesis_fits (auths : list Authority) (rids : list (bytes * bytes))
    (proposers : list AccountId) : Prop :=
  2 <= len auths ∧ Forall (λ r, len r.2 <= 1000) rids ∧ len proposers <= 1000.

#[global] Instance genesis_fits_dec auths rids proposers : Decision (genesis_fits auths rids proposers).
Proof. apply _. Defined.

(** *** The parts of one specification *)

Section shipped.
Context (wasm : bytes) (auths : list Authority) (root : AccountId) (endowed : list AccountId).
Context (chains : list bytes) (rids : list (bytes * bytes)) (proposers : list AccountId).
Context (g : RuntimeGenesisConfig) (s : Sys).
Context (Hnd : NoDup (au_stash <$> auths)) (Hlen : len auths <= 1000).
Context (Hg : testnet_genesis wasm auths [] root endowed chains rids proposers = Some g).

Abbreviation gc := (genesis_config g).
Abbreviation world p := (handler_empty, (p, (registry_empty, s))).

Lemma config_thresholds :
  gen_keygen_threshold gc = len auths ∧ gen_signature_threshold gc = (len auths + 1) / 2 ∧
  gen_authority_ids gc = au_stash <$> auths.
Proof using Hlen Hg.
  injection Hg as <-. simpl. rewrite wrap_small by (unfold in_width; lia).
  by rewrite ceil_half_exact by lia.
Qed.

Lemma config_validators : len (gen_validators gc) = len auths.
Proof using All.
  pose proof (validators_keys _ _ _ _ _ _ _ Hnd Hlen _ Hg) as Hp%Permutation_length.
  rewrite !length_fmap in Hp. by rewrite Hp.
Qed.

Lemma config_accounts : (gen_validators gc).*1 ≡ₚ au_stash <$> auths.
Proof using All. rewrite validators_accounts. by apply (elected_authorities wasm auths root endowed chains rids proposers). Qed.

Lemma config_bridge : ∃ b, gen_bridges gc = [b] ∧
  resource_ids b = [RESOURCE_ID_HERMES_ATHENA; RESOURCE_ID_ATHENA_HERMES].
Proof using Hg. injection Hg as <-. eexists. split; reflexivity. Qed.

Lemma shipped_dkg_run :
  2 <= len auths →
  ∃ m, (Dkg.build (gen_authority_ids gc) (gen_keygen_threshold gc) (gen_signature_threshold gc)
      : M _ (DispatchError MetadataError RuntimeError) unit)
      (metadata_empty, world proposals_empty) = Ret tt (m, world proposals_empty) ∧
    Authorities m = [] ∧ KeygenThreshold m = len auths ∧
    SignatureThreshold m = (len auths + 1) / 2.
Proof using Hlen Hg.
  intros Htwo. destruct config_thresholds as (Ek & Es & Ei). rewrite Ek, Es, Ei.
  apply dkg_build_run; [Z.to_euclidean_division_equations; lia|rewrite length_fmap; lia].
Qed.

Lemma unfit_genesis_panics :
  ¬ genesis_fits auths rids proposers → genesis gc (chain_empty s) = Panic.
Proof using Hlen Hg.
  intros Hfit. destruct (decide (2 <= len auths)) as [Htwo|Htwo].
  - destruct (shipped_dkg_run Htwo) as (m & Rm & _). unfold genesis.
    etrans; [apply run_call, (in_dkg_Ret _ (chain_empty s) _ _ Rm)|].
    apply run_panic, in_voting_Panic, voting_build_panics. injection Hg as <-. simpl.
    intros [Hr Hp]. by apply Hfit.
  - destruct config_thresholds as (Ek & _). apply run_panic, in_dkg_Panic, dkg_build_panics. lia.
Qed.

(** The first session of a built DKG pallet, over the voting pallet [p]. *)
Lemma shipped_session_run m p :
  2 <= len auths → Authorities m = [] → KeygenThreshold m = len auths →
  ∃ m' p', (Dkg.on_genesis_session (gen_validators gc)
      : M _ (DispatchError MetadataError RuntimeError) unit) (m, world p) = Ret tt (m', world p') ∧
    KeygenThreshold m' = KeygenThreshold m ∧ SignatureThreshold m' = SignatureThreshold m ∧
    Authorities m' ≡ₚ au_dkg <$> auths ∧ (BestAuthorities m').*2 ≡ₚ au_dkg <$> auths ∧
    Proposers p' ≡ₚ au_stash <$> auths ∧
    ChainNonces p' = ChainNonces p ∧ Resources p' = Resources p.
Proof using All.
  intros Htwo HA HK. pose proof config_validators as Hkl. pose proof config_accounts as Hacc.
  pose proof (validators_keys _ _ _ _ _ _ _ Hnd Hlen _ Hg) as Hkeys.
  destruct (authority_set_changed_effect (F := RuntimeError) (gen_validators gc).*1
    (gen_validators gc).*2 p (handler_empty, (registry_empty, s)))
    as (p' & Rc & Hpp & _ & _ & _ & _ & Hcn & Hre).
  { rewrite Hacc, length_fmap. done. }
  { rewrite Hacc, length_fmap. unfold in_width. lia. }
  { apply Forall_true. intros i. pose proof (ethereum_address_length i) as Hi.
    simpl. unfold runtime_merkle_leaf, authority_to_merkle_leaf. lia. }
  destruct (genesis_session_run (gen_validators gc) m (world p) (world p')) as
    (m' & Rs & Hau & _ & _ & _ & HK' & HS' & Hsub & Hbl).
  { by rewrite HA. }
  { intros E. rewrite E in Hkl. simpl in Hkl. lia. }
  { rewrite Hkl. simpl. lia. }
  { lia. }
  { unfold on_authority_set_changed, authority_set_change_handler, via, flip.
    cbn [fst snd]. by rewrite Rc. }
  exists m', p'. split_and!; try done; [by rewrite Hau| |by rewrite Hpp].
  rewrite <- Hkeys. apply submseteq_length_Permutation; [done|].
  rewrite HK, Hkl in Hbl. rewrite !length_fmap. lia.
Qed.

Lemma fit_genesis_builds :
  genesis_fits auths rids proposers →
  ∃ c, genesis gc (chain_empty s) = Ret tt c ∧ built_from auths chains rids c.
Proof using All.
  intros (Htwo & Hr & Hp). destruct (shipped_dkg_run Htwo) as (m1 & Rm & HA & HK & HS).
  destruct (voting_build_run (F := RuntimeError) (gen_chain_ids gc) (gen_r_ids gc)
    (gen_proposers gc) proposals_empty (handler_empty, (m1, (registry_empty, s))))
    as (p1 & Rp & Hc & Hres); [injection Hg as <-; done..|].
  destruct (shipped_session_run m1 p1 Htwo HA HK)
    as (m2 & p2 & Rs & HK2 & HS2 & Hau & Hbest & Hpp & Hcn & Hre).
  destruct config_bridge as (b & Eb & Hb). destruct (registry_build_run b _ _ Hb) as (r1 & Rr & Hrb).
  exists (mkChain m2 p2 handler_empty r1 s). split.
  - unfold genesis. etrans; [apply run_call, (in_dkg_Ret _ (chain_empty s) _ _ Rm)|].
    etrans; [apply run_call, (in_voting_Ret _ (mkChain m1 _ _ _ _) _ _ Rp)|].
    etrans; [apply run_call, (in_dkg_Ret _ (mkChain m1 p1 _ _ _) _ _ Rs)|].
    unfold in_bridges, zoom, map_err. rewrite Eb. simpl. by rewrite Rr.
  - constructor; simpl; [congruence..| | | | | |]; try done.
    + intros x Hx. rewrite Hcn. apply Hc. injection Hg as <-. by apply list_elem_of_fmap_2.
    + intros x Hx. rewrite Hre. apply Hres. by injection Hg as <-.
    + intros x Hx. rewrite Hrb. destruct Hx as [->| ->]; [|by rewrite lookup_insert_eq].
      by rewrite lookup_insert_ne, lookup_insert_eq.
Qed.
End shipped.

(** C37: for a specification made by [testnet_genesis] without nominators and with at most
    a thousand authorities, whose stash accounts differ, the genesis build of the DKG,
    voting, handler and bridge pallets and of the first session succeeds if there are at
    least two authorities, at most a thousand proposers and no resource data of more than
    a thousand bytes, and panics otherwise.  When it succeeds all authorities are in the
    first session, in the first key generation and proposers, the threshold is the
    larger half of them, and the chains, resources and the bridge are registered. *)
Theorem testnet_genesis_builds wasm auths root endowed chains rids proposers g (s : Sys) :
  NoDup (au_stash <$> auths) → len auths <= 1000 →
  testnet_genesis wasm auths [] root endowed chains rids proposers = Some g →
  if decide (genesis_fits auths rids proposers)
  then ∃ c, genesis (genesis_config g) (chain_empty s) = Ret tt c ∧ built_from auths chains rids c
  else genesis (genesis_config g) (chain_empty s) = Panic.
Proof.
  intros. case_decide; [by eapply fit_genesis_builds|by eapply unfit_genesis_panics].
Qed.
End chain.
