(* ===== verification/MockBlockchain.v ===== *)
(** * The mock blockchain

    The orchestrator of the test harness (src/dkg-mock-blockchain/src/server.rs): a
    server to which the DKG clients connect, and which drives them through the test
    cases, one round of key generation and one of signing at a time.  The chain that
    the clients read is behind the trait [MutableBlockchain]; random identifiers and
    the hash of test proposals are parameters.  [orchestrate] is [on_client_update] on
    each event its channel delivers; a run ends when the process exits, which is the
    error of a computation. *)

From S2P Require Import Prelude.
From S2P Require Import Frame.
From S2P Require Import Primitives.
From S2P Require Import Gossip.

(** ** Messages *)

Abbreviation Uuid := Z.

Inductive AttachedCommand := ProcessAsNormal | ErrorDontProcessRequest.

Record ErrorCase := mkErrorCase {
  ec_name : string;
  preprocess_delay : option Z;
  expected_error : string;
  ec_n_clients : Z;
  command : AttachedCommand;
  ec_count : Z }.

Record MockBlockchainConfig := mkMockBlockchainConfig {
  bind : string;
  n_clients : Z;
  threshold : Z;
  min_simulated_latency : option Z;
  positive_cases : Z;
  error_cases : option (list ErrorCase);
  unsigned_proposals_per_session : option Z }.

Inductive TestCase := Valid | Invalid (e : ErrorCase).

(** [Result<(), String>], with success on the left. *)
Abbreviation TestOutcome := (unit + string)%type.

Inductive MockClientResponse :=
| ResponseKeygen (r : TestOutcome) (trace_id : Uuid) (pub_key : bytes)
| ResponseSign (r : TestOutcome) (trace_id : Uuid).

(** A finality notification: the number of the block and the hash it finalizes. *)
Inductive MockBlockchainEvent := FinalityNotification (number : Z) (hash : bytes).

Inductive ProtocolPacket :=
| InitialHandshake
| InitialHandshakeResponse (peer_id : PeerId)
| BlockchainToClient (trace_id : Uuid) (event : MockBlockchainEvent)
| ClientToBlockchain (event : MockClientResponse)
| PacketHalt.

Inductive TestResult :=
| TestKeygen (r : TestOutcome) (pub_key : bytes)
| TestSign (r : TestOutcome).

Inductive ClientToOrchestratorEvent :=
| ClientReady
| ClientTestResult (peer_id : PeerId) (trace_id : Uuid) (r : TestResult).

Inductive OrchestratorToClientEvent :=
| ToClientHalt
| BlockChainEvent (trace_id : Uuid) (event : MockBlockchainEvent).

Inductive OrchestratorState := WaitingForInit | AwaitingRoundCompletion | Complete.

(** The tasks a client has to report on, and the channel to its sub-task: what is
    queued in it, and whether the sub-task is still there to receive. *)
Record ConnectedClientState := mkConnectedClientState {
  outstanding_tasks_keygen : gmap Uuid TestCase;
  outstanding_tasks_signing : gmap Uuid (list TestCase);
  to_subtask : list OrchestratorToClientEvent;
  subtask_alive : bool }.

#[export] Instance eta_ConnectedClientState : Eta ConnectedClientState := λ c,
  mkConnectedClientState (outstanding_tasks_keygen c) (outstanding_tasks_signing c)
    (to_subtask c) (subtask_alive c).

(** ** The phase of a test *)

Inductive IntraTestPhase :=
| PhaseKeygen (trace_id : Uuid) (queued : option (list UnsignedProposal)) (round_number : Z)
    (test_case : option TestCase)
| PhaseSigning (trace_id : Uuid) (queued : option (list (UnsignedProposal * Z)))
    (round_number : Z) (test_case : TestCase).

Definition is_keygen (p : IntraTestPhase) : bool :=
  match p with PhaseKeygen _ _ _ _ => true | _ => false end.

Definition increment_round_number (p : IntraTestPhase) : IntraTestPhase :=
  match p with
  | PhaseKeygen t q r c => PhaseKeygen t q (wrap 64 (r + 1)) c
  | PhaseSigning t q r c => PhaseSigning t q (wrap 64 (r + 1)) c
  end.

Definition round_number (p : IntraTestPhase) : Z :=
  match p with PhaseKeygen _ _ r _ | PhaseSigning _ _ r _ => r end.

Definition unsigned_proposals_count (p : IntraTestPhase) : Z :=
  match p with
  | PhaseKeygen _ q _ _ => default 0 ((λ v, len v) <$> q)
  | PhaseSigning _ q _ _ => default 0 ((λ v, len v) <$> q)
  end.

Definition phase_trace_id (p : IntraTestPhase) : Uuid :=
  match p with PhaseKeygen t _ _ _ | PhaseSigning t _ _ _ => t end.

Definition phase_test_case (p : IntraTestPhase) : option TestCase :=
  match p with PhaseKeygen _ _ _ c => c | PhaseSigning _ _ _ c => Some c end.

(** [None] is a panic. *)
Definition keygen_to_signing (p : IntraTestPhase) : option IntraTestPhase :=
  match p with
  | PhaseKeygen trace_id queued r test_case =>
      let with_expiry := (λ p, (p, 1)) <$> default [] queued in
      c ← test_case; Some (PhaseSigning trace_id (Some with_expiry) r c)
  | PhaseSigning _ _ _ _ => None
  end.

Definition session_init (fresh : Uuid) (unsigned_proposals : option (list UnsignedProposal))
    (test_case : TestCase) (p : IntraTestPhase) : IntraTestPhase :=
  PhaseKeygen fresh unsigned_proposals (round_number p) (Some test_case).

(** ** The orchestrator *)

(** What the orchestrator changes in the chain that the clients read; [None] is a
    panic. *)
Class MutableBlockchain (T : Type) := {
  set_unsigned_proposals : list (UnsignedProposal * Z) → T → option T;
  set_pub_key : Z → bytes → T → option T;
  set_should_execute_keygen : bool → T → option T }.

(** The [i]-th [Uuid::new_v4], and the hash of test proposals. *)
Class Entropy := {
  new_v4 : nat → Uuid;
  sha2_256 : bytes → bytes }.

(** [wires] is what has been written to the connection of each client. *)
Record Orchestrator (T : Type) := mkOrchestrator {
  clients : gmap PeerId ConnectedClientState;
  orchestrator_rx : list ClientToOrchestratorEvent;
  orchestrator_state : OrchestratorState;
  blockchain : T;
  test_cases : list TestCase;
  current_round_completed_count_keygen : Z;
  current_round_completed_count_signing : Z;
  intra_test_phase : IntraTestPhase;
  uuids : nat;
  wires : gmap PeerId (list ProtocolPacket) }.
Arguments mkOrchestrator {T} _ _ _ _ _ _ _ _ _ _.
Arguments clients {T} _.
Arguments orchestrator_rx {T} _.
Arguments orchestrator_state {T} _.
Arguments blockchain {T} _.
Arguments test_cases {T} _.
Arguments current_round_completed_count_keygen {T} _.
Arguments current_round_completed_count_signing {T} _.
Arguments intra_test_phase {T} _.
Arguments uuids {T} _.
Arguments wires {T} _.

#[export] Instance eta_Orchestrator {T} : Eta (Orchestrator T) := λ o,
  mkOrchestrator (clients o) (orchestrator_rx o) (orchestrator_state o) (blockchain o)
    (test_cases o) (current_round_completed_count_keygen o)
    (current_round_completed_count_signing o) (intra_test_phase o) (uuids o) (wires o).

Section orchestrator.
Context (config : MockBlockchainConfig) (max_signing_sets_per_proposal : Z).
Context {T : Type} `{MutableBlockchain T, Entropy}.

(** The error of a computation is the code the process exits with. *)
Abbreviation OR A := (M (Orchestrator T) Z A).

Definition in_blockchain (f : T → option T) : OR unit :=
  b ← gets blockchain; b' ← expect (f b); put! blockchain := b'.

Definition fresh_uuid : OR Uuid :=
  i ← gets uuids; put! uuids := S i;; mret (new_v4 i).

Definition update_client (id : PeerId) (f : ConnectedClientState → ConnectedClientState) : OR unit :=
  upd! clients ::= alter f id.

(** [orchestrator_to_client_subtask.send(..).unwrap()]. *)
Definition send_to (id : PeerId) (e : OrchestratorToClientEvent) : OR unit :=
  client ← gets (λ s, clients s !! id);
  client ← expect client;
  assert_that (subtask_alive client);;
  update_client id (λ c, c <| to_subtask ::= (λ q, q ++ [e]) |>).

(** The entries of the map in some order, as the loops over it visit them. *)
Definition for_clients (body : PeerId → OR unit) : OR unit :=
  ids ← gets (λ s, (map_to_list (clients s)).*1); for_each ids body.

(** One [entry(trace_id).or_default().push(case)]. *)
Definition push_signing_task (trace_id : Uuid) (case : TestCase) (c : ConnectedClientState)
    : ConnectedClientState :=
  c <| outstanding_tasks_signing ::= (λ m, <[trace_id := default [] (m !! trace_id) ++ [case]]> m) |>.

(** The number of the block and a random identifier make the hash. *)
Definition create_mocked_finality_blockchain_event (block_number : Z) (id : Uuid)
    : MockBlockchainEvent :=
  FinalityNotification block_number
    (be_encode 8 block_number ++ reverse (be_encode 16 id) ++ replicate 8 0).

Definition send_finality_notification : OR unit :=
  test_phase ← gets intra_test_phase;
  let round_number := round_number test_phase in
  let trace_id := phase_trace_id test_phase in
  next_case ← expect (phase_test_case test_phase);
  id ← fresh_uuid;
  let next_finality_notification := create_mocked_finality_blockchain_event round_number id in
  for_clients (λ id,
    (match test_phase with
     | PhaseKeygen trace_id _ _ _ =>
         update_client id (λ c, c <| outstanding_tasks_keygen ::= <[trace_id := next_case]> |>);;
         in_blockchain (set_should_execute_keygen true);;
         in_blockchain (set_unsigned_proposals [])
     | PhaseSigning trace_id (Some unsigned_propos) _ _ =>
         update_client id (Nat.iter (length unsigned_propos * Z.to_nat max_signing_sets_per_proposal)
           (push_signing_task trace_id next_case));;
         in_blockchain (set_should_execute_keygen false);;
         in_blockchain (set_unsigned_proposals unsigned_propos)
     | PhaseSigning _ None _ _ => mret tt
     end);;
    send_to id (BlockChainEvent trace_id next_finality_notification)).

(** The test proposal with the given data, of dkg-runtime-primitives. *)
Definition testing_dummy (data : bytes) : option UnsignedProposal :=
  data ← try_bound 10000 data;
  Some {| up_typed_chain_id := ChainNone;
          up_key := AnchorCreateProposal 0;
          up_proposal := Unsigned AnchorCreate data |}.

(** The proposals [idx ..] of a round, [count] of them. *)
Fixpoint make_proposals (round_number idx : Z) (count : nat) : OR (list UnsignedProposal) :=
  match count with
  | O => mret []
  | S count' =>
      id ← fresh_uuid;
      let hash := sha2_256 (be_encode 8 round_number ++ be_encode 8 idx ++ be_encode 16 id) in
      p ← expect (testing_dummy hash);
      ps ← make_proposals round_number (idx + 1) count';
      mret (p :: ps)
  end.

Definition per_session : Z := default 0 (unsigned_proposals_per_session config).

(** The client has reported on all its tasks. *)
Definition succeeded (c : ConnectedClientState) : bool :=
  bool_decide (outstanding_tasks_keygen c = ∅) && bool_decide (outstanding_tasks_signing c = ∅).

(** All tests are done: the exit code, after telling every client to halt. *)
Definition orchestrator_finish : OR unit :=
  put! orchestrator_state := Complete;;
  read ← gets (λ s, (map_to_list (clients s)).*2);
  let exit_code := if forallb succeeded read then 0 else 1 in
  for_clients (λ id, send_to id ToClientHalt);;
  throw exit_code.

Definition orchestrator_begin_next_round : OR unit :=
  cases ← gets test_cases;
  match cases with
  | next_case :: rest =>
      put! test_cases := rest;;
      test_phase ← gets intra_test_phase;
      let round := round_number test_phase in
      unsigned_proposals ←
        (if 1 <=? round then
           ps ← make_proposals round 0 (Z.to_nat per_session);
           mret (if bool_decide (ps = []) then None else Some ps)
         else mret None);
      trace ← fresh_uuid;
      upd! intra_test_phase ::= session_init trace unsigned_proposals next_case;;
      put! orchestrator_state := AwaitingRoundCompletion;;
      send_finality_notification
  | [] => orchestrator_finish
  end.

Definition clear_tasks : OR unit :=
  upd! clients ::= fmap (λ c, c <| outstanding_tasks_signing := ∅ |>);;
  upd! clients ::= fmap (λ c, c <| outstanding_tasks_keygen := ∅ |>).

(** A successful signing result takes one task off the list of its test. *)
Definition complete_signing_task (peer_id : PeerId) (trace_id : Uuid)
    (client : ConnectedClientState) : OR unit :=
  entry ← expect (outstanding_tasks_signing client !! trace_id);
  assert_that (bool_decide (entry ≠ []));;
  let entry := take (length entry - 1) entry in
  update_client peer_id (λ c, c <| outstanding_tasks_signing ::=
    (if bool_decide (entry = []) then delete trace_id else <[trace_id := entry]>) |>).

(** The key of a result is set for the block of the round and for the next one, and the
    client is looked up in between. *)
Definition record_pub_key (peer_id : PeerId) (r : TestResult) : OR ConnectedClientState :=
  round ← gets (λ s, round_number (intra_test_phase s));
  (match r with
   | TestKeygen _ pub_key => in_blockchain (set_pub_key round pub_key)
   | TestSign _ => mret tt
   end);;
  client ← gets (λ s, clients s !! peer_id);
  client ← expect client;
  (match r with
   | TestKeygen _ pub_key => in_blockchain (set_pub_key (wrap 64 (round + 1)) pub_key)
   | TestSign _ => mret tt
   end);;
  mret client.

Definition on_test_result (peer_id : PeerId) (trace_id : Uuid) (r : TestResult) : OR unit :=
  client ← record_pub_key peer_id r;
  phase ← gets intra_test_phase;
  match r, is_keygen phase with
  | TestKeygen res _, true =>
      (match res with
       | inl _ => update_client peer_id (λ c, c <| outstanding_tasks_keygen ::= delete trace_id |>)
       | inr _ => mret tt
       end);;
      upd! current_round_completed_count_keygen ::= (λ n, wrap 64 (n + 1))
  | TestSign res, false =>
      (match res with
       | inl _ => complete_signing_task peer_id trace_id client
       | inr _ => mret tt
       end);;
      upd! current_round_completed_count_signing ::= (λ n, wrap 64 (n + 1))
  | _, _ => mret tt
  end.

(** The end of an iteration in the state [AwaitingRoundCompletion]. *)
Definition check_round_complete : OR unit :=
  completed_keygen ← gets current_round_completed_count_keygen;
  phase ← gets intra_test_phase;
  let keygen_complete := completed_keygen =? n_clients config in
  if keygen_complete && is_keygen phase && (0 <? unsigned_proposals_count phase) then
    phase' ← expect (keygen_to_signing phase);
    put! intra_test_phase := increment_round_number phase';;
    send_finality_notification
  else
  completed_signing ← gets current_round_completed_count_signing;
  let signing_complete :=
    if 0 <? per_session then
      completed_signing =? wrap 64 (wrap 64 (threshold config + 1) * unsigned_proposals_count phase)
    else true in
  if keygen_complete && signing_complete then
    put! current_round_completed_count_keygen := 0;;
    put! current_round_completed_count_signing := 0;;
    upd! intra_test_phase ::= increment_round_number;;
    clear_tasks;;
    orchestrator_begin_next_round
  else mret tt.

(** The body of the loop of [orchestrate]. *)
Definition on_client_update (client_update : ClientToOrchestratorEvent) : OR unit :=
  state ← gets orchestrator_state;
  match state, client_update with
  | WaitingForInit, ClientReady =>
      n ← gets (λ s, Z.of_nat (size (clients s)));
      if n =? n_clients config then orchestrator_begin_next_round else mret tt
  | WaitingForInit, _ => mret tt
  | AwaitingRoundCompletion, ClientReady => check_round_complete
  | AwaitingRoundCompletion, ClientTestResult peer_id trace_id r =>
      on_test_result peer_id trace_id r;; check_round_complete
  | Complete, _ => mret tt
  end.

(** ** The server *)

Definition repeat_case {A} (n : Z) (x : A) : list A := replicate (Z.to_nat n) x.

Definition generate_test_cases : list TestCase :=
  repeat_case (positive_cases config) Valid ++
  mjoin ((λ e, repeat_case (ec_count e) (Invalid e)) <$> default [] (error_cases config)).

(** The state when [orchestrate] enters its loop, nobody connected. *)
Definition orchestrator_new (b : T) : Orchestrator T := {|
  clients := ∅;
  orchestrator_rx := [];
  orchestrator_state := WaitingForInit;
  blockchain := b;
  test_cases := generate_test_cases;
  current_round_completed_count_keygen := 0;
  current_round_completed_count_signing := 0;
  intra_test_phase := PhaseKeygen (new_v4 0) None 0 None;
  uuids := 1;
  wires := ∅ |}.

Definition write_to (id : PeerId) (p : ProtocolPacket) : OR unit :=
  upd! wires ::= (λ w, <[id := default [] (w !! id) ++ [p]]> w).

(** [handle_stream] up to the two forwarding loops, for the answer to the handshake. *)
Definition handle_handshake (response : ProtocolPacket) : OR unit :=
  match response with
  | InitialHandshakeResponse peer_id =>
      write_to peer_id InitialHandshake;;
      upd! clients ::= <[peer_id := mkConnectedClientState ∅ ∅ [] true]>;;
      upd! orchestrator_rx ::= (λ q, q ++ [ClientReady])
  | _ => mret tt
  end.

(** [fwd_orchestrator]: a packet of a client.  One that only the server may send makes
    the sub-task panic, and the channel to it is closed. *)
Definition fwd_orchestrator (peer_id : PeerId) (packet : ProtocolPacket) : OR unit :=
  match packet with
  | ClientToBlockchain event =>
      let '(r, trace_id) :=
        match event with
        | ResponseKeygen r trace_id pub_key => (TestKeygen r pub_key, trace_id)
        | ResponseSign r trace_id => (TestSign r, trace_id)
        end in
      upd! orchestrator_rx ::= (λ q, q ++ [ClientTestResult peer_id trace_id r])
  | _ => update_client peer_id (λ c, c <| subtask_alive := false |>)
  end.

(** [from_orchestrator]: the next command for the client's sub-task. *)
Definition from_orchestrator (peer_id : PeerId) : OR unit :=
  client ← gets (λ s, clients s !! peer_id);
  match client with
  | Some (mkConnectedClientState _ _ (e :: q) true) =>
      update_client peer_id (λ c, c <| to_subtask := q |>);;
      match e with
      | ToClientHalt =>
          write_to peer_id PacketHalt;;
          update_client peer_id (λ c, c <| subtask_alive := false |>)
      | BlockChainEvent trace_id event => write_to peer_id (BlockchainToClient trace_id event)
      end
  | _ => mret tt
  end.

(** [client_to_orchestrator_rx.recv()] and the body of the loop. *)
Definition orchestrate_step : OR unit :=
  queue ← gets orchestrator_rx;
  match queue with
  | [] => mret tt
  | e :: queue' => put! orchestrator_rx := queue';; on_client_update e
  end.

(** What the tasks of the server do, one step at a time. *)
Inductive ServerStep :=
| Handshake (response : ProtocolPacket)
| Packet (peer_id : PeerId) (packet : ProtocolPacket)
| ToClient (peer_id : PeerId)
| Recv.

Definition server_step (a : ServerStep) : OR unit :=
  match a with
  | Handshake r => handle_handshake r
  | Packet p pkt => fwd_orchestrator p pkt
  | ToClient p => from_orchestrator p
  | Recv => orchestrate_step
  end.

Definition server_run (steps : list ServerStep) : OR unit := for_each steps server_step.
End orchestrator.
