(* ===== verification/MockBlockchainSpec.v ===== *)
(** * The tests complete

    The orchestrator of MockBlockchain.v counts the results it is sent: [remaining] is
    the number of results that the whole series of tests still needs, and every result
    of the phase the orchestrator is in brings it closer to the end, whatever the result
    says or who sends it.  The orchestrator then exits, always with the code of success.  The chain that the
    clients read takes part through [ChainDouble], the promise of its implementation. *)

From S2P Require Import Prelude.
From S2P Require Import Frame.
From S2P Require Import Primitives.
From S2P Require Import Gossip.
From S2P Require Import MockBlockchain.

(** A hash of 32 bytes fits in a proposal. *)
Class EntropyLaws `{Entropy} : Prop :=
  sha2_256_length b : length (sha2_256 b) = 32%nat.

(** What the orchestrator relies on: its calls do not panic, and the chain answers the
    clients at a block ([answers]) once a key has been set for it; keys are never taken
    back, and the second block of a session has the key of the first. *)
Class ChainDouble (T : Type) `{MutableBlockchain T} (answers : Z → T → Prop) : Prop := {
  proposals_total ps c : ∃ c', set_unsigned_proposals ps c = Some c' ∧
    ∀ b, answers b c → answers b c';
  flag_total f c : ∃ c', set_should_execute_keygen f c = Some c' ∧
    ∀ b, answers b c → answers b c';
  key_total b k c : in_width 53 b → ∃ c', set_pub_key b k c = Some c' ∧
    (∀ b', answers b' c → answers b' c');
  key_next b k c c' : 0 <= b → in_width 53 (b + 1) → answers b c →
    set_pub_key (b + 1) k c = Some c' → answers (b + 1) c';
  answers_even b c : Z.even b = true → 0 <= b → in_width 53 (b + 1) → answers b c →
    answers (b + 1) c }.

(** [simp_get] for the fields of a record with a parameter. *)
Ltac simp_field :=
  repeat (simp_get; match goal with
  | |- context [?p (@set ?R ?T ?q ?i ?f ?s)] =>
      match p with ?h _ => is_const h end;
      get_set p R T q i f ltac:(fun E => rewrite (E s)); cbv beta
  end); simp_get.

(** A loop keeps an invariant of its body. *)
Lemma wp_for_each {S E A} (pan : Prop) (I : S → Prop) (l : list A) (body : A → M S E unit) s
    (R : E → S → Prop) :
  I s → (∀ x t, x ∈ l → I t → wp pan (body x) t (λ _ t', I t') R) →
  wp pan (for_each l body) s (λ _ t, I t) R.
Proof.
  revert s. induction l as [|x l IH]; intros s Hs Hb; simpl; [by apply wp_ret|].
  apply wp_bind. eapply wp_mono; [apply Hb; [by left|done]| |done].
  intros a t Ht. apply IH; [done|]. intros y t' Hy. apply Hb. by right.
Qed.

Lemma wp_weaken {S E A} (pan pan' : Prop) (m : M S E A) s (Q Q' : A → S → Prop)
    (R : E → S → Prop) :
  wp pan m s Q R → (pan → pan') → (∀ a t, Q a t → Q' a t) → wp pan' m s Q' R.
Proof. unfold wp. destruct (m s); auto. Qed.

Lemma wp_conseq {S E A} (pan pan' : Prop) (m : M S E A) s (Q Q' : A → S → Prop)
    (R R' : E → S → Prop) :
  wp pan m s Q R → (pan → pan') → (∀ a t, Q a t → Q' a t) → (∀ e t, R e t → R' e t) →
  wp pan' m s Q' R'.
Proof. unfold wp. destruct (m s); auto. Qed.

(** Run the statements at the head of the computation. *)
Ltac orun := autorewrite with mrun; cbn [fst snd].

Section spec.
Context (config : MockBlockchainConfig) (max_sets : Z).
Context {T : Type} `{MutableBlockchain T, Entropy, !EntropyLaws}.
Context (answers : Z → T → Prop) `{!ChainDouble T answers}.
Implicit Types (s t : Orchestrator T) (c : ConnectedClientState).

Abbreviation p := (per_session config).
Abbreviation n := (n_clients config).
Abbreviation cases := (len (generate_test_cases config)).
Abbreviation on_update := (on_client_update config max_sets).

(** The signatures a round needs: [threshold + 1] for each proposal. *)
Definition needed (proposals : Z) : Z := (threshold config + 1) * proposals.

(** The numbers of the configuration fit their machine types, and there is a client. *)
Record config_ok : Prop := {
  ok_n : 0 < n < 2 ^ 64;
  ok_p : 0 <= p;
  ok_t : 0 <= threshold config < 2 ^ 64 - 1;
  ok_needed : needed p < 2 ^ 64;
  ok_cases : 2 * cases < 2 ^ 53 }.

(** ** The invariant *)

(** No list of outstanding signing tasks is empty. *)
Definition client_ok c : Prop := map_Forall (λ _ l, l ≠ []) (outstanding_tasks_signing c).

Definition no_tasks c : Prop :=
  outstanding_tasks_keygen c = ∅ ∧ outstanding_tasks_signing c = ∅.

Definition clients_ok s : Prop := map_Forall (λ _ c, client_ok c) (clients s).

Definition tasks_clear s : Prop := map_Forall (λ _ c, no_tasks c) (clients s).

Definition all_alive s : bool :=
  bool_decide (map_Forall (λ _ c, subtask_alive c = true) (clients s)).

(** [k] is 0 between two events; while a result is processed, the count can be one
    more, and [k] is 1. *)
Definition keygen_ok (k : Z) s (r : Z) (proposals : Z) : Prop :=
  0 <= r ∧ 0 <= current_round_completed_count_keygen s < n + k ∧
  current_round_completed_count_signing s = 0 ∧
  r + 2 * (1 + len (test_cases s)) <= 2 * cases ∧
  proposals = (if 1 <=? r then p else 0) ∧
  (0 < p → r = 0 ∨ Z.even r = false) ∧
  answers r (blockchain s) ∧
  (0 < current_round_completed_count_keygen s → answers (r + 1) (blockchain s)).

Definition signing_ok (k : Z) s (r : Z) (proposals : Z) : Prop :=
  1 <= r ∧ current_round_completed_count_keygen s = n ∧
  0 <= current_round_completed_count_signing s < needed proposals + k ∧
  proposals = p ∧ 0 < p ∧ Z.even r = true ∧
  r + 1 + 2 * len (test_cases s) <= 2 * cases ∧
  answers r (blockchain s).

Definition awaiting (k : Z) s : Prop :=
  let ph := intra_test_phase s in
  match ph with
  | PhaseKeygen _ _ r (Some _) => keygen_ok k s r (unsigned_proposals_count ph)
  | PhaseKeygen _ _ _ None => False
  | PhaseSigning _ _ r _ => signing_ok k s r (unsigned_proposals_count ph)
  end.

Definition waiting s : Prop :=
  test_cases s = generate_test_cases config ∧
  current_round_completed_count_keygen s = 0 ∧ current_round_completed_count_signing s = 0 ∧
  (∃ u, intra_test_phase s = PhaseKeygen u None 0 None) ∧ tasks_clear s ∧
  answers 0 (blockchain s).

Definition inv s : Prop :=
  clients_ok s ∧
  match orchestrator_state s with
  | WaitingForInit => waiting s
  | AwaitingRoundCompletion => awaiting 0 s
  | Complete => False
  end.

(** ** Progress *)

(** The results that the series of tests still needs. *)
Definition remaining s : Z :=
  let ph := intra_test_phase s in
  (if is_keygen ph
   then n - current_round_completed_count_keygen s + needed (unsigned_proposals_count ph)
   else needed (unsigned_proposals_count ph) - current_round_completed_count_signing s) +
  len (test_cases s) * (n + needed p).

(** The result counts: it is one of the phase the orchestrator is in. *)
Definition counts s (e : ClientToOrchestratorEvent) : Z :=
  match e, is_keygen (intra_test_phase s) with
  | ClientTestResult _ _ (TestKeygen _ _), true | ClientTestResult _ _ (TestSign _), false => 1
  | _, _ => 0
  end.

(** The event does not make the orchestrator panic: every sub-task is there, the peer is
    connected, and a signature that is said to be made was asked for. *)
Definition answerable s (e : ClientToOrchestratorEvent) : bool :=
  all_alive s &&
  match e with
  | ClientReady => true
  | ClientTestResult peer trace r =>
      match clients s !! peer with
      | None => false
      | Some c =>
          match r, is_keygen (intra_test_phase s) with
          | TestSign (inl _), false => bool_decide (is_Some (outstanding_tasks_signing c !! trace))
          | _, _ => true
          end
      end
  end.

(** ** What the parts of the loop leave alone *)

(** [t] is [s] up to the tasks and channels of the clients, the identifiers drawn and
    changes of the chain that keep its answers. *)
Record frame s t : Prop := {
  fr_state : orchestrator_state t = orchestrator_state s;
  fr_cases : test_cases t = test_cases s;
  fr_keygen : current_round_completed_count_keygen t = current_round_completed_count_keygen s;
  fr_signing : current_round_completed_count_signing t = current_round_completed_count_signing s;
  fr_phase : intra_test_phase t = intra_test_phase s;
  fr_dom : dom (clients t) = dom (clients s);
  fr_alive : all_alive s = true → all_alive t = true;
  fr_ok : clients_ok s → clients_ok t;
  fr_answers b : answers b (blockchain s) → answers b (blockchain t) }.

#[local] Instance frame_preorder : PreOrder frame.
Proof.
  split.
  - intros s. by constructor.
  - intros s t u [] []. constructor; try congruence; eauto.
Qed.

(** A change of one client that keeps it connected. *)
Lemma frame_client id (f : ConnectedClientState → ConnectedClientState) s :
  (∀ c, subtask_alive (f c) = subtask_alive c) → (∀ c, client_ok c → client_ok (f c)) →
  frame s (s <| clients ::= alter f id |>).
Proof.
  intros Ha Hok. constructor; simp_field; try done; [apply dom_alter_L|..].
  - unfold all_alive. rewrite !bool_decide_eq_true. simp_field. intros Hall k c.
    rewrite lookup_alter_Some. intros [(<- & c' & Hc & ->)|[_ Hc]]; [|by eapply Hall].
    rewrite Ha. by eapply Hall.
  - unfold clients_ok. simp_field. intros Hall k c.
    rewrite lookup_alter_Some. intros [(<- & c' & Hc & ->)|[_ Hc]]; [|by eapply Hall].
    apply Hok. by eapply Hall.
Qed.

Lemma in_blockchain_wp (f : T → option T) s (pan : Prop) (R : Z → Orchestrator T → Prop) :
  (∃ d, f (blockchain s) = Some d ∧ ∀ b, answers b (blockchain s) → answers b d) →
  wp pan (in_blockchain f) s (λ _ t, frame s t ∧ clients t = clients s ∧
    f (blockchain s) = Some (blockchain t)) R.
Proof.
  intros (d & Hf & Hans). unfold in_blockchain, wp. orun. rewrite Hf.
  unfold modify. simp_field. split_and!; [|done..]. constructor; by simp_field.
Qed.

Lemma fresh_uuid_wp s (pan : Prop) (R : Z → Orchestrator T → Prop) :
  wp pan fresh_uuid s (λ _ t, frame s t) R.
Proof. unfold fresh_uuid, wp. orun. constructor; by simp_field. Qed.

Lemma send_to_wp id e s (R : Z → Orchestrator T → Prop) :
  id ∈ dom (clients s) →
  wp (all_alive s = false) (send_to id e) s (λ _ t, frame s t) R.
Proof.
  intros [c Hc]%elem_of_dom. unfold send_to, wp. orun. rewrite Hc. orun.
  destruct (subtask_alive c) eqn:Ha.
  - by apply frame_client.
  - apply bool_decide_eq_false_2. intros Hall. apply Hall in Hc. congruence.
Qed.

Lemma push_signing_task_ok trace case k c :
  client_ok c → client_ok (Nat.iter k (push_signing_task trace case) c).
Proof.
  intros Hc. induction k as [|k IH]; [done|]. simpl. intros u l. unfold push_signing_task at 1.
  simp_get. rewrite lookup_insert_Some. intros [[_ <-]|[_ Hl]]; [|by eapply IH].
  by destruct (default [] _).
Qed.

Lemma push_signing_task_alive trace case k c :
  subtask_alive (Nat.iter k (push_signing_task trace case) c) = subtask_alive c.
Proof. induction k as [|k IH]; [done|]. simpl. rewrite <- IH. unfold push_signing_task at 1. by simp_get. Qed.

(** A loop over the clients. *)
Lemma for_clients_wp (body : PeerId → M (Orchestrator T) Z unit) s
    (R : Z → Orchestrator T → Prop) :
  (∀ id t, frame s t → id ∈ dom (clients t) →
     wp (all_alive s = false) (body id) t (λ _ u, frame t u) R) →
  wp (all_alive s = false) (for_clients body) s (λ _ t, frame s t) R.
Proof.
  intros Hb. unfold for_clients. wp_step. wp_step.
  apply wp_for_each; [done|]. intros id t Hin Ht.
  apply list_elem_of_fmap in Hin as ([id' c] & -> & Hc%elem_of_map_to_list). simpl.
  eapply wp_mono; [apply Hb; [done|]| |done].
  - rewrite (fr_dom _ _ Ht). by eapply elem_of_dom_2.
  - intros ? u Hu. by trans t.
Qed.

Lemma alive_mono s t : frame s t → all_alive t = false → all_alive s = false.
Proof. intros Hf Ht. destruct (all_alive s) eqn:E; [|done]. by rewrite (fr_alive _ _ Hf) in Ht. Qed.

Lemma send_finality_notification_wp s (R : Z → Orchestrator T → Prop) :
  is_Some (phase_test_case (intra_test_phase s)) →
  wp (all_alive s = false) (send_finality_notification max_sets) s (λ _ t, frame s t) R.
Proof.
  intros [case Hcase]. unfold send_finality_notification. wp_step. wp_step. cbv zeta.
  wp_step. rewrite Hcase. wp_step; [|done]. simplify_eq. wp_step.
  eapply wp_mono; [apply fresh_uuid_wp| |done]. intros u s1 Hs1.
  eapply wp_weaken; [apply for_clients_wp|by apply alive_mono|by intros ? t ?; trans s1].
  intros id t Ht Hid. wp_step.
  eapply (wp_mono _ _ _ (λ _ t', frame t t')); [|intros ? t' Ht'|done].
  - destruct (intra_test_phase s) as [trace q r tc|trace [ps|] r tc]; [| |by apply wp_ret].
    + wp_step. unfold update_client. wp_step. wp_step.
      eapply wp_mono; [apply in_blockchain_wp, flag_total| |done]. intros ? t2 (Ht2 & _).
      eapply wp_mono; [apply in_blockchain_wp, proposals_total| |done]. intros ? t3 (Ht3 & _).
      trans t2; [|done]. etrans; [|exact Ht2]. apply frame_client; intros c; [by simp_get|].
      unfold client_ok. by simp_get.
    + wp_step. unfold update_client. wp_step. wp_step.
      eapply wp_mono; [apply in_blockchain_wp, flag_total| |done]. intros ? t2 (Ht2 & _).
      eapply wp_mono; [apply in_blockchain_wp, proposals_total| |done]. intros ? t3 (Ht3 & _).
      trans t2; [|done]. etrans; [|exact Ht2]. apply frame_client;
        [apply push_signing_task_alive|apply push_signing_task_ok].
  - eapply wp_weaken; [apply send_to_wp|..].
    + by rewrite (fr_dom _ _ Ht').
    + intros Ha. eapply alive_mono; [|exact Ha]. by trans t.
    + intros ? t2 Ht2. by trans t'.
Qed.

Lemma testing_dummy_Some b : len b <= 10000 → is_Some (testing_dummy b).
Proof using. intros Hb. unfold testing_dummy. by rewrite (proj2 (try_bound_Some 10000 b b)). Qed.

Lemma make_proposals_wp r i k s (pan : Prop) (R : Z → Orchestrator T → Prop) :
  wp pan (make_proposals r i k) s (λ ps t, frame s t ∧ length ps = k) R.
Proof using Type*.
  revert i s. induction k as [|k IH]; intros i s; cbn [make_proposals]; [by apply wp_ret|].
  wp_step. eapply wp_mono; [apply fresh_uuid_wp| |done]. intros u s1 Hs1. cbv zeta. wp_step.
  destruct (testing_dummy_Some (sha2_256 (be_encode 8 r ++ be_encode 8 i ++ be_encode 16 u)))
    as [q Hq]; [rewrite sha2_256_length; lia|]. rewrite Hq. wp_step; [|done]. wp_step. eapply wp_mono; [apply IH| |done].
  intros ps t [Ht Hl]. wp_step. split; [by trans s1|]. simpl. congruence.
Qed.

(** ** Ends of rounds *)

Lemma finish_wp s :
  tasks_clear s →
  wp (all_alive s = false) orchestrator_finish s (λ _ _, False) (λ code _, code = 0).
Proof using Type*.
  intros Hclear. unfold orchestrator_finish. wp_step. wp_step. wp_step. wp_step. cbv zeta. simp_field.
  replace (forallb _ _) with true.
  2: { symmetry. apply forallb_forall. intros c Hc%list_elem_of_In.
    apply list_elem_of_fmap in Hc as ([id c'] & -> & Hc%elem_of_map_to_list).
    apply Hclear in Hc as [Hk Hs]. unfold succeeded. simpl. by rewrite Hk, Hs. }
  wp_step. eapply wp_weaken; [apply for_clients_wp| |].
  - intros id t Ht Hid. eapply wp_weaken; [by apply send_to_wp|by apply alive_mono|done].
  - unfold all_alive. by simp_field.
  - intros a t Ht. by apply wp_throw.
Qed.

(** The state in which the next round begins. *)
Record ready s : Prop := {
  re_clear : tasks_clear s;
  re_keygen : current_round_completed_count_keygen s = 0;
  re_signing : current_round_completed_count_signing s = 0;
  re_round : 0 <= round_number (intra_test_phase s);
  re_bound : round_number (intra_test_phase s) + 2 * len (test_cases s) <= 2 * cases;
  re_parity : 0 < p → round_number (intra_test_phase s) = 0 ∨
    Z.even (round_number (intra_test_phase s)) = false;
  re_answers : answers (round_number (intra_test_phase s)) (blockchain s) }.

Lemma clear_ok s : tasks_clear s → clients_ok s.
Proof using.
  intros Hc id c Hid. apply Hc in Hid as [_ Hs]. unfold client_ok. by rewrite Hs.
Qed.

(** The number of proposals of a round. *)
Definition proposals_at (r : Z) : Z := if 1 <=? r then p else 0.

Lemma begin_next_round_wp s :
  config_ok → ready s →
  wp (all_alive s = false) (orchestrator_begin_next_round config max_sets) s
    (λ _ t, inv t ∧ orchestrator_state t = AwaitingRoundCompletion ∧ test_cases s ≠ [] ∧
       remaining t = n + needed (proposals_at (round_number (intra_test_phase s))) +
         (len (test_cases s) - 1) * (n + needed p))
    (λ code _, code = 0 ∧ test_cases s = []).
Proof using Type*.
  intros Hok [Hclear Hk Hsg Hr Hb Hpar Hans]. pose proof (ok_p Hok) as Hp.
  pose proof (clear_ok s Hclear) as Hcl. pose proof (ok_n Hok) as Hn.
  unfold orchestrator_begin_next_round. wp_step. wp_step.
  destruct (test_cases s) as [|case rest] eqn:Hcases.
  { eapply wp_mono; [by apply finish_wp|done|done]. }
  wp_step. wp_step. wp_step. wp_step. cbv zeta. wp_step. simp_field.
  set (s1 := s <| test_cases := rest |>). set (r := round_number (intra_test_phase s)) in *.
  apply (wp_mono _ _ _ (λ q t, frame s1 t ∧ default 0 ((λ v, len v) <$> q) = proposals_at r)
    _ (λ code _, False)); [|intros q t [Ht Hq]|by intros ? ? []].
  - unfold proposals_at. destruct (1 <=? r); [|by apply wp_ret]. wp_step.
    eapply wp_weaken; [apply (make_proposals_wp _ _ _ _ False)|done|]. intros ps t [Ht Hl]. wp_step.
    split; [done|].
    case_bool_decide as Hps; [subst ps; simpl in *; lia|]. simpl. rewrite Hl. lia.
  - wp_step. eapply wp_weaken; [apply (fresh_uuid_wp t False)|done|].
    intros u t2 Ht2. wp_step. wp_step. wp_step. wp_step.
    match goal with |- wp _ _ ?x _ _ => set (t3 := x) end.
    assert (frame s1 t2) as H12 by (by trans t).
    destruct H12 as [Es Ec Ek Esg Ep Ed Ha Hcok Hansw].
    assert (intra_test_phase t3 = PhaseKeygen u q r (Some case)) as Eph
      by (unfold t3; simp_field; unfold session_init; by rewrite Ep).
    eapply wp_weaken; [apply send_finality_notification_wp|..].
    + rewrite Eph. by eexists.
    + intros Hal. destruct (all_alive s) eqn:Hs; [|done].
      rewrite <- Hal. symmetry. apply (Ha Hs).
    + intros a t4 [Fs Fc Fk Fsg Fp Fd Fa Fok Fans].
      assert (test_cases t4 = rest) as Et by (rewrite Fc; unfold t3; simp_field; exact Ec).
      assert (current_round_completed_count_keygen t4 = 0) as Ek4
        by (rewrite Fk; unfold t3; simp_field; by rewrite Ek).
      rewrite Eph in Fp. unfold inv, awaiting, remaining. rewrite Fs, Fp, Ek4, Et.
      change (orchestrator_state t3) with AwaitingRoundCompletion. cbn [is_keygen].
      replace (unsigned_proposals_count _) with (proposals_at r) by (by symmetry).
      split_and!; [| |done|done|].
      * apply Fok. apply Hcok. exact Hcl.
      * unfold keygen_ok. rewrite Ek4, Et, Fsg. split_and!; try done; try lia.
        { unfold t3. simp_field. by rewrite Esg. }
        { simpl in Hb. lia. }
        { apply Fans. unfold t3. simp_field. apply Hansw, Hans. }
      * rewrite length_cons. lia.
Qed.

Lemma no_tasks_ok c : no_tasks c → client_ok c.
Proof using. intros [_ Hs]. unfold client_ok. by rewrite Hs. Qed.

(** Between two rounds the tasks are cleared. *)
Lemma clear_tasks_wp s (pan : Prop) (R : Z → Orchestrator T → Prop) :
  wp pan clear_tasks s (λ _ t, tasks_clear t ∧ (frame s t ∧ blockchain t = blockchain s)) R.
Proof using.
  unfold clear_tasks. wp_step. wp_step. wp_step.
  match goal with |- tasks_clear ?x ∧ _ => set (t := x) end.
  assert (clients t = (λ c, c <| outstanding_tasks_signing := ∅ |> <| outstanding_tasks_keygen := ∅ |>)
    <$> clients s) as Ec by (unfold t; simp_field; by rewrite <- map_fmap_compose).
  assert (tasks_clear t) as Hclear.
  { unfold tasks_clear. rewrite Ec. intros id c. rewrite lookup_fmap_Some.
    intros (c' & <- & _). by split; simp_get. }
  split_and!; [done| |done]. constructor; try done.
  - rewrite Ec. apply dom_fmap_L.
  - unfold all_alive. rewrite !bool_decide_eq_true, Ec. intros Hall id c.
    rewrite lookup_fmap_Some. intros (c' & <- & Hc'). simp_get. by eapply Hall.
  - intros _. by apply clear_ok.
Qed.

(** The tail of an iteration that has completed a round. *)
Definition next_round : M (Orchestrator T) Z unit :=
  put! current_round_completed_count_keygen := 0;;
  put! current_round_completed_count_signing := 0;;
  upd! intra_test_phase ::= increment_round_number;;
  clear_tasks;;
  orchestrator_begin_next_round config max_sets.

Lemma increment_round ph :
  0 <= round_number ph → round_number ph + 1 < 2 ^ 53 →
  round_number (increment_round_number ph) = round_number ph + 1.
Proof using.
  destruct ph; simpl; intros; apply wrap_small; unfold in_width; lia.
Qed.

Lemma next_round_wp s r :
  config_ok → round_number (intra_test_phase s) = r → 0 <= r →
  r + 1 + 2 * len (test_cases s) <= 2 * cases → (0 < p → Z.even r = true) →
  answers (r + 1) (blockchain s) →
  wp (all_alive s = false) next_round s
    (λ _ t, inv t ∧ orchestrator_state t = AwaitingRoundCompletion ∧
       remaining t = len (test_cases s) * (n + needed p) ∧ 0 < remaining t)
    (λ code _, code = 0 ∧ len (test_cases s) * (n + needed p) = 0).
Proof using Type*.
  intros Hok Er Hr Hb Hpar Hans. pose proof (ok_cases Hok) as Hcases.
  unfold next_round. do 7 wp_step.
  match goal with |- wp _ _ ?x _ _ => set (s1 := x) end.
  eapply wp_weaken; [apply (clear_tasks_wp s1 False)|done|]. intros ? t (Hclear & Hf & Hch).
  assert (round_number (intra_test_phase t) = r + 1) as Ert.
  { rewrite (fr_phase _ _ Hf). unfold s1. simp_field. rewrite increment_round; lia. }
  assert (test_cases t = test_cases s) as Ec by (rewrite (fr_cases _ _ Hf); done).
  pose proof (ok_n Hok). pose proof (ok_p Hok). pose proof (ok_t Hok).
  assert (0 <= needed p) by (unfold needed; nia).
  assert (ready t) as Hready.
  { constructor; rewrite ?Ert, ?Ec; try done; try lia.
    - rewrite (fr_keygen _ _ Hf). done.
    - rewrite (fr_signing _ _ Hf). done.
    - right. rewrite Z.add_1_r, Z.even_succ, <- Z.negb_even, Hpar by lia. done.
    - by rewrite Hch. }
  eapply wp_conseq; [by apply begin_next_round_wp|..].
  - intros Ha. by apply (alive_mono _ _ Hf) in Ha.
  - rewrite Ert, Ec. unfold proposals_at. rewrite (proj2 (Z.leb_le _ _)) by lia.
    intros ? u (Hi & Hst & Hne & Hrem). destruct (test_cases s) as [|x l]; [done|].
    rewrite length_cons in *. split_and!; try done; [lia|nia].
  - rewrite Ec. intros code u [-> ->]. done.
Qed.

(** The turn from key generation to signing, in the same session. *)
Lemma to_signing_wp s trace q r case :
  let ph := PhaseKeygen trace q r (Some case) in
  config_ok → clients_ok s → orchestrator_state s = AwaitingRoundCompletion →
  intra_test_phase s = ph → keygen_ok 1 s r (unsigned_proposals_count ph) →
  current_round_completed_count_keygen s = n → 0 < unsigned_proposals_count ph →
  wp (all_alive s = false)
    (phase' ← expect (keygen_to_signing ph);
     put! intra_test_phase := increment_round_number phase';;
     send_finality_notification max_sets) s
    (λ _ t, inv t ∧ orchestrator_state t = AwaitingRoundCompletion ∧
       remaining t = remaining s ∧ 0 < remaining t)
    (λ code _, code = 0 ∧ remaining s = 0).
Proof using Type*.
  intros ph Hok Hcl Hst Eph (Hr & Hk & Hsg & Hb & Hcount & Hpar & Hans & Hans') Ek Hc.
  pose proof (ok_n Hok). pose proof (ok_t Hok). pose proof (ok_cases Hok).
  assert (1 <= r ∧ unsigned_proposals_count ph = p) as [Hr1 Ep].
  { rewrite Hcount in Hc |- *. destruct (Z.leb_spec 1 r); [done|lia]. }
  wp_step. wp_step; [|done]. simpl in *. simplify_eq. wp_step. wp_step.
  match goal with |- wp _ _ ?x _ _ => set (s1 := x) end.
  assert (intra_test_phase s1 = PhaseSigning trace (Some ((λ p, (p, 1)) <$> default [] q))
    (r + 1) case) as E1.
  { unfold s1. simp_field. cbn [increment_round_number]. rewrite wrap_small; [done|].
    unfold in_width. lia. }
  eapply wp_weaken; [apply send_finality_notification_wp; by rewrite E1|done|].
  intros ? t [Fs Fc Fk Fsg Fp Fd Fa Fok Fans]. rewrite E1 in Fp.
  unfold inv, awaiting, remaining. rewrite Fs, Fp, Eph, Fsg, Fc. cbn [is_keygen unsigned_proposals_count].
  change (orchestrator_state s1) with (orchestrator_state s). rewrite Hst.
  replace (default 0 _) with p
    by (simpl; rewrite length_fmap, <- Ep; by destruct q).
  change (test_cases s1) with (test_cases s).
  change (current_round_completed_count_signing s1) with (current_round_completed_count_signing s).
  assert (0 < needed p) by (unfold needed; nia).
  replace (default 0 ((λ v, len v) <$> q)) with p by (by rewrite <- Ep).
  split_and!; [by apply Fok| |done|lia..|nia].
  unfold signing_ok. rewrite Fk, Fsg, Fc. change (test_cases s1) with (test_cases s).
  change (current_round_completed_count_signing s1) with (current_round_completed_count_signing s).
  split_and!; try done; try lia.
  - destruct (Hpar ltac:(lia)) as [?|Hodd]; [lia|]. by rewrite Z.add_1_r, Z.even_succ, <- Z.negb_even, Hodd.
  - apply Fans, Hans'. lia.
Qed.

Lemma check_round_complete_wp s :
  config_ok → clients_ok s → orchestrator_state s = AwaitingRoundCompletion → awaiting 1 s →
  wp (all_alive s = false) (check_round_complete config max_sets) s
    (λ _ t, inv t ∧ orchestrator_state t = AwaitingRoundCompletion ∧
       remaining t = remaining s ∧ 0 < remaining t)
    (λ code _, code = 0 ∧ remaining s = 0).
Proof using Type*.
  intros Hok Hcl Hst Haw. pose proof (ok_n Hok). pose proof (ok_p Hok) as Hp0. pose proof (ok_t Hok).
  pose proof (ok_cases Hok). pose proof (ok_needed Hok) as Hnp.
  unfold check_round_complete. do 4 wp_step. cbv zeta. fold next_round.
  unfold awaiting in Haw.
  assert (remaining s = (if is_keygen (intra_test_phase s)
    then n - current_round_completed_count_keygen s +
      needed (unsigned_proposals_count (intra_test_phase s))
    else needed (unsigned_proposals_count (intra_test_phase s)) -
      current_round_completed_count_signing s) + len (test_cases s) * (n + needed p)) as Erem by done.
  assert (0 <= needed p) as Hn0 by (unfold needed; nia).
  destruct (intra_test_phase s) as [trace q r [case|]|trace q r case] eqn:Eph; [| done |].
  - set (ph := PhaseKeygen trace q r (Some case)) in *. change (is_keygen ph) with true in *.
    pose proof Haw as (Hr & Hk & Hsg & Hb & Hcount & Hpar & Hans & Hans').
    destruct (Z.eqb_spec (current_round_completed_count_keygen s) n) as [Ek|Ek]; cbn [andb].
    + destruct (Z.ltb_spec 0 (unsigned_proposals_count ph)) as [Hc|Hc].
      { by apply to_signing_wp. }
      assert (unsigned_proposals_count ph = 0) as Ec
        by (rewrite Hcount in *; destruct (1 <=? r); lia).
      do 2 wp_step. rewrite Ec, Hsg, Z.mul_0_r.
      replace (if 0 <? p then _ else true) with true by (by destruct (0 <? p)).
      rewrite Ec, Ek in Erem. unfold needed at 1 in Erem. rewrite Z.mul_0_r in Erem.
      eapply wp_conseq; [apply (next_round_wp s r); try done|done|..].
      * by rewrite Eph.
      * lia.
      * intros Hpp. rewrite Hcount in Ec. destruct (Z.leb_spec 1 r); [lia|].
        by replace r with 0 by lia.
      * apply Hans'. lia.
      * intros ? t (Hi & Ht & Hrem & Hpos). split_and!; try done. lia.
      * intros code t [-> Hz]. split; [done|lia].
    + do 3 wp_step. unfold inv. rewrite Hst. unfold awaiting. rewrite Eph.
      assert (0 <= needed (unsigned_proposals_count ph))
        by (rewrite Hcount; unfold needed; destruct (1 <=? r); nia).
      split_and!; try done; [|rewrite Erem; nia].
      by unfold keygen_ok; split_and!; try done; lia.
  - set (ph := PhaseSigning trace q r case) in *. change (is_keygen ph) with false in *.
    pose proof Haw as (Hr & Hk & Hsg & Hcount & Hp & Heven & Hb & Hans).
    rewrite Hk, Z.eqb_refl. cbn [andb]. do 2 wp_step.
    rewrite (proj2 (Z.ltb_lt 0 p)) by lia. rewrite Hcount.
    rewrite (wrap_small 64 (_ + 1)) by (unfold in_width; lia).
    change ((threshold config + 1) * p) with (needed p).
    rewrite (wrap_small 64 (needed p)) by (unfold in_width; lia). rewrite Hcount in *.
    destruct (Z.eqb_spec (current_round_completed_count_signing s) (needed p)) as [Es|Es].
    + eapply wp_conseq; [apply (next_round_wp s r); try done|done|..].
      * by rewrite Eph.
      * lia.
      * apply answers_even; try done; unfold in_width; lia.
      * intros ? t (Hi & Ht & Hrem & Hpos). split_and!; try done. lia.
      * intros code t [-> Hz]. split; [done|lia].
    + wp_step. unfold inv. rewrite Hst. unfold awaiting. rewrite Eph.
      split_and!; try done; [|rewrite Erem; nia].
      unfold signing_ok. rewrite Hcount. split_and!; try done; lia.
Qed.

(** ** Results *)

Lemma awaiting_round k s :
  awaiting k s → let r := round_number (intra_test_phase s) in
  0 <= r ∧ r + 1 <= 2 * cases ∧ answers r (blockchain s).
Proof using.
  unfold awaiting. destruct (intra_test_phase s) as [? ? r [?|]|? ? r ?]; simpl; [|done|].
  - intros (? & ? & ? & ? & ? & ? & ? & _). split_and!; try done; lia.
  - intros (? & ? & ? & ? & ? & ? & ? & ?). split_and!; try done; lia.
Qed.

Lemma record_pub_key_wp s peer r :
  config_ok → awaiting 0 s →
  wp (clients s !! peer = None) (record_pub_key peer r) s
    (λ c t, frame s t ∧ clients t = clients s ∧ clients s !! peer = Some c ∧
       match r with
       | TestKeygen _ _ => answers (round_number (intra_test_phase s) + 1) (blockchain t)
       | TestSign _ => True
       end) (λ _ _, False).
Proof using Type*.
  intros Hok Haw. destruct (awaiting_round 0 s Haw) as (Hr & Hb & Hans). pose proof (ok_cases Hok).
  unfold record_pub_key. set (rd := round_number (intra_test_phase s)) in *. do 2 wp_step. fold rd. wp_step.
  destruct r as [res key|res].
  - eapply wp_weaken; [apply (in_blockchain_wp _ s False), key_total; unfold in_width; lia|done|].
    intros ? t (Ht & Ec & _). do 4 wp_step; [|by rewrite <- Ec]. wp_step.
    rewrite wrap_small by (unfold in_width; lia).
    eapply wp_weaken; [apply (in_blockchain_wp _ t False), key_total; unfold in_width; lia|done|].
    intros ? u (Hu & Ecu & Hset). wp_step. split_and!; [by trans t|congruence|congruence|].
    eapply key_next; [..|exact Hset]; [done|unfold in_width; lia|]. by apply Ht.
  - do 5 wp_step; [|done]. do 3 wp_step. done.
Qed.

(** What a handled result leaves: the counters of the phase, the invariant up to the
    check at the end, and the sub-tasks. *)
Definition handled s (d : Z) t : Prop :=
  clients_ok t ∧ orchestrator_state t = AwaitingRoundCompletion ∧ awaiting 1 t ∧
  remaining t = remaining s - d ∧ (all_alive s = true → all_alive t = true).

(** Nothing is counted. *)
Lemma handled_0 s t :
  clients_ok s → orchestrator_state s = AwaitingRoundCompletion → awaiting 0 s → frame s t →
  handled s 0 t.
Proof using.
  intros Hc Hst Haw [Fs Fc Fk Fsg Fp Fd Fa Fok Fans]. unfold handled, remaining.
  rewrite Fs, Fp, Fk, Fsg, Fc. split_and!; [by apply Fok|done| |lia|done].
  unfold awaiting in *. rewrite Fp. destruct (intra_test_phase s) as [? ? r [?|]|? ? r ?]; [|done|].
  - destruct Haw as (? & ? & ? & ? & ? & ? & ? & ?). unfold keygen_ok. rewrite Fk, Fsg, Fc.
    split_and!; auto; lia.
  - destruct Haw as (? & ? & ? & ? & ? & ? & ? & ?). unfold signing_ok. rewrite Fk, Fsg, Fc.
    split_and!; auto; lia.
Qed.

(** A key generation is counted. *)
Lemma handled_keygen s t :
  config_ok → clients_ok s → orchestrator_state s = AwaitingRoundCompletion → awaiting 0 s →
  frame s t → is_keygen (intra_test_phase s) = true →
  answers (round_number (intra_test_phase s) + 1) (blockchain t) →
  handled s 1 (t <| current_round_completed_count_keygen ::= (λ k, wrap 64 (k + 1)) |>).
Proof using.
  intros Hok Hc Hst Haw [Fs Fc Fk Fsg Fp Fd Fa Fok Fans] Hph Hans. pose proof (ok_n Hok).
  unfold handled, remaining, awaiting in *. simp_field. rewrite Fs, Fp, Fk, Fsg, Fc.
  destruct (intra_test_phase s) as [? q r [tc|]|? ? r ?]; [|done|done].
  destruct Haw as (? & ? & ? & ? & ? & ? & ? & ?).
  rewrite wrap_small by (unfold in_width; lia).
  split_and!; [by apply Fok|done| |cbn [is_keygen]; lia|done].
  unfold keygen_ok. simp_field. rewrite Fk, Fsg, Fc, wrap_small by (unfold in_width; lia).
  split_and!; auto; lia.
Qed.

(** A signature is counted. *)
Lemma handled_signing s t :
  config_ok → clients_ok s → orchestrator_state s = AwaitingRoundCompletion → awaiting 0 s →
  frame s t → is_keygen (intra_test_phase s) = false →
  handled s 1 (t <| current_round_completed_count_signing ::= (λ k, wrap 64 (k + 1)) |>).
Proof using.
  intros Hok Hc Hst Haw [Fs Fc Fk Fsg Fp Fd Fa Fok Fans] Hph. pose proof (ok_needed Hok).
  unfold handled, remaining, awaiting in *. simp_field. rewrite Fs, Fp, Fk, Fsg, Fc.
  destruct (intra_test_phase s) as [? q r [tc|]|? ? r ?] eqn:E; [done..|].
  destruct Haw as (? & ? & Hcs & Hp & ? & ? & ? & ?). rewrite Hp in *.
  rewrite wrap_small by (unfold in_width; lia).
  split_and!; [by apply Fok|done| |cbn [is_keygen]; lia|done].
  unfold signing_ok. simp_field. rewrite Fk, Fsg, Fc, wrap_small by (unfold in_width; lia).
  split_and!; auto; lia.
Qed.

(** A signature that was asked for is taken off the list. *)
Lemma complete_signing_task_wp s peer trace c :
  clients_ok s → clients s !! peer = Some c →
  wp (outstanding_tasks_signing c !! trace = None) (complete_signing_task peer trace c) s
    (λ _ t, frame s t) (λ _ _, False).
Proof using.
  intros Hok Hc. unfold complete_signing_task. wp_step. wp_step; [|done].
  wp_step. apply wp_assert; [intros _|intros Hl%bool_decide_eq_false].
  2: { exfalso. apply Hl. by eapply (Hok peer c). }
  cbv zeta. unfold update_client. wp_step. apply frame_client; intros c'; [by simp_get|].
  unfold client_ok. simp_get. intros Hc'. case_bool_decide as Hl; [by apply map_Forall_delete|].
  by apply map_Forall_insert_2.
Qed.

Lemma on_test_result_wp s peer trace r :
  config_ok → clients_ok s → orchestrator_state s = AwaitingRoundCompletion → awaiting 0 s →
  wp (answerable s (ClientTestResult peer trace r) = false) (on_test_result peer trace r) s
    (λ _ t, handled s (counts s (ClientTestResult peer trace r)) t) (λ _ _, False).
Proof using Type*.
  intros Hok Hc Hst Haw. unfold on_test_result. wp_step.
  eapply wp_weaken; [by apply record_pub_key_wp|..].
  { intros Hno. unfold answerable. rewrite Hno. by destruct (all_alive s). }
  intros c t (Ht & Ec & Hcl & Hans). do 2 wp_step. rewrite (fr_phase _ _ Ht).
  destruct r as [res key|res], (is_keygen (intra_test_phase s)) eqn:Hph; unfold counts; rewrite Hph.
  - wp_step. apply (wp_mono _ _ _ (λ _ u, frame s u ∧ blockchain u = blockchain t) _ (λ _ _, False)); [..|done].
    + destruct res; unfold update_client; wp_step; [|done]. split; [|done]. etrans; [exact Ht|].
      apply frame_client; intros c'; [by simp_get|]. unfold client_ok. by simp_get.
    + intros ? u [Hu Eu]. wp_step. apply handled_keygen; try done. by rewrite Eu.
  - wp_step. by apply handled_0.
  - wp_step. by apply handled_0.
  - wp_step. apply (wp_weaken (answerable s (ClientTestResult peer trace (TestSign res)) = false)
      _ _ _ (λ _ u, frame s u)); [|done|].
    + destruct res as [[]|]; [|by wp_step]. eapply wp_weaken;
        [apply complete_signing_task_wp; [by apply Ht|by rewrite Ec]|..].
      * intros Hno. unfold answerable. rewrite Hcl, Hph, Hno. by destruct (all_alive s).
      * intros ? u Hu. by trans t.
    + intros ? u Hu. wp_step. by apply handled_signing.
Qed.

(** ** Events *)

Lemma awaiting_loose s : awaiting 0 s → awaiting 1 s.
Proof using.
  unfold awaiting, keygen_ok, signing_ok.
  destruct (intra_test_phase s) as [? ? r [?|]|? ? r ?]; [| done |];
    intros (? & ? & ? & ? & ? & ? & ? & ?); split_and!; auto; lia.
Qed.

Lemma on_update_wp s e :
  config_ok → inv s → orchestrator_state s = AwaitingRoundCompletion →
  wp (answerable s e = false) (on_update e) s
    (λ _ t, inv t ∧ orchestrator_state t = AwaitingRoundCompletion ∧
       remaining t = remaining s - counts s e ∧ 0 < remaining t)
    (λ code _, code = 0 ∧ remaining s = counts s e).
Proof using Type*.
  intros Hok [Hcl Haw] Hst. rewrite Hst in Haw. unfold on_client_update. do 2 wp_step. rewrite Hst.
  destruct e as [|peer trace r].
  - eapply wp_conseq; [by apply check_round_complete_wp, awaiting_loose|..].
    + intros Ha. unfold answerable. by rewrite Ha.
    + intros ? t (? & ? & ? & ?). split_and!; try done. simpl. lia.
    + by intros code t [-> ->].
  - wp_step. eapply wp_conseq; [by apply on_test_result_wp|done| |by intros].
    intros ? t (Ht & Hstt & Hawt & Hrem & Ha).
    eapply wp_conseq; [by apply check_round_complete_wp|..].
    + intros Hno. unfold answerable. destruct (all_alive s); [|done]. by rewrite Ha in Hno.
    + intros ? u (? & ? & ? & ?). split_and!; try done. lia.
    + intros code u [-> Hz]. split; [done|lia].
Qed.

(** The results that count along a run of the loop, and whether all its events can be
    answered. *)
Fixpoint counted (es : list ClientToOrchestratorEvent) s : Z :=
  match es with
  | [] => 0
  | e :: es' => counts s e + match on_update e s with Ret _ t => counted es' t | _ => 0 end
  end.

Fixpoint all_answerable (es : list ClientToOrchestratorEvent) s : bool :=
  match es with
  | [] => true
  | e :: es' => answerable s e &&
      match on_update e s with Ret _ t => all_answerable es' t | _ => true end
  end.

Lemma remaining_pos s :
  config_ok → inv s → orchestrator_state s = AwaitingRoundCompletion → 0 < remaining s.
Proof using.
  intros Hok [_ Haw] Hst. rewrite Hst in Haw. unfold awaiting, remaining in *.
  pose proof (ok_n Hok). pose proof (ok_p Hok). pose proof (ok_t Hok).
  assert (∀ x, 0 <= x → 0 <= needed x) as Hx by (unfold needed; nia). pose proof (Hx p).
  destruct (intra_test_phase s) as [? ? r [?|]|? ? r ?]; [| done |]; cbn [is_keygen].
  - destruct Haw as (? & ? & ? & ? & -> & ?). pose proof (Hx (if 1 <=? r then p else 0)).
    destruct (1 <=? r); nia.
  - destruct Haw as (? & ? & ? & ? & ?). nia.
Qed.

(** From inside a round: exactly [remaining] counted results end the tests. *)
Lemma run_counts es s :
  config_ok → inv s → orchestrator_state s = AwaitingRoundCompletion →
  all_answerable es s = true →
  match for_each es on_update s with
  | Ret _ t => remaining t = remaining s - counted es s ∧ 0 < remaining t
  | Fail code _ => code = 0 ∧ counted es s = remaining s
  | Panic => False
  end.
Proof using Type*.
  intros Hok. revert s. induction es as [|e es IH]; intros s Hi Hst Hall; simpl.
  { split; [lia|by apply remaining_pos]. }
  simpl in Hall. apply andb_true_iff in Hall as [He Hall].
  pose proof (on_update_wp s e Hok Hi Hst) as Hwp. unfold wp in Hwp.
  unfold mbind, M_bind. destruct (on_update e s) as [[] t|code t|].
  - destruct Hwp as (Hit & Hstt & Hrem & Hpos). specialize (IH t Hit Hstt Hall).
    destruct (for_each es on_update t); [|naive_solver lia|done]. lia.
  - destruct Hwp as [-> Hr]. split; [done|lia].
  - congruence.
Qed.

Lemma waiting_ready s : config_ok → waiting s → ready s.
Proof using.
  intros Hok (Hc & Hk & Hs & [u Hph] & Hcl & Hans).
  constructor; rewrite ?Hph, ?Hc; simpl; auto; lia.
Qed.

(** How many results a series of tests takes: [n] of key generation in every test, and
    the signatures of every test but the first. *)
Definition total_results : Z := cases * n + (cases - 1) * needed p.

Lemma first_round_wp s :
  config_ok → waiting s →
  wp (all_alive s = false) (orchestrator_begin_next_round config max_sets) s
    (λ _ t, inv t ∧ orchestrator_state t = AwaitingRoundCompletion ∧ 0 < cases ∧
       remaining t = total_results)
    (λ code _, code = 0 ∧ cases = 0).
Proof using Type*.
  intros Hok Hw. pose proof Hw as (Hc & _ & _ & [u Hph] & _ & _).
  eapply wp_conseq; [apply begin_next_round_wp; [done|by apply waiting_ready]|done|..];
    rewrite ?Hph, ?Hc.
  - intros ? t (Hi & Hst & Hne & Hrem). split_and!; try done.
    + destruct (generate_test_cases config); [done|rewrite length_cons; lia].
    + rewrite Hrem. unfold total_results, proposals_at, needed. simpl. lia.
  - intros code t [-> ->]. done.
Qed.

(** ** The server *)

Lemma inv_ext s t :
  inv s → clients_ok t → (tasks_clear s → tasks_clear t) →
  orchestrator_state t = orchestrator_state s → blockchain t = blockchain s →
  test_cases t = test_cases s →
  current_round_completed_count_keygen t = current_round_completed_count_keygen s →
  current_round_completed_count_signing t = current_round_completed_count_signing s →
  intra_test_phase t = intra_test_phase s → inv t.
Proof using.
  intros [_ Hi] Hok Hcl Es Eb Ec Ek Esg Ep. split; [done|]. rewrite Es.
  unfold waiting, awaiting, keygen_ok, signing_ok in *. rewrite Eb, Ec, Ek, Esg, Ep.
  destruct (orchestrator_state s); [|done..]. naive_solver.
Qed.

(** A change of the clients that keeps their tasks, or connects one. *)
Lemma inv_clients s f :
  inv s → (∀ id c, f (clients s) !! id = Some c → no_tasks c ∨
    ∃ c', clients s !! id = Some c' ∧ outstanding_tasks_keygen c = outstanding_tasks_keygen c' ∧
      outstanding_tasks_signing c = outstanding_tasks_signing c') →
  inv (s <| clients ::= f |>).
Proof using.
  intros Hi Hf. apply (inv_ext s); try (by simp_field).
  - intros id c Hc. apply Hf in Hc as [Hc|(c' & Hc' & _ & Es)]; [by apply no_tasks_ok|].
    unfold client_ok. rewrite Es. by eapply Hi.
  - intros Hcl id c Hc. apply Hf in Hc as [Hc|(c' & Hc' & Ek & Es)]; [done|].
    unfold no_tasks. rewrite Ek, Es. by eapply Hcl.
Qed.

Lemma inv_update_client s id f :
  inv s → (∀ c, outstanding_tasks_keygen (f c) = outstanding_tasks_keygen c ∧
    outstanding_tasks_signing (f c) = outstanding_tasks_signing c) →
  inv (s <| clients ::= alter f id |>).
Proof using.
  intros Hi Hf. apply inv_clients; [done|]. intros k c. rewrite lookup_alter_Some.
  intros [(-> & c' & Hc & ->)|[_ Hc]]; right; [exists c'|exists c]; naive_solver.
Qed.

(** Every step of the server keeps the invariant, and the process exits with code 0. *)
Lemma server_step_wp a s :
  config_ok → inv s → wp True (server_step config max_sets a) s (λ _ t, inv t) (λ code _, code = 0).
Proof using Type*.
  intros Hok Hi. destruct a as [r|peer pkt|peer|]; simpl.
  - destruct r; unfold handle_handshake, write_to; try by wp_step. do 5 wp_step.
    assert (inv (s <| clients ::= <[peer_id := mkConnectedClientState ∅ ∅ [] true]> |>)) as Hi'.
    { apply inv_clients; [done|]. intros id c. rewrite lookup_insert_Some.
      intros [[_ <-]|[_ Hc]]; [by left|right; eauto]. }
    by eapply inv_ext; [exact Hi'|apply Hi'|..].
  - destruct pkt as [| | |[]|]; unfold fwd_orchestrator, update_client; wp_step;
      try (apply inv_update_client; [done|intros c; by simp_get]); by apply (inv_ext s); try apply Hi.
  - unfold from_orchestrator, update_client, write_to. do 2 wp_step.
    destruct (clients s !! peer) as [[tk ts [|e q] []]|]; try by wp_step.
    do 2 wp_step. assert (inv (s <| clients ::= alter (λ c, c <| to_subtask := q |>) peer |>)) as Hi'
      by (apply inv_update_client; [done|intros c; by simp_get]).
    destruct e; do 3 try wp_step; [apply inv_update_client; [|intros c; by simp_get]|];
      by eapply inv_ext; [exact Hi'|apply Hi'|..].
  - unfold orchestrate_step. do 2 wp_step. destruct (orchestrator_rx s) as [|e q]; [by wp_step|].
    do 2 wp_step. match goal with |- wp _ _ ?x _ _ => set (s1 := x) end.
    assert (inv s1) as Hi1 by (by eapply inv_ext; [exact Hi|apply Hi|..]).
    destruct (orchestrator_state s1) eqn:Hst.
    + unfold on_client_update. do 2 wp_step. rewrite Hst. destruct e; [|by wp_step]. do 2 wp_step.
      wp_step; [|by wp_step]. destruct Hi1 as [_ Hw]. rewrite Hst in Hw.
      eapply wp_conseq; [by apply first_round_wp|done|naive_solver..].
    + eapply wp_conseq; [by apply on_update_wp|done|naive_solver..].
    + destruct Hi1 as [_ Hf]. by rewrite Hst in Hf.
Qed.

Lemma server_run_wp steps s :
  config_ok → inv s →
  wp True (server_run config max_sets steps) s (λ _ t, inv t) (λ code _, code = 0).
Proof using Type*.
  intros Hok Hi. unfold server_run. apply wp_for_each; [done|].
  intros a t _ Ht. by apply server_step_wp.
Qed.

Lemma new_inv b : answers 0 b → inv (orchestrator_new config b).
Proof using.
  intros Hb. split; [apply map_Forall_empty|]. split_and!; try done.
  by eexists.
Qed.

(** ** Theorems *)

(** C38: once the expected number of clients is connected, the tests run to their end:
    the orchestrator starts the first test, and as long as its events can be answered
    it neither panics nor stops, until it has counted, in total, [n] results of key
    generation for every test and [threshold + 1] signing results for every proposal of
    every test but the first; with the last of them it exits.  Results are counted
    whoever sends them and whatever they say.  Without test cases it exits at once. *)
Theorem tests_complete s :
  config_ok → inv s → orchestrator_state s = WaitingForInit →
  Z.of_nat (size (clients s)) = n → all_alive s = true →
  match on_update ClientReady s with
  | Ret _ t => 0 < cases ∧ ∀ es, all_answerable es t = true →
      match for_each es on_update t with
      | Ret _ _ => counted es t < total_results
      | Fail code _ => code = 0 ∧ counted es t = total_results
      | Panic => False
      end
  | Fail code _ => code = 0 ∧ cases = 0
  | Panic => False
  end.
Proof using Type*.
  intros Hok [_ Hw] Hst Hn Ha. rewrite Hst in Hw.
  assert (on_update ClientReady s = orchestrator_begin_next_round config max_sets s) as ->
    by (unfold on_client_update; orun; rewrite Hst; orun; by rewrite Hn, Z.eqb_refl).
  pose proof (first_round_wp s Hok Hw) as Hf. unfold wp in Hf.
  destruct (orchestrator_begin_next_round _ _ s) as [[] t|code t|]; [|done|congruence].
  destruct Hf as (Hi & Ht & Hc & Hrem). split; [done|]. intros es Hes.
  pose proof (run_counts es t Hok Hi Ht Hes) as Hrun. rewrite Hrem in Hrun.
  destruct (for_each es on_update t); [lia|done|done].
Qed.

(** The block of the latest notification is one that the chain answers. *)
Lemma server_run_answers b steps t :
  config_ok → answers 0 b →
  server_run config max_sets steps (orchestrator_new config b) = Ret tt t →
  let r := round_number (intra_test_phase t) in
  0 <= r <= 2 * cases ∧ answers r (blockchain t).
Proof using Type*.
  intros Hok Hb Hrun. pose proof (server_run_wp steps _ Hok (new_inv b Hb)) as Hwp.
  unfold wp in Hwp. rewrite Hrun in Hwp. destruct Hwp as [_ Hwp].
  destruct (orchestrator_state t); [| |done].
  - destruct Hwp as (_ & _ & _ & [u ->] & _ & ?). simpl. split; [lia|done].
  - apply awaiting_round in Hwp as (? & ? & ?). split; [lia|done].
Qed.

(** A signature that nobody asked for, such as one that is reported after its round was
    completed by others, stops the orchestrator. *)
Lemma late_signature_panics s peer trace c :
  orchestrator_state s = AwaitingRoundCompletion → is_keygen (intra_test_phase s) = false →
  clients s !! peer = Some c → outstanding_tasks_signing c !! trace = None →
  on_update (ClientTestResult peer trace (TestSign (inl ()))) s = Panic.
Proof using.
  intros Hst Hph Hc Hno. unfold on_client_update, on_test_result, record_pub_key. orun.
  rewrite Hst. orun. rewrite Hc. orun. rewrite Hph. unfold complete_signing_task. orun.
  by rewrite Hno.
Qed.
End spec.
