(* ===== verification/TestOrchestrator.v ===== *)
(** * The test orchestrator

    The rest of the test harness (src/dkg-test-orchestrator): the chain that the DKG
    clients under test read instead of the runtime (dummy_api.rs), which implements the
    interface of MockBlockchain.v; the gossip engine that connects them in memory
    (in_memory_gossip_engine.rs); the client of the mock blockchain (client.rs); and the
    command line and the end of the process (main.rs).  The hash of a header, the capacity check of
    [BoundedVec::force_push] and the file system are parameters. *)

From S2P Require Import Prelude.
From S2P Require Import Frame.
From S2P Require Import Float.
From S2P Require Import Primitives.
From S2P Require Import GadgetTypes.
From S2P Require Import Client.
From S2P Require Import Gossip.
From S2P Require Import MockBlockchain.

(** ** The chain of the clients *)

(** The hash of [Header::new_from_number(number)]. *)
Class HeaderHash := header_hash : Z → bytes.

(** [BoundedVec::force_push]; [None] is a panic. *)
Class ForcePush := force_push : list DKGId → DKGId → option (list DKGId).

Record DummyApiInner := mkDummyApiInner {
  keygen_t : Z;
  keygen_n : Z;
  signing_t : Z;
  signing_n : Z;
  authority_sets : gmap Z (list DKGId);
  dkg_keys : gmap Z bytes;
  unsigned_proposals : list StoredUnsignedProposalBatch;
  should_execute_keygen : bool;
  blocks_per_session : Z;
  incrementing_batch_id : Z }.

#[export] Instance eta_DummyApiInner : Eta DummyApiInner := λ a,
  mkDummyApiInner (keygen_t a) (keygen_n a) (signing_t a) (signing_n a) (authority_sets a)
    (dkg_keys a) (unsigned_proposals a) (should_execute_keygen a) (blocks_per_session a)
    (incrementing_batch_id a).

(** An empty key for the genesis block drives the DKG forward. *)
Definition dummy_api_new (keygen_t keygen_n signing_t signing_n blocks_per_session : Z)
    : DummyApiInner := {|
  keygen_t := keygen_t; keygen_n := keygen_n;
  signing_t := signing_t; signing_n := signing_n;
  authority_sets := ∅;
  dkg_keys := {[ 0 := [] ]};
  unsigned_proposals := [];
  should_execute_keygen := false;
  blocks_per_session := blocks_per_session;
  incrementing_batch_id := 0 |}.

(** The first of the [k] numbers from [x] on that passes the test, as a loop that
    returns from its body finds it. *)
Fixpoint first_from (k : positive) (x : Z) (f : Z → bool) : option Z :=
  match k with
  | xH => if f x then Some x else None
  | xO k' =>
      match first_from k' x f with
      | Some y => Some y
      | None => first_from k' (x + Z.pos k') f
      end
  | xI k' =>
      if f x then Some x else
      match first_from k' (x + 1) f with
      | Some y => Some y
      | None => first_from k' (x + 1 + Z.pos k') f
      end
  end.

Arguments first_from : simpl never.

Section dummy_api.
Context `{HeaderHash, ForcePush}.
Implicit Types a : DummyApiInner.

(** The loop over [0..=u64::MAX]; [None] is the panic after it. *)
Definition block_id_to_session_id a (input : bytes) : option Z :=
  x ← first_from (2 ^ 64) 0 (λ x, bool_decide (header_hash x = input));
  Some (floor_div x (blocks_per_session a)).

(** [MaxProposalsInBatch] is 10. *)
Definition stored_batch (batch_id : Z) (prop : UnsignedProposal * Z)
    : option StoredUnsignedProposalBatch :=
  ps ← try_bound 10 [prop.1];
  Some {| ub_batch_id := batch_id; ub_proposals := ps; ub_timestamp := 0 |}.

#[export] Instance dummy_blockchain : MutableBlockchain DummyApiInner := {|
  set_unsigned_proposals propos a :=
    let batch_id := incrementing_batch_id a in
    batches ← mapM (stored_batch batch_id) propos;
    Some (a <| incrementing_batch_id := wrap 32 (batch_id + 1) |>
            <| unsigned_proposals := batches |>);
  set_pub_key block_id key a :=
    session_id ← block_id_to_session_id a (header_hash block_id);
    Some (a <| dkg_keys ::= <[session_id := key]> |>);
  set_should_execute_keygen should_execute a :=
    Some (a <| should_execute_keygen := should_execute |>) |}.

(** *** [DKGApi] at the block with the given hash; [None] is a panic *)

Definition dummy_authority_set a (block : bytes) : option AuthoritySet :=
  number ← block_id_to_session_id a block;
  authorities ← authority_sets a !! number;
  Some {| as_authorities := authorities; as_id := number |}.

Definition dummy_queued_authority_set a (id : bytes) : option AuthoritySet :=
  number ← block_id_to_session_id a id;
  let next_session_id := wrap 64 (number + 1) in
  authorities ← authority_sets a !! next_session_id;
  Some {| as_authorities := authorities; as_id := next_session_id |}.

Definition dummy_next_dkg_pub_key a (id : bytes) : option (option (Z * bytes)) :=
  number ← block_id_to_session_id a id;
  let number := wrap 64 (number + 1) in
  Some ((λ pub_key, (number, pub_key)) <$> dkg_keys a !! number).

Definition dummy_dkg_pub_key a (block : bytes) : option (Z * bytes) :=
  number ← block_id_to_session_id a block;
  pub_key ← dkg_keys a !! number;
  Some (number, pub_key).

(** [enumerate] with [idx as u16 + 1]. *)
Definition numbered (l : list DKGId) : list (Z * DKGId) :=
  imap (λ idx auth, (wrap 16 (wrap 16 (Z.of_nat idx) + 1), auth)) l.

Definition dummy_get_best_authorities a (id : bytes) : option (list (Z * DKGId)) :=
  id ← block_id_to_session_id a id;
  authorities ← authority_sets a !! id;
  Some (numbered authorities).

Definition dummy_get_next_best_authorities a (id : bytes) : option (list (Z * DKGId)) :=
  id ← block_id_to_session_id a id;
  authorities ← authority_sets a !! wrap 64 (id + 1);
  Some (numbered authorities).

(** The thresholds do not depend on the block. *)
Definition dummy_signature_threshold a (block : bytes) : option Z := Some (signing_t a).
Definition dummy_keygen_threshold a (block : bytes) : option Z := Some (keygen_t a).
Definition dummy_next_signature_threshold a (block : bytes) : option Z := Some (signing_t a).
Definition dummy_next_keygen_threshold a (block : bytes) : option Z := Some (keygen_t a).

Definition dummy_get_unsigned_proposal_batches a (hash : bytes)
    : option (list StoredUnsignedProposalBatch) := Some (unsigned_proposals a).

Definition dummy_should_execute_new_keygen a (block : bytes) : option (bool * bool) :=
  Some (should_execute_keygen a, false).

(** The answers that are always the same. *)
Definition dummy_should_refresh a (block : bytes) (block_number : Z) : option bool := Some true.
Definition dummy_get_current_session_progress a (block : bytes) (block_number : Z)
    : option (option Z) := Some None.
Definition dummy_get_keygen_jailed a (block : bytes) (set : list DKGId) : option (list DKGId) :=
  Some [].
Definition dummy_get_signing_jailed a (block : bytes) (set : list DKGId) : option (list DKGId) :=
  Some [].
Definition dummy_refresh_nonce a (block : bytes) : option Z := Some 0.
Definition dummy_should_submit_proposer_vote a (block : bytes) : option bool := Some true.

(** The methods whose body is [todo!()]. *)
Definition dummy_next_pub_key_sig a (block : bytes) : option (option bytes) := None.
Definition dummy_get_authority_accounts a (block : bytes)
    : option (list AccountId * list AccountId) := None.
Definition dummy_get_reputations a (block : bytes) (authorities : list DKGId)
    : option (list (DKGId * Z)) := None.

(** The methods that the gadget calls, as it reads them at a block (Client.v). *)
Definition dummy_api_at a (block : bytes) : option RuntimeApi :=
  key ← dummy_dkg_pub_key a block;
  next_key ← dummy_next_dkg_pub_key a block;
  best ← dummy_get_best_authorities a block;
  next_best ← dummy_get_next_best_authorities a block;
  keygen ← dummy_keygen_threshold a block;
  next_keygen ← dummy_next_keygen_threshold a block;
  signature ← dummy_signature_threshold a block;
  next_signature ← dummy_next_signature_threshold a block;
  active ← dummy_authority_set a block;
  queued ← dummy_queued_authority_set a block;
  execute ← dummy_should_execute_new_keygen a block;
  batches ← dummy_get_unsigned_proposal_batches a block;
  Some {|
    at_dkg_pub_key := Some key;
    at_next_dkg_pub_key := Some next_key;
    at_best_authorities := Some best;
    at_next_best_authorities := Some next_best;
    at_keygen_threshold := Some keygen;
    at_next_keygen_threshold := Some next_keygen;
    at_signature_threshold := Some signature;
    at_next_signature_threshold := Some next_signature;
    at_authority_set := Some active;
    at_queued_authority_set := Some queued;
    at_keygen_jailed := Some (λ set, default [] (dummy_get_keygen_jailed a block set));
    at_should_execute_new_keygen := Some execute;
    at_unsigned_proposal_batches := Some batches |}.

(** ** The gossip engine *)

(** A channel to a peer: what it has not received yet, and whether it still can. *)
Record Channel := mkChannel { ch_queue : list SignedDKGMessage; ch_open : bool }.

(** What all clones of the engine share. *)
Record GossipShared := mkGossipShared {
  ge_clients : gmap PeerId Channel;
  ge_mapping : gmap PeerId DKGId }.

#[export] Instance eta_GossipShared : Eta GossipShared := λ g,
  mkGossipShared (ge_clients g) (ge_mapping g).

Record InMemoryGossipEngine := mkInMemoryGossipEngine {
  this_peer : option PeerId;
  this_peer_public_key : option DKGId;
  has_stream : bool }.

Definition gossip_new : GossipShared := {| ge_clients := ∅; ge_mapping := ∅ |}.

(** One iteration of the loop over the sessions. *)
Definition add_authority (public_key : DKGId) (x : Z) a : option DummyApiInner :=
  let entry := default [] (authority_sets a !! x) in
  entry ← (if bool_decide (public_key ∈ entry) then Some entry else force_push entry public_key);
  Some (a <| authority_sets ::= <[x := entry]> |>).

Fixpoint add_authorities (public_key : DKGId) (xs : list Z) a : option DummyApiInner :=
  match xs with
  | [] => Some a
  | x :: xs' => a ← add_authority public_key x a; add_authorities public_key xs' a
  end.

Definition clone_for_new_peer (n_blocks : Z) (peer : PeerId) (public_key : DKGId)
    (st : GossipShared * DummyApiInner)
    : option (InMemoryGossipEngine * (GossipShared * DummyApiInner)) :=
  let '(g, a) := st in
  let g := g <| ge_mapping ::= <[peer := public_key]> |> in
  a ← add_authorities public_key (seqZ 0 (n_blocks + 2)) a;
  let g := g <| ge_clients ::= <[peer := mkChannel [] true]> |> in
  Some (mkInMemoryGossipEngine (Some peer) (Some public_key) true, (g, a)).

(** [get_stream]: the receiver is handed out once. *)
Definition get_stream (e : InMemoryGossipEngine) : bool * InMemoryGossipEngine :=
  (has_stream e, mkInMemoryGossipEngine (this_peer e) (this_peer_public_key e) false).

(** [send]. *)
Definition gossip_send (recipient : PeerId) (message : SignedDKGMessage)
    : M GossipShared string unit :=
  tx ← gets (λ g, ge_clients g !! recipient);
  tx ← ok_or tx "Peer does not exist"%string;
  ensure (ch_open tx) "Failed to send message"%string;;
  upd! ge_clients ::= <[recipient := mkChannel (ch_queue tx ++ [message]) true]>.

(** [gossip]: to every peer but this one; a closed channel ends the loop. *)
Definition gossip (e : InMemoryGossipEngine) (message : SignedDKGMessage)
    : M GossipShared string unit :=
  me ← expect (this_peer e);
  clients ← gets (λ g, map_to_list (ge_clients g));
  for_each clients (λ '(peer_id, tx),
    if bool_decide (peer_id ≠ me) then
      ensure (ch_open tx) "Failed to send broadcast message"%string;;
      upd! ge_clients ::= <[peer_id := mkChannel (ch_queue tx ++ [message]) true]>
    else mret tt).
End dummy_api.

(** ** The client of the mock blockchain *)

(** A stream with any number of subscribers: the queue of each and whether it is still
    there to receive. *)
Abbreviation MultiSubscribableStream T := (list (list T * bool)).

Definition subscribe {T} (s : MultiSubscribableStream T) : MultiSubscribableStream T :=
  s ++ [([], true)].

(** Everyone who can receive gets the item, the others are dropped; [None] is the failed
    assertion that there is a subscriber. *)
Definition stream_send {T} (t : T) (s : MultiSubscribableStream T)
    : option (MultiSubscribableStream T) :=
  if bool_decide (length s = 0%nat) then None else
  Some (omap (λ tx, if tx.2 : bool then Some (tx.1 ++ [t], true) else None) s).

(** The state that [TestClient::connect] shares with the worker. *)
Record TestClient := mkTestClient {
  finality_stream : MultiSubscribableStream MockBlockchainEvent;
  local_test_cases : gmap Uuid (option TestOutcome);
  latest_test_uuid : option Uuid;
  outgoing : list ProtocolPacket;
  halted : bool }.

#[export] Instance eta_TestClient : Eta TestClient := λ c,
  mkTestClient (finality_stream c) (local_test_cases c) (latest_test_uuid c) (outgoing c)
    (halted c).

(** [orchestrator_coms]: a packet of the server; [None] is a panic. *)
Definition on_packet (peer_id : PeerId) (packet : ProtocolPacket) (c : TestClient)
    : option TestClient :=
  match packet with
  | InitialHandshake =>
      Some (c <| outgoing ::= (λ o, o ++ [InitialHandshakeResponse peer_id]) |>)
  | BlockchainToClient trace_id event =>
      let c := c <| latest_test_uuid := Some trace_id |>
                 <| local_test_cases ::= <[trace_id := None]> |> in
      stream ← stream_send event (finality_stream c);
      Some (c <| finality_stream := stream |>)
  | PacketHalt => Some (c <| halted := true |>)
  | InitialHandshakeResponse _ | ClientToBlockchain _ => None
  end.

(** [dkg_worker_listener]: a result of the worker, with the key if it is of a key
    generation. *)
Definition on_worker_result (payload : Uuid * TestOutcome * option bytes) (c : TestClient)
    : TestClient :=
  let '(trace_id, r, pub_key) := payload in
  let event :=
    match pub_key with
    | Some pub_key => ResponseKeygen r trace_id pub_key
    | None => ResponseSign r trace_id
    end in
  c <| outgoing ::= (λ o, o ++ [ClientToBlockchain event]) |>.

(** ** The command line *)

Record Args := mkArgs {
  config_path : option string;
  tmp_path : string;
  clean : bool;
  arg_threshold : option Z;
  arg_n : option Z;
  arg_bind : option string;
  n_tests : option Z;
  proposals_per_test : option Z }.

(** The file system, and the parser of configuration files. *)
Class FileSystem := {
  is_file : string → bool;
  is_dir : string → bool;
  remove_dir_all : string → result string unit;
  create_dir : string → result string unit;
  read_config : string → result string MockBlockchainConfig }.

Section main.
Context `{FileSystem}.

Definition any_manual (args : Args) : bool :=
  bool_decide (is_Some (proposals_per_test args)) || bool_decide (is_Some (arg_n args)) ||
  bool_decide (is_Some (arg_threshold args)) || bool_decide (is_Some (n_tests args)) ||
  bool_decide (is_Some (arg_bind args)).

Definition missing_manual (args : Args) : bool :=
  bool_decide (proposals_per_test args = None) || bool_decide (arg_n args = None) ||
  bool_decide (arg_threshold args = None) || bool_decide (n_tests args = None) ||
  bool_decide (arg_bind args = None).

Definition validate_args (args : Args) : result string unit :=
  if (match config_path args with Some path => negb (is_file path) | None => false end)
  then Err "not a valid config path"%string else
  if negb (is_dir (tmp_path args)) then Err "not a valid tmp path"%string else
  if any_manual args && missing_manual args
  then Err "all of them must be specified"%string else
  if any_manual args && bool_decide (is_Some (config_path args))
  then Err "Either the config path or a manual set of args must be passed"%string else
  if clean args then _ ← remove_dir_all (tmp_path args); create_dir (tmp_path args)
  else Ok tt.

(** [unwrap]. *)
Definition unwrap {A} (o : option A) : result string A :=
  match o with Some x => Ok x | None => Panics end.

Definition args_to_config (args : Args) : result string MockBlockchainConfig :=
  match config_path args with
  | Some path => read_config path
  | None =>
      n ← unwrap (arg_n args);
      threshold ← unwrap (arg_threshold args);
      tests ← unwrap (n_tests args);
      proposals ← unwrap (proposals_per_test args);
      bind ← unwrap (arg_bind args);
      Ok {| bind := bind; n_clients := n; threshold := threshold;
            min_simulated_latency := None; positive_cases := tests; error_cases := None;
            unsigned_proposals_per_session := Some proposals |}
  end.

(** The number of sessions for which [main] registers the clients. *)
Definition main_n_blocks (config : MockBlockchainConfig) : Z :=
  wrap 64 (2 * wrap 64 (positive_cases config + len (default [] (error_cases config)))).

(** The API that [main] starts the orchestrator and the clients with. *)
Definition main_blocks_per_session : Z := 2.

Definition main_api (config : MockBlockchainConfig) : DummyApiInner :=
  let t := wrap 16 (threshold config) in
  let n := wrap 16 (n_clients config) in
  dummy_api_new t n t n main_blocks_per_session.

(** The registrations of the clients, one after the other. *)
Fixpoint setup_clients `{ForcePush} (n_blocks : Z) (peers : list (PeerId * DKGId))
    (st : GossipShared * DummyApiInner) : option (GossipShared * DummyApiInner) :=
  match peers with
  | [] => Some st
  | (peer, key) :: peers' =>
      '(_, st) ← clone_for_new_peer n_blocks peer key st; setup_clients n_blocks peers' st
  end.
(** What happens while [main] waits: a step of the server, which runs in a task of its
    own, the end or the panic of a worker, which run in the task of [main], and the end of
    the half second that the orchestrator sleeps before it exits. *)
Inductive MainStep := Server (a : ServerStep) | WorkerEnds | WorkerPanics | SleepOver.

(** How the process ends, and the code that the operating system sees. *)
Inductive ProcessEnd := Exits (code : Z) | ReturnsOk | ReturnsErr | Unwinds.

Definition exit_status (e : ProcessEnd) : Z :=
  match e with Exits code => code | ReturnsOk => 0 | ReturnsErr => 1 | Unwinds => 101 end.

(** The [select!] of [main] and the [process::exit] of the orchestrator, whichever is
    first; [None] while the process runs.  [sleeping] is the code with which the
    orchestrator is about to exit.  A panic ends the orchestrator's task. *)
Fixpoint main_select `{MutableBlockchain T, Entropy} (config : MockBlockchainConfig)
    (max_sets : Z) (steps : list MainStep) (sleeping : option Z) (o : Orchestrator T)
    : option ProcessEnd :=
  match steps with
  | [] => None
  | WorkerEnds :: _ => Some ReturnsErr
  | WorkerPanics :: _ => Some Unwinds
  | SleepOver :: steps' =>
      match sleeping with
      | Some code => Some (Exits code)
      | None => main_select config max_sets steps' None o
      end
  | Server a :: steps' =>
      match sleeping with
      | Some code => main_select config max_sets steps' (Some code) o
      | None =>
          match server_step config max_sets a o with
          | Ret _ o' => main_select config max_sets steps' None o'
          | Fail code o' => main_select config max_sets steps' (Some code) o'
          | Panic => Some ReturnsErr
          end
      end
  end.

(** Without clients there is no worker to wait for, and [main] returns at once. *)
Definition main_run `{MutableBlockchain T, Entropy} (config : MockBlockchainConfig)
    (max_sets : Z) (steps : list MainStep) (o : Orchestrator T) : option ProcessEnd :=
  if n_clients config =? 0 then Some ReturnsOk
  else main_select config max_sets steps None o.
End main.
