(* ===== verification/TestOrchestratorSpec.v ===== *)
(** * The chain of the test clients answers

    [DummyApi] keeps the promise of [ChainDouble], so that the theorems about the
    orchestrator hold of the harness as it is put together; at every block that the
    orchestrator announces the API has an authority set, a queued one and a key, and no
    read that the gadget makes panics.  No failed test shows in the exit
    status of the process.  The gossip engine reaches every other peer once, and the
    command line is only accepted when it gives a configuration or nothing. *)

From S2P Require Import Prelude.
From S2P Require Import Frame.
From S2P Require Import Float.
From S2P Require Import Primitives.
From S2P Require Import GadgetTypes.
From S2P Require Import Client.
From S2P Require Import Gossip.
From S2P Require Import MockBlockchain.
From S2P Require Import MockBlockchainSpec.
From S2P Require Import TestOrchestrator.

(** Headers of different numbers have different hashes. *)
Class HeaderHashLaws `{HeaderHash} : Prop :=
  header_hash_inj x y : in_width 64 x → in_width 64 y → header_hash x = header_hash y → x = y.

(** Below its capacity a bounded vector grows like a vector. *)
Class ForcePushLaws `{ForcePush} (max : Z) : Prop :=
  force_push_Some l x : len l < max → force_push l x = Some (l ++ [x]).

(** ** Sessions *)

#[local] Arguments first_from !_ _ _ /.

Lemma first_from_sound k x f y :
  first_from k x f = Some y → x <= y < x + Z.pos k ∧ f y = true.
Proof.
  revert x. induction k as [k IH|k IH|]; intros x; simpl.
  - destruct (f x) eqn:Hf; [intros [= <-]; split; [lia|done]|].
    destruct (first_from k (x + 1) f) as [z|] eqn:E.
    + intros [= <-]. destruct (IH _ E). split; [lia|done].
    + intros Hy%IH. destruct Hy. split; [lia|done].
  - destruct (first_from k x f) as [z|] eqn:E.
    + intros [= <-]. destruct (IH _ E). split; [lia|done].
    + intros Hy%IH. destruct Hy. split; [lia|done].
  - destruct (f x) eqn:Hf; [intros [= <-]; split; [lia|done]|done].
Qed.

Lemma first_from_complete k x f y :
  x <= y < x + Z.pos k → f y = true → is_Some (first_from k x f).
Proof.
  revert x. induction k as [k IH|k IH|]; intros x Hy Hf; simpl.
  - destruct (f x) eqn:Hx; [done|]. assert (x ≠ y) by congruence.
    destruct (first_from k (x + 1) f) eqn:E; [done|]. apply IH; [|done].
    destruct (decide (y < x + 1 + Z.pos k)); [|lia].
    destruct (IH (x + 1)) as [z Hz]; [lia|done|congruence].
  - destruct (first_from k x f) eqn:E; [done|]. apply IH; [|done].
    destruct (decide (y < x + Z.pos k)); [|lia].
    destruct (IH x) as [z Hz]; [lia|done|congruence].
  - assert (x = y) as -> by lia. by rewrite Hf.
Qed.

#[local] Arguments first_from : simpl never.

Section api.
Context `{HeaderHash, !HeaderHashLaws, ForcePush}.
Implicit Types a : DummyApiInner.

(** The search over all numbers finds the block. *)
Lemma find_block x :
  in_width 64 x →
  first_from (2 ^ 64) 0 (λ y, bool_decide (header_hash y = header_hash x)) = Some x.
Proof.
  unfold in_width. intros Hx.
  destruct (first_from_complete (2 ^ 64) 0 (λ y, bool_decide (header_hash y = header_hash x)) x)
    as [y Hy]; [lia|by apply bool_decide_eq_true|].
  apply first_from_sound in Hy as Hs. destruct Hs as [Hr Heq%bool_decide_eq_true].
  apply header_hash_inj in Heq as ->; [done|unfold in_width; lia..].
Qed.

Lemma session_of_block a x :
  in_width 53 x → 0 < blocks_per_session a < 2 ^ 53 →
  block_id_to_session_id a (header_hash x) = Some (x / blocks_per_session a).
Proof.
  unfold in_width. intros Hx Hb. unfold block_id_to_session_id.
  rewrite find_block by (unfold in_width; lia). simpl. by rewrite floor_div_exact by lia.
Qed.

(** ** The promise to the orchestrator *)

(** The sessions are two blocks long, the registered authorities are [sets], and there is
    a key for every session up to that of the block. *)
Definition dummy_answers (sets : gmap Z (list DKGId)) (b : Z) a : Prop :=
  blocks_per_session a = 2 ∧ authority_sets a = sets ∧
  ∀ b', 0 <= b' <= b → is_Some (dkg_keys a !! (b' / 2)).

Lemma stored_batches batch_id ps : ∃ bs, mapM (stored_batch batch_id) ps = Some bs.
Proof using. apply mapM_is_Some, Forall_true. intros [q e]. by eexists. Qed.

Lemma set_pub_key_eq b k a session :
  block_id_to_session_id a (header_hash b) = Some session →
  set_pub_key b k a = Some (a <| dkg_keys ::= <[session := k]> |>).
Proof using. intros E. cbn [set_pub_key dummy_blockchain]. by rewrite E. Qed.

Lemma session_defined a b :
  in_width 53 b → is_Some (block_id_to_session_id a (header_hash b)).
Proof.
  intros Hb. unfold block_id_to_session_id. rewrite find_block by (unfold in_width in *; lia).
  by eexists.
Qed.

#[export] Instance dummy_chain_double sets : ChainDouble DummyApiInner (dummy_answers sets).
Proof.
  split.
  - intros ps a. cbn [set_unsigned_proposals dummy_blockchain]. destruct (stored_batches (incrementing_batch_id a) ps) as [bs ->].
    by eexists.
  - intros f a. by eexists.
  - intros b k a Hb. destruct (session_defined a b Hb) as [session Hs'].
    rewrite (set_pub_key_eq _ _ _ _ Hs'). eexists. split; [reflexivity|].
    intros b' (Hbp & Hs & Hk). split_and!; [done..|]. intros x Hx. simp_get.
    apply lookup_insert_is_Some'. right. by apply Hk.
  - intros b k a a' Hb Hw (Hbp & Hs & Hk) Hset.
    erewrite set_pub_key_eq in Hset by (apply session_of_block; rewrite ?Hbp; lia || done).
    injection Hset as <-.
    split_and!; [done..|]. intros x Hx. simp_get. rewrite Hbp. apply lookup_insert_is_Some'.
    destruct (decide (x = b + 1)) as [->|]; [by left|right]. apply Hk. lia.
  - intros b a He Hb Hw (Hbp & Hs & Hk). split_and!; [done..|]. intros x Hx.
    destruct (decide (x = b + 1)) as [->|]; [|apply Hk; lia].
    apply Z.even_spec in He as [k ->]. replace ((2 * k + 1) / 2) with (2 * k / 2)
      by (Z.to_euclidean_division_equations; lia). apply Hk. lia.
Qed.

(** ** Registration *)

Section setup.
Context `{!ForcePushLaws 1024}.

Lemma add_authorities_run key xs a (l : list DKGId) :
  NoDup xs → (∀ x, x ∈ xs → default [] (authority_sets a !! x) = l) → key ∉ l → len l < 1024 →
  ∃ a', add_authorities key xs a = Some a' ∧
    (∀ x, x ∈ xs → authority_sets a' !! x = Some (l ++ [key])) ∧
    (∀ x, x ∉ xs → authority_sets a' !! x = authority_sets a !! x) ∧
    dkg_keys a' = dkg_keys a ∧ blocks_per_session a' = blocks_per_session a.
Proof using Type*.
  intros Hnd. revert a. induction Hnd as [|x xs Hx Hnd IH]; intros a Hl Hk Hlen; simpl.
  { exists a. split_and!; try done. intros x Hx. by apply elem_of_nil in Hx. }
  unfold add_authority. rewrite (Hl x) by left. rewrite bool_decide_eq_false_2 by done.
  rewrite force_push_Some by done. simpl.
  destruct (IH (a <| authority_sets ::= <[x := l ++ [key]]> |>)) as (a' & -> & H1' & H2' & H3' & H4');
    [|done..|].
  { intros y Hy. simp_get. rewrite lookup_insert_ne by congruence. apply Hl. by right. }
  exists a'. split_and!; try done.
  - intros y [->|Hy]%elem_of_cons; [|by apply H1']. rewrite H2' by done. simp_get.
    by rewrite lookup_insert_eq.
  - intros y [Hne Hy]%not_elem_of_cons. rewrite H2' by done. simp_get.
    by rewrite lookup_insert_ne.
Qed.

Lemma setup_clients_run n_blocks peers g a (l : list DKGId) :
  let xs := seqZ 0 (n_blocks + 2) in
  (∀ x, x ∈ xs → default [] (authority_sets a !! x) = l) →
  NoDup (l ++ peers.*2) → len (l ++ peers.*2) <= 1024 → l ++ peers.*2 ≠ [] →
  (l ≠ [] → ∀ x, x ∈ xs → authority_sets a !! x = Some l) →
  ∃ g' a', setup_clients n_blocks peers (g, a) = Some (g', a') ∧
    (∀ x, x ∈ xs → authority_sets a' !! x = Some (l ++ peers.*2)) ∧
    dkg_keys a' = dkg_keys a ∧ blocks_per_session a' = blocks_per_session a.
Proof using Type*.
  intros xs. revert g a l. induction peers as [|[peer key] peers IH]; intros g a l Hl Hnd Hlen Hne Hset.
  { exists g, a. rewrite app_nil_r in *. by split_and!; [|apply Hset|..]. }
  assert (l ++ ((peer, key) :: peers).*2 = (l ++ [key]) ++ peers.*2) as E
    by (rewrite <- app_assoc; done). rewrite E in *.
  destruct (add_authorities_run key xs a l) as (a1 & Hrun & Hin & _ & Hk & Hb);
    [apply NoDup_seqZ|done| |rewrite !length_app in Hlen; simpl in Hlen; lia|].
  { rewrite <- app_assoc in Hnd. apply NoDup_app in Hnd as (_ & Hd & _).
    intros Hkey%Hd. apply Hkey. by left. }
  cbn [setup_clients clone_for_new_peer]. fold xs. rewrite Hrun. cbn [mbind option_bind].
  match goal with |- context [setup_clients _ _ (?g1, a1)] => set (g' := g1) end.
  destruct (IH g' a1 (l ++ [key])) as (g2 & a2 & -> & Hin2 & Hk2 & Hb2); [|done..| |].
  - intros x Hx. by rewrite Hin.
  - intros _. exact Hin.
  - exists g2, a2. split_and!; [done..|congruence|congruence].
Qed.
End setup.

(** ** What a client reads *)

Lemma numbered_zip (l : list DKGId) : len l < 2 ^ 16 → numbered l = zip (seqZ 1 (len l)) l.
Proof using.
  intros Hl. apply list_eq. intros i. unfold numbered. rewrite list_lookup_imap.
  destruct (l !! i) as [x|] eqn:Hx.
  - pose proof (lookup_lt_Some _ _ _ Hx). simpl. symmetry. apply lookup_zip_with_Some.
    exists (1 + Z.of_nat i), x. split_and!; [|apply lookup_seqZ; lia|done].
    rewrite (wrap_small 16 (Z.of_nat i)), wrap_small by (unfold in_width; lia). f_equal. lia.
  - simpl. symmetry. apply lookup_zip_with_None. by right.
Qed.

(** The answers at a block: the registered authorities [keys] in both sessions, the
    numbers of the sessions, and the key of the session. *)
Definition expected_api a (b : Z) (keys : list DKGId) (key : bytes) (next : option (Z * bytes))
    : RuntimeApi := {|
  at_dkg_pub_key := Some (b / 2, key);
  at_next_dkg_pub_key := Some next;
  at_best_authorities := Some (zip (seqZ 1 (len keys)) keys);
  at_next_best_authorities := Some (zip (seqZ 1 (len keys)) keys);
  at_keygen_threshold := Some (keygen_t a);
  at_next_keygen_threshold := Some (keygen_t a);
  at_signature_threshold := Some (signing_t a);
  at_next_signature_threshold := Some (signing_t a);
  at_authority_set := Some {| as_authorities := keys; as_id := b / 2 |};
  at_queued_authority_set := Some {| as_authorities := keys; as_id := b / 2 + 1 |};
  at_keygen_jailed := Some (λ _, []);
  at_should_execute_new_keygen := Some (should_execute_keygen a, false);
  at_unsigned_proposal_batches := Some (unsigned_proposals a) |}.

Lemma answers_reads sets a b n_blocks keys :
  dummy_answers sets b a → in_width 53 b → len keys < 2 ^ 16 → b / 2 <= n_blocks →
  (∀ x, x ∈ seqZ 0 (n_blocks + 2) → sets !! x = Some keys) →
  ∃ key next, dummy_api_at a (header_hash b) = Some (expected_api a b keys key next).
Proof.
  unfold in_width. intros (Hbp & Hs & Hk) Hb Hlen Hn Hsets.
  pose proof (session_of_block a b Hb) as Hses. rewrite Hbp in Hses. specialize (Hses ltac:(lia)).
  assert (0 <= b / 2 <= b) as Hd by (Z.to_euclidean_division_equations; lia).
  assert (wrap 64 (b / 2 + 1) = b / 2 + 1) as Hw by (apply wrap_small; unfold in_width; lia).
  assert (authority_sets a !! (b / 2) = Some keys) as Hcur
    by (rewrite Hs; apply Hsets, elem_of_seqZ; lia).
  assert (authority_sets a !! (b / 2 + 1) = Some keys) as Hnext
    by (rewrite Hs; apply Hsets, elem_of_seqZ; lia).
  destruct (Hk b) as [key Hkey]; [lia|].
  exists key, ((λ k, (b / 2 + 1, k)) <$> dkg_keys a !! (b / 2 + 1)).
  unfold dummy_api_at, dummy_authority_set, dummy_queued_authority_set, dummy_dkg_pub_key,
    dummy_next_dkg_pub_key, dummy_get_best_authorities, dummy_get_next_best_authorities.
  rewrite Hses. cbn [mbind option_bind]. rewrite Hw, Hkey. cbn [mbind option_bind].
  rewrite Hcur, Hnext. cbn [mbind option_bind]. by rewrite numbered_zip by done.
Qed.

(** Three methods of the API are not implemented; the gadget does not call them. *)
Lemma unimplemented_reads_panic a block authorities :
  dummy_next_pub_key_sig a block = None ∧ dummy_get_authority_accounts a block = None ∧
  dummy_get_reputations a block authorities = None.
Proof using. done. Qed.

(** Registration leaves the keys and the length of the sessions alone. *)
Lemma add_authorities_frame key xs a a' :
  add_authorities key xs a = Some a' →
  dkg_keys a' = dkg_keys a ∧ blocks_per_session a' = blocks_per_session a.
Proof using.
  revert a. induction xs as [|x xs IH]; intros a; simpl; [by intros [= ->]|].
  intros (a1 & (entry & _ & [= <-])%bind_Some & Hrun)%bind_Some. by apply IH in Hrun.
Qed.

Lemma setup_clients_frame n_blocks peers g a g' a' :
  setup_clients n_blocks peers (g, a) = Some (g', a') →
  dkg_keys a' = dkg_keys a ∧ blocks_per_session a' = blocks_per_session a.
Proof using.
  revert g a. induction peers as [|[peer key] peers IH]; intros g a; simpl; [by intros [= -> ->]|].
  intros ([e st] & (a1 & Ha%add_authorities_frame & [= _ <-])%bind_Some & Hrun)%bind_Some.
  apply IH in Hrun. destruct Ha, Hrun. split; congruence.
Qed.

(** The chain that [main] starts with answers at the first block. *)
Lemma setup_answers config peers g a :
  setup_clients (main_n_blocks config) peers (gossip_new, main_api config) = Some (g, a) →
  dummy_answers (authority_sets a) 0 a.
Proof using.
  intros [Hk Hb]%setup_clients_frame. unfold dummy_answers. rewrite Hk, Hb.
  split_and!; [done..|]. intros x Hx. replace x with 0 by lia. by eexists.
Qed.

Section harness.
Context `{Entropy, !EntropyLaws, !ForcePushLaws 1024}.

(** C39: in the harness as [main] puts it together, with clients of different keys and at
    most 1024 of them, and with at least as many sessions prepared by [main] as there are
    test cases ([len (generate_test_cases config) <= main_n_blocks config], which holds
    when no error case is repeated, [single_cases_covered], and can fail otherwise,
    [repeated_error_case]): whatever the clients do, each of the reads of the API that the
    gadget makes succeeds at every block that the orchestrator has announced, and gives
    the clients in the order of their registration as authorities of both sessions. *)
Theorem harness_reads_succeed config max_sets peers g a steps t b :
  config_ok config → NoDup peers.*2 → peers ≠ [] → len peers <= 1024 →
  len (generate_test_cases config) <= main_n_blocks config →
  setup_clients (main_n_blocks config) peers (gossip_new, main_api config) = Some (g, a) →
  server_run config max_sets steps (orchestrator_new config a) = Ret tt t →
  0 <= b <= round_number (intra_test_phase t) →
  ∃ key next, dummy_api_at (blockchain t) (header_hash b) =
    Some (expected_api (blockchain t) b peers.*2 key next).
Proof using Type*.
  intros Hok Hnd Hne Hlen Hcases Hsetup Hrun Hb. pose proof (ok_cases _ Hok).
  destruct (setup_clients_run (main_n_blocks config) peers gossip_new (main_api config) [])
    as (g' & a' & E & Hsets & Hk & Hbp); [done|done|rewrite app_nil_l, length_fmap; done| |done|].
  { simpl. by destruct peers. }
  rewrite Hsetup in E. simplify_eq.
  destruct (server_run_answers config max_sets (dummy_answers (authority_sets a')) a' steps t Hok)
    as [Hr (Hbp' & Hs & Hkeys)]; [by eapply setup_answers|done|].
  eapply (answers_reads (authority_sets a')); [| | | |exact Hsets].
  - split_and!; [done..|]. intros x Hx. apply Hkeys. lia.
  - unfold in_width. lia.
  - rewrite length_fmap. lia.
  - Z.to_euclidean_division_equations; lia.
Qed.



End harness.

(** Without repeated error cases the sessions that [main] prepares are enough. *)
Lemma single_cases_covered config :
  0 <= positive_cases config → positive_cases config + len (default [] (error_cases config)) < 2 ^ 52 →
  Forall (λ e, ec_count e <= 1) (default [] (error_cases config)) →
  len (generate_test_cases config) <= main_n_blocks config.
Proof using.
  intros Hp Hl Hc. unfold generate_test_cases, repeat_case, main_n_blocks.
  rewrite (wrap_small _ (positive_cases _ + _)) by (unfold in_width; lia).
  rewrite wrap_small by (unfold in_width; lia). rewrite length_app, length_replicate.
  set (es := default [] (error_cases config)) in *.
  assert (length (mjoin ((λ e, replicate (Z.to_nat (ec_count e)) (Invalid e)) <$> es)) <= length es)%nat;
    [|lia].
  clear Hl. induction Hc as [|e es' He _ IH]; [done|]. rewrite fmap_cons, length_cons.
  match goal with |- context [mjoin (?x :: ?l)] => change (mjoin (x :: l)) with (x ++ mjoin l) end.
  rewrite length_app, length_replicate. lia.
Qed.

(** A session that was not prepared makes the read panic: a repeated error case can run
    into it. *)
Lemma unprepared_session_panics a b n_blocks :
  in_width 53 b → blocks_per_session a = 2 → n_blocks < b / 2 →
  (∀ x, n_blocks + 1 < x → authority_sets a !! x = None) →
  dummy_queued_authority_set a (header_hash b) = None.
Proof.
  intros Hb Hbp Hn Hnone. unfold dummy_queued_authority_set.
  rewrite session_of_block, Hbp by (rewrite ?Hbp; done || lia). cbn [mbind option_bind].
  unfold in_width in Hb. assert (0 <= b / 2 <= b) by (Z.to_euclidean_division_equations; lia).
  rewrite wrap_small by (unfold in_width; lia). by rewrite Hnone by lia.
Qed.

Example repeated_error_case :
  let config e := {| bind := ""; n_clients := 2; threshold := 1; min_simulated_latency := None;
    positive_cases := 0; error_cases := Some [e]; unsigned_proposals_per_session := Some 1 |} in
  ∀ e, ec_count e = 5 →
  len (generate_test_cases (config e)) = 5 ∧ main_n_blocks (config e) = 2.
Proof using. intros config e He. unfold generate_test_cases, repeat_case. simpl. by rewrite He. Qed.
End api.

(** ** The gossip engine *)

Section gossip.
Implicit Types g : GossipShared.

Lemma gossip_broadcast_run me m (l : list (PeerId * Channel)) g :
  NoDup l.*1 → (∀ p ch, (p, ch) ∈ l → ge_clients g !! p = Some ch ∧ ch_open ch = true) →
  ∃ g', (for_each l (λ '(peer_id, tx),
      if bool_decide (peer_id ≠ me) then
        ensure (ch_open tx) "Failed to send broadcast message"%string;;
        upd! ge_clients ::= <[peer_id := mkChannel (ch_queue tx ++ [m]) true]>
      else mret tt) : M GossipShared string unit) g = Ret tt g' ∧
    ge_mapping g' = ge_mapping g ∧
    ∀ p, ge_clients g' !! p =
      if bool_decide (p ∈ l.*1 ∧ p ≠ me)
      then (λ ch, mkChannel (ch_queue ch ++ [m]) true) <$> ge_clients g !! p
      else ge_clients g !! p.
Proof.
  revert g. induction l as [|[p ch] l IH]; intros g Hnd Hl; simpl.
  { exists g. by split_and!. }
  apply NoDup_cons in Hnd as [Hp Hnd]. destruct (Hl p ch) as [Hch Hopen]; [by left|].
  case_bool_decide as Hme.
  - rewrite Hopen. set (g1 := g <| ge_clients ::= <[p := mkChannel (ch_queue ch ++ [m]) true]> |>).
    destruct (IH g1) as (g' & Hrun & Hm & Hg'); [done| |].
    { intros q ch' Hq. unfold g1. simp_get. rewrite lookup_insert_ne; [apply Hl; by right|].
      intros ->. apply Hp. by eapply list_elem_of_fmap_2'. }
    exists g'. split_and!; [exact Hrun|by rewrite Hm|]. intros q. rewrite Hg'. unfold g1. simp_get.
    destruct (decide (q = p)) as [->|Hne].
    + rewrite bool_decide_eq_false_2 by naive_solver. rewrite lookup_insert_eq, Hch.
      by rewrite bool_decide_eq_true_2 by (split; [by left|done]).
    + rewrite lookup_insert_ne by done. erewrite bool_decide_ext; [reflexivity|]. rewrite elem_of_cons. naive_solver.
  - destruct (IH g) as (g' & Hrun & Hm & Hg'); [done|intros q ch' Hq; apply Hl; by right|].
    exists g'. split_and!; [exact Hrun|done|]. intros q. rewrite Hg'.
    erewrite bool_decide_ext; [reflexivity|]. rewrite elem_of_cons. naive_solver.
Qed.

(** A broadcast reaches every other peer once and in order, and not the sender. *)
Theorem gossip_reaches_peers me key b m g :
  map_Forall (λ _ ch, ch_open ch = true) (ge_clients g) →
  ∃ g', gossip (mkInMemoryGossipEngine (Some me) key b) m g = Ret tt g' ∧
    ge_mapping g' = ge_mapping g ∧
    ∀ p, ge_clients g' !! p =
      (λ ch, if bool_decide (p = me) then ch else mkChannel (ch_queue ch ++ [m]) true)
        <$> ge_clients g !! p.
Proof.
  intros Hopen. destruct (gossip_broadcast_run me m (map_to_list (ge_clients g)) g) as (g' & Hrun & Hm & Hg').
  { apply NoDup_fst_map_to_list. }
  { intros p ch Hp%elem_of_map_to_list. split; [done|]. by eapply Hopen. }
  exists g'. split_and!; [exact Hrun|done|]. intros p. rewrite Hg'.
  destruct (ge_clients g !! p) as [ch|] eqn:Hp; simpl; [|by case_bool_decide].
  assert (p ∈ (map_to_list (ge_clients g)).*1) as Hin
    by (apply list_elem_of_fmap; exists (p, ch); by rewrite elem_of_map_to_list).
  destruct (decide (p = me)) as [->|Hne].
  - rewrite bool_decide_eq_false_2 by tauto. by rewrite bool_decide_eq_true_2.
  - rewrite bool_decide_eq_true_2 by done. by rewrite bool_decide_eq_false_2.
Qed.

(** A message to an unknown peer or to one that is gone is an error and changes nothing. *)
Lemma gossip_send_spec p m g :
  gossip_send p m g =
  match ge_clients g !! p with
  | Some ch =>
      if ch_open ch
      then Ret tt (g <| ge_clients ::= <[p := mkChannel (ch_queue ch ++ [m]) true]> |>)
      else Fail "Failed to send message"%string g
  | None => Fail "Peer does not exist"%string g
  end.
Proof.
  unfold gossip_send. autorewrite with mrun. destruct (ge_clients g !! p) as [ch|]; [|done].
  autorewrite with mrun. by destruct (ch_open ch).
Qed.
End gossip.

(** ** The command line *)

Section main.
Context `{FileSystem}.

(** Accepted arguments panic exactly when they say nothing about the tests. *)
Theorem validated_args_panic args :
  validate_args args = Ok tt → (∀ path, read_config path ≠ Panics) →
  args_to_config args = Panics ↔ config_path args = None ∧ any_manual args = false.
Proof.
  intros Hv Hread. unfold validate_args, args_to_config in *.
  destruct (config_path args) as [path|]; [split; [by intros ?%Hread|by intros []]|].
  destruct (is_dir (tmp_path args)); simpl in Hv; [|done].
  unfold any_manual, missing_manual in *.
  destruct (arg_n args), (arg_threshold args), (n_tests args), (proposals_per_test args),
    (arg_bind args); simpl in *; naive_solver.
Qed.
End main.
