(* ===== verification/HarnessWitnesses.v ===== *)
(** * The genesis and the test harness on concrete inputs

    The shipped testnet built by the genesis of the runtime, with the parameters of
    Demo.v; and the test harness with two clients that pass two tests, and with one that
    fails its only test. *)

From S2P Require Import Prelude.
From S2P Require Import Frame.
From S2P Require Import Primitives.
From S2P Require Import Traits.
From S2P Require Import Runtime.
From S2P Require Import Demo.
From S2P Require Import Gossip.
From S2P Require Import ChainSpec.
From S2P Require Import GenesisSpec.
From S2P Require Import MockBlockchain.
From S2P Require Import MockBlockchainSpec.
From S2P Require Import TestOrchestrator.
From S2P Require Import TestOrchestratorSpec.
From Stdlib Require Import Ascii.

Ltac eval_eq := lazymatch goal with |- _ = ?r => vm_cast_no_check (eq_refl r) end.

(** ** Genesis *)

#[local] Instance demo_rng : Rng := {|
  MaxNominations := 16; rng_gen _ := 0; choose_multiple _ l k := take (Z.to_nat k) l |}.

Definition string_bytes (s : string) : bytes :=
  (λ c, Z.of_N (N_of_ascii c)) <$> String.list_ascii_of_string s.

#[local] Instance demo_seeds : SeedKeys := {|
  seed_account s := mkAccountId (string_bytes s);
  seed_sr25519 := string_bytes; seed_ed25519 := string_bytes;
  seed_dkg s := mkDKGId (2 :: string_bytes s) |}.

#[local] Instance demo_election : Election := λ g,
  (λ s, s.1.1.1) <$> filter (λ s, s.2 = Validator) (stakers g).

#[local] Instance demo_election_laws : ElectionLaws.
Proof.
  intros g stake validators _ Hall _ _. unfold elected, demo_election.
  rewrite filter_all; [done|]. eapply Forall_impl; [exact Hall|]. by intros ? [? _].
Qed.

Lemma arana_distinct : NoDup (au_stash <$> get_arana_initial_authorities).
Proof. apply (bool_decide_eq_true_1 (NoDup _)). eval_eq. Qed.

(** The testnet starts; a local chain with a single authority does not. *)
Lemma testnet_genesis_builds_witness :
  (∃ g c, arana_config (Some []) = Some (Some g) ∧
     genesis (genesis_config g) (chain_empty 0 : Chain Z) = Ret tt c ∧
     built_from get_arana_initial_authorities [] [] c) ∧
  (∃ g, local_testnet_config (Some []) (Some 1) = Some (Some g) ∧
     genesis (genesis_config g) (chain_empty 0 : Chain Z) = Panic).
Proof.
  split.
  - destruct (testnet_genesis_defined [] get_arana_initial_authorities get_testnet_root_key
      arana_accounts [] [] (au_stash <$> get_arana_initial_authorities)) as [g Hg].
    assert (∃ c, genesis (genesis_config g) (chain_empty 0 : Chain Z) = Ret tt c ∧
      built_from get_arana_initial_authorities [] [] c) as (c & Hc & Hb).
    { pose proof (testnet_genesis_builds _ _ _ _ _ _ _ g (0 : Z) arana_distinct ltac:(simpl; lia) Hg) as Hb.
      rewrite decide_True in Hb; [exact Hb|]. split; [simpl; lia|]. split; [constructor|simpl; lia]. }
    exists g, c. split_and!; [|done|done]. unfold arana_config. cbn [mbind option_bind].
    by rewrite Hg.
  - destruct (testnet_genesis_defined [] [dev_authority "Alice"] (seed_account "Alice")
      [seed_account "Alice"; seed_account (stash_seed "Alice")] [CHAIN_ID_HERMES; CHAIN_ID_ATHENA]
      dev_resources [seed_account "Dave"; seed_account "Eve"]) as [g Hg].
    exists g. split; [unfold local_testnet_config; cbn [mbind option_bind]; by rewrite <- Hg|].
    pose proof (testnet_genesis_builds _ [dev_authority "Alice"] _ _ _ _ _ g (0 : Z)
      (NoDup_singleton _) ltac:(simpl; lia) Hg) as Hb.
    rewrite decide_False in Hb; [exact Hb|]. intros [Htwo _]. simpl in Htwo. lia.
Defined.

(** ** The harness *)

#[local] Instance demo_header_hash : HeaderHash := λ x, [x].

#[local] Instance demo_header_hash_laws : HeaderHashLaws.
Proof. intros x y _ _ E. by injection E. Qed.

#[local] Instance demo_force_push : ForcePush := λ l x,
  if len l <? 1024 then Some (l ++ [x]) else None.

#[local] Instance demo_force_push_laws : ForcePushLaws 1024.
Proof.
  intros l x Hl. unfold force_push, demo_force_push. by rewrite (proj2 (Z.ltb_lt _ _) Hl).
Qed.

#[local] Instance demo_entropy : Entropy := {| new_v4 i := Z.of_nat i; sha2_256 _ := replicate 32 0 |}.

#[local] Instance demo_entropy_laws : EntropyLaws.
Proof. intros b. done. Qed.

Definition harness_config (n threshold tests proposals : Z) : MockBlockchainConfig := {|
  bind := "127.0.0.1:7777"; n_clients := n; threshold := threshold;
  min_simulated_latency := None; positive_cases := tests; error_cases := None;
  unsigned_proposals_per_session := Some proposals |}.

Definition two := harness_config 2 1 2 1.

Definition peers2 : list (PeerId * DKGId) := [([1], mkDKGId [1]); ([2], mkDKGId [2])].

Definition api2 : DummyApiInner :=
  match setup_clients (main_n_blocks two) peers2 (gossip_new, main_api two) with
  | Some (_, a) => a
  | None => main_api two
  end.

Lemma two_ok : config_ok two.
Proof. split; unfold per_session, needed; simpl; lia. Qed.

Abbreviation answers2 := (dummy_answers (authority_sets api2)).

Lemma api2_answers : answers2 0 api2.
Proof.
  split_and!; [done..|]. intros b Hb. replace b with 0 by lia. by eexists.
Qed.

Definition connect (p : Z) : ServerStep := Handshake (InitialHandshakeResponse [p]).

(** Both clients are connected. *)
Definition connected2 : Orchestrator DummyApiInner :=
  after (server_run two 1 [connect 1; connect 2]) (orchestrator_new two api2).

Lemma connected2_inv : inv two answers2 connected2.
Proof.
  assert (server_run two 1 [connect 1; connect 2] (orchestrator_new two api2) = Ret tt connected2)
    as Hrun by (apply after_returns; eval_eq).
  pose proof (server_run_wp two 1 answers2 [connect 1; connect 2] _ two_ok
    (new_inv two answers2 api2 api2_answers)) as Hwp. unfold wp in Hwp. by rewrite Hrun in Hwp.
Qed.

Definition keygen_ok_by (p trace : Z) : ClientToOrchestratorEvent :=
  ClientTestResult [p] trace (TestKeygen (inl ()) [7]).
Definition sign_ok_by (p trace : Z) : ClientToOrchestratorEvent :=
  ClientTestResult [p] trace (TestSign (inl ())).

(** What two clients answer that pass both tests. *)
Definition answers_of_both : list ClientToOrchestratorEvent :=
  [keygen_ok_by 1 1; keygen_ok_by 2 1; keygen_ok_by 1 4; keygen_ok_by 2 4;
   sign_ok_by 1 4; sign_ok_by 2 4].

Definition started2 : Orchestrator DummyApiInner :=
  after (on_client_update two 1 ClientReady) connected2.

Lemma started2_run : on_client_update two 1 ClientReady connected2 = Ret tt started2.
Proof. unfold started2. apply after_returns. eval_eq. Qed.

Lemma answers_of_both_counts :
  all_answerable two 1 answers_of_both started2 = true ∧
  counted two 1 answers_of_both started2 = total_results two.
Proof. split; eval_eq. Qed.

Lemma tests_complete_witness :
  on_client_update two 1 ClientReady connected2 = Ret tt started2 ∧
  all_answerable two 1 answers_of_both started2 = true ∧
  ∃ u, for_each answers_of_both (on_client_update two 1) started2 = Fail 0 u.
Proof.
  destruct answers_of_both_counts as [Hall Hcount]. pose proof started2_run as Hstart.
  split_and!; [done..|].
  pose proof (tests_complete two 1 answers2 connected2 two_ok connected2_inv) as Hc.
  rewrite Hstart in Hc.
  destruct Hc as [_ Hc]; [eval_eq|eval_eq|eval_eq|]. specialize (Hc _ Hall). rewrite Hcount in Hc.
  destruct (for_each answers_of_both (on_client_update two 1) started2) as [? u|code u|].
  - destruct (Z.lt_irrefl _ Hc).
  - destruct Hc as [-> _]. exists u. reflexivity.
  - destruct Hc.
Defined.

(** The client reports and the orchestrator takes it up. *)
Definition passes (e : MockClientResponse) (p : Z) : list ServerStep :=
  [Packet [p] (ClientToBlockchain e); Recv].

(** Results are not counted per client: with two clients and one test, one client that
    reports its key generation twice ends the tests. *)
Definition single := harness_config 2 1 1 0.

Definition keygen_twice : list MainStep :=
  Server <$> [connect 1; connect 2; Recv; Recv] ++
    passes (ResponseKeygen (inl ()) 1 [7]) 1 ++ passes (ResponseKeygen (inl ()) 1 [7]) 1.

Example one_client_twice :
  main_run single 1 (keygen_twice ++ [SleepOver]) (orchestrator_new single api2) = Some (Exits 0).
Proof. eval_eq. Qed.

(** Up to the signing round of the second test. *)
Definition signing_run : list ServerStep :=
  [connect 1; connect 2; Recv; Recv] ++
  passes (ResponseKeygen (inl ()) 1 [7]) 1 ++ passes (ResponseKeygen (inl ()) 1 [7]) 2 ++
  passes (ResponseKeygen (inl ()) 4 [8]) 1 ++ passes (ResponseKeygen (inl ()) 4 [8]) 2.

Definition signing2 : Orchestrator DummyApiInner :=
  after (server_run two 1 signing_run) (orchestrator_new two api2).

Lemma api2_setup :
  ∃ g, setup_clients (main_n_blocks two) peers2 (gossip_new, main_api two) = Some (g, api2).
Proof.
  assert (match setup_clients (main_n_blocks two) peers2 (gossip_new, main_api two) with
    | Some _ => true | None => false end = true) as Hs by eval_eq.
  unfold api2. destruct (setup_clients _ _ _) as [[g a]|]; [by exists g|discriminate].
Qed.

Lemma signing2_run :
  server_run two 1 signing_run (orchestrator_new two api2) = Ret tt signing2 ∧
  round_number (intra_test_phase signing2) = 2.
Proof. split; [unfold signing2; apply after_returns|]; eval_eq. Qed.

Lemma harness_reads_succeed_witness :
  round_number (intra_test_phase signing2) = 2 ∧
  ∃ key next, dummy_api_at (blockchain signing2) (header_hash 2) =
    Some (expected_api (blockchain signing2) 2 [mkDKGId [1]; mkDKGId [2]] key next).
Proof.
  destruct signing2_run as [Hrun Hr], api2_setup as [g Hg]. split; [exact Hr|].
  refine (harness_reads_succeed two 1 peers2 g api2 signing_run signing2 2 two_ok _ _ _ _ Hg Hrun _).
  - apply (bool_decide_eq_true_1 (NoDup _)). eval_eq.
  - discriminate.
  - apply Z.leb_le. eval_eq.
  - apply Z.leb_le. eval_eq.
  - rewrite Hr. lia.
Defined.

(** A client fails its only test and the process exits with 0; after a panic of the
    orchestrator, here for a signature from nowhere, the exit status is 1. *)
Definition one := harness_config 1 0 1 0.

Definition failing_run : list MainStep :=
  Server <$> [connect 1; Recv;
    Packet [1] (ClientToBlockchain (ResponseKeygen (inr "failed"%string) 1 [])); Recv].

Example failed_test_exits_zero :
  main_run one 1 (failing_run ++ [SleepOver]) (orchestrator_new one api2) = Some (Exits 0).
Proof. eval_eq. Qed.


